(** * Genesis: the Scene life cycle and the rasterizer context

    A shallow embedding of [genesis/engine/scene.py] and
    [genesis/vis/rasterizer_context.py].  Python methods become computations
    in a state-and-exception monad: an attribute assignment made before a
    [raise] stays visible afterwards, as it does on a Python object. *)

From Stdlib Require Import ZArith QArith String Ascii List Bool Lia.
From stdpp Require Import base option list strings gmap.
From Equations.Prop Require Import Equations Logic.

Local Open Scope string_scope.
Local Open Scope Z_scope.

(** ** Python exceptions and stateful methods *)

Module Py.

Inductive exn : Type :=
  | GenesisException (msg : string)
  | AssertionError (msg : string)
  | AttributeError (attr : string)
  | KeyError
  | IndexError
  | ValueError (msg : string)
  | RuntimeError
  | OSError.

Inductive outcome (A : Type) : Type :=
  | Returned (a : A)
  | Raised (e : exn).
Arguments Returned {A} a.
Arguments Raised {A} e.

  (** A method of an object whose attributes are [S]. *)
Definition M (S A : Type) : Type := S -> S * outcome A.

#[export] Instance M_ret {S} : MRet (M S) :=
    fun A a s => (s, Returned a).

#[export] Instance M_bind {S} : MBind (M S) :=
    fun A B f m s =>
      match m s with
      | (s', Returned a) => f a s'
      | (s', Raised e) => (s', Raised e)
      end.

Definition raise {S A} (e : exn) : M S A := fun s => (s, Raised e).

  (** [gs.raise_exception(msg)] raises [gs.GenesisException(msg)]. *)
Definition raise_exception {S A} (msg : string) : M S A :=
    raise (GenesisException msg).

Definition gets {S A} (f : S -> A) : M S A := fun s => (s, Returned (f s)).

Definition modify {S} (f : S -> S) : M S unit := fun s => (f s, Returned tt).

  (** Reading an attribute that was never assigned. *)
Definition getattr {S A} (name : string) (f : S -> option A) : M S A :=
    fun s =>
      match f s with
      | Some a => (s, Returned a)
      | None => (s, Raised (AttributeError name))
      end.

  (** [d[k]] on a dict. *)
Definition getitem {S A} (o : option A) : M S A :=
    match o with
    | Some a => mret a
    | None => raise KeyError
    end.

  (** A method call on an attribute: [self.attr.method(...)]. *)
Definition zoom {S T A} (proj : S -> T) (inj : T -> S -> S) (m : M T A)
    : M S A :=
    fun s => let '(t', r) := m (proj s) in (inj t' s, r).

Definition when {S} (b : bool) (m : M S unit) : M S unit :=
    if b then m else mret tt.

  (** [for x in l: body(x)] *)
Fixpoint for_each {S A} (l : list A) (body : A -> M S unit) : M S unit :=
    match l with
    | [] => mret tt
    | x :: l' => body x ;; for_each l' body
    end.

Definition returns {S A} (m : M S A) (s : S) (a : A) (s' : S) : Prop :=
    m s = (s', Returned a).

Definition raises {S A} (m : M S A) (s : S) (e : exn) (s' : S) : Prop :=
    m s = (s', Raised e).

End Py.
Import Py.

(** ** Integer tensors and batch selectors *)

Module Torch.

  (** An integer tensor: its shape and its entries in row-major order.  The
      entries stand for values representable in the tensor's dtype. *)
Record Tensor : Type := { shape : list nat; data : list Z }.

Definition ndim (x : Tensor) : nat := length (shape x).

  (** [torch.arange(n)] *)
Definition arange (n : Z) : Tensor :=
    {| shape := [Z.to_nat n]; data := seqZ 0 n |}.

  (** [torch.atleast_1d]: a 0-dimensional tensor becomes a vector of one
      entry, any other tensor is unchanged. *)
Definition atleast_1d (x : Tensor) : Tensor :=
    match shape x with
    | [] => {| shape := [1%nat]; data := data x |}
    | _ => x
    end.

  (** The fixed-width integer types of NumPy's scalars. *)
Inductive IntType : Type :=
| int8 | int16 | int32 | int64 | uint8 | uint16 | uint32 | uint64.

Definition bits (t : IntType) : Z :=
    match t with
    | int8 | uint8 => 8
    | int16 | uint16 => 16
    | int32 | uint32 => 32
    | int64 | uint64 => 64
    end.

Definition is_signed (t : IntType) : bool :=
    match t with
    | int8 | int16 | int32 | int64 => true
    | _ => false
    end.

Definition min_value (t : IntType) : Z :=
    if is_signed t then - 2 ^ (bits t - 1) else 0.

Definition max_value (t : IntType) : Z :=
    if is_signed t then 2 ^ (bits t - 1) - 1 else 2 ^ bits t - 1.

Definition representable (t : IntType) (v : Z) : bool :=
    (min_value t <=? v) && (v <=? max_value t).

  (** Arithmetic and casts in a fixed width wrap around. *)
Definition wrap (t : IntType) (v : Z) : Z :=
    (v - min_value t) mod 2 ^ bits t + min_value t.

  (** The integer dtypes that torch and NumPy share. *)
Inductive Dtype : Type :=
| torch_int8 | torch_int16 | torch_int32 | torch_int64 | torch_uint8.

Definition dtype_type (d : Dtype) : IntType :=
    match d with
    | torch_int8 => int8
    | torch_int16 => int16
    | torch_int32 => int32
    | torch_int64 => int64
    | torch_uint8 => uint8
    end.

  (** [gs.tc_int] *)
Definition tc_int : Dtype := torch_int32.

  (** What holds several indices: a list or tuple of Python ints, or a torch
      tensor or NumPy array of one of these dtypes.  Nested sequences and
      arrays of floats or booleans are left out. *)
Inductive ArrayLike : Type :=
| PyInts (l : list Z)
| IntArray (dtype : Dtype) (x : Tensor).

  (** [torch.as_tensor(a, dtype=gs.tc_int)]: a Python int that does not fit
      the dtype is refused; the entries of a tensor or an array are cast. *)
Definition as_tensor {S} (a : ArrayLike) : M S Tensor :=
    match a with
    | PyInts l =>
        if forallb (representable (dtype_type tc_int)) l
        then mret {| shape := [length l]; data := l |}
        else raise RuntimeError
    | IntArray dtype x =>
        mret {| shape := shape x;
                data := wrap (dtype_type tc_int) <$> data x |}
    end.

  (** Python's [slice.indices] for a positive step: bounds are taken from
      the end when negative and clipped to [0, n]. *)
Definition clip_bound (n : Z) (dflt : Z) (b : option Z) : Z :=
    match b with
    | None => dflt
    | Some i => if i <? 0 then Z.max (i + n) 0 else Z.min i n
    end.

Definition slice_positions (n : Z) (start stop : option Z) (step : Z)
    : list Z :=
    let lo := clip_bound n 0 start in
    let hi := clip_bound n n stop in
    if lo <? hi
    then (fun k => lo + k * step) <$> seqZ 0 ((hi - lo + step - 1) / step)
    else [].

  (** [x[start:stop:step]] on a vector: Python refuses the step zero when it
      unpacks the slice, torch every step below one. *)
Definition getslice {S} (x : Tensor) (start stop step : option Z)
    : M S Tensor :=
    let st := default 1 step in
    if st =? 0 then raise (ValueError "slice step cannot be zero")
    else if st <? 1 then raise (ValueError "step must be greater than zero")
    else
      let pos := slice_positions (Z.of_nat (length (data x))) start stop st in
      let picked := omap (fun i => data x !! Z.to_nat i) pos in
      mret {| shape := [length picked]; data := picked |}.

(** What a caller may pass as [envs_idx]: [None], a slice, a Python int, a
    NumPy integer scalar, or something that holds several indices. *)
Inductive Selector : Type :=
| SelNone
| SelSlice (start stop step : option Z)
| SelInt (i : Z)
| SelNpInt (t : IntType) (i : Z)
| SelArray (a : ArrayLike).

End Torch.
Import Torch.

(** ** Collaborators of the Scene: numeric payloads, solvers, renderer *)

(** Arrays, render payloads and simulator snapshots are floating-point data;
    the embedding keeps them opaque. *)
Class Numerics : Type := {
  Array : Type;      (* what [field.to_numpy()] yields *)
  Payload : Type;    (* poses, vertex data and meshes handed to the renderer *)
  SimState : Type;   (* [genesis.engine.states.solvers.SimState] *)
  Float : Type;      (* [gs.np_float] *)
  of_int : Z -> Float;
  fzero : Float;
  fadd : Float -> Float -> Float;
  fsub : Float -> Float -> Float;
  fmul : Float -> Float -> Float;
  fhalf : Float -> Float;          (* [x / 2.0] *)
  fmax : Float -> Float -> Float;
  fmin : Float -> Float -> Float
}.

Module Sim.

Definition UID : Type := nat.

Inductive SolverKind : Type :=
  | ToolSolver | RigidSolver | AvatarSolver | MPMSolver
  | SPHSolver | PBDSolver | FEMSolver | SFSolver.

#[export] Instance SolverKind_eq_dec : EqDecision SolverKind.
Proof. solve_decision. Defined.

Inductive MorphClass : Type :=
  | Primitive | Box | Cylinder | Plane | Terrain | URDF | MJCF
  | FileMorph | Mesh | Nowhere.

Inductive MaterialClass : Type :=
  | Rigid | Avatar | Tool | Hybrid
  | PBD_Base | PBD_Cloth | PBD_Liquid | PBD_Particle
  | MPM_Base | MPM_Liquid | MPM_Sand | MPM_Snow
  | SPH_Base | SPH_Liquid | SF_Smoke | FEM_Base.

#[export] Instance MorphClass_eq_dec : EqDecision MorphClass.
Proof. solve_decision. Defined.

#[export] Instance MaterialClass_eq_dec : EqDecision MaterialClass.
Proof. solve_decision. Defined.

(** An object answers [isinstance] for each class the sources name; the
      class declarations themselves live outside these two files. *)
Record Morph : Type := {
    morph_isinstance : MorphClass -> bool;
    convexify : option bool;
    n_particles : Z
  }.

Record Material : Type := {
    material_isinstance : MaterialClass -> bool;
    _sdf_max_res : Z
  }.

Record Surface : Type := {
    vis_mode : option string;
    double_sided : option bool;
    smooth : bool
  }.

Record Geom : Type := {
    geom_uid : UID;
    geom_idx : Z;
    geom_link_idx : Z;
    geom_entity_idx : Z
  }.

Record Link : Type := {
    link_uid : UID;
    link_idx : Z;
    visualize_contact : bool
  }.

Record Contact : Type := { link_a : Z; link_b : Z }.

Record Entity : Type := {
    uid : UID;
    idx : Z;
    surface : Surface;
    _morph : Morph;
    mesh_present : bool;     (* [entity.mesh is not None] *)
    vgeoms : list Geom;
    geoms : list Geom
  }.

Section WithNumerics.
Context `{Numerics}.

Record Solver : Type := {
      class_name : string;              (* [solver.__class__.__name__] *)
      is_active : bool;
      entities : list Entity;
      links : list Link;
      contacts : list Contact;          (* first batch of the collider *)
      solver_n_envs : Z;
      ti_fields : gmap string Array     (* the solver's Taichi fields *)
    }.

Record Simulator : Type := {
      requires_grad : bool;
      sim_B : Z;
      solver : SolverKind -> Solver
    }.

Definition set_solver (k : SolverKind) (v : Solver) (sim : Simulator)
      : Simulator :=
      {| requires_grad := requires_grad sim;
         sim_B := sim_B sim;
         solver := fun k' => if decide (k' = k) then v else solver sim k' |}.

    (** Modelled from the spec: [Simulator.active_solvers] is defined in
        [genesis/engine/simulator.py], which is not among the sources; the
        simulator keeps "every solver marked active in a fixed, stable
        order". *)
Definition all_solvers : list SolverKind :=
      [ToolSolver; RigidSolver; AvatarSolver; MPMSolver;
       SPHSolver; PBDSolver; FEMSolver; SFSolver].

Definition active_solvers (sim : Simulator) : list SolverKind :=
      filter (fun k => is_active (solver sim k) = true) all_solvers.

End WithNumerics.

End Sim.
Import Sim.

(** ** The renderer backend *)

Module Pyrender.

Definition Node : Type := nat.

(** A buffer slot of a node: ["model"], ["pos"] or ["normal"]. *)
Definition BufferId : Type := Node * string.

(** The [name] attribute of an object handed to the registry. *)
Inductive NameAttr : Type :=
| NoAttribute
| NameNone
| Name (s : string).

Section WithNumerics.
Context `{Numerics}.

(** [pyrender.Mesh] *)
Record Mesh : Type := { name : NameAttr; geometry : Payload }.

Inductive Request : Type :=
| Add (node : Node) (obj : Mesh) (pose : option Payload)
| Remove (node : Node)
| SetPose (node : Node) (pose : Payload)
| ResetSceneBounds
| ResetMeshBounds (node : Node)
| SetPrimitivePoses (node : Node) (poses : Payload)
| SetReflectionMat (geom_T : Payload).

(** Modelled from the spec: [genesis/ext/pyrender] is not among the sources.
    Following the boundary of section 6, the backend receives node creation
    and removal requests carrying a geometry payload and an optional pose,
    hands out a node per creation, and gives an opaque buffer-slot id for a
    previously created node.  The backend is taken to accept every request. *)
Record Scene : Type := { next_node : Node; requests : list Request }.

Definition emit (r : Request) : M Scene unit :=
  modify (fun sc =>
    {| next_node := next_node sc; requests := requests sc ++ [r] |}).

Definition add (obj : Mesh) (pose : option Payload) : M Scene Node :=
  fun sc =>
    ({| next_node := S (next_node sc);
        requests := requests sc ++ [Add (next_node sc) obj pose] |},
     Returned (next_node sc)).

Definition remove_node (node : Node) : M Scene unit := emit (Remove node).

Definition set_pose (node : Node) (pose : Payload) : M Scene unit :=
  emit (SetPose node pose).

Definition get_buffer_id (node : Node) (kind : string) : BufferId :=
  (node, kind).

End WithNumerics.

End Pyrender.

(** ** Attributes of the objects *)

Module RasterizerContext.
Import Pyrender.

(** A segmentation key: an entity index, an (entity, link) pair or an
    (entity, link, geom) triple. *)
Inductive SegKey : Type :=
| KeyIdx (i : Z)
| KeyLink (entity_idx link_idx : Z)
| KeyGeom (entity_idx link_idx geom_idx : Z).

#[export] Instance SegKey_eq_dec : EqDecision SegKey.
Proof. solve_decision. Defined.

#[export] Instance SegKey_countable : Countable SegKey.
Proof.
  refine (inj_countable'
    (fun k => match k with
              | KeyIdx i => inl i
              | KeyLink e l => inr (inl (e, l))
              | KeyGeom e l g => inr (inr (e, l, g))
              end)
    (fun x => match x with
              | inl i => KeyIdx i
              | inr (inl (e, l)) => KeyLink e l
              | inr (inr (e, l, g)) => KeyGeom e l g
              end) _).
  intros []; reflexivity.
Defined.

Section WithNumerics.
Context `{Numerics}.

Record t : Type := {
  segmentation_level : string;
  render_particle_as : string;
  link_frame_shown : bool;
  buffer : gmap BufferId Payload;
  link_frame_nodes : gmap UID Node;
  rigid_nodes : gmap UID Node;
  static_nodes : gmap UID Node;   (* used across all frames *)
  dynamic_nodes : list Node;   (* nodes that live within single frame *)
  external_nodes : gmap string Node;   (* nodes added by external user *)
  seg_node_map : gmap Node (Z * Z * Z);
  seg_idxc_map : gmap Z SegKey;
  seg_key_map : gmap SegKey Z;
  _t : option Z;   (* unset until the first [reset] *)
  _scene : Pyrender.Scene   (* the pyrender scene, with its JIT renderer *)
}.

Definition set_buffer (v : gmap BufferId Payload) (self : t) : t :=
  {| segmentation_level := segmentation_level self;
     render_particle_as := render_particle_as self;
     link_frame_shown := link_frame_shown self; buffer := v;
     link_frame_nodes := link_frame_nodes self;
     rigid_nodes := rigid_nodes self; static_nodes := static_nodes self;
     dynamic_nodes := dynamic_nodes self;
     external_nodes := external_nodes self;
     seg_node_map := seg_node_map self; seg_idxc_map := seg_idxc_map self;
     seg_key_map := seg_key_map self; _t := _t self; _scene := _scene self |}.

Definition set_rigid_nodes (v : gmap UID Node) (self : t) : t :=
  {| segmentation_level := segmentation_level self;
     render_particle_as := render_particle_as self;
     link_frame_shown := link_frame_shown self; buffer := buffer self;
     link_frame_nodes := link_frame_nodes self; rigid_nodes := v;
     static_nodes := static_nodes self; dynamic_nodes := dynamic_nodes self;
     external_nodes := external_nodes self;
     seg_node_map := seg_node_map self; seg_idxc_map := seg_idxc_map self;
     seg_key_map := seg_key_map self; _t := _t self; _scene := _scene self |}.

Definition set_static_nodes (v : gmap UID Node) (self : t) : t :=
  {| segmentation_level := segmentation_level self;
     render_particle_as := render_particle_as self;
     link_frame_shown := link_frame_shown self; buffer := buffer self;
     link_frame_nodes := link_frame_nodes self;
     rigid_nodes := rigid_nodes self; static_nodes := v;
     dynamic_nodes := dynamic_nodes self;
     external_nodes := external_nodes self;
     seg_node_map := seg_node_map self; seg_idxc_map := seg_idxc_map self;
     seg_key_map := seg_key_map self; _t := _t self; _scene := _scene self |}.

Definition set_dynamic_nodes (v : list Node) (self : t) : t :=
  {| segmentation_level := segmentation_level self;
     render_particle_as := render_particle_as self;
     link_frame_shown := link_frame_shown self; buffer := buffer self;
     link_frame_nodes := link_frame_nodes self;
     rigid_nodes := rigid_nodes self; static_nodes := static_nodes self;
     dynamic_nodes := v; external_nodes := external_nodes self;
     seg_node_map := seg_node_map self; seg_idxc_map := seg_idxc_map self;
     seg_key_map := seg_key_map self; _t := _t self; _scene := _scene self |}.

Definition set_external_nodes (v : gmap string Node) (self : t) : t :=
  {| segmentation_level := segmentation_level self;
     render_particle_as := render_particle_as self;
     link_frame_shown := link_frame_shown self; buffer := buffer self;
     link_frame_nodes := link_frame_nodes self;
     rigid_nodes := rigid_nodes self; static_nodes := static_nodes self;
     dynamic_nodes := dynamic_nodes self; external_nodes := v;
     seg_node_map := seg_node_map self; seg_idxc_map := seg_idxc_map self;
     seg_key_map := seg_key_map self; _t := _t self; _scene := _scene self |}.

Definition set_seg_node_map (v : gmap Node (Z * Z * Z)) (self : t) : t :=
  {| segmentation_level := segmentation_level self;
     render_particle_as := render_particle_as self;
     link_frame_shown := link_frame_shown self; buffer := buffer self;
     link_frame_nodes := link_frame_nodes self;
     rigid_nodes := rigid_nodes self; static_nodes := static_nodes self;
     dynamic_nodes := dynamic_nodes self;
     external_nodes := external_nodes self; seg_node_map := v;
     seg_idxc_map := seg_idxc_map self; seg_key_map := seg_key_map self;
     _t := _t self; _scene := _scene self |}.

Definition set_seg_idxc_map (v : gmap Z SegKey) (self : t) : t :=
  {| segmentation_level := segmentation_level self;
     render_particle_as := render_particle_as self;
     link_frame_shown := link_frame_shown self; buffer := buffer self;
     link_frame_nodes := link_frame_nodes self;
     rigid_nodes := rigid_nodes self; static_nodes := static_nodes self;
     dynamic_nodes := dynamic_nodes self;
     external_nodes := external_nodes self;
     seg_node_map := seg_node_map self; seg_idxc_map := v;
     seg_key_map := seg_key_map self; _t := _t self; _scene := _scene self |}.

Definition set_seg_key_map (v : gmap SegKey Z) (self : t) : t :=
  {| segmentation_level := segmentation_level self;
     render_particle_as := render_particle_as self;
     link_frame_shown := link_frame_shown self; buffer := buffer self;
     link_frame_nodes := link_frame_nodes self;
     rigid_nodes := rigid_nodes self; static_nodes := static_nodes self;
     dynamic_nodes := dynamic_nodes self;
     external_nodes := external_nodes self;
     seg_node_map := seg_node_map self; seg_idxc_map := seg_idxc_map self;
     seg_key_map := v; _t := _t self; _scene := _scene self |}.

Definition set_t (v : option Z) (self : t) : t :=
  {| segmentation_level := segmentation_level self;
     render_particle_as := render_particle_as self;
     link_frame_shown := link_frame_shown self; buffer := buffer self;
     link_frame_nodes := link_frame_nodes self;
     rigid_nodes := rigid_nodes self; static_nodes := static_nodes self;
     dynamic_nodes := dynamic_nodes self;
     external_nodes := external_nodes self;
     seg_node_map := seg_node_map self; seg_idxc_map := seg_idxc_map self;
     seg_key_map := seg_key_map self; _t := v; _scene := _scene self |}.

Definition set_scene (v : Pyrender.Scene) (self : t) : t :=
  {| segmentation_level := segmentation_level self;
     render_particle_as := render_particle_as self;
     link_frame_shown := link_frame_shown self; buffer := buffer self;
     link_frame_nodes := link_frame_nodes self;
     rigid_nodes := rigid_nodes self; static_nodes := static_nodes self;
     dynamic_nodes := dynamic_nodes self;
     external_nodes := external_nodes self;
     seg_node_map := seg_node_map self; seg_idxc_map := seg_idxc_map self;
     seg_key_map := seg_key_map self; _t := _t self; _scene := v |}.

Definition set_link_frame_shown (v : bool) (self : t) : t :=
  {| segmentation_level := segmentation_level self;
     render_particle_as := render_particle_as self; link_frame_shown := v;
     buffer := buffer self; link_frame_nodes := link_frame_nodes self;
     rigid_nodes := rigid_nodes self; static_nodes := static_nodes self;
     dynamic_nodes := dynamic_nodes self;
     external_nodes := external_nodes self;
     seg_node_map := seg_node_map self; seg_idxc_map := seg_idxc_map self;
     seg_key_map := seg_key_map self; _t := _t self; _scene := _scene self |}.

Definition set_link_frame_nodes (v : gmap UID Node) (self : t) : t :=
  {| segmentation_level := segmentation_level self;
     render_particle_as := render_particle_as self;
     link_frame_shown := link_frame_shown self; buffer := buffer self;
     link_frame_nodes := v; rigid_nodes := rigid_nodes self;
     static_nodes := static_nodes self; dynamic_nodes := dynamic_nodes self;
     external_nodes := external_nodes self;
     seg_node_map := seg_node_map self; seg_idxc_map := seg_idxc_map self;
     seg_key_map := seg_key_map self; _t := _t self; _scene := _scene self |}.

End WithNumerics.

End RasterizerContext.

Module Visualizer.

(** Modelled from the spec: [genesis/vis/visualizer.py] is not among the
    sources; the Visualizer owns the render mirror ([context]). *)
Record t `{Numerics} : Type := { context : RasterizerContext.t }.

End Visualizer.

Module Emitter.

(** Modelled from the spec: [genesis/engine/entities/emitter.py] is not among
    the sources.  An emitter holds its particle budget, the entity it feeds
    and its replay cursor [_next_particle]. *)
Record t : Type := {
  max_particles : Z;
  _entity : option Entity;
  _next_particle : Z
}.

End Emitter.

Module Scene.

(** What a caller may pass as [env_spacing]. *)
Inductive PySeq (A : Type) : Type :=
| PyList (l : list A)
| PyTuple (l : list A)
| PyArray (l : list A)      (* a sequence that is neither list nor tuple *)
| PyScalar (x : A).
Arguments PyList {A} l.
Arguments PyTuple {A} l.
Arguments PyArray {A} l.
Arguments PyScalar {A} x.

(** [gs.PARA_LEVEL] *)
Inductive ParaLevel : Type := NEVER | PARTIAL | ALL.

Section WithNumerics.
Context `{Numerics}.

Definition EnvSpacing : Type := PySeq Float.

Record t : Type := {
  _sim : Simulator;
  _visualizer : Visualizer.t;
  _emitters : list Emitter.t;
  _backward_ready : bool;
  _forward_ready : bool;
  _t : Z;
  _is_built : bool;
  _init_state : option SimState;   (* unset until the first [_reset] *)
  n_envs : option Z;   (* this and the next six: unset until [_parallelize] *)
  env_spacing : option EnvSpacing;
  n_envs_per_row : option Z;
  _B : option Z;
  _envs_idx : option Tensor;
  envs_offset : option (list (Float * Float * Float));
  _para_level : option ParaLevel;
  show_FPS : bool;   (* [profiling_options.show_FPS] *)
  FPS_tracker : option nat;   (* the steps it was told of; unset until [build] *)
  class_name : string;   (* [self.__class__.__name__] *)
  ti_fields : gmap string Array   (* the attributes that are Taichi fields *)
}.

Definition set_sim (v : Simulator) (self : t) : t :=
  {| _sim := v; _visualizer := _visualizer self; _emitters := _emitters self;
     _backward_ready := _backward_ready self;
     _forward_ready := _forward_ready self; _t := _t self;
     _is_built := _is_built self; _init_state := _init_state self;
     n_envs := n_envs self; env_spacing := env_spacing self;
     n_envs_per_row := n_envs_per_row self; _B := _B self;
     _envs_idx := _envs_idx self; envs_offset := envs_offset self;
     _para_level := _para_level self; show_FPS := show_FPS self;
     FPS_tracker := FPS_tracker self; class_name := class_name self;
     ti_fields := ti_fields self |}.

Definition set_visualizer (v : Visualizer.t) (self : t) : t :=
  {| _sim := _sim self; _visualizer := v; _emitters := _emitters self;
     _backward_ready := _backward_ready self;
     _forward_ready := _forward_ready self; _t := _t self;
     _is_built := _is_built self; _init_state := _init_state self;
     n_envs := n_envs self; env_spacing := env_spacing self;
     n_envs_per_row := n_envs_per_row self; _B := _B self;
     _envs_idx := _envs_idx self; envs_offset := envs_offset self;
     _para_level := _para_level self; show_FPS := show_FPS self;
     FPS_tracker := FPS_tracker self; class_name := class_name self;
     ti_fields := ti_fields self |}.

Definition set_emitters (v : list Emitter.t) (self : t) : t :=
  {| _sim := _sim self; _visualizer := _visualizer self; _emitters := v;
     _backward_ready := _backward_ready self;
     _forward_ready := _forward_ready self; _t := _t self;
     _is_built := _is_built self; _init_state := _init_state self;
     n_envs := n_envs self; env_spacing := env_spacing self;
     n_envs_per_row := n_envs_per_row self; _B := _B self;
     _envs_idx := _envs_idx self; envs_offset := envs_offset self;
     _para_level := _para_level self; show_FPS := show_FPS self;
     FPS_tracker := FPS_tracker self; class_name := class_name self;
     ti_fields := ti_fields self |}.

Definition set_backward_ready (v : bool) (self : t) : t :=
  {| _sim := _sim self; _visualizer := _visualizer self;
     _emitters := _emitters self; _backward_ready := v;
     _forward_ready := _forward_ready self; _t := _t self;
     _is_built := _is_built self; _init_state := _init_state self;
     n_envs := n_envs self; env_spacing := env_spacing self;
     n_envs_per_row := n_envs_per_row self; _B := _B self;
     _envs_idx := _envs_idx self; envs_offset := envs_offset self;
     _para_level := _para_level self; show_FPS := show_FPS self;
     FPS_tracker := FPS_tracker self; class_name := class_name self;
     ti_fields := ti_fields self |}.

Definition set_forward_ready (v : bool) (self : t) : t :=
  {| _sim := _sim self; _visualizer := _visualizer self;
     _emitters := _emitters self; _backward_ready := _backward_ready self;
     _forward_ready := v; _t := _t self; _is_built := _is_built self;
     _init_state := _init_state self; n_envs := n_envs self;
     env_spacing := env_spacing self; n_envs_per_row := n_envs_per_row self;
     _B := _B self; _envs_idx := _envs_idx self;
     envs_offset := envs_offset self; _para_level := _para_level self;
     show_FPS := show_FPS self; FPS_tracker := FPS_tracker self;
     class_name := class_name self; ti_fields := ti_fields self |}.

Definition set_t (v : Z) (self : t) : t :=
  {| _sim := _sim self; _visualizer := _visualizer self;
     _emitters := _emitters self; _backward_ready := _backward_ready self;
     _forward_ready := _forward_ready self; _t := v;
     _is_built := _is_built self; _init_state := _init_state self;
     n_envs := n_envs self; env_spacing := env_spacing self;
     n_envs_per_row := n_envs_per_row self; _B := _B self;
     _envs_idx := _envs_idx self; envs_offset := envs_offset self;
     _para_level := _para_level self; show_FPS := show_FPS self;
     FPS_tracker := FPS_tracker self; class_name := class_name self;
     ti_fields := ti_fields self |}.

Definition set_is_built (v : bool) (self : t) : t :=
  {| _sim := _sim self; _visualizer := _visualizer self;
     _emitters := _emitters self; _backward_ready := _backward_ready self;
     _forward_ready := _forward_ready self; _t := _t self; _is_built := v;
     _init_state := _init_state self; n_envs := n_envs self;
     env_spacing := env_spacing self; n_envs_per_row := n_envs_per_row self;
     _B := _B self; _envs_idx := _envs_idx self;
     envs_offset := envs_offset self; _para_level := _para_level self;
     show_FPS := show_FPS self; FPS_tracker := FPS_tracker self;
     class_name := class_name self; ti_fields := ti_fields self |}.

Definition set_init_state (v : option SimState) (self : t) : t :=
  {| _sim := _sim self; _visualizer := _visualizer self;
     _emitters := _emitters self; _backward_ready := _backward_ready self;
     _forward_ready := _forward_ready self; _t := _t self;
     _is_built := _is_built self; _init_state := v; n_envs := n_envs self;
     env_spacing := env_spacing self; n_envs_per_row := n_envs_per_row self;
     _B := _B self; _envs_idx := _envs_idx self;
     envs_offset := envs_offset self; _para_level := _para_level self;
     show_FPS := show_FPS self; FPS_tracker := FPS_tracker self;
     class_name := class_name self; ti_fields := ti_fields self |}.

Definition set_n_envs (v : option Z) (self : t) : t :=
  {| _sim := _sim self; _visualizer := _visualizer self;
     _emitters := _emitters self; _backward_ready := _backward_ready self;
     _forward_ready := _forward_ready self; _t := _t self;
     _is_built := _is_built self; _init_state := _init_state self;
     n_envs := v; env_spacing := env_spacing self;
     n_envs_per_row := n_envs_per_row self; _B := _B self;
     _envs_idx := _envs_idx self; envs_offset := envs_offset self;
     _para_level := _para_level self; show_FPS := show_FPS self;
     FPS_tracker := FPS_tracker self; class_name := class_name self;
     ti_fields := ti_fields self |}.

Definition set_env_spacing (v : option EnvSpacing) (self : t) : t :=
  {| _sim := _sim self; _visualizer := _visualizer self;
     _emitters := _emitters self; _backward_ready := _backward_ready self;
     _forward_ready := _forward_ready self; _t := _t self;
     _is_built := _is_built self; _init_state := _init_state self;
     n_envs := n_envs self; env_spacing := v;
     n_envs_per_row := n_envs_per_row self; _B := _B self;
     _envs_idx := _envs_idx self; envs_offset := envs_offset self;
     _para_level := _para_level self; show_FPS := show_FPS self;
     FPS_tracker := FPS_tracker self; class_name := class_name self;
     ti_fields := ti_fields self |}.

Definition set_n_envs_per_row (v : option Z) (self : t) : t :=
  {| _sim := _sim self; _visualizer := _visualizer self;
     _emitters := _emitters self; _backward_ready := _backward_ready self;
     _forward_ready := _forward_ready self; _t := _t self;
     _is_built := _is_built self; _init_state := _init_state self;
     n_envs := n_envs self; env_spacing := env_spacing self;
     n_envs_per_row := v; _B := _B self; _envs_idx := _envs_idx self;
     envs_offset := envs_offset self; _para_level := _para_level self;
     show_FPS := show_FPS self; FPS_tracker := FPS_tracker self;
     class_name := class_name self; ti_fields := ti_fields self |}.

Definition set_B (v : option Z) (self : t) : t :=
  {| _sim := _sim self; _visualizer := _visualizer self;
     _emitters := _emitters self; _backward_ready := _backward_ready self;
     _forward_ready := _forward_ready self; _t := _t self;
     _is_built := _is_built self; _init_state := _init_state self;
     n_envs := n_envs self; env_spacing := env_spacing self;
     n_envs_per_row := n_envs_per_row self; _B := v;
     _envs_idx := _envs_idx self; envs_offset := envs_offset self;
     _para_level := _para_level self; show_FPS := show_FPS self;
     FPS_tracker := FPS_tracker self; class_name := class_name self;
     ti_fields := ti_fields self |}.

Definition set_envs_idx (v : option Tensor) (self : t) : t :=
  {| _sim := _sim self; _visualizer := _visualizer self;
     _emitters := _emitters self; _backward_ready := _backward_ready self;
     _forward_ready := _forward_ready self; _t := _t self;
     _is_built := _is_built self; _init_state := _init_state self;
     n_envs := n_envs self; env_spacing := env_spacing self;
     n_envs_per_row := n_envs_per_row self; _B := _B self; _envs_idx := v;
     envs_offset := envs_offset self; _para_level := _para_level self;
     show_FPS := show_FPS self; FPS_tracker := FPS_tracker self;
     class_name := class_name self; ti_fields := ti_fields self |}.

Definition set_envs_offset (v : option (list (Float * Float * Float))) (self : t) : t :=
  {| _sim := _sim self; _visualizer := _visualizer self;
     _emitters := _emitters self; _backward_ready := _backward_ready self;
     _forward_ready := _forward_ready self; _t := _t self;
     _is_built := _is_built self; _init_state := _init_state self;
     n_envs := n_envs self; env_spacing := env_spacing self;
     n_envs_per_row := n_envs_per_row self; _B := _B self;
     _envs_idx := _envs_idx self; envs_offset := v;
     _para_level := _para_level self; show_FPS := show_FPS self;
     FPS_tracker := FPS_tracker self; class_name := class_name self;
     ti_fields := ti_fields self |}.

Definition set_para_level (v : option ParaLevel) (self : t) : t :=
  {| _sim := _sim self; _visualizer := _visualizer self;
     _emitters := _emitters self; _backward_ready := _backward_ready self;
     _forward_ready := _forward_ready self; _t := _t self;
     _is_built := _is_built self; _init_state := _init_state self;
     n_envs := n_envs self; env_spacing := env_spacing self;
     n_envs_per_row := n_envs_per_row self; _B := _B self;
     _envs_idx := _envs_idx self; envs_offset := envs_offset self;
     _para_level := v; show_FPS := show_FPS self;
     FPS_tracker := FPS_tracker self; class_name := class_name self;
     ti_fields := ti_fields self |}.

Definition set_FPS_tracker (v : option nat) (self : t) : t :=
  {| _sim := _sim self; _visualizer := _visualizer self;
     _emitters := _emitters self; _backward_ready := _backward_ready self;
     _forward_ready := _forward_ready self; _t := _t self;
     _is_built := _is_built self; _init_state := _init_state self;
     n_envs := n_envs self; env_spacing := env_spacing self;
     n_envs_per_row := n_envs_per_row self; _B := _B self;
     _envs_idx := _envs_idx self; envs_offset := envs_offset self;
     _para_level := _para_level self; show_FPS := show_FPS self;
     FPS_tracker := v; class_name := class_name self;
     ti_fields := ti_fields self |}.

Definition set_ti_fields (v : gmap string Array) (self : t) : t :=
  {| _sim := _sim self; _visualizer := _visualizer self;
     _emitters := _emitters self; _backward_ready := _backward_ready self;
     _forward_ready := _forward_ready self; _t := _t self;
     _is_built := _is_built self; _init_state := _init_state self;
     n_envs := n_envs self; env_spacing := env_spacing self;
     n_envs_per_row := n_envs_per_row self; _B := _B self;
     _envs_idx := _envs_idx self; envs_offset := envs_offset self;
     _para_level := _para_level self; show_FPS := show_FPS self;
     FPS_tracker := FPS_tracker self; class_name := class_name self;
     ti_fields := v |}.

End WithNumerics.

End Scene.

(** ** Operations supplied by collaborators *)

(** The numeric quantities the render mirror reads off the solvers. *)
Inductive Quantity : Type :=
| Q_link_T (l : Link)
| Q_tool_pose (e : Entity)
| Q_geom_T (k : SolverKind) (visual : bool) (g : Geom)
| Q_recon_mesh (k : SolverKind) (e : Entity)
| Q_particle_tfs (k : SolverKind) (e : Entity)
| Q_vmesh (k : SolverKind) (e : Entity)
| Q_tets_verts (e : Entity)
| Q_vverts (e : Entity)
| Q_fem_vertices (e : Entity)
| Q_contact_force (i_c : nat) (sign : Z)
| Q_contact_normal (i_c : nat) (sign : Z).

(** The simulator, the visualizer and the numeric kernels are collaborators:
    each operation may change the simulator at will and may raise. *)
Class Collaborators `{Numerics} : Type := {
  (* genesis/engine/simulator.py *)
  sim_build : M Simulator unit;
  sim_step : M Simulator unit;
  sim_collect_output_grads : M Simulator unit;
  sim__step_grad : M Simulator unit;
  sim_reset : SimState -> Selector -> M Simulator unit;
  sim_get_state : M Simulator SimState;
  sim__add_entity : Morph -> Material -> Surface -> bool -> M Simulator Entity;
  (* genesis/vis/visualizer.py *)
  update_visual_states : M Simulator unit;
  visualizer_build : M Scene.t unit;
  (* numerics of the render mirror *)
  render_value : Scene.t -> Quantity -> Payload;
  vec_nonzero : Scene.t -> Quantity -> bool;     (* [np.linalg.norm(vec) > 0] *)
  transpose : Payload -> Payload;
  reorder_vertices : Pyrender.Node -> Payload -> Payload;
  update_normal : Pyrender.Node -> Payload -> option Payload;
  buffer_id_mesh : Pyrender.BufferId -> option Pyrender.Node;
                                                 (* [.mesh] of a buffer id *)
  (* the genesis runtime *)
  gs_backend_is_cpu : bool;                      (* [gs.backend == gs.cpu] *)
  gs_UID : nat -> string;
  gs_materials_Rigid : Material;                 (* [gs.materials.Rigid()] *)
  gs_surfaces_Default : Surface;                 (* [gs.surfaces.Default()] *)
  gs_morphs_Nowhere : Z -> Morph   (* [gs.morphs.Nowhere(n_particles=n)] *)
}.

(** The meshes the render mirror builds when it is set up or asked to draw,
    with [genesis.utils.mesh], [trimesh] and [pyrender.Mesh]; what they hold
    stays opaque. *)
Inductive Shape : Type :=
| Sh_link_frame (l : Link)        (* the link-frame axes at the link's pose *)
| Sh_tool (e : Entity)            (* the tool's mesh with its surface *)
| Sh_tool_init_pose (e : Entity)  (* from [init_pos] and [init_quat] *)
| Sh_particles (k : SolverKind) (e : Entity)  (* spheres at [init_particles] *)
| Sh_tets (e : Entity)            (* one tetrahedron per particle *)
| Sh_visual (e : Entity)          (* the visual mesh, sidedness included *)
| Sh_fem (e : Entity)             (* the surface triangles of a FEM entity *)
| Sh_boundary (k : SolverKind).   (* the wireframe box of a solver's bounds *)

Class Shapes `{Numerics} : Type := {
  shape_value : Scene.t -> Shape -> Payload;
  (* genesis/utils/mesh.py, genesis/utils/geom.py, trimesh *)
  mu_create_line : Payload -> Payload -> Float -> Payload -> Payload;
  mu_create_sphere : Float -> Payload -> Payload;
  mu_create_box : Payload -> bool -> Float -> Payload -> Payload;
  trimesh_creation_axis : Float -> Float -> Float -> Payload;
  gu_trans_to_T : Payload -> Payload;
  (* what [pyrender.Mesh.from_trimesh(mesh, poses=poses)] holds *)
  from_trimesh : Payload -> option Payload -> Payload
}.

(** ** genesis/vis/rasterizer_context.py *)

Module rasterizer_context.
Import Pyrender RasterizerContext.

Section Methods.
Context `{Collaborators}.

Abbreviation Ctx := RasterizerContext.t.

Record Options : Type := {
  opt_segmentation_level : string;
  opt_render_particle_as : string
}.

(** The pyrender scene is created by [build]; the embedding lets the empty
    backend exist from construction on. *)
Definition __init__ (options : Options) : Ctx :=
  {| segmentation_level := opt_segmentation_level options;
     render_particle_as := opt_render_particle_as options;
     link_frame_shown := false;
     buffer := ∅;
     link_frame_nodes := ∅;
     rigid_nodes := ∅;
     static_nodes := ∅;
     dynamic_nodes := [];
     external_nodes := ∅;
     seg_node_map := ∅;
     seg_idxc_map := {[ 0 := KeyIdx (-1) ]};
     seg_key_map := {[ KeyIdx (-1) := 0 ]};
     _t := None;
     _scene := {| next_node := 0%nat; requests := [] |} |}.

(** [self._scene.method(...)] *)
Definition on_scene {A} (m : M Pyrender.Scene A) : M Ctx A :=
  zoom _scene set_scene m.

Definition reset : M Ctx unit := modify (set_t (Some (-1))).

Definition add_node (obj : Mesh) (pose : option Payload) : M Ctx Node :=
  on_scene (Pyrender.add obj pose).

Definition remove_node (node : Node) : M Ctx unit :=
  on_scene (Pyrender.remove_node node).

(** [d.setdefault(k, v)] *)
Definition setdefault `{Countable K} {V} (k : K) (v : V) (d : gmap K V)
  : gmap K V * V :=
  match d !! k with
  | Some v' => (d, v')
  | None => (<[k := v]> d, v)
  end.

Definition seg_key_to_idxc (seg_key : SegKey) : M Ctx Z :=
  fun self =>
    let '(key_map, seg_idxc) :=
      setdefault seg_key (Z.of_nat (size (seg_key_map self)))
        (seg_key_map self) in
    let self := set_seg_key_map key_map self in
    let self := set_seg_idxc_map (<[seg_idxc := seg_key]> (seg_idxc_map self))
                  self in
    (self, Returned seg_idxc).

Definition seg_idxc_to_idxc_rgb (seg_idxc : Z) : Z * Z * Z :=
  (Z.land (Z.shiftr seg_idxc 16) 255,
   Z.land (Z.shiftr seg_idxc 8) 255,
   Z.land seg_idxc 255).

Definition seg_idxc_to_key (seg_idxc : Z) : M Ctx SegKey :=
  fun self => getitem (seg_idxc_map self !! seg_idxc) self.

Definition create_node_seg (seg_key : SegKey) (seg_node : option Node)
  : M Ctx unit :=
  seg_idxc ← seg_key_to_idxc seg_key;
  match seg_node with
  | Some node =>
      modify (fun self =>
        set_seg_node_map
          (<[node := seg_idxc_to_idxc_rgb seg_idxc]> (seg_node_map self)) self)
  | None => mret tt
  end.

Definition remove_node_seg (seg_node : Node) : M Ctx unit :=
  modify (fun self => set_seg_node_map (delete seg_node (seg_node_map self)) self).

Definition add_rigid_node (geom : Geom) (obj : Mesh) (pose : option Payload)
  : M Ctx unit :=
  rigid_node ← add_node obj pose;
  modify (fun self =>
    set_rigid_nodes (<[geom_uid geom := rigid_node]> (rigid_nodes self)) self) ;;
  level ← gets segmentation_level;
  seg_key ←
    (if String.eqb level "geom" then
       raise (AssertionError "geom level segmentation not supported yet")
     else if String.eqb level "link" then
       mret (KeyLink (geom_entity_idx geom) (geom_link_idx geom))
     else if String.eqb level "entity" then
       mret (KeyIdx (geom_entity_idx geom))
     else raise_exception ("Unsupported segmentation level: " +:+ level));
  create_node_seg seg_key (Some rigid_node).

Definition add_static_node (entity : Entity) (obj : Mesh)
  (pose : option Payload) : M Ctx unit :=
  static_node ← add_node obj pose;
  modify (fun self =>
    set_static_nodes (<[uid entity := static_node]> (static_nodes self)) self) ;;
  create_node_seg (KeyIdx (idx entity)) (Some static_node).

Definition add_dynamic_node (entity : option Entity) (obj : option Mesh)
  (pose : option Payload) : M Ctx unit :=
  dynamic_node ←
    match obj with
    | Some o =>
        node ← add_node o pose;
        modify (fun self =>
          set_dynamic_nodes (dynamic_nodes self ++ [node]) self) ;;
        mret (Some node)
    | None => mret None
    end;
  match entity with
  | Some e => create_node_seg (KeyIdx (idx e)) dynamic_node
  | None => mret tt
  end.

Definition add_external_node (obj : Mesh) (pose : option Payload)
  : M Ctx unit :=
  match name obj with
  | Name (String c rest as obj_name) =>
      registered ← gets (fun self => bool_decide (is_Some (external_nodes self !! obj_name)));
      if (registered : bool) then
        raise_exception
          ("A node with the name '" +:+ obj_name +:+ "' already exists.")
      else
        node ← add_node obj pose;
        modify (fun self =>
          set_external_nodes (<[obj_name := node]> (external_nodes self)) self)
  | _ => raise_exception "Node must have a valid 'name' attribute."
  end.

Definition clear_dynamic_nodes : M Ctx unit :=
  nodes ← gets dynamic_nodes;
  for_each nodes (fun dynamic_node =>
    remove_node_seg dynamic_node ;;
    remove_node dynamic_node) ;;
  modify (set_dynamic_nodes []).

Definition clear_external_node (node : Mesh) : M Ctx unit :=
  match name node with
  | NoAttribute => raise (AttributeError "name")
  | NameNone => mret tt
  | Name node_name =>
      registry ← gets external_nodes;
      match registry !! node_name with
      | Some registered =>
          remove_node registered ;;
          modify (fun self =>
            set_external_nodes (delete node_name (external_nodes self)) self)
      | None => mret tt
      end
  end.

Definition set_node_pose (node : Node) (pose : Payload) : M Ctx unit :=
  on_scene (Pyrender.set_pose node pose).

Definition set_reflection_mat (geom_T : Payload) : M Ctx unit :=
  on_scene (emit (SetReflectionMat geom_T)).

(** *** Per-frame synchronisation

    The methods below read the scene the context was built for
    ([self.scene], [self.sim]); they run on the scene, and [self] runs a
    method on the context's own attributes.  [buffer_updates] is always
    [self.buffer], the very dict that [update] has just emptied. *)

Definition get_context (s : Scene.t) : Ctx :=
  Visualizer.context (Scene._visualizer s).

Definition put_context (c : Ctx) (s : Scene.t) : Scene.t :=
  Scene.set_visualizer {| Visualizer.context := c |} s.

Definition self {A} (m : M Ctx A) : M Scene.t A :=
  zoom get_context put_context m.

Definition buffer_updates_set (id : BufferId) (v : Payload) : M Scene.t unit :=
  self (modify (fun c => set_buffer (<[id := v]> (buffer c)) c)).

Definition vis_mode_is (e : Entity) (mode : string) : bool :=
  bool_decide (vis_mode (surface e) = Some mode).

Definition is_plane (e : Entity) : bool := morph_isinstance (_morph e) Plane.

(** [l[i]] on a Python list *)
Definition list_getitem {S A} (l : list A) (i : Z) : M S A :=
  let n := Z.of_nat (length l) in
  if (0 <=? i) && (i <? n) then getitem (l !! Z.to_nat i)
  else if (- n <=? i) && (i <? 0) then getitem (l !! Z.to_nat (n + i))
  else raise IndexError.

Definition update_link_frame : M Scene.t unit :=
  shown ← self (gets link_frame_shown);
  when shown (
    rigid ← gets (fun s => solver (Scene._sim s) RigidSolver);
    when (is_active rigid) (
      for_each (links rigid) (fun link =>
        link_T ← gets (fun s => render_value s (Q_link_T link));
        frame_node ← self (c ← gets link_frame_nodes;
                          getitem (c !! link_uid link));
        buffer_updates_set (get_buffer_id frame_node "model")
                           (transpose link_T)))).

Definition update_tool : M Scene.t unit :=
  tool ← gets (fun s => solver (Scene._sim s) ToolSolver);
  when (is_active tool) (
    for_each (entities tool) (fun tool_entity =>
      pose ← gets (fun s => render_value s (Q_tool_pose tool_entity));
      node ← self (c ← gets static_nodes; getitem (c !! uid tool_entity));
      self (set_node_pose node pose))).

Definition update_rigid : M Scene.t unit :=
  rigid ← gets (fun s => solver (Scene._sim s) RigidSolver);
  when (is_active rigid) (
    for_each (entities rigid) (fun rigid_entity =>
      let visual := vis_mode_is rigid_entity "visual" in
      let geoms := if visual then vgeoms rigid_entity else geoms rigid_entity in
      for_each geoms (fun geom =>
        geom_T ← gets (fun s => render_value s (Q_geom_T RigidSolver visual geom));
        node ← self (c ← gets rigid_nodes; getitem (c !! geom_uid geom));
        self (on_scene (emit (ResetMeshBounds node))) ;;
        self (on_scene (emit (SetPrimitivePoses node geom_T))) ;;
        buffer_updates_set (get_buffer_id node "model") (transpose geom_T) ;;
        when (is_plane rigid_entity) (self (set_reflection_mat geom_T))))).

Definition draw_debug_arrow (vec : Quantity) (uid_text : string)
  (persistent : bool) : M Scene.t (option Mesh) :=
  long ← gets (fun s => vec_nonzero s vec);
  if (long : bool) then
    arrow ← gets (fun s => render_value s vec);
    let node := {| name := Name ("debug_arrow_" +:+ uid_text);
                   geometry := arrow |} in
    (if persistent then self (add_external_node node None)
     else self (add_dynamic_node None (Some node) None)) ;;
    mret (Some node)
  else mret None.

Definition draw_contact_arrow (force : Quantity) (uid_text : string)
  : M Scene.t unit :=
  draw_debug_arrow force uid_text false ;; mret tt.

(** The text of the next [gs.UID()], one per node drawn. *)
Definition next_uid : M Scene.t string :=
  gets (fun s => gs_UID (next_node (_scene (get_context s)))).

Definition update_contact : M Scene.t unit :=
  rigid ← gets (fun s => solver (Scene._sim s) RigidSolver);
  when (is_active rigid
        && existsb visualize_contact (links rigid)) (
    let contacts_info := contacts rigid in
    if bool_decide (length contacts_info = 0%nat) then mret tt
    else
      for_each (imap pair contacts_info) (fun '(i_c, contact) =>
        for_each [(link_a contact, -1); (link_b contact, 1)]
          (fun '(link_idx, sign) =>
            link ← list_getitem (links rigid) link_idx;
            when (visualize_contact link) (
              uid1 ← next_uid;
              draw_contact_arrow (Q_contact_force i_c sign) uid1 ;;
              uid2 ← next_uid;
              draw_debug_arrow (Q_contact_normal i_c (- sign)) uid2 false ;;
              mret tt)))).

Definition update_avatar : M Scene.t unit :=
  avatar ← gets (fun s => solver (Scene._sim s) AvatarSolver);
  when (is_active avatar) (
    for_each (entities avatar) (fun avatar_entity =>
      let visual := vis_mode_is avatar_entity "visual" in
      let geoms := if visual then vgeoms avatar_entity else geoms avatar_entity in
      for_each geoms (fun geom =>
        geom_T ← gets (fun s => render_value s (Q_geom_T AvatarSolver visual geom));
        rigid_node ← self (c ← gets rigid_nodes; getitem (c !! geom_uid geom));
        let node := get_buffer_id rigid_node "model" in
        match buffer_id_mesh node with
        | None => raise (AttributeError "mesh")
        | Some mesh_owner =>
            self (on_scene (emit (ResetMeshBounds mesh_owner))) ;;
            self (on_scene (emit (SetPrimitivePoses mesh_owner geom_T))) ;;
            buffer_updates_set node (transpose geom_T)
        end))).

Definition unnamed_mesh (g : Payload) : Mesh :=
  {| name := NameNone; geometry := g |}.

Definition update_mpm : M Scene.t unit :=
  mpm ← gets (fun s => solver (Scene._sim s) MPMSolver);
  when (is_active mpm) (
    for_each (entities mpm) (fun mpm_entity =>
      if vis_mode_is mpm_entity "recon" then
        mesh ← gets (fun s => render_value s (Q_recon_mesh MPMSolver mpm_entity));
        self (add_dynamic_node (Some mpm_entity) (Some (unnamed_mesh mesh)) None)
      else if vis_mode_is mpm_entity "particle" then
        tfs ← gets (fun s => render_value s (Q_particle_tfs MPMSolver mpm_entity));
        static_node ← self (c ← gets static_nodes; getitem (c !! uid mpm_entity));
        buffer_updates_set (get_buffer_id static_node "model") (transpose tfs)
      else if vis_mode_is mpm_entity "visual" then
        vmesh ← gets (fun s => render_value s (Q_vmesh MPMSolver mpm_entity));
        self (add_dynamic_node (Some mpm_entity) (Some (unnamed_mesh vmesh)) None)
      else mret tt)).

Definition update_sph : M Scene.t unit :=
  sph ← gets (fun s => solver (Scene._sim s) SPHSolver);
  when (is_active sph) (
    for_each (entities sph) (fun sph_entity =>
      if vis_mode_is sph_entity "recon" then
        mesh ← gets (fun s => render_value s (Q_recon_mesh SPHSolver sph_entity));
        self (add_dynamic_node (Some sph_entity) (Some (unnamed_mesh mesh)) None)
      else if vis_mode_is sph_entity "particle" then
        tfs ← gets (fun s => render_value s (Q_particle_tfs SPHSolver sph_entity));
        static_node ← self (c ← gets static_nodes; getitem (c !! uid sph_entity));
        buffer_updates_set (get_buffer_id static_node "model") (transpose tfs)
      else mret tt)).

(** Writes the vertex buffer of a static node and, when the JIT renderer
    yields them, its normals. *)
Definition update_vertices (node : Node) (verts : Payload) : M Scene.t unit :=
  let update_data := reorder_vertices node verts in
  buffer_updates_set (get_buffer_id node "pos") update_data ;;
  match update_normal node update_data with
  | Some normal_data =>
      buffer_updates_set (get_buffer_id node "normal") normal_data
  | None => mret tt
  end.

Definition update_pbd : M Scene.t unit :=
  pbd ← gets (fun s => solver (Scene._sim s) PBDSolver);
  when (is_active pbd) (
    for_each (entities pbd) (fun pbd_entity =>
      if vis_mode_is pbd_entity "recon" then
        mesh ← gets (fun s => render_value s (Q_recon_mesh PBDSolver pbd_entity));
        self (add_dynamic_node (Some pbd_entity) (Some (unnamed_mesh mesh)) None)
      else if vis_mode_is pbd_entity "particle" then
        as_what ← self (gets render_particle_as);
        if String.eqb as_what "sphere" then
          tfs ← gets (fun s => render_value s (Q_particle_tfs PBDSolver pbd_entity));
          static_node ← self (c ← gets static_nodes; getitem (c !! uid pbd_entity));
          buffer_updates_set (get_buffer_id static_node "model") (transpose tfs)
        else if String.eqb as_what "tet" then
          new_verts ← gets (fun s => render_value s (Q_tets_verts pbd_entity));
          node ← self (c ← gets static_nodes; getitem (c !! uid pbd_entity));
          update_vertices node new_verts
        else mret tt
      else if vis_mode_is pbd_entity "visual" then
        vverts ← gets (fun s => render_value s (Q_vverts pbd_entity));
        node ← self (c ← gets static_nodes; getitem (c !! uid pbd_entity));
        update_vertices node vverts
      else mret tt)).

Definition update_fem : M Scene.t unit :=
  fem ← gets (fun s => solver (Scene._sim s) FEMSolver);
  when (is_active fem) (
    for_each (entities fem) (fun fem_entity =>
      when (vis_mode_is fem_entity "visual") (
        vertices ← gets (fun s => render_value s (Q_fem_vertices fem_entity));
        node ← self (c ← gets static_nodes; getitem (c !! uid fem_entity));
        buffer_updates_set (get_buffer_id node "pos")
                           (reorder_vertices node vertices)))).

Definition update : M Scene.t unit :=
  last_t ← self (getattr "_t" _t);
  scene_t ← gets Scene._t;
  (* Early return if already updated previously *)
  if scene_t <=? last_t then mret tt
  else
    self (modify (set_t (Some scene_t))) ;;
    (* clear up all dynamic nodes *)
    self clear_dynamic_nodes ;;
    (* update variables not used in simulation *)
    zoom Scene._sim Scene.set_sim update_visual_states ;;
    (* reset scene bounds to trigger recomputation *)
    self (on_scene (emit ResetSceneBounds)) ;;
    self (modify (set_buffer ∅)) ;;
    update_link_frame ;;
    update_tool ;;
    update_rigid ;;
    update_contact ;;
    update_avatar ;;
    update_mpm ;;
    update_sph ;;
    update_pbd ;;
    update_fem.

(** *** Segmentation colours as integers *)

(** [np.int64] arithmetic: a result wraps around modulo [2^64]. *)
Definition np_int64 (z : Z) : Z := (z + 2 ^ 63) mod 2 ^ 64 - 2 ^ 63.

(** An integer array whose last axis holds the three channels, given as one
    entry per pixel with the leading axes flattened.  [astype(np.int64)]
    comes first; the products and sums are then taken in [np.int64]. *)
Definition seg_idxc_rgb_arr_to_idxc_arr (seg_idxc_rgb_arr : list (Z * Z * Z))
  : list Z :=
  let seg_idxc_rgb_arr :=
    (fun '(r, g, b) => (np_int64 r, np_int64 g, np_int64 b))
      <$> seg_idxc_rgb_arr in
  (fun '(r, g, b) =>
     np_int64 (np_int64 (np_int64 (r * (256 * 256)) + np_int64 (g * 256)) + b))
    <$> seg_idxc_rgb_arr.

(** *** Registries walked as a whole

    A Python dict is walked in insertion order, which a [gmap] does not
    keep: [dict_values] lists the entries by key, and what is stated about
    the methods below holds for every order of the walk. *)

Definition dict_values `{Countable K} {V} (d : gmap K V) : list V :=
  (map_to_list d).*2.

Definition clear_external_nodes : M Ctx unit :=
  nodes ← gets (fun self => dict_values (external_nodes self));
  for_each nodes remove_node ;;
  modify (set_external_nodes ∅).

Definition off_link_frame : M Ctx unit :=
  shown ← gets link_frame_shown;
  when shown (
    nodes ← gets (fun self => dict_values (link_frame_nodes self));
    for_each nodes remove_node ;;
    modify (set_link_frame_nodes ∅) ;;
    modify (set_link_frame_shown false)).

(** *** Debug drawing

    [uid] is the text of the [gs.UID()] drawn for the object's name.  An
    object made without [name=] has the name [None]. *)

Context `{!Shapes}.

Definition draw_debug_line (start end_ : Payload) (radius : Float)
  (color : Payload) (uid : string) : M Ctx Mesh :=
  let mesh := mu_create_line start end_ radius color in
  let node := {| name := Name ("debug_line_" +:+ uid);
                 geometry := from_trimesh mesh None |} in
  add_external_node node None ;;
  mret node.

Definition draw_debug_frame (T : Payload)
  (axis_length origin_size axis_radius : Float) (uid : string) : M Ctx Mesh :=
  let node :=
    {| name := Name ("debug_frame_" +:+ uid);
       geometry :=
         from_trimesh (trimesh_creation_axis origin_size axis_radius axis_length)
                      None |} in
  add_external_node node (Some T) ;;
  mret node.

Definition draw_debug_frames (poses : Payload)
  (axis_length origin_size axis_radius : Float) (uid : string) : M Ctx Mesh :=
  let node :=
    {| name := Name ("debug_frame_" +:+ uid);
       geometry :=
         from_trimesh (trimesh_creation_axis origin_size axis_radius axis_length)
                      (Some poses) |} in
  add_external_node node None ;;
  mret node.

Definition draw_debug_mesh (mesh pos : Payload) (T : option Payload)
  (uid : string) : M Ctx Mesh :=
  let T := match T with
           | None => gu_trans_to_T pos
           | Some T => T
           end in
  let node := {| name := Name ("debug_mesh_" +:+ uid);
                 geometry := from_trimesh mesh None |} in
  add_external_node node (Some T) ;;
  mret node.

Definition draw_debug_sphere (pos : Payload) (radius : Float) (color : Payload)
  (persistent : bool) (uid : string) : M Ctx Mesh :=
  let mesh := mu_create_sphere radius color in
  let pose := gu_trans_to_T pos in
  let node := {| name := Name ("debug_sphere_" +:+ uid);
                 geometry := from_trimesh mesh (Some pose) |} in
  (if persistent then add_external_node node None
   else add_dynamic_node None (Some node) None) ;;
  mret node.

Definition draw_debug_spheres (poss : Payload) (radius : Float)
  (color : Payload) (persistent : bool) (uid : string) : M Ctx Mesh :=
  let mesh := mu_create_sphere radius color in
  let poses := gu_trans_to_T poss in
  let node := {| name := Name ("debug_spheres_" +:+ uid);
                 geometry := from_trimesh mesh (Some poses) |} in
  (if persistent then add_external_node node None
   else add_dynamic_node None (Some node) None) ;;
  mret node.

Definition draw_debug_box (bounds color : Payload) (wireframe : bool)
  (wireframe_radius : Float) (uid : string) : M Ctx Mesh :=
  let mesh := mu_create_box bounds wireframe wireframe_radius color in
  let node := {| name := Name ("debug_box_" +:+ uid);
                 geometry := from_trimesh mesh None |} in
  add_external_node node None ;;
  mret node.

Definition clear_debug_object (object : Mesh) : M Ctx unit :=
  clear_external_node object.

Definition clear_debug_objects : M Ctx unit := clear_external_nodes.

(** *** Setting the mirror up

    The methods [build] runs once, on the scene the context is built for.
    An option the context stores at construction and never reassigns is
    passed where the method reads it. *)

Definition on_link_frame : M Scene.t unit :=
  shown ← self (gets link_frame_shown);
  when (negb shown) (
    rigid ← gets (fun s => solver (Scene._sim s) RigidSolver);
    when (is_active rigid) (
      for_each (links rigid) (fun link =>
        frame ← gets (fun s => shape_value s (Sh_link_frame link));
        node ← self (add_node (unnamed_mesh frame) None);
        self (modify (fun c =>
          set_link_frame_nodes (<[link_uid link := node]> (link_frame_nodes c))
                               c)))) ;;
    self (modify (set_link_frame_shown true))).

Definition on_tool : M Scene.t unit :=
  tool ← gets (fun s => solver (Scene._sim s) ToolSolver);
  when (is_active tool) (
    for_each (entities tool) (fun tool_entity =>
      when (mesh_present tool_entity) (
        mesh ← gets (fun s => shape_value s (Sh_tool tool_entity));
        pose ← gets (fun s => shape_value s (Sh_tool_init_pose tool_entity));
        self (add_static_node tool_entity (unnamed_mesh mesh) (Some pose))))).

Definition on_mpm (visualize_mpm_boundary : bool) : M Scene.t unit :=
  mpm ← gets (fun s => solver (Scene._sim s) MPMSolver);
  when (is_active mpm) (
    for_each (entities mpm) (fun mpm_entity =>
      if vis_mode_is mpm_entity "recon" then
        self (add_dynamic_node (Some mpm_entity) None None)
      else if vis_mode_is mpm_entity "particle" then
        mesh ← gets (fun s => shape_value s (Sh_particles MPMSolver mpm_entity));
        self (add_static_node mpm_entity (unnamed_mesh mesh) None)
      else if vis_mode_is mpm_entity "visual" then
        vmesh ← gets (fun s => render_value s (Q_vmesh MPMSolver mpm_entity));
        self (add_dynamic_node (Some mpm_entity) (Some (unnamed_mesh vmesh)) None)
      else mret tt) ;;
    (* boundary *)
    when visualize_mpm_boundary (
      box ← gets (fun s => shape_value s (Sh_boundary MPMSolver));
      self (add_node (unnamed_mesh box) None) ;;
      mret tt)).

Definition on_sph (visualize_sph_boundary : bool) : M Scene.t unit :=
  sph ← gets (fun s => solver (Scene._sim s) SPHSolver);
  when (is_active sph) (
    for_each (entities sph) (fun sph_entity =>
      if vis_mode_is sph_entity "recon" then
        self (add_dynamic_node (Some sph_entity) None None)
      else if vis_mode_is sph_entity "particle" then
        mesh ← gets (fun s => shape_value s (Sh_particles SPHSolver sph_entity));
        self (add_static_node sph_entity (unnamed_mesh mesh) None)
      else mret tt) ;;
    (* boundary *)
    when visualize_sph_boundary (
      box ← gets (fun s => shape_value s (Sh_boundary SPHSolver));
      self (add_node (unnamed_mesh box) None) ;;
      mret tt)).

Definition on_pbd (visualize_pbd_boundary : bool) : M Scene.t unit :=
  pbd ← gets (fun s => solver (Scene._sim s) PBDSolver);
  when (is_active pbd) (
    for_each (entities pbd) (fun pbd_entity =>
      if vis_mode_is pbd_entity "recon" then
        self (add_dynamic_node (Some pbd_entity) None None)
      else if vis_mode_is pbd_entity "particle" then
        as_what ← self (gets render_particle_as);
        if String.eqb as_what "sphere" then
          mesh ← gets (fun s => shape_value s (Sh_particles PBDSolver pbd_entity));
          self (add_static_node pbd_entity (unnamed_mesh mesh) None)
        else if String.eqb as_what "tet" then
          mesh ← gets (fun s => shape_value s (Sh_tets pbd_entity));
          self (add_static_node pbd_entity (unnamed_mesh mesh) None)
        else mret tt
      else if vis_mode_is pbd_entity "visual" then
        mesh ← gets (fun s => shape_value s (Sh_visual pbd_entity));
        self (add_static_node pbd_entity (unnamed_mesh mesh) None)
      else mret tt) ;;
    (* boundary *)
    when visualize_pbd_boundary (
      box ← gets (fun s => shape_value s (Sh_boundary PBDSolver));
      self (add_node (unnamed_mesh box) None) ;;
      mret tt)).

Definition on_fem : M Scene.t unit :=
  fem ← gets (fun s => solver (Scene._sim s) FEMSolver);
  when (is_active fem) (
    for_each (entities fem) (fun fem_entity =>
      when (vis_mode_is fem_entity "visual") (
        mesh ← gets (fun s => shape_value s (Sh_fem fem_entity));
        self (add_static_node fem_entity (unnamed_mesh mesh) None)))).

End Methods.
End rasterizer_context.

(** ** The visualizer, as far as the Scene drives it *)

Module visualizer.
Section Methods.
Context `{Collaborators}.

(** Modelled from the spec: [Visualizer.reset] is not among the sources.
    A reset "resets RenderMirror's staleness marker"; [Scene._reset] notes
    next to the call that it "sets _t = -1". *)
Definition reset : M Visualizer.t unit :=
  zoom Visualizer.context (fun c _ => {| Visualizer.context := c |})
       rasterizer_context.reset.

(** Modelled from the spec: [Visualizer.update] is not among the sources.
    Called with [force=False], as [Scene.step] does, it "asks RenderMirror to
    resynchronize (non-forced: RenderMirror decides whether a resync is
    actually necessary based on its own staleness check)". *)
Definition update (auto : bool) : M Scene.t unit := rasterizer_context.update.

End Methods.
End visualizer.

(** ** The emitter, as far as the Scene drives it *)

Module emitter.

(** Modelled from the spec: the [Emitter] class is not among the sources; a
    scene reset resets "all emitters' internal replay cursors", and
    [Scene._reset] notes next to the call that it "sets _next_particle = 0". *)
Definition reset (e : Emitter.t) : Emitter.t :=
  {| Emitter.max_particles := Emitter.max_particles e;
     Emitter._entity := Emitter._entity e;
     Emitter._next_particle := 0 |}.

Definition Emitter (max_particles : Z) : Emitter.t :=
  {| Emitter.max_particles := max_particles;
     Emitter._entity := None;
     Emitter._next_particle := 0 |}.

Definition set_entity (entity : Entity) (e : Emitter.t) : Emitter.t :=
  {| Emitter.max_particles := Emitter.max_particles e;
     Emitter._entity := Some entity;
     Emitter._next_particle := Emitter._next_particle e |}.

End emitter.

(** ** Checkpoint buffers of a solver *)

Module base_solver.
Section Methods.
Context `{Numerics}.

(** [".".join((owner, attr))] *)
Definition ckpt_key (owner attr : string) : string := owner +:+ "." +:+ attr.

(** Modelled from the spec: the solvers' [dump_ckpt_to_numpy] and
    [load_ckpt_from_numpy] are not among the sources.  By sections 4.1 and 6
    a solver reports each of its buffers under the string key
    "OwnerClassName.attributeName"; loading "writes back into same-named
    buffers when present, ignores unknown keys silently". *)
Definition dump_ckpt_to_numpy (self : Solver) : gmap string Array :=
  kmap (ckpt_key (class_name self)) (ti_fields self).

Definition restore_fields (owner : string) (arrays fields : gmap string Array)
  : gmap string Array :=
  map_imap (fun attr field =>
              Some (default field (arrays !! ckpt_key owner attr))) fields.

Definition load_ckpt_from_numpy (arrays : gmap string Array) (self : Solver)
  : Solver :=
  {| class_name := class_name self;
     is_active := is_active self;
     entities := entities self;
     links := links self;
     contacts := contacts self;
     solver_n_envs := solver_n_envs self;
     ti_fields := restore_fields (class_name self) arrays (ti_fields self) |}.

End Methods.
End base_solver.

(** ** genesis/engine/scene.py *)

Module scene.
Import Scene.

Section Methods.
Context `{Collaborators}.

(** [self._sim.method(...)] and [self._visualizer.method(...)] *)
Definition on_sim {A} (m : M Simulator A) : M Scene.t A :=
  zoom _sim set_sim m.

Definition on_visualizer {A} (m : M Visualizer.t A) : M Scene.t A :=
  zoom _visualizer set_visualizer m.

(** The attributes [__init__] leaves behind, given the simulator and the
    visualizer it constructs from the options. *)
Definition __init__ (sim : Simulator) (vis : Visualizer.t) (show_FPS : bool)
  : Scene.t :=
  {| _sim := sim;
     _visualizer := vis;
     _emitters := [];
     _backward_ready := false;
     _forward_ready := false;
     _t := 0;
     _is_built := false;
     _init_state := None;
     n_envs := None;
     env_spacing := None;
     n_envs_per_row := None;
     _B := None;
     _envs_idx := None;
     envs_offset := None;
     _para_level := None;
     Scene.show_FPS := show_FPS;
     FPS_tracker := None;
     Scene.class_name := "Scene";
     Scene.ti_fields := ∅ |}.

(** Modelled from the spec: the decorators [gs.assert_built] and
    [gs.assert_unbuilt] are not among the sources.  By section 4.1 an
    operation that is legal only once the scene is built, or only before,
    fails in the other phase, before the method body runs. *)
Definition assert_built {A} (method : M Scene.t A) : M Scene.t A :=
  built ← gets _is_built;
  if (built : bool) then method else raise_exception "Scene is not built yet.".

Definition assert_unbuilt {A} (method : M Scene.t A) : M Scene.t A :=
  built ← gets _is_built;
  if (built : bool) then raise_exception "Scene is already built." else method.

Definition _reset_grad : M Scene.t unit :=
  modify (set_backward_ready true).

Definition _get_state : M Scene.t SimState := on_sim sim_get_state.


Definition _reset (state : option SimState) (envs_idx : Selector)
  : M Scene.t unit :=
  built ← gets _is_built;
  (if (built : bool) then
     state ←
       match state with
       | None => getattr "_init_state" _init_state
       | Some state => modify (set_init_state (Some state)) ;; mret state
       end;
     on_sim (sim_reset state envs_idx)
   else
     state ← _get_state;
     modify (set_init_state (Some state))) ;;
  modify (set_t 0) ;;
  modify (set_forward_ready true) ;;
  _reset_grad ;;
  on_visualizer visualizer.reset ;;
  modify (fun self => set_emitters (emitter.reset <$> _emitters self) self).

Definition reset (state : option SimState) (envs_idx : Selector)
  : M Scene.t unit :=
  assert_built (_reset state envs_idx).

(** [FPS_tracker.step()] reports wall-clock rates; the embedding keeps the
    number of steps it was told of. *)
Definition FPS_tracker_step : M Scene.t unit :=
  n ← getattr "FPS_tracker" FPS_tracker;
  modify (set_FPS_tracker (Some (S n))).

Definition step (update_visualizer refresh_visualizer : bool)
  : M Scene.t unit :=
  assert_built (
    ready ← gets _forward_ready;
    if negb ready then
      raise_exception
        "Forward simulation not allowed after backward pass. Please reset scene state."
    else
      on_sim sim_step ;;
      modify (fun self => set_t (_t self + 1) self) ;;
      when update_visualizer (visualizer.update refresh_visualizer) ;;
      show ← gets show_FPS;
      when show FPS_tracker_step).

Definition _step_grad : M Scene.t unit :=
  on_sim sim_collect_output_grads ;;
  on_sim sim__step_grad ;;
  modify (fun self => set_t (_t self - 1) self).

(** [while self._t > 0: self._step_grad()] *)
Equations? backward_through_time (self : Scene.t) : Scene.t * outcome unit
  by wf (Z.to_nat (_t self)) lt :=
  backward_through_time self with inspect (0 <? _t self) := {
    | exist _ true positive with inspect (_step_grad self) := {
        | exist _ (self', Returned _) stepped => backward_through_time self'
        | exist _ (self', Raised e) _ => (self', Raised e) }
    | exist _ false _ => (self, Returned tt) }.
Proof.
  apply Z.ltb_lt in positive.
  assert (_t self' = _t self - 1) as ->; [|lia].
  revert stepped. unfold _step_grad, on_sim, zoom, modify.
  unfold mbind, M_bind.
  destruct (sim_collect_output_grads (_sim self)) as [sim1 [[]|?]]; [|discriminate].
  simpl. destruct (sim__step_grad sim1) as [sim2 [[]|?]]; [|discriminate].
  simpl. intros [= <-]. reflexivity.
Qed.

Definition _backward : M Scene.t unit :=
  ready ← gets _backward_ready;
  if negb ready then raise_exception "Multiple backward calls not allowed."
  else
    (* backward pass through time *)
    backward_through_time ;;
    modify (set_backward_ready false) ;;
    modify (set_forward_ready false).

(** *** Entities and emitters

    Messages that quote the offending objects keep their fixed text. *)

Definition isinstance_any (material : Material) (classes : list MaterialClass)
  : bool :=
  existsb (material_isinstance material) classes.

Definition morph_isinstance_any (morph : Morph) (classes : list MorphClass)
  : bool :=
  existsb (morph_isinstance morph) classes.

Definition set_vis_mode (v : option string) (surface : Surface) : Surface :=
  {| vis_mode := v; double_sided := double_sided surface;
     smooth := smooth surface |}.

Definition set_double_sided (v : option bool) (surface : Surface) : Surface :=
  {| vis_mode := vis_mode surface; double_sided := v;
     smooth := smooth surface |}.

Definition set_smooth (v : bool) (surface : Surface) : Surface :=
  {| vis_mode := vis_mode surface; double_sided := double_sided surface;
     smooth := v |}.

(** Populates the default [surface.vis_mode] and checks it against the modes
    the material supports. *)
Definition validate_vis_mode (dflt : string) (supported : list string)
  (expected : string) (surface : Surface) : M Scene.t Surface :=
  let surface :=
    match vis_mode surface with
    | None => set_vis_mode (Some dflt) surface
    | Some _ => surface
    end in
  if bool_decide (default "" (vis_mode surface) ∈ supported) then mret surface
  else raise_exception
         ("Unsupported `surface.vis_mode`. Expected one of: " +:+ expected).

Definition add_entity_body (morph : Morph) (material : option Material)
  (surface : option Surface) (visualize_contact : bool)
  (vis_mode : option string) : M Scene.t Entity :=
  let material := default gs_materials_Rigid material in
  let surface := default gs_surfaces_Default surface in
  let material :=
    if material_isinstance material Rigid && morph_isinstance morph Primitive
    then {| material_isinstance := material_isinstance material;
            _sdf_max_res := 32 |}
    else material in
  (* some morph should not smooth surface normal *)
  let surface :=
    if morph_isinstance_any morph [Box; Cylinder; Terrain]
    then set_smooth false surface else surface in
  (if morph_isinstance_any morph [URDF; MJCF; Terrain]
      && negb (isinstance_any material [Rigid; Avatar; Hybrid])
   then raise_exception "Unsupported material for morph"
   else mret tt) ;;
  let surface :=
    match double_sided surface with
    | None => set_double_sided (Some (material_isinstance material PBD_Cloth))
                               surface
    | Some _ => surface
    end in
  let surface :=
    match vis_mode with
    | Some mode => set_vis_mode (Some mode) surface
    | None => surface
    end in
  (* validate and populate default surface.vis_mode considering morph type *)
  surface ←
    (if isinstance_any material [Rigid; Avatar; Tool] then
       validate_vis_mode "visual" ["visual"; "collision"; "sdf"]
         "['visual', 'collision', 'sdf']" surface
     else if isinstance_any material
               [PBD_Liquid; PBD_Particle; MPM_Liquid; MPM_Sand; MPM_Snow;
                SPH_Liquid] then
       validate_vis_mode "particle" ["particle"; "recon"]
         "['particle', 'recon']" surface
     else if material_isinstance material SF_Smoke then
       validate_vis_mode "particle" ["particle"]
         "['particle', 'recon']" surface
     else if isinstance_any material [PBD_Base; MPM_Base; SPH_Base] then
       validate_vis_mode "visual" ["visual"; "particle"; "recon"]
         "['visual', 'particle', 'recon']" surface
     else if material_isinstance material FEM_Base then
       validate_vis_mode "visual" ["visual"] "['visual']" surface
     else if material_isinstance material Hybrid then
       validate_vis_mode "particle" ["particle"; "visual"]
         "['particle', 'visual']" surface
     else raise_exception "Something went wrong.");
  (* Set material-dependent default options *)
  let morph :=
    if morph_isinstance morph FileMorph then
      match convexify morph with
      | None =>
          {| morph_isinstance := morph_isinstance morph;
             convexify := Some (isinstance_any material [Rigid; Avatar]);
             n_particles := n_particles morph |}
      | Some _ => morph
      end
    else morph in
  on_sim (sim__add_entity morph material surface visualize_contact).

Definition add_entity (morph : Morph) (material : option Material)
  (surface : option Surface) (visualize_contact : bool)
  (vis_mode : option string) : M Scene.t Entity :=
  assert_unbuilt (add_entity_body morph material surface visualize_contact vis_mode).

Definition add_emitter (material : Material) (max_particles : Z)
  (surface : option Surface) : M Scene.t Emitter.t :=
  assert_unbuilt (
    differentiable ← gets (fun self => requires_grad (_sim self));
    if (differentiable : bool) then
      raise_exception "Emitter is not supported in differentiable mode."
    else if negb (isinstance_any material
                    [MPM_Base; SPH_Base; PBD_Particle; PBD_Liquid]) then
      raise_exception "Non-supported material for emitter."
    else
      let surface := default gs_surfaces_Default surface in
      let new_emitter := emitter.Emitter max_particles in
      entity ← add_entity (gs_morphs_Nowhere max_particles) (Some material)
                 (Some surface) false None;
      let new_emitter := emitter.set_entity entity new_emitter in
      modify (fun self => set_emitters (_emitters self ++ [new_emitter]) self) ;;
      mret new_emitter).

(** *** Batching layout *)

(** [isinstance(env_spacing, (list, tuple))] and [len(env_spacing) == 2] *)
Definition spacing_pair (env_spacing : EnvSpacing) : option (Float * Float) :=
  match env_spacing with
  | PyList [sx; sy] | PyTuple [sx; sy] => Some (sx, sy)
  | _ => None
  end.

(** numpy's [%] on integers: a zero divisor yields zero. *)
Definition np_mod (a b : Z) : Z := if b =? 0 then 0 else a mod b.

(** [np.max(column)] and [np.min(column)] of a non-empty column *)
Definition np_max (column : list Float) : Float :=
  match column with
  | [] => fzero
  | x :: rest => foldl fmax x rest
  end.

Definition np_min (column : list Float) : Float :=
  match column with
  | [] => fzero
  | x :: rest => foldl fmin x rest
  end.

Definition column_center (column : list Float) : Float :=
  fhalf (fadd (np_max column) (np_min column)).

Definition grid_offsets (B per_row : Z) (sx sy : Float)
  : list (Float * Float * Float) :=
  (fun i => (fmul (of_int (i / per_row)) sx,
             fmul (of_int (np_mod i per_row)) sy,
             fzero)) <$> seqZ 0 B.

Definition move_to_center (offsets : list (Float * Float * Float))
  : list (Float * Float * Float) :=
  let cx := column_center ((fun o => o.1.1) <$> offsets) in
  let cy := column_center ((fun o => o.1.2) <$> offsets) in
  let cz := column_center ((fun o => o.2) <$> offsets) in
  (fun o => (fsub o.1.1 cx, fsub o.1.2 cy, fsub o.2 cz)) <$> offsets.

Definition _parallelize (n_envs : Z) (env_spacing : EnvSpacing)
  (n_envs_per_row : option Z) (center_envs_at_origin : bool)
  : M Scene.t unit :=
  modify (set_n_envs (Some n_envs)) ;;
  modify (set_env_spacing (Some env_spacing)) ;;
  modify (set_n_envs_per_row n_envs_per_row) ;;
  (* true batch size *)
  let B := Z.max 1 n_envs in
  modify (set_B (Some B)) ;;
  modify (set_envs_idx (Some (arange B))) ;;
  let per_row := default (Z.sqrt_up B) n_envs_per_row in
  modify (set_n_envs_per_row (Some per_row)) ;;
  (* compute offset values for visualizing each env *)
  match spacing_pair env_spacing with
  | None => raise_exception "`env_spacing` should be a tuple of length 2."
  | Some (sx, sy) =>
      modify (set_envs_offset (Some (grid_offsets B per_row sx sy))) ;;
      (* move to center *)
      when center_envs_at_origin
        (modify (fun self =>
           set_envs_offset (move_to_center <$> envs_offset self) self)) ;;
      modify (set_para_level
                (Some (if gs_backend_is_cpu then NEVER
                       else if n_envs =? 0 then PARTIAL
                       else ALL)))
  end.

Definition build (n_envs : Z) (env_spacing : EnvSpacing)
  (n_envs_per_row : option Z) (center_envs_at_origin compile_kernels : bool)
  : M Scene.t unit :=
  assert_unbuilt (
    _parallelize n_envs env_spacing n_envs_per_row center_envs_at_origin ;;
    (* simulator *)
    on_sim sim_build ;;
    (* reset state *)
    _reset None SelNone ;;
    modify (set_is_built true) ;;
    when compile_kernels (on_sim sim_step ;; _reset None SelNone) ;;
    (* visualizer *)
    visualizer_build ;;
    show ← gets show_FPS;
    when show (modify (set_FPS_tracker (Some 0%nat)))
    (* [gs.global_scene_list] lies outside the scene's own attributes *)).

(** *** Environment index sanitation *)

(** The method returns a tensor of [gs.tc_int], or with [unsafe] the very
    object it was given.  [envs_idx + 1] on a NumPy scalar stays in the
    scalar's type and wraps around (NumPy 2). *)
Definition _sanitize_envs_idx (envs_idx : Selector) (unsafe : bool)
  : M Scene.t ArrayLike :=
  (* Handling default argument and special cases *)
  match envs_idx with
  | SelNone => all ← getattr "_envs_idx" _envs_idx; mret (IntArray tc_int all)
  | _ =>
      n ← getattr "n_envs" n_envs;
      if n =? 0 then
        raise_exception "`envs_idx` is not supported for non-parallelized scene."
      else
        match envs_idx with
        | SelNone =>
            all ← getattr "_envs_idx" _envs_idx; mret (IntArray tc_int all)
        | SelSlice start stop step =>
            all ← getattr "_envs_idx" _envs_idx;
            picked ← getslice all start stop step;
            mret (IntArray tc_int picked)
        | SelInt i =>
            all ← getattr "_envs_idx" _envs_idx;
            picked ← getslice all (Some i) (Some (i + 1)) None;
            mret (IntArray tc_int picked)
        | SelNpInt t i =>
            all ← getattr "_envs_idx" _envs_idx;
            picked ← getslice all (Some i) (Some (wrap t (i + 1))) None;
            mret (IntArray tc_int picked)
        | SelArray a =>
            (* Early return if unsafe *)
            if unsafe then mret a
            else
              (* Perform a bunch of sanity checks *)
              _envs_idx ← as_tensor a;
              let _envs_idx := atleast_1d _envs_idx in
              if negb (bool_decide (ndim _envs_idx = 1%nat)) then
                raise_exception "Expecting a 1D tensor for `envs_idx`."
              else if existsb (fun i => i <? 0) (data _envs_idx)
                      || existsb (fun i => n <=? i) (data _envs_idx) then
                raise_exception "`envs_idx` exceeds valid range."
              else mret (IntArray tc_int _envs_idx)
        end
  end.

(** *** Checkpoints *)

(** The pickled dict; a file written by another tool may lack any of the
    three entries. *)
Record Checkpoint : Type := {
  timestamp : option Float;
  step_index : option Z;
  arrays : option (gmap string Array)
}.

(** Files hold what was pickled into them; [open] raises [OSError] on a path
    that cannot be written, or read. *)
Record FileSystem : Type := {
  files : gmap string Checkpoint;
  writable : string -> bool
}.

Definition write_file (path : string) (content : Checkpoint) (fs : FileSystem)
  : FileSystem :=
  {| files := <[path := content]> (files fs); writable := writable fs |}.

Definition dump_ckpt_to_numpy (self : Scene.t) : gmap string Array :=
  let arrays := kmap (base_solver.ckpt_key (class_name self)) (ti_fields self) in
  foldl (fun arrays k =>
           (* arrays.update(solver.dump_ckpt_to_numpy()) *)
           base_solver.dump_ckpt_to_numpy (solver (_sim self) k) ∪ arrays)
        arrays (active_solvers (_sim self)).

(** [now] is the reading of [time.time()]. *)
Definition save_checkpoint (path : string) (now : Float) (fs : FileSystem)
  : M Scene.t FileSystem :=
  state ← gets (fun self =>
    {| timestamp := Some now;
       step_index := Some (_t self);
       arrays := Some (dump_ckpt_to_numpy self) |});
  if writable fs path then mret (write_file path state fs)
  else raise OSError.

Definition load_checkpoint (path : string) (fs : FileSystem)
  : M Scene.t unit :=
  match files fs !! path with
  | None => raise OSError
  | Some state =>
      arrays ← getitem (arrays state);
      modify (fun self =>
        set_ti_fields
          (base_solver.restore_fields (class_name self) arrays (ti_fields self))
          self) ;;
      active ← gets (fun self => active_solvers (_sim self));
      for_each active (fun k =>
        on_sim (modify (fun sim =>
          set_solver k (base_solver.load_ckpt_from_numpy arrays (solver sim k))
                     sim))) ;;
      modify (fun self => set_t (default (_t self) (step_index state)) self)
  end.

(** *** Debug objects

    Each method runs the context's method of the same name under
    [self._visualizer.viewer_lock], which the embedding, being sequential,
    leaves out; [persistent] keeps its default [True]. *)

Context `{!Shapes}.

Definition draw_debug_line (start end_ : Payload) (radius : Float)
  (color : Payload) (uid : string) : M Scene.t Pyrender.Mesh :=
  assert_built (rasterizer_context.self
    (rasterizer_context.draw_debug_line start end_ radius color uid)).

Definition draw_debug_frame (T : Payload)
  (axis_length origin_size axis_radius : Float) (uid : string)
  : M Scene.t Pyrender.Mesh :=
  assert_built (rasterizer_context.self
    (rasterizer_context.draw_debug_frame T axis_length origin_size axis_radius
       uid)).

Definition draw_debug_frames (Ts : Payload)
  (axis_length origin_size axis_radius : Float) (uid : string)
  : M Scene.t Pyrender.Mesh :=
  assert_built (rasterizer_context.self
    (rasterizer_context.draw_debug_frames Ts axis_length origin_size
       axis_radius uid)).

Definition draw_debug_mesh (mesh pos : Payload) (T : option Payload)
  (uid : string) : M Scene.t Pyrender.Mesh :=
  assert_built (rasterizer_context.self
    (rasterizer_context.draw_debug_mesh mesh pos T uid)).

Definition draw_debug_sphere (pos : Payload) (radius : Float) (color : Payload)
  (uid : string) : M Scene.t Pyrender.Mesh :=
  assert_built (rasterizer_context.self
    (rasterizer_context.draw_debug_sphere pos radius color true uid)).

Definition draw_debug_spheres (poss : Payload) (radius : Float)
  (color : Payload) (uid : string) : M Scene.t Pyrender.Mesh :=
  assert_built (rasterizer_context.self
    (rasterizer_context.draw_debug_spheres poss radius color true uid)).

Definition draw_debug_box (bounds color : Payload) (wireframe : bool)
  (wireframe_radius : Float) (uid : string) : M Scene.t Pyrender.Mesh :=
  assert_built (rasterizer_context.self
    (rasterizer_context.draw_debug_box bounds color wireframe wireframe_radius
       uid)).

Definition clear_debug_object (object : Pyrender.Mesh) : M Scene.t unit :=
  assert_built (rasterizer_context.self
    (rasterizer_context.clear_debug_object object)).

Definition clear_debug_objects : M Scene.t unit :=
  assert_built (rasterizer_context.self rasterizer_context.clear_debug_objects).

End Methods.
End scene.

(** ** Call sequences on a scene *)

Module api.
Import Scene.

Section Calls.
Context `{Collaborators}.





(** [n] rounds of [_step_grad], stopping at the first that raises. *)
Fixpoint step_grad_times (n : nat) : M Scene.t unit :=
  match n with
  | O => mret tt
  | S n' => scene._step_grad ;; step_grad_times n'
  end.

End Calls.
End api.

(** ** A small concrete world

    Exact rationals for the floats, lists of integers for the arrays, and
    collaborators that always return: enough to run every embedded method. *)

Module demo.
Import Scene.

Definition qadd (a b : Q) : Q := Qred (a + b).
Definition qsub (a b : Q) : Q := Qred (a - b).
Definition qmul (a b : Q) : Q := Qred (a * b).
Definition qhalf (a : Q) : Q := Qred (a / 2).
Definition qmax (a b : Q) : Q := if Qle_bool a b then b else a.
Definition qmin (a b : Q) : Q := if Qle_bool a b then a else b.

#[export] Instance numerics : Numerics :=
  {| Array := list Z;
     Payload := string;
     SimState := nat;
     Float := Q;
     of_int := inject_Z;
     fzero := 0%Q;
     fadd := qadd;
     fsub := qsub;
     fmul := qmul;
     fhalf := qhalf;
     fmax := qmax;
     fmin := qmin |}.

Definition no_morph : Morph :=
  {| morph_isinstance := fun _ => false; convexify := None; n_particles := 0 |}.

Definition plain_surface : Surface :=
  {| vis_mode := None; double_sided := None; smooth := true |}.

Definition new_entity (morph : Morph) (surface : Surface) : Entity :=
  {| uid := 0%nat; idx := 0; Sim.surface := surface; _morph := morph;
     mesh_present := false; vgeoms := []; geoms := [] |}.

(** A collaborator that does nothing and returns. *)
Definition idle {S} : M S unit := mret tt.

#[export] Instance collaborators : Collaborators :=
  {| sim_build := idle;
     sim_step := idle;
     sim_collect_output_grads := idle;
     sim__step_grad := idle;
     sim_reset := fun _ _ => idle;
     sim_get_state := fun sim => (sim, Returned 0%nat);
     sim__add_entity := fun morph _ surface _ sim =>
       (sim, Returned (new_entity morph surface));
     update_visual_states := idle;
     visualizer_build := idle;
     render_value := fun _ _ => "";
     vec_nonzero := fun _ _ => true;
     transpose := fun p => p;
     reorder_vertices := fun _ p => p;
     update_normal := fun _ _ => None;
     buffer_id_mesh := fun _ => None;
     gs_backend_is_cpu := true;
     gs_UID := fun _ => "0000000";
     gs_materials_Rigid :=
       {| material_isinstance := fun c => bool_decide (c = Rigid);
          _sdf_max_res := 128 |};
     gs_surfaces_Default := plain_surface;
     gs_morphs_Nowhere := fun n =>
       {| morph_isinstance := fun c => bool_decide (c = Nowhere);
          convexify := None; n_particles := n |} |}.

Definition idle_solver (name : string) : Solver :=
  {| Sim.class_name := name; is_active := false; entities := []; links := [];
     contacts := []; solver_n_envs := 0; Sim.ti_fields := ∅ |}.

Definition solver_names (k : SolverKind) : string :=
  match k with
  | ToolSolver => "ToolSolver" | RigidSolver => "RigidSolver"
  | AvatarSolver => "AvatarSolver" | MPMSolver => "MPMSolver"
  | SPHSolver => "SPHSolver" | PBDSolver => "PBDSolver"
  | FEMSolver => "FEMSolver" | SFSolver => "SFSolver"
  end.

Definition sim0 (differentiable : bool) : Simulator :=
  {| requires_grad := differentiable; sim_B := 1;
     solver := fun k => idle_solver (solver_names k) |}.

Definition context0 : RasterizerContext.t :=
  rasterizer_context.__init__
    {| rasterizer_context.opt_segmentation_level := "link";
       rasterizer_context.opt_render_particle_as := "sphere" |}.

(** A scene as constructed, before [build]. *)
Definition scene0 (differentiable : bool) : Scene.t :=
  scene.__init__ (sim0 differentiable) {| Visualizer.context := context0 |} false.

(** The scene after [build] with [n] environments on a unit grid. *)
Definition built (n : Z) : Scene.t :=
  (scene.build n (PyTuple [1%Q; 1%Q]) None true true (scene0 false)).1.

#[export] Instance shapes : Shapes :=
  {| shape_value := fun _ _ => "";
     mu_create_line := fun _ _ _ _ => "line";
     mu_create_sphere := fun _ _ => "sphere";
     mu_create_box := fun _ _ _ _ => "box";
     trimesh_creation_axis := fun _ _ _ => "axis";
     gu_trans_to_T := fun p => p;
     from_trimesh := fun mesh _ => mesh |}.

End demo.

(** ** Vocabulary of the statements *)

Module reasoning.
Section Preservation.
Context {S : Type} (R : S -> S -> Prop).

(** A method relates the attributes it finds to those it leaves behind,
    however it ends. *)
Definition preserves {A} (m : M S A) : Prop := forall s, R s (m s).1.

End Preservation.
End reasoning.
Import reasoning.

Module vocabulary.
Import Scene.
Section WithCollaborators.
Context `{Collaborators}.

(** The flags that gate the operations of a scene. *)
Definition life_cycle (s : Scene.t) : bool * bool * bool :=
  (_is_built s, _forward_ready s, _backward_ready s).

Definition same_life_cycle (s s' : Scene.t) : Prop :=
  life_cycle s' = life_cycle s.


End WithCollaborators.
End vocabulary.
Import vocabulary.

Module batching.
Import Scene.
Section WithNumerics.
Context `{Numerics}.

(** The batch attributes as [_parallelize] leaves them for [n] environments. *)
Definition parallelized (n : Z) (s : Scene.t) : Prop :=
  n_envs s = Some n
  /\ _B s = Some (Z.max 1 n)
  /\ _envs_idx s = Some (arange (Z.max 1 n)).

Definition in_range (B : Z) (i : Z) : Prop := 0 <= i < B.

End WithNumerics.
End batching.
Import batching.

Module layout.
Import Scene.
Section WithCollaborators.
Context `{Collaborators}.

(** A sequence of exactly two entries, of whatever Python type. *)
Definition two_element_sequence (env_spacing : EnvSpacing) : Prop :=
  match env_spacing with
  | PyList l | PyTuple l | PyArray l => length l = 2%nat
  | PyScalar _ => False
  end.

(** The place of environment [i] on the grid, before centering. *)
Definition grid_cell (per_row : Z) (sx sy : Float) (i : Z)
  : Float * Float * Float :=
  (fmul (of_int (i / per_row)) sx, fmul (of_int (i mod per_row)) sy, fzero).

(** The largest and the smallest of the coordinates on one axis. *)
Definition largest (coords : list Float) : Float :=
  match coords with
  | [] => fzero
  | x :: rest => foldl fmax x rest
  end.

Definition smallest (coords : list Float) : Float :=
  match coords with
  | [] => fzero
  | x :: rest => foldl fmin x rest
  end.

(** The point midway between the two extremes. *)
Definition midway (coords : list Float) : Float :=
  fhalf (fadd (largest coords) (smallest coords)).

(** Per axis, the point midway between the extremes of the grid. *)
Definition grid_center (B per_row : Z) (sx sy : Float)
  : Float * Float * Float :=
  let cells := grid_cell per_row sx sy <$> seqZ 0 B in
  (midway ((fun o => o.1.1) <$> cells),
   midway ((fun o => o.1.2) <$> cells),
   midway ((fun o => o.2) <$> cells)).

Definition env_offset (B per_row : Z) (sx sy : Float) (center : bool) (i : Z)
  : Float * Float * Float :=
  let cell := grid_cell per_row sx sy i in
  let c := grid_center B per_row sx sy in
  if center
  then (fsub cell.1.1 c.1.1, fsub cell.1.2 c.1.2, fsub cell.2 c.2)
  else cell.

(** The extremes of the coordinates lie opposite each other about the
    origin. *)
Definition centered (coords : list Float) : Prop :=
  fadd (largest coords) (smallest coords) = fzero.

(** Arithmetic without rounding, as far as centering needs it: subtracting
    a number commutes with taking the larger and the smaller of two, and
    two numbers lie opposite each other about their midpoint. *)
Record exact_arithmetic : Prop := {
  sub_max : forall a b c, fmax (fsub a c) (fsub b c) = fsub (fmax a b) c;
  sub_min : forall a b c, fmin (fsub a c) (fsub b c) = fsub (fmin a b) c;
  about_midpoint : forall a b,
    fadd (fsub a (fhalf (fadd a b))) (fsub b (fhalf (fadd a b))) = fzero
}.

End WithCollaborators.
End layout.
Import layout.

Module segmentation.
Import RasterizerContext.
Section WithCollaborators.
Context `{Collaborators}.

Definition background : SegKey := KeyIdx (-1).

(** The ids handed out for a run of queries, in order. *)
Fixpoint query_all (keys : list SegKey) : M RasterizerContext.t (list Z) :=
  match keys with
  | [] => mret []
  | k :: rest =>
      i ← rasterizer_context.seg_key_to_idxc k;
      ids ← query_all rest;
      mret (i :: ids)
  end.

(** The two tables are inverse to each other, the ids in use are exactly
    [0 .. len-1], and the background key holds id 0. *)
Record tables_ok (c : RasterizerContext.t) : Prop := {
  ok_inverse : forall k i,
    seg_key_map c !! k = Some i <-> seg_idxc_map c !! i = Some k;
  ok_dense : forall i,
    is_Some (seg_idxc_map c !! i) <-> 0 <= i < Z.of_nat (size (seg_key_map c));
  ok_background : seg_key_map c !! background = Some 0
}.

End WithCollaborators.
End segmentation.
Import segmentation.

Module resync.
Import Pyrender RasterizerContext.
Section WithCollaborators.
Context `{Collaborators}.

Definition is_removal (r : Request) : bool :=
  match r with
  | Remove _ => true
  | _ => false
  end.

Definition is_bounds_reset (r : Request) : bool :=
  match r with
  | ResetSceneBounds => true
  | _ => false
  end.

(** What a per-family update may do to the context: leave the marker alone,
    send the backend further requests that neither remove a node nor reset
    the scene bounds, add or overwrite buffer entries, and append nodes it
    has just created to the dynamic nodes. *)
Record accumulates (c c' : RasterizerContext.t) : Prop := {
  acc_marker : _t c' = _t c;
  acc_requests : exists new,
    requests (_scene c') = (requests (_scene c) ++ new)%list
    /\ Forall (fun r => is_removal r = false /\ is_bounds_reset r = false) new;
  acc_buffer : dom (buffer c) ⊆ dom (buffer c');
  acc_dynamic : exists added,
    dynamic_nodes c' = (dynamic_nodes c ++ added)%list
    /\ Forall (fun n => (next_node (_scene c) <= n < next_node (_scene c'))%nat)
              added;
  acc_next : (next_node (_scene c) <= next_node (_scene c'))%nat
}.

(** The same on a scene: its step counter stays, its context accumulates. *)
Definition grows (s s' : Scene.t) : Prop :=
  Scene._t s' = Scene._t s
  /\ accumulates (rasterizer_context.get_context s)
                 (rasterizer_context.get_context s').

(** The step counter of the scene and the marker of the mirror. *)
Definition same_clock (s s' : Scene.t) : Prop :=
  Scene._t s' = Scene._t s
  /\ _t (rasterizer_context.get_context s')
     = _t (rasterizer_context.get_context s).

Inductive Phase : Type :=
| ClearDynamic | VisualStates | SceneBounds
| LinkFrames | ToolPhase | RigidPhase | ContactArrows | AvatarPhase
| MPMPhase | SPHPhase | PBDPhase | FEMPhase.

Definition run_phase (p : Phase) : M Scene.t unit :=
  match p with
  | ClearDynamic =>
      rasterizer_context.self rasterizer_context.clear_dynamic_nodes
  | VisualStates => zoom Scene._sim Scene.set_sim update_visual_states
  | SceneBounds =>
      rasterizer_context.self
        (rasterizer_context.on_scene (emit ResetSceneBounds)) ;;
      rasterizer_context.self (modify (set_buffer ∅))
  | LinkFrames => rasterizer_context.update_link_frame
  | ToolPhase => rasterizer_context.update_tool
  | RigidPhase => rasterizer_context.update_rigid
  | ContactArrows => rasterizer_context.update_contact
  | AvatarPhase => rasterizer_context.update_avatar
  | MPMPhase => rasterizer_context.update_mpm
  | SPHPhase => rasterizer_context.update_sph
  | PBDPhase => rasterizer_context.update_pbd
  | FEMPhase => rasterizer_context.update_fem
  end.

Definition families : list Phase :=
  [LinkFrames; ToolPhase; RigidPhase; ContactArrows; AvatarPhase;
   MPMPhase; SPHPhase; PBDPhase; FEMPhase].

Definition resync_order : list Phase :=
  [ClearDynamic; VisualStates; SceneBounds] ++ families.

Definition resync_pass : M Scene.t unit := for_each resync_order run_phase.

(** The scene with the mirror's marker moved to the scene's step counter. *)
Definition marked (s : Scene.t) : Scene.t :=
  rasterizer_context.put_context
    (set_t (Some (Scene._t s)) (rasterizer_context.get_context s)) s.

(** The passes the backend has seen: one scene-bounds reset each. *)
Definition passes (s : Scene.t) : nat :=
  length (filter (fun r => is_bounds_reset r = true)
            (requests (_scene (rasterizer_context.get_context s)))).

End WithCollaborators.
End resync.
Import resync.

Module checkpoint.
Import Scene.
Section WithCollaborators.
Context `{Collaborators}.

(** No ["."] in a class name. *)
Definition dot_free (name : string) : bool :=
  forallb (fun c => negb (Ascii.eqb c "."%char)) (list_ascii_of_string name).

(** The class names under which a scene and its active solvers report. *)
Definition owners (s : Scene.t) : list string :=
  Scene.class_name s
  :: ((fun k => Sim.class_name (solver (_sim s) k)) <$> active_solvers (_sim s)).

Definition owners_distinct (s : Scene.t) : Prop :=
  NoDup (owners s) /\ Forall (fun o => dot_free o = true) (owners s).

(** Two scenes built from the same configuration: the same classes, the
    same active solvers, the same buffer names. *)
Definition same_configuration (s target : Scene.t) : Prop :=
  Scene.class_name target = Scene.class_name s
  /\ dom (Scene.ti_fields target) = dom (Scene.ti_fields s)
  /\ forall k,
       Sim.class_name (solver (_sim target) k) = Sim.class_name (solver (_sim s) k)
       /\ is_active (solver (_sim target) k) = is_active (solver (_sim s) k)
       /\ dom (Sim.ti_fields (solver (_sim target) k))
          = dom (Sim.ti_fields (solver (_sim s) k)).

(** A buffer after loading: the stored array of its key when there is one,
    its old contents otherwise. *)
Definition restored (owner : string) (arrays fields : gmap string Array)
  (attr : string) : option Array :=
  (fun old => default old (arrays !! base_solver.ckpt_key owner attr))
    <$> fields !! attr.

End WithCollaborators.
End checkpoint.
Import checkpoint.

(** ** Concrete scenes for the examples *)

Module examples.
Import Scene demo.

(** An MPM entity shown by surface reconstruction. *)
Definition recon_entity : Entity :=
  {| uid := 5%nat; idx := 0;
     Sim.surface := {| vis_mode := Some "recon"; double_sided := Some false;
                       smooth := true |};
     _morph := no_morph; mesh_present := false; vgeoms := []; geoms := [] |}.

(** A simulator whose only active solver is the MPM solver, with one
    entity and one particle buffer holding [particles]. *)
Definition mpm_sim (particles : list Z) : Simulator :=
  {| requires_grad := false; sim_B := 1;
     solver := fun k =>
       match k with
       | MPMSolver =>
           {| Sim.class_name := "MPMSolver"; is_active := true;
              entities := [recon_entity]; links := []; contacts := [];
              solver_n_envs := 0;
              Sim.ti_fields := {[ "particles" := particles ]} |}
       | _ => idle_solver (solver_names k)
       end |}.

Definition mpm_scene (particles : list Z) : Scene.t :=
  (scene.build 0 (PyTuple [0%Q; 0%Q]) None true true
     (scene.__init__ (mpm_sim particles) {| Visualizer.context := context0 |}
        false)).1.

(** Two steps into a built scene. *)
Definition stepped (s : Scene.t) : Scene.t :=
  (scene.step true true (scene.step true true s).1).1.

(** A disk on which every path can be written, holding nothing yet. *)
Definition empty_disk : scene.FileSystem :=
  {| scene.files := ∅; scene.writable := fun _ => true |}.

(** A debug mesh under a caller-chosen name. *)
Definition named_mesh (n : string) : Pyrender.Mesh :=
  {| Pyrender.name := Pyrender.Name n; Pyrender.geometry := "" |}.

(** The context once a node named [n] is registered. *)
Definition with_external (n : string) : RasterizerContext.t :=
  (rasterizer_context.add_external_node (named_mesh n) None context0).1.

(** A tool entity, with or without a mesh. *)
Definition tool_entity (u : nat) (with_mesh : bool) : Entity :=
  {| uid := u; idx := Z.of_nat u; Sim.surface := plain_surface;
     _morph := no_morph; mesh_present := with_mesh; vgeoms := [];
     geoms := [] |}.

(** A simulator whose only active solver is the tool solver, with one
    entity that has a mesh and one that has none. *)
Definition tool_sim : Simulator :=
  {| requires_grad := false; sim_B := 1;
     solver := fun k =>
       match k with
       | ToolSolver =>
           {| Sim.class_name := "ToolSolver"; is_active := true;
              entities := [tool_entity 1 true; tool_entity 2 false];
              links := []; contacts := []; solver_n_envs := 0;
              Sim.ti_fields := ∅ |}
       | _ => idle_solver (solver_names k)
       end |}.

Definition tool_scene : Scene.t :=
  scene.__init__ tool_sim {| Visualizer.context := context0 |} false.

(** A simulator whose only active solver is the rigid solver, with two
    links. *)
Definition rigid_sim : Simulator :=
  {| requires_grad := false; sim_B := 1;
     solver := fun k =>
       match k with
       | RigidSolver =>
           {| Sim.class_name := "RigidSolver"; is_active := true;
              entities := [];
              links := [ {| link_uid := 3%nat; link_idx := 0;
                            visualize_contact := false |};
                         {| link_uid := 4%nat; link_idx := 1;
                            visualize_contact := false |} ];
              contacts := []; solver_n_envs := 0; Sim.ti_fields := ∅ |}
       | _ => idle_solver (solver_names k)
       end |}.

Definition rigid_scene : Scene.t :=
  scene.__init__ rigid_sim {| Visualizer.context := context0 |} false.

(** Two geoms of one link and a geom of another entity. *)
Definition geom_of (u : nat) (entity link : Z) : Geom :=
  {| geom_uid := u; geom_idx := Z.of_nat u; geom_link_idx := link;
     geom_entity_idx := entity |}.

(** A liquid for the MPM solver. *)
Definition liquid : Material :=
  {| material_isinstance := fun c => bool_decide (c = MPM_Base);
     _sdf_max_res := 0 |}.

(** The collaborators of [demo], but for a simulator that cannot step
    backwards: its gradient step raises. *)
Definition no_gradient : Collaborators :=
  {| sim_build := idle;
     sim_step := idle;
     sim_collect_output_grads := idle;
     sim__step_grad := raise (ValueError "no gradient");
     sim_reset := fun _ _ => idle;
     sim_get_state := fun sim => (sim, Returned 0%nat);
     sim__add_entity := fun morph _ surface _ sim =>
       (sim, Returned (new_entity morph surface));
     update_visual_states := idle;
     visualizer_build := idle;
     render_value := fun _ _ => "";
     vec_nonzero := fun _ _ => true;
     transpose := fun p => p;
     reorder_vertices := fun _ p => p;
     update_normal := fun _ _ => None;
     buffer_id_mesh := fun _ => None;
     gs_backend_is_cpu := true;
     gs_UID := fun _ => "0000000";
     gs_materials_Rigid := gs_materials_Rigid;
     gs_surfaces_Default := plain_surface;
     gs_morphs_Nowhere := gs_morphs_Nowhere |}.

(** A box primitive. *)
Definition box_morph : Morph :=
  {| morph_isinstance := fun c => bool_decide (c = Primitive \/ c = Box);
     convexify := None; n_particles := 0 |}.

End examples.

(** ** Vocabulary of the further properties *)

Module colours.
Import RasterizerContext.
Section WithCollaborators.
Context `{Collaborators}.

(** A colour channel as the renderer stores it. *)
Definition is_byte (x : Z) : Prop := 0 <= x <= 255.

(** Two contexts that differ in their segmentation tables at most. *)
Definition same_outside_seg (c c' : RasterizerContext.t) : Prop :=
  c' = set_seg_node_map (seg_node_map c')
         (set_seg_idxc_map (seg_idxc_map c')
            (set_seg_key_map (seg_key_map c') c)).

End WithCollaborators.
End colours.
Import colours.

Module registries.
Import Pyrender RasterizerContext.
Section WithCollaborators.
Context `{Collaborators}.

(** What outlives a frame: the registries of external, static, rigid and
    link-frame nodes, the options, and the ids of the keys seen so far. *)
Record persists (c c' : RasterizerContext.t) : Prop := {
  per_external : external_nodes c' = external_nodes c;
  per_static : static_nodes c' = static_nodes c;
  per_rigid : rigid_nodes c' = rigid_nodes c;
  per_link_frames : link_frame_nodes c' = link_frame_nodes c;
  per_link_frame_shown : link_frame_shown c' = link_frame_shown c;
  per_segmentation_level : segmentation_level c' = segmentation_level c;
  per_render_particle_as : render_particle_as c' = render_particle_as c;
  per_ids : seg_key_map c ⊆ seg_key_map c';
  per_tables : tables_ok c -> tables_ok c'
}.

Definition scene_persists (s s' : Scene.t) : Prop :=
  persists (rasterizer_context.get_context s)
           (rasterizer_context.get_context s').

Context `{!Shapes}.

(** A drawing method of a built scene: under a free name it returns an
    object registered as an external node under [prefix ++ uid], and
    [clear_debug_object] of that object takes the node away again. *)
Definition draws_removable (draw : string -> M Scene.t Mesh)
  (prefix : string) : Prop :=
  forall (s : Scene.t) (uid : string),
    Scene._is_built s = true ->
    external_nodes (rasterizer_context.get_context s) !! (prefix +:+ uid)
    = None ->
    let n := next_node (_scene (rasterizer_context.get_context s)) in
    exists s1 s2 object pose,
      draw uid s = (s1, Returned object)
      /\ name object = Name (prefix +:+ uid)
      /\ external_nodes (rasterizer_context.get_context s1)
         = <[prefix +:+ uid := n]>
             (external_nodes (rasterizer_context.get_context s))
      /\ scene.clear_debug_object object s1 = (s2, Returned tt)
      /\ external_nodes (rasterizer_context.get_context s2)
         = external_nodes (rasterizer_context.get_context s)
      /\ requests (_scene (rasterizer_context.get_context s2))
         = (requests (_scene (rasterizer_context.get_context s))
            ++ [Add n object pose; Remove n])%list.

End WithCollaborators.
End registries.
Import registries.

Module setup.
Import Pyrender RasterizerContext.
Section WithCollaborators.
Context `{Collaborators}.

(** A method that returns from every state. *)
Definition returns_always {S A} (m : M S A) : Prop :=
  forall s, exists s' a, m s = (s', Returned a).

(** What setting the mirror up and refreshing it may do to the registries
    that the per-family updates read: enter further nodes. *)
Record registers (c c' : RasterizerContext.t) : Prop := {
  reg_static : dom (static_nodes c) ⊆ dom (static_nodes c');
  reg_link_frames : dom (link_frame_nodes c) ⊆ dom (link_frame_nodes c');
  reg_render_particle_as : render_particle_as c' = render_particle_as c
}.

(** The same on a scene, whose simulator stays as it is. *)
Definition scene_registers (s s' : Scene.t) : Prop :=
  Scene._sim s' = Scene._sim s
  /\ registers (rasterizer_context.get_context s)
               (rasterizer_context.get_context s').

(** The entities of a solver whose update looks a static node up. *)
Definition has_static_node (s : Scene.t) (e : Entity) : Prop :=
  is_Some (static_nodes (rasterizer_context.get_context s) !! uid e).

End WithCollaborators.
End setup.
Import setup.

Module entities.
Section WithCollaborators.
Context `{Collaborators}.

(** The visualization modes of a material, by the first group of classes it
    is an instance of: the default mode and the supported ones. *)
Definition vis_modes (material : Material) : option (string * list string) :=
  if scene.isinstance_any material [Rigid; Avatar; Tool] then
    Some ("visual", ["visual"; "collision"; "sdf"])
  else if scene.isinstance_any material
            [PBD_Liquid; PBD_Particle; MPM_Liquid; MPM_Sand; MPM_Snow;
             SPH_Liquid] then
    Some ("particle", ["particle"; "recon"])
  else if material_isinstance material SF_Smoke then
    Some ("particle", ["particle"])
  else if scene.isinstance_any material [PBD_Base; MPM_Base; SPH_Base] then
    Some ("visual", ["visual"; "particle"; "recon"])
  else if material_isinstance material FEM_Base then
    Some ("visual", ["visual"])
  else if material_isinstance material Hybrid then
    Some ("particle", ["particle"; "visual"])
  else None.

(** A morph loaded from a robot description or a terrain, with a material
    that is none of rigid, avatar and hybrid. *)
Definition incompatible (morph : Morph) (material : Material) : bool :=
  scene.morph_isinstance_any morph [URDF; MJCF; Terrain]
  && negb (scene.isinstance_any material [Rigid; Avatar; Hybrid]).

(** [add_entity] stopped before it reached the simulator: a Genesis
    exception, and the scene as it was. *)
Definition rejected {A} (s : Scene.t) (result : Scene.t * outcome A) : Prop :=
  exists msg, result = (s, Raised (GenesisException msg)).

End WithCollaborators.
End entities.
Import entities.

Module progress.
Import Scene.
Section WithCollaborators.
Context `{Collaborators}.

(** What neither a refresh of the mirror nor a checkpoint touches: the
    life-cycle flags, the registered initial state and the emitters. *)
Definition same_registration (s s' : Scene.t) : Prop :=
  same_life_cycle s s'
  /\ _init_state s' = _init_state s
  /\ _emitters s' = _emitters s.

(** The step counter stays where it is. *)
Definition keeps_clock (s s' : Scene.t) : Prop :=
  _t s' = _t s /\ same_registration s s'.

(** The visualizer, and with it the render mirror, stays as it is. *)
Definition keeps_mirror (s s' : Scene.t) : Prop :=
  _visualizer s' = _visualizer s /\ same_registration s s'.

(** What indexing [0 .. n-1] with [i : i + 1] selects. *)
Definition integer_selection (n i : Z) : list Z :=
  if (0 <=? i) && (i <? n) then [i]
  else if (- n <=? i) && (i <? -1) then [n + i]
  else [].

End WithCollaborators.
End progress.
Import progress.

Module accumulation.
Import Pyrender RasterizerContext.
Section WithCollaborators.
Context `{Collaborators}.

(** The registries in which the families find the nodes they update. *)
Inductive Registry : Type := FrameNodes | RigidNodes | StaticNodes.

Definition registered (r : Registry) (c : RasterizerContext.t)
  : gmap UID Node :=
  match r with
  | FrameNodes => link_frame_nodes c
  | RigidNodes => rigid_nodes c
  | StaticNodes => static_nodes c
  end.

(** What a family leaves behind for one of its subjects: an entry of the
    buffer-update map, in the slot [kind] of the node found under [u]; the
    pose of a tool's node; a dynamic node that holds the mesh of a quantity;
    or, for a vector that is not zero, a dynamic node that holds its arrow. *)
Inductive Effect : Type :=
| WritesEntry (r : Registry) (u : UID) (kind : string)
| SetsPose (e : Entity)
| CreatesNode (q : Quantity)
| DrawsArrow (q : Quantity).

(** The requests a context has sent from the [k]-th on. *)
Definition requests_from (k : nat) (c : RasterizerContext.t) : list Request :=
  drop k (requests (_scene c)).

(** The effect is there on scene [s], payloads being read off some scene
    with the simulator of [s], requests being among those from the [k]-th
    on. *)
Definition left_behind (k : nat) (s : Scene.t) (e : Effect) : Prop :=
  let c := rasterizer_context.get_context s in
  match e with
  | WritesEntry r u kind =>
      exists node,
        registered r c !! u = Some node
        /\ is_Some (buffer c !! get_buffer_id node kind)
  | SetsPose e =>
      exists node s0,
        static_nodes c !! uid e = Some node
        /\ Scene._sim s0 = Scene._sim s
        /\ SetPose node (render_value s0 (Q_tool_pose e)) ∈ requests_from k c
  | CreatesNode q =>
      exists n s0,
        Scene._sim s0 = Scene._sim s
        /\ n ∈ dynamic_nodes c
        /\ Add n {| name := NameNone; geometry := render_value s0 q |} None
           ∈ requests_from k c
  | DrawsArrow q =>
      exists s0,
        Scene._sim s0 = Scene._sim s
        /\ (vec_nonzero s0 q = true ->
            exists n uid_text,
              n ∈ dynamic_nodes c
              /\ Add n {| name := Name ("debug_arrow_" +:+ uid_text);
                          geometry := render_value s0 q |} None
                 ∈ requests_from k c)
  end.

(** The entity is shown in the given mode. *)
Definition shows (e : Entity) (mode : string) : bool :=
  bool_decide (vis_mode (surface e) = Some mode).

(** One entry per geom that is shown: the visual geoms in the mode
    ["visual"], the collision geoms in every other. *)
Definition geom_entries (e : Entity) : list Effect :=
  (fun g => WritesEntry RigidNodes (geom_uid g) "model")
    <$> (if shows e "visual" then vgeoms e else geoms e).

(** [l[i]] as Python reads it: from the end when [i] is negative. *)
Definition py_index {A} (l : list A) (i : Z) : option A :=
  let n := Z.of_nat (length l) in
  if (0 <=? i) && (i <? n) then l !! Z.to_nat i
  else if (- n <=? i) && (i <? 0) then l !! Z.to_nat (n + i)
  else None.

(** The two arrows, force and normal, on each side of a contact whose link
    visualizes contacts. *)
Definition contact_arrows (links : list Link) (numbered : nat * Contact)
  : list Effect :=
  let '(i_c, contact) := numbered in
  concat ((fun '(link_idx, sign) =>
             match py_index links link_idx with
             | Some link =>
                 if visualize_contact link
                 then [DrawsArrow (Q_contact_force i_c sign);
                       DrawsArrow (Q_contact_normal i_c (- sign))]
                 else []
             | None => []
             end) <$> [(link_a contact, -1); (link_b contact, 1)]).

Definition particle_effects (k : SolverKind) (as_what : string) (e : Entity)
  : list Effect :=
  match k with
  | MPMSolver =>
      if shows e "recon" then [CreatesNode (Q_recon_mesh k e)]
      else if shows e "particle" then [WritesEntry StaticNodes (uid e) "model"]
      else if shows e "visual" then [CreatesNode (Q_vmesh k e)]
      else []
  | SPHSolver =>
      if shows e "recon" then [CreatesNode (Q_recon_mesh k e)]
      else if shows e "particle" then [WritesEntry StaticNodes (uid e) "model"]
      else []
  | PBDSolver =>
      if shows e "recon" then [CreatesNode (Q_recon_mesh k e)]
      else if shows e "particle" then
        if String.eqb as_what "sphere"
        then [WritesEntry StaticNodes (uid e) "model"]
        else if String.eqb as_what "tet"
        then [WritesEntry StaticNodes (uid e) "pos"]
        else []
      else if shows e "visual" then [WritesEntry StaticNodes (uid e) "pos"]
      else []
  | FEMSolver =>
      if shows e "visual" then [WritesEntry StaticNodes (uid e) "pos"] else []
  | _ => []
  end.

(** What each family leaves behind on a scene. *)
Definition family_effects (p : Phase) (s : Scene.t) : list Effect :=
  let c := rasterizer_context.get_context s in
  let active k (effects : Solver -> list Effect) :=
    let sv := solver (Scene._sim s) k in
    if is_active sv then effects sv else [] in
  let particles k :=
    active k (fun sv =>
      concat (particle_effects k (render_particle_as c) <$> entities sv)) in
  match p with
  | LinkFrames =>
      if link_frame_shown c
      then active RigidSolver (fun rigid =>
             (fun l => WritesEntry FrameNodes (link_uid l) "model")
               <$> links rigid)
      else []
  | ToolPhase => active ToolSolver (fun tool => SetsPose <$> entities tool)
  | RigidPhase =>
      active RigidSolver (fun rigid => concat (geom_entries <$> entities rigid))
  | ContactArrows =>
      active RigidSolver (fun rigid =>
        if existsb visualize_contact (links rigid)
        then concat (contact_arrows (links rigid)
                       <$> imap pair (contacts rigid))
        else [])
  | AvatarPhase =>
      active AvatarSolver (fun avatar =>
        concat (geom_entries <$> entities avatar))
  | MPMPhase => particles MPMSolver
  | SPHPhase => particles SPHSolver
  | PBDPhase => particles PBDSolver
  | FEMPhase => particles FEMSolver
  | _ => []
  end.

Definition same_simulator (s s' : Scene.t) : Prop :=
  Scene._sim s' = Scene._sim s.

(** What a family may do to the mirror: the registries and the options
    stay, entries come into the buffer-update map, and requests and dynamic
    nodes are appended. *)
Record accumulating (c c' : RasterizerContext.t) : Prop := {
  acg_static : static_nodes c' = static_nodes c;
  acg_rigid : rigid_nodes c' = rigid_nodes c;
  acg_frames : link_frame_nodes c' = link_frame_nodes c;
  acg_shown : link_frame_shown c' = link_frame_shown c;
  acg_particle_as : render_particle_as c' = render_particle_as c;
  acg_buffer : dom (buffer c) ⊆ dom (buffer c');
  acg_requests : exists new,
    requests (_scene c') = (requests (_scene c) ++ new)%list;
  acg_dynamic : exists added,
    dynamic_nodes c' = (dynamic_nodes c ++ added)%list
}.

(** The same on a scene, whose simulator stays as it is. *)
Definition proceeds (s s' : Scene.t) : Prop :=
  same_simulator s s'
  /\ accumulating (rasterizer_context.get_context s)
                  (rasterizer_context.get_context s').

(** The requests sent so far number at least [k]. *)
Definition reached (k : nat) (s : Scene.t) : Prop :=
  (k <= length (requests (_scene (rasterizer_context.get_context s))))%nat.

(** The kinds of request each family sends; link frames and FEM send
    none. *)
Definition family_request (p : Phase) (r : Request) : bool :=
  match p, r with
  | ToolPhase, SetPose _ _ => true
  | RigidPhase, (ResetMeshBounds _ | SetPrimitivePoses _ _
                 | SetReflectionMat _) => true
  | AvatarPhase, (ResetMeshBounds _ | SetPrimitivePoses _ _) => true
  | ContactArrows, Add _ obj None =>
      match name obj with
      | Name text => String.prefix "debug_arrow_" text
      | _ => false
      end
  | (MPMPhase | SPHPhase | PBDPhase), Add _ obj None =>
      match name obj with
      | NameNone => true
      | _ => false
      end
  | _, _ => false
  end.

(** The requests sent in between are all of one kind. *)
Definition sends (kind : Request -> bool) (c c' : RasterizerContext.t)
  : Prop :=
  exists new,
    requests (_scene c') = (requests (_scene c) ++ new)%list
    /\ Forall (fun r => kind r = true) new.

Definition scene_sends (kind : Request -> bool) (s s' : Scene.t) : Prop :=
  sends kind (rasterizer_context.get_context s)
             (rasterizer_context.get_context s').

End WithCollaborators.
End accumulation.
Import accumulation.

(** * Properties *)

Section PreservationLemmas.
Context {S : Type} (R : S -> S -> Prop) `{!Reflexive R, !Transitive R}.

Lemma preserves_ret {A} (a : A) : preserves R (mret a : M S A).
Proof. intros s. simpl. reflexivity. Qed.

Lemma preserves_raise {A} (e : exn) : preserves R (raise e : M S A).
Proof. intros s. simpl. reflexivity. Qed.

Lemma preserves_raise_exception {A} msg :
  preserves R (raise_exception msg : M S A).
Proof. apply preserves_raise. Qed.

Lemma preserves_gets {A} (f : S -> A) : preserves R (gets f).
Proof. intros s. simpl. reflexivity. Qed.

Lemma preserves_getattr {A} name (f : S -> option A) :
  preserves R (getattr name f).
Proof. intros s. unfold getattr. destruct (f s); simpl; reflexivity. Qed.

Lemma preserves_getitem {A} (o : option A) : preserves R (getitem o : M S A).
Proof. destruct o; [apply preserves_ret | apply preserves_raise]. Qed.

Lemma preserves_modify (f : S -> S) :
  (forall s, R s (f s)) -> preserves R (modify f).
Proof. intros Hf s. apply Hf. Qed.

Lemma preserves_bind {A B} (m : M S A) (f : A -> M S B) :
  preserves R m -> (forall a, preserves R (f a)) -> preserves R (m ≫= f).
Proof.
  intros Hm Hf s. specialize (Hm s). unfold mbind, M_bind.
  destruct (m s) as [s' [a|e]]; simpl in *; [|done].
  etransitivity; [exact Hm | apply Hf].
Qed.

Lemma preserves_when (b : bool) (m : M S unit) :
  preserves R m -> preserves R (when b m).
Proof. destruct b; [done | intros _; apply preserves_ret]. Qed.

Lemma preserves_for_each {A} (l : list A) (body : A -> M S unit) :
  (forall x, preserves R (body x)) -> preserves R (for_each l body).
Proof.
  intros Hbody. induction l as [|x l IH]; simpl.
  - apply preserves_ret.
  - apply preserves_bind; [apply Hbody | intros _; exact IH].
Qed.

Lemma preserves_zoom {T A} (proj : S -> T) (inj : T -> S -> S) (m : M T A) :
  (forall t s, R s (inj t s)) -> preserves R (zoom proj inj m).
Proof.
  intros Hinj s. unfold zoom. destruct (m (proj s)) as [t' r]. apply Hinj.
Qed.

End PreservationLemmas.

Ltac preserves_step :=
  lazymatch goal with
  | |- preserves ?R (mbind _ _) => apply (preserves_bind R)
  | |- preserves ?R (mret _) => apply (preserves_ret R)
  | |- preserves ?R (raise _) => apply (preserves_raise R)
  | |- preserves ?R (raise_exception _) => apply (preserves_raise_exception R)
  | |- preserves ?R (gets _) => apply (preserves_gets R)
  | |- preserves ?R (getattr _ _) => apply (preserves_getattr R)
  | |- preserves ?R (getitem _) => apply (preserves_getitem R)
  | |- preserves ?R (when _ _) => apply (preserves_when R)
  | |- preserves ?R (for_each _ _) => apply (preserves_for_each R)
  | |- preserves _ (let _ := _ in _) => cbv zeta
  | |- preserves _ (if ?b then _ else _) => destruct b
  | |- preserves _ (match ?x with _ => _ end) => destruct x
  | |- forall _, _ => intros
  end.

Section SceneFacts.
Context `{Collaborators}.
Import Scene.

#[local] Instance same_life_cycle_refl : Reflexive same_life_cycle.
Proof. intros s. reflexivity. Qed.

#[local] Instance same_life_cycle_trans : Transitive same_life_cycle.
Proof. intros s1 s2 s3 H1 H2. unfold same_life_cycle in *. congruence. Qed.

Lemma on_sim_life_cycle {A} (m : M Simulator A) :
  preserves same_life_cycle (scene.on_sim m).
Proof. apply preserves_zoom. intros sim s. reflexivity. Qed.

Lemma step_grad_life_cycle : preserves same_life_cycle scene._step_grad.
Proof.
  unfold scene._step_grad.
  repeat first [apply on_sim_life_cycle | preserves_step].
  apply preserves_modify. intros s. reflexivity.
Qed.

Lemma step_grad_t s s' u :
  scene._step_grad s = (s', Returned u) -> _t s' = _t s - 1.
Proof.
  unfold scene._step_grad, scene.on_sim, zoom, modify, mbind, M_bind.
  destruct (sim_collect_output_grads (_sim s)) as [sim1 [[]|?]]; [|discriminate].
  simpl. destruct (sim__step_grad sim1) as [sim2 [[]|?]]; [|discriminate].
  simpl. intros [= <-]. reflexivity.
Qed.

(** The [while] loop of [_backward] runs [_step_grad] exactly [_t] times. *)
Lemma backward_through_time_unroll (s : Scene.t) :
  scene.backward_through_time s = api.step_grad_times (Z.to_nat (_t s)) s.
Proof.
  funelim (scene.backward_through_time s).
  - match goal with
    | Hz : Z.ltb 0 _ = false |- _ => pose proof (proj1 (Z.ltb_ge _ _) Hz)
    end.
    replace (Z.to_nat (_t self)) with 0%nat by lia. reflexivity.
  - match goal with
    | Hp : Z.ltb 0 _ = true |- _ => pose proof (proj1 (Z.ltb_lt _ _) Hp)
    end.
    match goal with
    | Hs : scene._step_grad self = (self', Returned _) |- _ =>
        pose proof (step_grad_t _ _ _ Hs) as Ht;
        replace (Z.to_nat (_t self)) with (S (Z.to_nat (_t self'))) by lia;
        simpl; unfold mbind, M_bind; rewrite Hs
    end.
    match goal with
    | IH : scene.backward_through_time _ = api.step_grad_times _ _ |- _ =>
        exact IH
    end.
  - match goal with
    | Hp : Z.ltb 0 _ = true |- _ => pose proof (proj1 (Z.ltb_lt _ _) Hp)
    end.
    destruct (Z.to_nat (_t self)) as [|n] eqn:Hn; [lia|].
    match goal with
    | Hs : scene._step_grad self = (self', Raised _) |- _ =>
        simpl; unfold mbind, M_bind; rewrite Hs
    end.
    reflexivity.
Qed.

















End SceneFacts.

Section ResetFacts.
Context `{Collaborators}.
Import Scene.

(** C3: on a built scene, [reset(state, envs_idx)] registers a given [state]
    as the initial state (else takes the registered one), hands that snapshot
    and the selector, [None] when omitted, to the simulator's reset, and then
    sets [_t = 0], sets [forward_ready] and [backward_ready], puts the render
    mirror's marker back to -1 and every emitter's cursor back to 0. *)
Theorem C3_reset (s : Scene.t) (state : option SimState) (envs_idx : Selector)
  (snapshot : SimState) (sim' : Simulator) :
  _is_built s = true ->
  (state = Some snapshot \/ (state = None /\ _init_state s = Some snapshot)) ->
  sim_reset snapshot envs_idx (_sim s) = (sim', Returned tt) ->
  exists s',
    scene.reset state envs_idx s = (s', Returned tt)
    /\ _init_state s' = Some snapshot
    /\ _sim s' = sim'
    /\ _t s' = 0
    /\ _forward_ready s' = true
    /\ _backward_ready s' = true
    /\ RasterizerContext._t (rasterizer_context.get_context s') = Some (-1)
    /\ _emitters s' = emitter.reset <$> _emitters s
    /\ Forall (fun e => Emitter._next_particle e = 0) (_emitters s').
Proof.
  intros Hb Hstate Hsim.
  unfold scene.reset, scene.assert_built, scene._reset.
  unfold mbind, M_bind, gets, modify, mret, M_ret. rewrite Hb. simpl.
  rewrite Hb.
  destruct Hstate as [-> | [-> Hinit]].
  - unfold scene.on_sim, zoom. simpl. rewrite Hsim. simpl.
    eexists. split; [reflexivity|]. simpl.
    repeat split. apply Forall_fmap, Forall_true. done.
  - unfold getattr. rewrite Hinit. simpl.
    unfold scene.on_sim, zoom. rewrite Hsim. simpl.
    eexists. split; [reflexivity|]. simpl.
    repeat split; [done|]. apply Forall_fmap, Forall_true. done.
Qed.

End ResetFacts.

Section SelectorFacts.
Context `{Collaborators}.
Import Scene.

Lemma slice_positions_in_range n start stop step :
  0 <= n -> 1 <= step ->
  Forall (in_range n) (slice_positions n start stop step).
Proof.
  intros Hn Hstep. unfold slice_positions.
  set (lo := clip_bound n 0 start). set (hi := clip_bound n n stop).
  assert (Hlo : 0 <= lo <= n).
  { unfold lo, clip_bound. destruct start as [i|]; [|lia].
    destruct (Z.ltb_spec i 0); lia. }
  assert (Hhi : 0 <= hi <= n).
  { unfold hi, clip_bound. destruct stop as [i|]; [|lia].
    destruct (Z.ltb_spec i 0); lia. }
  destruct (Z.ltb_spec lo hi) as [Hlt|]; [|constructor].
  apply Forall_fmap, Forall_forall. intros k Hk%elem_of_seqZ. unfold in_range. simpl.
  pose proof (Z.mul_div_le (hi - lo + step - 1) step ltac:(lia)).
  nia.
Qed.

Lemma arange_pick n (pos : list Z) :
  Forall (in_range n) pos ->
  omap (fun i => seqZ 0 n !! Z.to_nat i) pos = pos.
Proof.
  induction 1 as [|i pos Hi _ IH]; [done|]. simpl.
  rewrite lookup_seqZ_lt by (unfold in_range in Hi; lia).
  unfold in_range in Hi. f_equal; [lia | exact IH].
Qed.

Lemma getslice_arange {S} n start stop step (s : S) :
  0 <= n -> 1 <= default 1 step ->
  let picked := slice_positions n start stop (default 1 step) in
  getslice (arange n) start stop step s =
  (s, Returned {| shape := [length picked]; data := picked |}).
Proof.
  intros Hn Hstep picked. unfold getslice.
  destruct (Z.eqb_spec (default 1 step) 0) as [|_]; [lia|].
  destruct (Z.ltb_spec (default 1 step) 1) as [|_]; [lia|].
  simpl. rewrite length_seqZ, Z2Nat.id by lia.
  fold picked. rewrite arange_pick; [done|].
  by apply slice_positions_in_range.
Qed.

Lemma slice_positions_strided n a b k :
  0 <= a <= b -> b <= n -> 1 <= k ->
  slice_positions n (Some a) (Some b) k
  = (fun j => a + j * k) <$> seqZ 0 ((b - a + k - 1) / k).
Proof.
  intros Hab Hbn Hk. unfold slice_positions, clip_bound.
  destruct (Z.ltb_spec a 0); [lia|]. destruct (Z.ltb_spec b 0); [lia|].
  rewrite (Z.min_l a n), (Z.min_l b n) by lia.
  destruct (Z.ltb_spec a b) as [|Hge]; [done|].
  assert (b = a) as -> by lia.
  replace ((a - a + k - 1) / k) with 0; [done|].
  symmetry. apply Z.div_small. lia.
Qed.

Lemma strided_by_one a m :
  0 <= m -> (fun j => a + j * 1) <$> seqZ 0 ((m + 1 - 1) / 1) = seqZ a m.
Proof.
  intros Hm. rewrite Z.div_1_r. replace (m + 1 - 1) with m by lia.
  apply list_eq. intros i. rewrite list_lookup_fmap.
  destruct (decide (Z.of_nat i < m)) as [Hi|Hi].
  - rewrite !lookup_seqZ_lt by lia. simpl. f_equal. lia.
  - rewrite !lookup_seqZ_ge by lia. done.
Qed.

Lemma slice_positions_contiguous n a b :
  0 <= a <= b -> b <= n ->
  slice_positions n (Some a) (Some b) 1 = seqZ a (b - a).
Proof.
  intros Hab Hbn. rewrite slice_positions_strided by lia.
  apply strided_by_one. lia.
Qed.

Lemma slice_positions_all n :
  0 <= n -> slice_positions n None None 1 = seqZ 0 n.
Proof.
  intros Hn. unfold slice_positions, clip_bound.
  destruct (Z.ltb_spec 0 n) as [|Hge].
  - replace (n - 0 + 1 - 1) with (n + 1 - 1) by lia.
    by rewrite strided_by_one by lia.
  - by assert (n = 0) as -> by lia.
Qed.

Lemma slice_positions_single n i :
  0 <= i < n -> slice_positions n (Some i) (Some (i + 1)) 1 = [i].
Proof.
  intros Hi. rewrite slice_positions_contiguous by lia.
  replace (i + 1 - i) with 1 by lia. reflexivity.
Qed.

Lemma fits_tc_int v :
  representable (dtype_type tc_int) v = true <-> - 2 ^ 31 <= v < 2 ^ 31.
Proof.
  unfold representable, min_value, max_value. simpl.
  rewrite andb_true_iff, !Z.leb_le. lia.
Qed.

Lemma wrap_representable t v : representable t v = true -> wrap t v = v.
Proof.
  unfold representable, wrap, min_value, max_value.
  rewrite andb_true_iff, !Z.leb_le.
  destruct t; simpl; intros [Hlo Hhi]; rewrite Z.mod_small; lia.
Qed.

Lemma wrap_tc_int v w k :
  - 2 ^ 31 <= w < 2 ^ 31 -> v = w + k * 2 ^ 32 ->
  wrap (dtype_type tc_int) v = w.
Proof.
  intros Hw ->. unfold wrap, min_value.
  cbn [dtype_type tc_int bits is_signed].
  change (2 ^ (32 - 1)) with 2147483648.
  change (2 ^ 32) with 4294967296.
  change (2 ^ 31) with 2147483648 in Hw.
  Z.to_euclidean_division_equations. lia.
Qed.

Lemma wrap_past_the_largest t : wrap t (max_value t + 1) = min_value t.
Proof. destruct t; reflexivity. Qed.

(** What the checks make of the tensor that [torch.as_tensor] gave. *)
Lemma sanitize_array_checked s n a x :
  n_envs s = Some n -> n <> 0 ->
  as_tensor a s = (s, Returned x) ->
  scene._sanitize_envs_idx (SelArray a) false s =
  (s, if negb (bool_decide (ndim (atleast_1d x) = 1%nat)) then
        Raised (GenesisException "Expecting a 1D tensor for `envs_idx`.")
      else if existsb (fun i => i <? 0) (data (atleast_1d x))
              || existsb (fun i => n <=? i) (data (atleast_1d x)) then
        Raised (GenesisException "`envs_idx` exceeds valid range.")
      else Returned (IntArray tc_int (atleast_1d x))).
Proof.
  intros Hn Hn0 Hx. unfold scene._sanitize_envs_idx.
  unfold mbind at 1. unfold M_bind at 1. unfold getattr. rewrite Hn.
  destruct (Z.eqb_spec n 0); [done|].
  unfold mbind, M_bind. rewrite Hx.
  repeat case_match; reflexivity.
Qed.

Lemma in_range_checks n (l : list Z) :
  Forall (in_range n) l ->
  existsb (fun i => i <? 0) l || existsb (fun i => n <=? i) l = false.
Proof.
  intros Hl. apply orb_false_iff. split.
  - apply not_true_is_false. intros (i & Hi & Hneg)%existsb_exists.
    apply list_elem_of_In in Hi.
    pose proof (proj1 (Forall_forall _ _) Hl i Hi) as Hr.
    unfold in_range in Hr. lia.
  - apply not_true_is_false. intros (i & Hi & Hbig)%existsb_exists.
    apply list_elem_of_In in Hi.
    pose proof (proj1 (Forall_forall _ _) Hl i Hi) as Hr.
    unfold in_range in Hr. lia.
Qed.

Lemma out_of_range_checks n (l : list Z) :
  Exists (fun i => ~ in_range n i) l ->
  existsb (fun i => i <? 0) l || existsb (fun i => n <=? i) l = true.
Proof.
  intros (i & Hi & Hbad)%Exists_exists. apply orb_true_iff.
  unfold in_range in Hbad. apply list_elem_of_In in Hi.
  destruct (Z.ltb_spec i 0) as [Hneg|Hpos].
  - left. apply existsb_exists. exists i. split; [done|]. lia.
  - right. apply existsb_exists. exists i. split; [done|]. lia.
Qed.

Lemma atleast_1d_data x : data (atleast_1d x) = data x.
Proof. unfold atleast_1d. by destruct (shape x). Qed.

Lemma atleast_1d_ndim x :
  (length (shape x) <= 1)%nat -> ndim (atleast_1d x) = 1%nat.
Proof.
  unfold atleast_1d, ndim.
  destruct (shape x) as [|d [|d' rest]] eqn:Hs; simpl; intros Hdim;
    [reflexivity | by rewrite Hs | lia].
Qed.

Lemma sanitize_array_accepted s n a x :
  n_envs s = Some n -> n <> 0 ->
  as_tensor a s = (s, Returned x) ->
  (length (shape x) <= 1)%nat -> Forall (in_range n) (data x) ->
  scene._sanitize_envs_idx (SelArray a) false s
  = (s, Returned (IntArray tc_int (atleast_1d x))).
Proof.
  intros Hn Hn0 Hx Hdim Hdata.
  rewrite (sanitize_array_checked s n a x Hn Hn0 Hx).
  rewrite bool_decide_eq_true_2 by (by apply atleast_1d_ndim).
  cbn [negb]. by rewrite atleast_1d_data, in_range_checks.
Qed.

Lemma sanitize_array_out_of_range s n a x :
  n_envs s = Some n -> n <> 0 ->
  as_tensor a s = (s, Returned x) ->
  (length (shape x) <= 1)%nat -> Exists (fun i => ~ in_range n i) (data x) ->
  scene._sanitize_envs_idx (SelArray a) false s
  = (s, Raised (GenesisException "`envs_idx` exceeds valid range.")).
Proof.
  intros Hn Hn0 Hx Hdim Hdata.
  rewrite (sanitize_array_checked s n a x Hn Hn0 Hx).
  rewrite bool_decide_eq_true_2 by (by apply atleast_1d_ndim).
  cbn [negb]. by rewrite atleast_1d_data, out_of_range_checks.
Qed.

Lemma sanitize_array_dimensions s n a x :
  n_envs s = Some n -> n <> 0 ->
  as_tensor a s = (s, Returned x) ->
  (2 <= length (shape x))%nat ->
  scene._sanitize_envs_idx (SelArray a) false s
  = (s, Raised (GenesisException "Expecting a 1D tensor for `envs_idx`.")).
Proof.
  intros Hn Hn0 Hx Hdim.
  rewrite (sanitize_array_checked s n a x Hn Hn0 Hx).
  rewrite bool_decide_eq_false_2; [done|].
  unfold atleast_1d, ndim.
  destruct (shape x) as [|d [|d' rest]] eqn:Hs; simpl in *; try lia.
  rewrite Hs. simpl. lia.
Qed.

Lemma as_tensor_ints {S} (l : list Z) (s : S) :
  Forall (fun i => - 2 ^ 31 <= i < 2 ^ 31) l ->
  as_tensor (PyInts l) s = (s, Returned {| shape := [length l]; data := l |}).
Proof.
  intros Hl. unfold as_tensor.
  replace (forallb _ l) with true; [done|].
  symmetry. apply forallb_forall. intros i Hi%list_elem_of_In.
  apply fits_tc_int. exact (proj1 (Forall_forall _ _) Hl i Hi).
Qed.

Lemma as_tensor_array {S} dtype (x : Tensor) (s : S) :
  as_tensor (IntArray dtype x) s
  = (s, Returned {| shape := shape x;
                    data := wrap (dtype_type tc_int) <$> data x |}).
Proof. reflexivity. Qed.

Lemma as_tensor_overflow {S} (l : list Z) (s : S) :
  Exists (fun i => ~ (- 2 ^ 31 <= i < 2 ^ 31)) l ->
  as_tensor (PyInts l) s = (s, Raised RuntimeError).
Proof.
  intros (i & Hi & Hbad)%Exists_exists. unfold as_tensor.
  replace (forallb _ l) with false; [done|].
  symmetry. apply not_true_is_false. intros Hall.
  apply Hbad, fits_tc_int.
  exact (proj1 (forallb_forall _ _) Hall i (proj1 (list_elem_of_In _ _) Hi)).
Qed.

Lemma cast_fitting (l : list Z) :
  Forall (fun i => - 2 ^ 31 <= i < 2 ^ 31) l ->
  wrap (dtype_type tc_int) <$> l = l.
Proof.
  induction 1 as [|i l Hi _ IH]; [done|]. rewrite fmap_cons.
  rewrite IH. f_equal. apply wrap_representable, fits_tc_int. exact Hi.
Qed.

Lemma cast_wrapping (B : Z) (vs ws : list Z) :
  B <= 2 ^ 31 ->
  Forall2 (fun v w => 0 <= w < B /\ exists k, v = w + k * 2 ^ 32) vs ws ->
  wrap (dtype_type tc_int) <$> vs = ws.
Proof.
  intros HB. induction 1 as [|v w vs ws [Hw [k Hk]] _ IH]; [done|].
  rewrite fmap_cons, IH. f_equal. apply (wrap_tc_int v w k); [lia | exact Hk].
Qed.

Lemma in_range_fits (B : Z) (l : list Z) :
  B <= 2 ^ 31 -> Forall (in_range B) l ->
  Forall (fun i => - 2 ^ 31 <= i < 2 ^ 31) l.
Proof.
  intros HB Hl. eapply Forall_impl; [exact Hl|].
  intros i Hi. unfold in_range in Hi. lia.
Qed.

(** C4 (amended): [_sanitize_envs_idx] on a scene laid out for
    [n_envs = n < 2^31], with [B = max(1, n)].  [None] selects all
    environments, [0 .. B-1].  When [n_envs == 0] every other selector is
    rejected.  Otherwise:
    - a slice of step at least one yields environments of [0, B); the slice
      [a:b:k] within [0 <= a <= b <= B] yields [a, a+k, ...] below [b], so
      [a:b] yields [a .. b-1], and [:] yields all;
    - a Python int in [0, B) yields that one environment, and so does a
      NumPy integer scalar in [0, B) unless it is the largest of its type;
    - with [unsafe=False], a list of Python ints is accepted as it stands
      when every entry is in [0, B), raises [RuntimeError] when an entry
      does not fit [int32], and is refused with the range message when all
      fit and one is outside [0, B); a tensor or array has its entries cast
      to [int32], wrapping around, and is then accepted when it has at most
      one dimension and every entry is in [0, B), a 0-dimensional one made a
      vector of one entry; it is refused with the dimension message when it
      has two dimensions or more, and with the range message when it has at
      most one and an entry outside [0, B);
    - with [unsafe=True] a list, tensor or array is returned as it is,
      unchecked. *)
Theorem C4_sanitize_envs_idx (s : Scene.t) (n : Z) :
  0 <= n < 2 ^ 31 -> parallelized n s ->
  let B := Z.max 1 n in
  let selection (picked : list Z) : ArrayLike :=
    IntArray torch_int32 {| shape := [length picked]; data := picked |} in
  let sanitize := fun envs_idx unsafe =>
    scene._sanitize_envs_idx envs_idx unsafe s in
  let out_of_range := GenesisException "`envs_idx` exceeds valid range." in
  (forall unsafe,
     sanitize SelNone unsafe = (s, Returned (selection (seqZ 0 B))))
  /\ (n = 0 -> forall envs_idx unsafe, envs_idx <> SelNone ->
        sanitize envs_idx unsafe =
        (s, Raised (GenesisException
              "`envs_idx` is not supported for non-parallelized scene.")))
  /\ (n <> 0 ->
      (forall start stop step unsafe, 1 <= default 1 step ->
         exists picked,
           sanitize (SelSlice start stop step) unsafe
           = (s, Returned (selection picked))
           /\ Forall (fun i => 0 <= i < B) picked)
      /\ (forall a b k unsafe, 0 <= a <= b -> b <= B -> 1 <= k ->
            sanitize (SelSlice (Some a) (Some b) (Some k)) unsafe
            = (s, Returned (selection
                  ((fun j => a + j * k) <$> seqZ 0 ((b - a + k - 1) / k)))))
      /\ (forall a b unsafe, 0 <= a <= b -> b <= B ->
            sanitize (SelSlice (Some a) (Some b) None) unsafe
            = (s, Returned (selection (seqZ a (b - a)))))
      /\ (forall unsafe,
            sanitize (SelSlice None None None) unsafe
            = (s, Returned (selection (seqZ 0 B))))
      /\ (forall i unsafe, 0 <= i < B ->
            sanitize (SelInt i) unsafe = (s, Returned (selection [i])))
      /\ (forall t i unsafe, 0 <= i < B -> i < max_value t ->
            sanitize (SelNpInt t i) unsafe = (s, Returned (selection [i])))
      /\ (forall l,
            Forall (fun i => 0 <= i < B) l ->
            sanitize (SelArray (PyInts l)) false
            = (s, Returned (selection l)))
      /\ (forall l,
            Exists (fun i => ~ (- 2 ^ 31 <= i < 2 ^ 31)) l ->
            sanitize (SelArray (PyInts l)) false = (s, Raised RuntimeError))
      /\ (forall l,
            Forall (fun i => - 2 ^ 31 <= i < 2 ^ 31) l ->
            Exists (fun i => ~ 0 <= i < B) l ->
            sanitize (SelArray (PyInts l)) false = (s, Raised out_of_range))
      /\ (forall dtype v, 0 <= v < B ->
            sanitize (SelArray (IntArray dtype {| shape := []; data := [v] |}))
              false
            = (s, Returned (selection [v])))
      /\ (forall dtype len vs ws,
            Forall2 (fun v w => 0 <= w < B /\ exists k, v = w + k * 2 ^ 32)
              vs ws ->
            sanitize (SelArray (IntArray dtype {| shape := [len]; data := vs |}))
              false
            = (s, Returned
                    (IntArray torch_int32 {| shape := [len]; data := ws |})))
      /\ (forall dtype x, (2 <= length (shape x))%nat ->
            sanitize (SelArray (IntArray dtype x)) false
            = (s, Raised (GenesisException
                            "Expecting a 1D tensor for `envs_idx`.")))
      /\ (forall dtype x, (length (shape x) <= 1)%nat ->
            Forall (fun i => - 2 ^ 31 <= i < 2 ^ 31) (data x) ->
            Exists (fun i => ~ 0 <= i < B) (data x) ->
            sanitize (SelArray (IntArray dtype x)) false
            = (s, Raised out_of_range))
      /\ (forall a, sanitize (SelArray a) true = (s, Returned a))).
Proof.
  intros Hn (Hn_envs & HB & Hall) B selection sanitize out_of_range.
  assert (Hslice : forall envs_idx start stop step,
            (envs_idx = SelSlice start stop step
             \/ (step = None /\ exists i,
                   envs_idx = SelInt i /\ start = Some i
                   /\ stop = Some (i + 1))
             \/ (step = None /\ exists t i,
                   envs_idx = SelNpInt t i /\ start = Some i
                   /\ stop = Some (wrap t (i + 1)))) ->
            n <> 0 -> 1 <= default 1 step -> forall unsafe,
            sanitize envs_idx unsafe
            = (s, Returned
                    (selection (slice_positions B start stop
                                  (default 1 step))))).
  { intros envs_idx start stop step Hsel Hn0 Hstep unsafe.
    unfold sanitize, scene._sanitize_envs_idx.
    destruct Hsel as [-> | [[-> (i & -> & -> & ->)]
                            | [-> (t & i & -> & -> & ->)]]].
    all: unfold mbind at 1; unfold M_bind at 1; unfold getattr;
      rewrite Hn_envs; destruct (Z.eqb_spec n 0); [done|];
      unfold mbind, M_bind; rewrite Hall;
      rewrite getslice_arange by (unfold B in *; simpl in *; lia);
      reflexivity. }
  split; [|split].
  - intros unsafe. unfold sanitize. simpl. unfold mbind, M_bind, getattr.
    rewrite Hall. unfold selection, arange. by rewrite length_seqZ.
  - intros -> envs_idx unsafe Hsel.
    unfold sanitize, scene._sanitize_envs_idx, mbind, M_bind, getattr.
    destruct envs_idx; [done|..]; by rewrite Hn_envs.
  - intros Hn0. assert (HBn : B = n) by (unfold B; lia).
    assert (HB31 : B <= 2 ^ 31) by lia.
    split; [|split; [|split; [|split; [|split; [|split]]]]].
    + intros start stop step unsafe Hstep. eexists. split.
      * by apply (Hslice _ start stop step); [left|..].
      * apply (slice_positions_in_range B); [unfold B; lia | done].
    + intros a b k unsafe Hab Hb Hk.
      rewrite (Hslice _ (Some a) (Some b) (Some k)) by (by left || done).
      simpl. by rewrite slice_positions_strided.
    + intros a b unsafe Hab Hb.
      rewrite (Hslice _ (Some a) (Some b) None) by (by left || done).
      simpl. by rewrite slice_positions_contiguous.
    + intros unsafe.
      rewrite (Hslice _ None None None) by (by left || done).
      simpl. by rewrite slice_positions_all by (unfold B; lia).
    + intros i unsafe Hi.
      rewrite (Hslice _ (Some i) (Some (i + 1)) None);
        [|right; left; split; [done|]; by exists i|done|done].
      simpl. by rewrite slice_positions_single.
    + intros t i unsafe Hi Hmax.
      rewrite (Hslice _ (Some i) (Some (wrap t (i + 1))) None);
        [|right; right; split; [done|]; by exists t, i|done|done].
      simpl. rewrite wrap_representable.
      * by rewrite slice_positions_single.
      * unfold representable. apply andb_true_iff.
        rewrite !Z.leb_le. split; [|lia].
        unfold min_value. destruct (is_signed t); [|lia].
        assert (0 < 2 ^ (bits t - 1)) by (destruct t; simpl; lia). lia.
    + rewrite <- HBn in Hn_envs. repeat split.
      * intros l Hl. unfold sanitize.
        by rewrite (sanitize_array_accepted s B _ _ Hn_envs ltac:(lia)
                      (as_tensor_ints l s (in_range_fits B l HB31 Hl))
                      ltac:(simpl; lia) Hl).
      * intros l Hl. unfold sanitize, scene._sanitize_envs_idx.
        unfold mbind at 1. unfold M_bind at 1. unfold getattr.
        rewrite Hn_envs. destruct (Z.eqb_spec B 0); [lia|].
        unfold mbind, M_bind. by rewrite (as_tensor_overflow l s Hl).
      * intros l Hfit Hbad. unfold sanitize.
        by rewrite (sanitize_array_out_of_range s B _ _ Hn_envs ltac:(lia)
                      (as_tensor_ints l s Hfit) ltac:(simpl; lia) Hbad).
      * intros dtype v Hv. unfold sanitize.
        rewrite (sanitize_array_accepted s B _ _ Hn_envs ltac:(lia)
                   (as_tensor_array dtype {| shape := []; data := [v] |} s)).
        -- cbn [shape data]. rewrite (cast_fitting [v]); [done|].
           constructor; [lia | constructor].
        -- simpl. lia.
        -- cbn [shape data]. rewrite (cast_fitting [v]).
           ++ constructor; [exact Hv | constructor].
           ++ constructor; [lia | constructor].
      * intros dtype len vs ws Hcast. unfold sanitize.
        rewrite (sanitize_array_accepted s B _ _ Hn_envs ltac:(lia)
                   (as_tensor_array dtype {| shape := [len]; data := vs |} s)).
        -- cbn [shape data]. by rewrite (cast_wrapping B vs ws HB31 Hcast).
        -- simpl. lia.
        -- cbn [shape data]. rewrite (cast_wrapping B vs ws HB31 Hcast).
           clear -Hcast. induction Hcast as [|v w vs ws [Hw _] _ IH];
             constructor; done.
      * intros dtype x Hdim. unfold sanitize.
        by rewrite (sanitize_array_dimensions s B _ _ Hn_envs ltac:(lia)
                      (as_tensor_array dtype x s) Hdim).
      * intros dtype x Hdim Hfit Hbad. unfold sanitize.
        rewrite (sanitize_array_out_of_range s B _ _ Hn_envs ltac:(lia)
                   (as_tensor_array dtype x s) Hdim); [done|].
        cbn [data]. by rewrite (cast_fitting (data x) Hfit).
      * intros a. unfold sanitize, scene._sanitize_envs_idx.
        unfold mbind, M_bind, getattr.
        rewrite Hn_envs. by destruct (Z.eqb_spec B 0); [lia|].
Qed.

End SelectorFacts.

Section LayoutFacts.
Context `{Collaborators}.
Import Scene.

Lemma grid_offsets_cells B per_row sx sy :
  per_row <> 0 ->
  scene.grid_offsets B per_row sx sy = grid_cell per_row sx sy <$> seqZ 0 B.
Proof.
  intros Hrow. unfold scene.grid_offsets, grid_cell, scene.np_mod.
  by destruct (Z.eqb_spec per_row 0).
Qed.

Lemma spacing_pair_None env_spacing :
  ~ two_element_sequence env_spacing -> scene.spacing_pair env_spacing = None.
Proof.
  destruct env_spacing as [l|l|l|x]; simpl; try done.
  all: destruct l as [|a [|b [|c l]]]; simpl; try done; intros []; done.
Qed.

Lemma parallelize_raises s n_envs env_spacing row center :
  scene.spacing_pair env_spacing = None ->
  exists s',
    scene._parallelize n_envs env_spacing row center s =
    (s', Raised (GenesisException "`env_spacing` should be a tuple of length 2."))
    /\ _is_built s' = _is_built s.
Proof.
  intros Hsp. unfold scene._parallelize, mbind, M_bind, modify.
  simpl. rewrite Hsp. eexists. split; reflexivity.
Qed.

Lemma largest_shifted (c x : Float) (rest : list Float) :
  exact_arithmetic ->
  foldl fmax (fsub x c) ((fun y => fsub y c) <$> rest)
  = fsub (foldl fmax x rest) c.
Proof.
  intros Hexact. revert x. induction rest as [|y rest IH]; intros x; [done|].
  simpl. by rewrite (sub_max Hexact), IH.
Qed.

Lemma smallest_shifted (c x : Float) (rest : list Float) :
  exact_arithmetic ->
  foldl fmin (fsub x c) ((fun y => fsub y c) <$> rest)
  = fsub (foldl fmin x rest) c.
Proof.
  intros Hexact. revert x. induction rest as [|y rest IH]; intros x; [done|].
  simpl. by rewrite (sub_min Hexact), IH.
Qed.

(** Shifting a non-empty column by the point midway between its extremes
    centers it. *)
Lemma shifted_centered (coords : list Float) :
  exact_arithmetic -> coords <> [] ->
  centered ((fun y => fsub y (midway coords)) <$> coords).
Proof.
  intros Hexact Hne. destruct coords as [|x rest]; [done|].
  unfold centered, midway. simpl.
  rewrite largest_shifted, smallest_shifted by done.
  apply (about_midpoint Hexact).
Qed.

Lemma shifted_axis_centered {A} (proj : A -> Float) (shift : A -> A)
  (cells : list A) :
  exact_arithmetic -> cells <> [] ->
  (forall o, proj (shift o) = fsub (proj o) (midway (proj <$> cells))) ->
  centered (proj <$> (shift <$> cells)).
Proof.
  intros Hexact Hne Hshift.
  replace (proj <$> (shift <$> cells))
    with ((fun y => fsub y (midway (proj <$> cells))) <$> (proj <$> cells)).
  - apply shifted_centered; [done|]. by destruct cells.
  - apply list_eq. intros i. rewrite !list_lookup_fmap.
    destruct (cells !! i); simpl; [|done]. by rewrite Hshift.
Qed.

Lemma column_center_midway (coords : list Float) :
  coords <> [] -> scene.column_center coords = midway coords.
Proof. by destruct coords. Qed.

(** C6: for a 2-element list or tuple [env_spacing] and a non-zero row
    length, [_parallelize] stores one offset per environment, a function of
    the arguments alone: environment [i] gets
    [((i div per_row) * sx, (i mod per_row) * sy, 0)], minus, when centering
    is requested, the point midway between the largest and the smallest
    coordinate of the grid on each axis.  Where the arithmetic does not
    round, the stored offsets are then centered: on each axis their largest
    and their smallest coordinate add up to zero.  For any [env_spacing]
    that is not a 2-element sequence, [_parallelize], and [build] on a scene
    not yet built, raise. *)
Theorem C6_env_offsets (n_envs : Z) (env_spacing : EnvSpacing)
  (n_envs_per_row : option Z) (center : bool) :
  n_envs_per_row <> Some 0 ->
  let B := Z.max 1 n_envs in
  let per_row := default (Z.sqrt_up B) n_envs_per_row in
  (forall s sx sy,
     scene.spacing_pair env_spacing = Some (sx, sy) ->
     exists s' offsets,
       scene._parallelize n_envs env_spacing n_envs_per_row center s =
       (s', Returned tt)
       /\ envs_offset s' = Some offsets
       /\ length offsets = Z.to_nat B
       /\ (forall i, 0 <= i < B ->
             offsets !! Z.to_nat i
             = Some (env_offset B per_row sx sy center i))
       /\ (center = true -> exact_arithmetic ->
           centered ((fun o => o.1.1) <$> offsets)
           /\ centered ((fun o => o.1.2) <$> offsets)
           /\ centered ((fun o => o.2) <$> offsets)))
  /\ (forall s compile_kernels,
        ~ two_element_sequence env_spacing ->
        (exists s',
           scene._parallelize n_envs env_spacing n_envs_per_row center s =
           (s', Raised (GenesisException
                  "`env_spacing` should be a tuple of length 2.")))
        /\ (_is_built s = false ->
            exists s',
              scene.build n_envs env_spacing n_envs_per_row center
                compile_kernels s =
              (s', Raised (GenesisException
                     "`env_spacing` should be a tuple of length 2."))
              /\ _is_built s' = false)).
Proof.
  intros Hrow B per_row.
  assert (Hper : per_row <> 0).
  { unfold per_row. destruct n_envs_per_row as [r|]; simpl; [congruence|].
    pose proof (proj2 (Z.sqrt_up_pos B)). unfold B in *. lia. }
  split.
  - intros s sx sy Hsp.
    unfold scene._parallelize, mbind, M_bind, modify. simpl. rewrite Hsp.
    fold B per_row. rewrite grid_offsets_cells by done.
    set (cells := grid_cell per_row sx sy <$> seqZ 0 B).
    assert (Hne : forall {A} (f : Float * Float * Float -> A),
              f <$> cells <> []).
    { intros A f Hnil. apply (f_equal length) in Hnil.
      unfold cells in Hnil. rewrite !length_fmap, length_seqZ in Hnil.
      simpl in Hnil. unfold B in Hnil. lia. }
    destruct center; simpl.
    + eexists _, _. split; [reflexivity|]. simpl. split; [reflexivity|].
      unfold scene.move_to_center.
      assert (Hc : forall f : Float * Float * Float -> Float,
                scene.column_center (f <$> cells) = midway (f <$> cells))
        by (intros f; apply column_center_midway, Hne).
      rewrite !Hc. clear Hc.
      split; [unfold cells; by rewrite !length_fmap, length_seqZ|]. split.
      * intros i Hi. unfold cells.
        rewrite !list_lookup_fmap, lookup_seqZ_lt by lia.
        simpl. rewrite Z2Nat.id by lia. reflexivity.
      * intros _ Hexact.
        assert (Hcells : cells <> []).
        { intros Hnil. apply (Hne _ id). by rewrite Hnil. }
        repeat split; by apply shifted_axis_centered.
    + eexists _, _. split; [reflexivity|]. simpl. split; [reflexivity|].
      split; [unfold cells; by rewrite !length_fmap, length_seqZ|].
      split; [|done].
      intros i Hi. unfold cells.
      rewrite !list_lookup_fmap, lookup_seqZ_lt by lia.
      simpl. rewrite Z2Nat.id by lia. reflexivity.
  - intros s compile_kernels Hsp%spacing_pair_None.
    destruct (parallelize_raises s n_envs env_spacing n_envs_per_row center Hsp)
      as (s' & Hs' & Hb').
    split; [by exists s'|].
    intros Hb. exists s'. split; [|congruence].
    unfold scene.build, scene.assert_unbuilt.
    unfold mbind at 1. unfold M_bind, gets. rewrite Hb.
    unfold mbind at 1. unfold M_bind. by rewrite Hs'.
Qed.

End LayoutFacts.

Section EmitterFacts.
Context `{Collaborators}.
Import Scene.

(** C10: in differentiable mode [add_emitter] raises, whatever its arguments
    and whether or not the scene is built, and leaves every attribute of the
    scene, its emitters and the simulator with its entities, as it was; so an
    [add_emitter] that returns an emitter ran on a scene that is not
    differentiable. *)
Theorem C10_add_emitter_differentiable (s : Scene.t) (material : Material)
  (max_particles : Z) (surface : option Surface) :
  (requires_grad (_sim s) = true ->
   scene.add_emitter material max_particles surface s =
   (s, Raised (GenesisException
         (if _is_built s then "Scene is already built."
          else "Emitter is not supported in differentiable mode."))))
  /\ (forall s' new_emitter,
        scene.add_emitter material max_particles surface s =
        (s', Returned new_emitter) ->
        requires_grad (_sim s) = false).
Proof.
  assert (Hraise : requires_grad (_sim s) = true ->
    scene.add_emitter material max_particles surface s =
    (s, Raised (GenesisException
          (if _is_built s then "Scene is already built."
           else "Emitter is not supported in differentiable mode.")))).
  { intros Hg. unfold scene.add_emitter, scene.assert_unbuilt.
    unfold mbind at 1. unfold M_bind, gets.
    destruct (_is_built s); [reflexivity|].
    unfold mbind at 1. unfold M_bind. by rewrite Hg. }
  split; [exact Hraise|].
  intros s' new_emitter Hret.
  destruct (requires_grad (_sim s)) eqn:Hg; [|done].
  rewrite Hraise in Hret by done. discriminate.
Qed.

End EmitterFacts.

Section SegmentationFacts.
Context `{Collaborators}.
Import RasterizerContext.

Lemma init_tables_ok options : tables_ok (rasterizer_context.__init__ options).
Proof.
  split; simpl.
  - intros k i. rewrite !lookup_singleton_Some. tauto.
  - intros i. rewrite map_size_singleton. unfold is_Some.
    setoid_rewrite lookup_singleton_Some. split; [intros (k & <- & _); lia|].
    intros Hi. exists (KeyIdx (-1)). split; [lia | done].
  - apply lookup_singleton_eq.
Qed.

Lemma seg_key_to_idxc_seen c k i :
  tables_ok c -> seg_key_map c !! k = Some i ->
  rasterizer_context.seg_key_to_idxc k c = (c, Returned i).
Proof.
  intros Hok Hk. unfold rasterizer_context.seg_key_to_idxc,
    rasterizer_context.setdefault. rewrite Hk.
  f_equal. pose proof (proj1 (ok_inverse _ Hok k i) Hk) as Hi.
  destruct c; unfold set_seg_idxc_map, set_seg_key_map; simpl in *.
  f_equal. by apply insert_id.
Qed.

Lemma seg_key_to_idxc_fresh c k :
  tables_ok c -> seg_key_map c !! k = None ->
  let fresh := Z.of_nat (size (seg_key_map c)) in
  exists c',
    rasterizer_context.seg_key_to_idxc k c = (c', Returned fresh)
    /\ tables_ok c'
    /\ seg_key_map c' = <[k := fresh]> (seg_key_map c)
    /\ seg_idxc_map c' = <[fresh := k]> (seg_idxc_map c).
Proof.
  intros Hok Hk fresh.
  unfold rasterizer_context.seg_key_to_idxc, rasterizer_context.setdefault.
  rewrite Hk. eexists. split; [reflexivity|]. simpl.
  split; [|done].
  assert (Hfree : seg_idxc_map c !! fresh = None).
  { apply eq_None_not_Some. rewrite (ok_dense _ Hok). unfold fresh. lia. }
  subst fresh. split; simpl.
  - intros k' i'. rewrite !lookup_insert_Some.
    rewrite (ok_inverse _ Hok). split.
    + intros [[-> <-] | [Hne Hi']]; [by left|]. right. split; [|done].
      intros Heq. rewrite <- Heq in Hi'. congruence.
    + intros [[<- ->] | [Hne Hk']]; [by left|]. right. split; [|done].
      intros Heq. rewrite <- Heq in Hk'.
      apply (ok_inverse _ Hok) in Hk'. congruence.
  - intros i. rewrite map_size_insert_None by done.
    rewrite lookup_insert_is_Some, (ok_dense _ Hok). lia.
  - rewrite lookup_insert_ne.
    + apply (ok_background _ Hok).
    + intros Heq. rewrite Heq, (ok_background _ Hok) in Hk. done.
Qed.

Lemma seg_key_to_idxc_ok c k :
  tables_ok c -> tables_ok (rasterizer_context.seg_key_to_idxc k c).1.
Proof.
  intros Hok. destruct (seg_key_map c !! k) as [i|] eqn:Hk.
  - by rewrite (seg_key_to_idxc_seen c k i).
  - destruct (seg_key_to_idxc_fresh c k Hok Hk) as (c' & -> & Hok' & _). done.
Qed.

Lemma query_all_ok keys c :
  tables_ok c -> tables_ok (query_all keys c).1.
Proof.
  revert c. induction keys as [|k keys IH]; intros c Hok; simpl; [done|].
  unfold mbind, M_bind.
  pose proof (seg_key_to_idxc_ok c k Hok) as Hok1.
  destruct (rasterizer_context.seg_key_to_idxc k c) as [c1 [i|e]]; [|done].
  simpl in Hok1. specialize (IH c1 Hok1).
  destruct (query_all keys c1) as [c2 [ids|e]]; done.
Qed.

Lemma query_all_fresh keys c :
  tables_ok c -> NoDup keys ->
  (forall k, k ∈ keys -> seg_key_map c !! k = None) ->
  exists c',
    query_all keys c =
    (c', Returned (seqZ (Z.of_nat (size (seg_key_map c)))
                        (Z.of_nat (length keys))))
    /\ tables_ok c'.
Proof.
  revert c. induction keys as [|k keys IH]; intros c Hok Hnd Hnew.
  - exists c. done.
  - apply NoDup_cons in Hnd as [Hk Hnd].
    destruct (seg_key_to_idxc_fresh c k Hok) as (c1 & Hrun & Hok1 & Hmap & _).
    { apply Hnew. left. }
    destruct (IH c1 Hok1 Hnd) as (c2 & Hrest & Hok2).
    { intros k' Hk'. rewrite Hmap, lookup_insert_ne by (intros <-; done).
      apply Hnew. by right. }
    exists c2. split; [|done].
    simpl. unfold mbind, M_bind. rewrite Hrun, Hrest. simpl.
    rewrite Hmap, map_size_insert_None by (apply Hnew; left).
    rewrite (Nat2Z.inj_succ (length keys)), (seqZ_cons _ (Z.succ _)) by lia.
    by rewrite Z.pred_succ, Nat2Z.inj_succ.
Qed.

(** C7: in the tables as [__init__] leaves them, and after any run of
    queries, the background key -1 holds id 0 and no other key does; keys not
    seen before, queried one after the other, get the next free ids in the
    order of the queries, which from the initial tables are 1, 2, .., N; and
    a key seen before gets its id back while the tables stay as they are. *)
Theorem C7_segmentation_ids (options : rasterizer_context.Options)
  (earlier keys : list SegKey) :
  let c := (query_all earlier (rasterizer_context.__init__ options)).1 in
  seg_key_map c !! background = Some 0
  /\ seg_idxc_map c !! 0 = Some background
  /\ (forall k, seg_key_map c !! k = Some 0 -> k = background)
  /\ (NoDup keys ->
      (forall k, k ∈ keys -> seg_key_map c !! k = None) ->
      (query_all keys c).2 =
        Returned (seqZ (Z.of_nat (size (seg_key_map c)))
                       (Z.of_nat (length keys))))
  /\ (NoDup keys -> background ∉ keys ->
      (query_all keys (rasterizer_context.__init__ options)).2 =
        Returned (seqZ 1 (Z.of_nat (length keys))))
  /\ (forall k i, seg_key_map c !! k = Some i ->
      rasterizer_context.seg_key_to_idxc k c = (c, Returned i)).
Proof.
  intros c.
  assert (Hok : tables_ok c) by apply query_all_ok, init_tables_ok.
  split; [exact (ok_background _ Hok)|].
  split; [exact (proj1 (ok_inverse _ Hok _ _) (ok_background _ Hok))|]. split.
  { intros k Hk. apply (ok_inverse _ Hok) in Hk.
    pose proof (proj1 (ok_inverse _ Hok _ _) (ok_background _ Hok)). congruence. }
  split.
  { intros Hnd Hnew.
    destruct (query_all_fresh keys c Hok Hnd Hnew) as (c' & -> & _). done. }
  split.
  { intros Hnd Hbg.
    destruct (query_all_fresh keys (rasterizer_context.__init__ options)
                (init_tables_ok options) Hnd) as (c' & -> & _); [|done].
    intros k Hk. simpl. apply lookup_singleton_ne. intros <-. done. }
  intros k i Hk. by apply seg_key_to_idxc_seen.
Qed.

End SegmentationFacts.

Section ExternalNodeFacts.
Context `{Collaborators}.
Import Pyrender RasterizerContext.

Lemma add_external_node_fresh c obj pose obj_name :
  name obj = Name obj_name -> obj_name <> "" ->
  external_nodes c !! obj_name = None ->
  exists c' node,
    rasterizer_context.add_external_node obj pose c = (c', Returned tt)
    /\ external_nodes c' = <[obj_name := node]> (external_nodes c).
Proof.
  intros Hname Hne Hfree. unfold rasterizer_context.add_external_node.
  rewrite Hname. destruct obj_name as [|a rest]; [done|].
  unfold mbind, M_bind, gets. rewrite Hfree.
  rewrite bool_decide_eq_false_2 by (intros [? ?]; done).
  simpl. eexists _, _. split; reflexivity.
Qed.

(** C9: adding an external node whose name is already registered raises the
    duplicate-name exception; adding one without a [name] attribute, or with
    the name [None] or the empty string, raises the invalid-name exception;
    either way the context stays as it was.  Hence a second add under the
    name just registered raises.  Removing a node whose name is not
    registered returns and changes nothing. *)
Theorem C9_external_nodes (c : RasterizerContext.t) (obj : Mesh)
  (pose : option Payload) :
  (forall obj_name node,
     name obj = Name obj_name -> obj_name <> "" ->
     external_nodes c !! obj_name = Some node ->
     rasterizer_context.add_external_node obj pose c =
     (c, Raised (GenesisException
           ("A node with the name '" +:+ obj_name +:+ "' already exists."))))
  /\ (name obj = NoAttribute \/ name obj = NameNone \/ name obj = Name "" ->
      rasterizer_context.add_external_node obj pose c =
      (c, Raised (GenesisException "Node must have a valid 'name' attribute.")))
  /\ (forall obj_name c' again pose',
        name obj = Name obj_name -> name again = Name obj_name ->
        rasterizer_context.add_external_node obj pose c = (c', Returned tt) ->
        rasterizer_context.add_external_node again pose' c' =
        (c', Raised (GenesisException
               ("A node with the name '" +:+ obj_name +:+ "' already exists."))))
  /\ (forall obj_name,
        name obj = Name obj_name -> external_nodes c !! obj_name = None ->
        rasterizer_context.clear_external_node obj c = (c, Returned tt)).
Proof.
  assert (Hdup : forall c0 o p obj_name node,
    name o = Name obj_name -> obj_name <> "" ->
    external_nodes c0 !! obj_name = Some node ->
    rasterizer_context.add_external_node o p c0 =
    (c0, Raised (GenesisException
           ("A node with the name '" +:+ obj_name +:+ "' already exists.")))).
  { intros c0 o p obj_name node Hname Hne Hreg.
    unfold rasterizer_context.add_external_node. rewrite Hname.
    destruct obj_name as [|a rest]; [done|].
    unfold mbind, M_bind, gets. rewrite Hreg.
    by rewrite bool_decide_eq_true_2. }
  split; [apply Hdup|]. split.
  { unfold rasterizer_context.add_external_node.
    intros [-> | [-> | ->]]; reflexivity. }
  split.
  { intros obj_name c' again pose' Hname Hagain Hadd.
    destruct (decide (obj_name = "")) as [->|Hne].
    { unfold rasterizer_context.add_external_node in Hadd.
      rewrite Hname in Hadd. discriminate. }
    destruct (external_nodes c !! obj_name) as [node|] eqn:Hreg.
    { rewrite (Hdup c obj pose obj_name node) in Hadd by done. discriminate. }
    destruct (add_external_node_fresh c obj pose obj_name Hname Hne Hreg)
      as (c1 & node & Hrun & Hext).
    rewrite Hrun in Hadd. injection Hadd as <-.
    apply (Hdup c1 again pose' obj_name node); [done..|].
    rewrite Hext. apply lookup_insert_eq. }
  intros obj_name Hname Hfree.
  unfold rasterizer_context.clear_external_node. rewrite Hname.
  unfold mbind, M_bind, gets. by rewrite Hfree.
Qed.

End ExternalNodeFacts.

Section ResyncFacts.
Context `{Collaborators}.
Import Pyrender RasterizerContext.

#[local] Instance accumulates_refl : Reflexive accumulates.
Proof.
  intros c. split; [done| |done| |done].
  - exists []. by rewrite app_nil_r.
  - exists []. by rewrite app_nil_r.
Qed.

#[local] Instance accumulates_trans : Transitive accumulates.
Proof.
  intros c1 c2 c3 [Hm1 (n1 & Hr1 & Hn1) Hb1 (a1 & Hd1 & Ha1) Hx1]
    [Hm2 (n2 & Hr2 & Hn2) Hb2 (a2 & Hd2 & Ha2) Hx2].
  split.
  - congruence.
  - exists (n1 ++ n2)%list. rewrite Hr2, Hr1, app_assoc. split; [done|].
    by apply Forall_app.
  - set_solver.
  - exists (a1 ++ a2)%list. rewrite Hd2, Hd1, app_assoc. split; [done|].
    apply Forall_app. split.
    + eapply Forall_impl; [exact Ha1|]. simpl. lia.
    + eapply Forall_impl; [exact Ha2|]. simpl. lia.
  - lia.
Qed.

#[local] Instance grows_refl : Reflexive grows.
Proof. intros s. split; reflexivity. Qed.

#[local] Instance grows_trans : Transitive grows.
Proof.
  intros s1 s2 s3 [Ht1 Hc1] [Ht2 Hc2]. split; [congruence|].
  by etransitivity.
Qed.

#[local] Instance same_clock_refl : Reflexive same_clock.
Proof. intros s. split; reflexivity. Qed.

#[local] Instance same_clock_trans : Transitive same_clock.
Proof. intros s1 s2 s3 [? ?] [? ?]. split; congruence. Qed.

Lemma grows_same_clock s s' : grows s s' -> same_clock s s'.
Proof. intros [Ht Hc]. split; [done | apply Hc]. Qed.

Lemma put_get_context s :
  rasterizer_context.put_context (rasterizer_context.get_context s) s = s.
Proof. destruct s as [? [?]]; reflexivity. Qed.

Lemma get_put_context c s :
  rasterizer_context.get_context (rasterizer_context.put_context c s) = c.
Proof. reflexivity. Qed.

(** A method of the context, run on the scene. *)
Lemma self_grows {A} (m : M RasterizerContext.t A) :
  preserves accumulates m -> preserves grows (rasterizer_context.self m).
Proof.
  intros Hm s. unfold rasterizer_context.self, zoom.
  specialize (Hm (rasterizer_context.get_context s)).
  destruct (m (rasterizer_context.get_context s)) as [c' r]. simpl in *.
  split; [reflexivity | exact Hm].
Qed.

Lemma self_same_clock {A} (m : M RasterizerContext.t A) :
  preserves (fun c c' => _t c' = _t c) m ->
  preserves same_clock (rasterizer_context.self m).
Proof.
  intros Hm s. unfold rasterizer_context.self, zoom.
  specialize (Hm (rasterizer_context.get_context s)).
  destruct (m (rasterizer_context.get_context s)) as [c' r]. simpl in *.
  split; [reflexivity | exact Hm].
Qed.


Lemma accumulates_same c c' :
  _t c' = _t c -> _scene c' = _scene c -> buffer c' = buffer c ->
  dynamic_nodes c' = dynamic_nodes c -> accumulates c c'.
Proof.
  intros Ht Hs Hb Hd. split; rewrite ?Hs, ?Hb; [done| |done| |done].
  - exists []. by rewrite app_nil_r.
  - exists []. by rewrite Hd, app_nil_r.
Qed.

Lemma buffer_insert_acc id v :
  preserves accumulates
    (modify (fun c => set_buffer (<[id := v]> (buffer c)) c)).
Proof.
  intros c. simpl. split; simpl; [done| |set_solver| |done].
  - exists []. by rewrite app_nil_r.
  - exists []. by rewrite app_nil_r.
Qed.

Lemma emit_acc r :
  is_removal r = false -> is_bounds_reset r = false ->
  preserves accumulates (rasterizer_context.on_scene (emit r)).
Proof.
  intros Hr Hb c. simpl. split; simpl; [done| |done| |done].
  - exists [r]. split; [done|]. by repeat constructor.
  - exists []. by rewrite app_nil_r.
Qed.

Lemma set_node_pose_acc node pose :
  preserves accumulates (rasterizer_context.set_node_pose node pose).
Proof. by apply emit_acc. Qed.

Lemma set_reflection_mat_acc geom_T :
  preserves accumulates (rasterizer_context.set_reflection_mat geom_T).
Proof. by apply emit_acc. Qed.

Lemma seg_key_to_idxc_acc k :
  preserves accumulates (rasterizer_context.seg_key_to_idxc k).
Proof.
  intros c. unfold rasterizer_context.seg_key_to_idxc,
    rasterizer_context.setdefault.
  destruct (seg_key_map c !! k); by apply accumulates_same.
Qed.

Lemma create_node_seg_acc k node :
  preserves accumulates (rasterizer_context.create_node_seg k node).
Proof.
  unfold rasterizer_context.create_node_seg.
  apply (preserves_bind accumulates); [apply seg_key_to_idxc_acc |].
  intros i. destruct node; [|by apply (preserves_ret accumulates)].
  intros c. by apply accumulates_same.
Qed.

Lemma add_node_tracked_acc obj pose :
  preserves accumulates
    (node ← rasterizer_context.add_node obj pose;
     modify (fun self => set_dynamic_nodes (dynamic_nodes self ++ [node]) self) ;;
     mret (Some node)).
Proof.
  intros c. simpl. split; simpl; [done| |done| |lia].
  - eexists. split; [reflexivity|]. by repeat constructor.
  - eexists. split; [reflexivity|]. repeat constructor; lia.
Qed.

Lemma add_dynamic_node_acc entity obj pose :
  preserves accumulates (rasterizer_context.add_dynamic_node entity obj pose).
Proof.
  unfold rasterizer_context.add_dynamic_node.
  apply (preserves_bind accumulates).
  - destruct obj; [apply add_node_tracked_acc | by apply (preserves_ret accumulates)].
  - intros node. destruct entity; [|by apply (preserves_ret accumulates)].
    apply create_node_seg_acc.
Qed.

Lemma add_external_node_acc obj pose :
  preserves accumulates (rasterizer_context.add_external_node obj pose).
Proof.
  unfold rasterizer_context.add_external_node.
  destruct (name obj) as [| |[|a rest]];
    try by apply (preserves_raise_exception accumulates).
  apply (preserves_bind accumulates); [by apply (preserves_gets accumulates) |].
  intros []; [by apply (preserves_raise_exception accumulates)|].
  intros c. simpl. split; simpl; [done| |done| |lia].
  - eexists. split; [reflexivity|]. by repeat constructor.
  - exists []. by rewrite app_nil_r.
Qed.


Ltac grows_step :=
  first
    [ apply self_grows;
      first [ apply buffer_insert_acc
            | apply set_node_pose_acc
            | apply set_reflection_mat_acc
            | apply add_dynamic_node_acc
            | apply add_external_node_acc
            | apply emit_acc; reflexivity
            | idtac ]
    | preserves_step ].

Ltac grows_auto := repeat grows_step.

Lemma draw_debug_arrow_grows vec uid_text persistent :
  preserves grows (rasterizer_context.draw_debug_arrow vec uid_text persistent).
Proof. unfold rasterizer_context.draw_debug_arrow. grows_auto. Qed.

Lemma update_link_frame_grows : preserves grows rasterizer_context.update_link_frame.
Proof.
  unfold rasterizer_context.update_link_frame,
    rasterizer_context.buffer_updates_set.
  grows_auto.
Qed.

Lemma update_tool_grows : preserves grows rasterizer_context.update_tool.
Proof. unfold rasterizer_context.update_tool. grows_auto. Qed.

Lemma update_rigid_grows : preserves grows rasterizer_context.update_rigid.
Proof.
  unfold rasterizer_context.update_rigid,
    rasterizer_context.buffer_updates_set.
  grows_auto.
Qed.

Lemma update_contact_grows : preserves grows rasterizer_context.update_contact.
Proof.
  unfold rasterizer_context.update_contact,
    rasterizer_context.draw_contact_arrow, rasterizer_context.list_getitem,
    rasterizer_context.next_uid.
  repeat first [apply draw_debug_arrow_grows | grows_step].
Qed.

Lemma update_avatar_grows : preserves grows rasterizer_context.update_avatar.
Proof.
  unfold rasterizer_context.update_avatar,
    rasterizer_context.buffer_updates_set.
  grows_auto.
Qed.

Lemma update_mpm_grows : preserves grows rasterizer_context.update_mpm.
Proof.
  unfold rasterizer_context.update_mpm,
    rasterizer_context.buffer_updates_set.
  grows_auto.
Qed.

Lemma update_sph_grows : preserves grows rasterizer_context.update_sph.
Proof.
  unfold rasterizer_context.update_sph,
    rasterizer_context.buffer_updates_set.
  grows_auto.
Qed.

Lemma update_pbd_grows : preserves grows rasterizer_context.update_pbd.
Proof.
  unfold rasterizer_context.update_pbd, rasterizer_context.update_vertices,
    rasterizer_context.buffer_updates_set.
  grows_auto.
Qed.

Lemma update_fem_grows : preserves grows rasterizer_context.update_fem.
Proof.
  unfold rasterizer_context.update_fem,
    rasterizer_context.buffer_updates_set.
  grows_auto.
Qed.

Lemma family_grows p : p ∈ families -> preserves grows (run_phase p).
Proof.
  unfold families. rewrite !elem_of_cons, elem_of_nil.
  intros [->|[->|[->|[->|[->|[->|[->|[->|[->|[]]]]]]]]]]; simpl.
  - apply update_link_frame_grows.
  - apply update_tool_grows.
  - apply update_rigid_grows.
  - apply update_contact_grows.
  - apply update_avatar_grows.
  - apply update_mpm_grows.
  - apply update_sph_grows.
  - apply update_pbd_grows.
  - apply update_fem_grows.
Qed.


Lemma preserves_for_each_in {S A} (R : S -> S -> Prop)
  `{!Reflexive R, !Transitive R} (l : list A) (body : A -> M S unit) :
  (forall x, x ∈ l -> preserves R (body x)) -> preserves R (for_each l body).
Proof.
  induction l as [|x l IH]; intros Hbody; simpl.
  - apply (preserves_ret R).
  - apply (preserves_bind R).
    + apply Hbody. left.
    + intros _. apply IH. intros y Hy. apply Hbody. by right.
Qed.

Lemma families_grow : preserves grows (for_each families run_phase).
Proof. apply (preserves_for_each_in grows). apply family_grows. Qed.

(** The loop of [clear_dynamic_nodes]: one removal request per node, in the
    order of the list, and nothing else but the nodes' segmentation colours
    changes. *)
Lemma remove_nodes_spec nodes c :
  exists c',
    for_each nodes (fun dynamic_node =>
      rasterizer_context.remove_node_seg dynamic_node ;;
      rasterizer_context.remove_node dynamic_node) c = (c', Returned tt)
    /\ requests (_scene c') = (requests (_scene c) ++ (Remove <$> nodes))%list
    /\ next_node (_scene c') = next_node (_scene c)
    /\ _t c' = _t c
    /\ dynamic_nodes c' = dynamic_nodes c
    /\ buffer c' = buffer c
    /\ external_nodes c' = external_nodes c
    /\ static_nodes c' = static_nodes c
    /\ rigid_nodes c' = rigid_nodes c.
Proof.
  revert c. induction nodes as [|n nodes IH]; intros c.
  - exists c. simpl. by rewrite app_nil_r.
  - set (c1 := (rasterizer_context.remove_node n
                  (rasterizer_context.remove_node_seg n c).1).1).
    destruct (IH c1) as (c' & Hrun & Hreq & Hnext & Ht & Hd & Hb & He & Hs & Hr).
    exists c'. split.
    + simpl. unfold mbind, M_bind. simpl. exact Hrun.
    + rewrite Hreq, Hnext, Ht, Hd, Hb, He, Hs, Hr. simpl.
      by rewrite <- app_assoc.
Qed.

Lemma clear_dynamic_nodes_spec c :
  exists c',
    rasterizer_context.clear_dynamic_nodes c = (c', Returned tt)
    /\ dynamic_nodes c' = []
    /\ requests (_scene c')
       = (requests (_scene c) ++ (Remove <$> dynamic_nodes c))%list
    /\ next_node (_scene c') = next_node (_scene c)
    /\ _t c' = _t c
    /\ external_nodes c' = external_nodes c
    /\ static_nodes c' = static_nodes c
    /\ rigid_nodes c' = rigid_nodes c.
Proof.
  destruct (remove_nodes_spec (dynamic_nodes c) c)
    as (c1 & Hrun & Hreq & Hnext & Ht & Hd & Hb & He & Hs & Hr).
  exists (set_dynamic_nodes [] c1). split.
  - unfold rasterizer_context.clear_dynamic_nodes.
    unfold mbind at 1. unfold M_bind at 1. unfold gets.
    unfold mbind at 1. unfold M_bind at 1. by rewrite Hrun.
  - simpl. by rewrite Hreq, Hnext, Ht, He, Hs, Hr.
Qed.

Lemma phase_same_clock p : preserves same_clock (run_phase p).
Proof.
  destruct p.
  4-12: intros s; apply grows_same_clock, family_grows; unfold families;
        rewrite !elem_of_cons; tauto.
  - intros s. simpl. unfold rasterizer_context.self, zoom.
    destruct (clear_dynamic_nodes_spec (rasterizer_context.get_context s))
      as (c' & -> & _ & _ & _ & Ht & _).
    split; [reflexivity | exact Ht].
  - intros s. simpl. unfold zoom.
    destruct (update_visual_states (Scene._sim s)). split; reflexivity.
  - intros s. split; reflexivity.
Qed.

Lemma resync_pass_same_clock : preserves same_clock resync_pass.
Proof.
  apply (preserves_for_each same_clock). apply phase_same_clock.
Qed.

Lemma update_fresh s last_t :
  _t (rasterizer_context.get_context s) = Some last_t ->
  Scene._t s <= last_t ->
  rasterizer_context.update s = (s, Returned tt).
Proof.
  intros Hmark Hle. unfold rasterizer_context.update.
  unfold mbind at 1. unfold M_bind, rasterizer_context.self, zoom, getattr.
  rewrite Hmark, put_get_context.
  unfold mbind at 1. unfold M_bind, gets.
  by destruct (Z.leb_spec (Scene._t s) last_t); [|lia].
Qed.

Lemma update_stale s last_t :
  _t (rasterizer_context.get_context s) = Some last_t ->
  last_t < Scene._t s ->
  rasterizer_context.update s = resync_pass (marked s).
Proof.
  intros Hmark Hlt. unfold rasterizer_context.update.
  unfold mbind at 1. unfold M_bind at 1.
  unfold rasterizer_context.self at 1. unfold zoom at 1. unfold getattr.
  rewrite Hmark, put_get_context.
  unfold mbind at 1. unfold M_bind at 1. unfold gets.
  destruct (Z.leb_spec (Scene._t s) last_t); [lia|].
  unfold mbind at 1. unfold M_bind at 1.
  change (rasterizer_context.self (modify (set_t (Some (Scene._t s)))) s)
    with (marked s, Returned tt).
  generalize (marked s). intros s0.
  unfold resync_pass, resync_order, families. simpl.
  unfold mbind, M_bind.
  repeat lazymatch goal with
  | |- context [match ?m s0 with _ => _ end] =>
      destruct (m s0) as [s1 [[]|e]]; [|reflexivity]; clear s0; rename s1 into s0
  end.
  reflexivity.
Qed.


Lemma no_bounds_reset (new : list Request) :
  Forall (fun r => is_removal r = false /\ is_bounds_reset r = false) new ->
  filter (fun r => is_bounds_reset r = true) new = [].
Proof.
  induction 1 as [|r new [_ Hr] _ IH]; [done|].
  rewrite filter_cons_False by congruence. exact IH.
Qed.

Lemma removals_no_bounds_reset (nodes : list Node) :
  filter (fun r => is_bounds_reset r = true) (Remove <$> nodes) = [].
Proof.
  induction nodes as [|n l IH]; [done|].
  rewrite fmap_cons, filter_cons_False; [exact IH | simpl; congruence].
Qed.

Lemma grows_passes s s' : grows s s' -> passes s' = passes s.
Proof.
  intros [_ [_ (new & Hreq & Hnew) _ _ _]]. unfold passes.
  rewrite Hreq, filter_app, length_app.
  rewrite (no_bounds_reset _ Hnew). simpl. lia.
Qed.

Lemma scene_bounds_spec s :
  exists s3,
    run_phase SceneBounds s = (s3, Returned tt)
    /\ requests (_scene (rasterizer_context.get_context s3))
       = (requests (_scene (rasterizer_context.get_context s))
          ++ [ResetSceneBounds])%list
    /\ next_node (_scene (rasterizer_context.get_context s3))
       = next_node (_scene (rasterizer_context.get_context s))
    /\ buffer (rasterizer_context.get_context s3) = ∅
    /\ dynamic_nodes (rasterizer_context.get_context s3)
       = dynamic_nodes (rasterizer_context.get_context s).
Proof. eexists. split; [reflexivity|]. done. Qed.

Lemma visual_states_context s :
  rasterizer_context.get_context (run_phase VisualStates s).1
  = rasterizer_context.get_context s.
Proof.
  simpl. unfold zoom. by destruct (update_visual_states (Scene._sim s)).
Qed.

(** What the phases after the first leave behind, however far they get. *)
Lemma after_clear_spec s1 s' r :
  for_each ([VisualStates; SceneBounds] ++ families) run_phase s1 = (s', r) ->
  exists rest added,
    requests (_scene (rasterizer_context.get_context s'))
    = (requests (_scene (rasterizer_context.get_context s1)) ++ rest)%list
    /\ Forall (fun r => is_removal r = false) rest
    /\ (length (filter (fun r => is_bounds_reset r = true) rest) <= 1)%nat
    /\ (r = Returned tt ->
        length (filter (fun r => is_bounds_reset r = true) rest) = 1%nat)
    /\ dynamic_nodes (rasterizer_context.get_context s')
       = (dynamic_nodes (rasterizer_context.get_context s1) ++ added)%list
    /\ Forall (fun n =>
         (next_node (_scene (rasterizer_context.get_context s1)) <= n)%nat)
         added.
Proof.
  cbn [for_each app]. unfold mbind at 1. unfold M_bind at 1.
  pose proof (visual_states_context s1) as Hvis.
  destruct (run_phase VisualStates s1) as [s2 [[]|e]]; cbn [fst] in Hvis.
  2: { intros [= <- <-]. exists [], []. rewrite Hvis, !app_nil_r.
       repeat split; try done. simpl. lia. }
  unfold mbind at 1. unfold M_bind at 1.
  destruct (scene_bounds_spec s2) as (s3 & -> & Hreq & Hnext & _ & Hdyn).
  pose proof (families_grow s3)
    as [_ [_ (new & Hnew & Hfree) _ (added & Hadd & Hfresh) _]].
  intros Hrun. rewrite Hrun in Hnew, Hadd, Hfresh. cbn [fst] in *.
  exists ([ResetSceneBounds] ++ new)%list, added.
  rewrite Hnew, Hreq, Hadd, Hdyn, Hvis, <- app_assoc.
  split; [done|]. split.
  { constructor; [done|]. eapply Forall_impl; [exact Hfree|]. by intros ? []. }
  assert (Hone : length (filter (fun r => is_bounds_reset r = true)
                   ([ResetSceneBounds] ++ new)%list) = 1%nat).
  { by rewrite filter_app, (no_bounds_reset _ Hfree), app_nil_r. }
  split; [lia|]. split; [done|]. split; [done|].
  eapply Forall_impl; [exact Hfresh|]. simpl. rewrite Hnext, Hvis. lia.
Qed.


Lemma marked_context s :
  rasterizer_context.get_context (marked s)
  = set_t (Some (Scene._t s)) (rasterizer_context.get_context s).
Proof. reflexivity. Qed.

(** The whole pass, from the marked scene on. *)
Lemma resync_pass_spec s s' r :
  resync_pass (marked s) = (s', r) ->
  let c := rasterizer_context.get_context s in
  let c' := rasterizer_context.get_context s' in
  Scene._t s' = Scene._t s
  /\ _t c' = Some (Scene._t s)
  /\ (exists rest,
        requests (_scene c')
        = (requests (_scene c) ++ (Remove <$> dynamic_nodes c) ++ rest)%list
        /\ Forall (fun r => is_removal r = false) rest
        /\ (length (filter (fun r => is_bounds_reset r = true) rest) <= 1)%nat
        /\ (r = Returned tt ->
            length (filter (fun r => is_bounds_reset r = true) rest) = 1%nat))
  /\ Forall (fun n => (next_node (_scene c) <= n)%nat) (dynamic_nodes c').
Proof.
  intros Hrun c c'.
  pose proof (resync_pass_same_clock (marked s)) as [Htime Hmark].
  rewrite Hrun in Htime, Hmark. cbn [fst] in Htime, Hmark.
  split; [exact Htime|]. split; [exact Hmark|].
  revert Hrun. unfold resync_pass, resync_order.
  change ([ClearDynamic; VisualStates; SceneBounds] ++ families)%list
    with (ClearDynamic :: ([VisualStates; SceneBounds] ++ families)%list).
  cbn [for_each]. unfold mbind at 1. unfold M_bind at 1.
  cbn [run_phase]. unfold rasterizer_context.self at 1. unfold zoom at 1.
  destruct (clear_dynamic_nodes_spec (rasterizer_context.get_context (marked s)))
    as (c1 & -> & Hdyn & Hreq & Hnext & _).
  intros Hrest.
  destruct (after_clear_spec _ _ _ Hrest)
    as (rest & added & Hreq' & Hrem & Hle & Hone & Hdyn' & Hfresh).
  rewrite get_put_context in Hreq', Hdyn', Hfresh.
  rewrite Hreq in Hreq'. rewrite Hdyn in Hdyn'. rewrite Hnext in Hfresh.
  split.
  - exists rest. fold c' in Hreq'. rewrite Hreq', <- app_assoc. done.
  - fold c' in Hdyn'. rewrite Hdyn'. exact Hfresh.
Qed.

(** C2: when the stored marker has reached the scene's step counter,
    [update] returns at once and leaves the scene, with its buffer, node
    registries and backend, exactly as it was; otherwise it moves the marker
    to the step counter and runs the resync pass.  Either way a second
    [update], with no step in between, returns at once and changes nothing,
    so the two calls together run the pass once: the backend sees one
    scene-bounds reset more when the first call returns, and never two. *)
Theorem C2_update_staleness (s : Scene.t) (last_t : Z) :
  _t (rasterizer_context.get_context s) = Some last_t ->
  let s' := (rasterizer_context.update s).1 in
  (Scene._t s <= last_t -> rasterizer_context.update s = (s, Returned tt))
  /\ (last_t < Scene._t s ->
      rasterizer_context.update s = resync_pass (marked s)
      /\ _t (rasterizer_context.get_context s') = Some (Scene._t s)
      /\ Scene._t s' = Scene._t s
      /\ (passes s' <= S (passes s))%nat
      /\ ((rasterizer_context.update s).2 = Returned tt ->
          passes s' = S (passes s)))
  /\ rasterizer_context.update s' = (s', Returned tt).
Proof.
  intros Hmark s'. split; [by apply update_fresh|].
  assert (Hstale : last_t < Scene._t s ->
    rasterizer_context.update s = resync_pass (marked s)
    /\ _t (rasterizer_context.get_context s') = Some (Scene._t s)
    /\ Scene._t s' = Scene._t s
    /\ (passes s' <= S (passes s))%nat
    /\ ((rasterizer_context.update s).2 = Returned tt ->
        passes s' = S (passes s))).
  { intros Hlt. pose proof (update_stale s last_t Hmark Hlt) as Hupd.
    split; [exact Hupd|]. subst s'. rewrite Hupd.
    destruct (resync_pass (marked s)) as [s1 r] eqn:Hrun.
    destruct (resync_pass_spec s s1 r Hrun)
      as (Htime & Hm & (rest & Hreq & _ & Hle & Hone) & _).
    cbn [fst snd]. split; [exact Hm|]. split; [exact Htime|].
    unfold passes. rewrite Hreq, !filter_app, !length_app.
    rewrite removals_no_bounds_reset. simpl. split; [lia|]. intros ->. rewrite Hone by done. lia. }
  split; [exact Hstale|].
  destruct (Z.le_gt_cases (Scene._t s) last_t) as [Hle|Hlt].
  - subst s'. rewrite (update_fresh s last_t) by done.
    by apply (update_fresh s last_t).
  - destruct (Hstale Hlt) as (_ & Hm & Htime & _).
    apply (update_fresh s' (Scene._t s)); [exact Hm | lia].
Qed.

End ResyncFacts.

Section CheckpointFacts.
Context `{Collaborators}.
Import Scene.

Lemma ckpt_key_inj_attr owner : Inj (=) (=) (base_solver.ckpt_key owner).
Proof.
  intros a b. unfold base_solver.ckpt_key.
  induction owner as [|c owner IH]; intros Heq.
  - change (String "." a = String "." b) in Heq. by injection Heq.
  - change (String c (owner +:+ "." +:+ a) = String c (owner +:+ "." +:+ b))
      in Heq.
    injection Heq as Heq. by apply IH.
Qed.

#[local] Existing Instance ckpt_key_inj_attr.

Lemma ckpt_key_inj o1 o2 a1 a2 :
  dot_free o1 = true -> dot_free o2 = true ->
  base_solver.ckpt_key o1 a1 = base_solver.ckpt_key o2 a2 ->
  o1 = o2 /\ a1 = a2.
Proof.
  unfold base_solver.ckpt_key, dot_free. revert o2.
  induction o1 as [|c o1 IH]; intros [|d o2] H1 H2 Heq.
  - change (String "." a1 = String "." a2) in Heq. by injection Heq.
  - change (String "." a1 = String d (o2 +:+ "." +:+ a2)) in Heq.
    injection Heq as <- _. simpl in H2. done.
  - change (String c (o1 +:+ "." +:+ a1) = String "." a2) in Heq.
    injection Heq as -> _. simpl in H1. done.
  - change (String c (o1 +:+ "." +:+ a1) = String d (o2 +:+ "." +:+ a2)) in Heq.
    injection Heq as -> Heq.
    simpl in H1, H2. apply andb_true_iff in H1 as [_ H1].
    apply andb_true_iff in H2 as [_ H2].
    destruct (IH o2 H1 H2 Heq) as [-> ->]. done.
Qed.

Lemma restore_fields_lookup owner arrays fields attr :
  base_solver.restore_fields owner arrays fields !! attr
  = restored owner arrays fields attr.
Proof.
  unfold base_solver.restore_fields, restored.
  rewrite map_lookup_imap. by destruct (fields !! attr).
Qed.

Lemma restore_fields_dom owner arrays fields :
  dom (base_solver.restore_fields owner arrays fields) = dom fields.
Proof.
  apply set_eq. intros attr. rewrite !elem_of_dom, restore_fields_lookup.
  unfold restored. by rewrite fmap_is_Some.
Qed.

(** Loading an array set that holds every buffer of an owner under its key
    reproduces those buffers in a target with the same buffer names. *)
Lemma restore_fields_round_trip owner arrays source fields :
  dom fields = dom source ->
  (forall attr, arrays !! base_solver.ckpt_key owner attr = source !! attr) ->
  base_solver.restore_fields owner arrays fields = source.
Proof.
  intros Hdom Harrays. apply map_eq. intros attr.
  rewrite restore_fields_lookup. unfold restored. rewrite Harrays.
  destruct (source !! attr) as [v|] eqn:Hsrc.
  - assert (is_Some (fields !! attr)) as [old ->]; [|done].
    apply elem_of_dom. rewrite Hdom. apply elem_of_dom. by rewrite Hsrc.
  - assert (fields !! attr = None) as ->; [|done].
    apply not_elem_of_dom. rewrite Hdom. by apply not_elem_of_dom.
Qed.

Lemma solver_dump_lookup sv owner attr :
  dot_free owner = true -> dot_free (Sim.class_name sv) = true ->
  base_solver.dump_ckpt_to_numpy sv !! base_solver.ckpt_key owner attr
  = if decide (owner = Sim.class_name sv) then Sim.ti_fields sv !! attr else None.
Proof.
  intros Ho Hsv. unfold base_solver.dump_ckpt_to_numpy.
  destruct (decide (owner = Sim.class_name sv)) as [->|Hne].
  - apply (lookup_kmap _).
  - apply lookup_kmap_None; [apply _|]. intros attr' Heq.
    by destruct (ckpt_key_inj _ _ _ _ Ho Hsv Heq).
Qed.


(** Folding the solvers' dumps into the arrays: a key none of them reports
    keeps its entry, a key one of them reports, and no other, gets that
    solver's array. *)
Lemma fold_dumps_none sim l base key :
  (forall k, k ∈ l ->
     base_solver.dump_ckpt_to_numpy (solver sim k) !! key = None) ->
  foldl (fun arrays k => base_solver.dump_ckpt_to_numpy (solver sim k) ∪ arrays)
        base l !! key = base !! key.
Proof.
  revert base. induction l as [|k l IH]; intros base Hnone; simpl; [done|].
  rewrite IH by (intros k' Hk'; apply Hnone; by right).
  rewrite lookup_union_r; [done|]. apply Hnone. left.
Qed.

Lemma fold_dumps_one sim l base key k0 :
  NoDup l -> k0 ∈ l ->
  (forall k, k ∈ l -> k <> k0 ->
     base_solver.dump_ckpt_to_numpy (solver sim k) !! key = None) ->
  base !! key = None ->
  foldl (fun arrays k => base_solver.dump_ckpt_to_numpy (solver sim k) ∪ arrays)
        base l !! key
  = base_solver.dump_ckpt_to_numpy (solver sim k0) !! key.
Proof.
  revert base.
  induction l as [|k l IH]; intros base Hnd Hin Hothers Hbase; simpl.
  - by apply elem_of_nil in Hin.
  - apply NoDup_cons in Hnd as [Hk Hnd].
    destruct (decide (k = k0)) as [->|Hne].
    + rewrite fold_dumps_none.
      * by apply lookup_union_l.
      * intros k' Hk'. apply Hothers; [by right|]. intros ->. done.
    + apply IH; [done| | |].
      * apply elem_of_cons in Hin as [?|?]; [congruence | done].
      * intros k' Hk' Hne'. apply Hothers; [by right | done].
      * rewrite lookup_union_r; [done|]. apply Hothers; [left | done].
Qed.


Lemma active_solvers_NoDup sim : NoDup (active_solvers sim).
Proof.
  apply NoDup_filter. apply (bool_decide_unpack _). by vm_compute.
Qed.

Lemma owners_distinct_solver s k :
  owners_distinct s -> k ∈ active_solvers (_sim s) ->
  dot_free (Scene.class_name s) = true
  /\ dot_free (Sim.class_name (solver (_sim s) k)) = true
  /\ Sim.class_name (solver (_sim s) k) <> Scene.class_name s
  /\ forall k', k' ∈ active_solvers (_sim s) -> k' <> k ->
       Sim.class_name (solver (_sim s) k') <> Sim.class_name (solver (_sim s) k).
Proof.
  intros [Hnd Hdot] Hk. unfold owners in *.
  apply NoDup_cons in Hnd as [Hscene Hnd].
  apply Forall_cons in Hdot as [Hds Hdot].
  rewrite Forall_fmap, Forall_forall in Hdot.
  split; [done|]. split; [by apply Hdot|]. split.
  - intros Heq. apply Hscene. rewrite <- Heq.
    apply list_elem_of_fmap. by exists k.
  - intros k' Hk' Hne Heq.
    apply list_elem_of_lookup in Hk as [i Hi].
    apply list_elem_of_lookup in Hk' as [j Hj].
    assert (i = j); [|congruence].
    eapply NoDup_lookup; [exact Hnd| |]; rewrite list_lookup_fmap.
    + by rewrite Hi.
    + rewrite Hj. simpl. by rewrite Heq.
Qed.

(** Every buffer of the scene and of each active solver is in the dump,
    under the key of its owner. *)
Lemma dump_scene_lookup s attr :
  owners_distinct s ->
  scene.dump_ckpt_to_numpy s
    !! base_solver.ckpt_key (Scene.class_name s) attr
  = Scene.ti_fields s !! attr.
Proof.
  intros Hown. unfold scene.dump_ckpt_to_numpy.
  rewrite fold_dumps_none; [apply (lookup_kmap _)|].
  intros k Hk.
  destruct (owners_distinct_solver s k Hown Hk) as (Hds & Hdk & Hne & _).
  rewrite solver_dump_lookup by done.
  destruct (decide _) as [Heq|]; [|done]. by destruct Hne.
Qed.

Lemma dump_solver_lookup s k attr :
  owners_distinct s -> k ∈ active_solvers (_sim s) ->
  scene.dump_ckpt_to_numpy s
    !! base_solver.ckpt_key (Sim.class_name (solver (_sim s) k)) attr
  = Sim.ti_fields (solver (_sim s) k) !! attr.
Proof.
  intros Hown Hk. unfold scene.dump_ckpt_to_numpy.
  destruct (owners_distinct_solver s k Hown Hk) as (Hds & Hdk & Hne & Hothers).
  rewrite (fold_dumps_one _ _ _ _ k); [| apply active_solvers_NoDup | done | |].
  - rewrite solver_dump_lookup by done. by destruct (decide _).
  - intros k' Hk' Hne'.
    destruct (owners_distinct_solver s k' Hown Hk') as (_ & Hdk' & _ & _).
    rewrite solver_dump_lookup by done.
    destruct (decide _) as [Heq|]; [|done].
    by destruct (Hothers k' Hk' Hne').
  - apply lookup_kmap_None; [apply _|]. intros attr' Heq.
    destruct (ckpt_key_inj _ _ _ _ Hdk Hds Heq) as [? _]. done.
Qed.

(** The loop of [load_checkpoint] over the active solvers. *)
Lemma load_solvers_spec arrays l s :
  NoDup l ->
  exists sim',
    for_each l (fun k =>
      scene.on_sim (modify (fun sim =>
        set_solver k (base_solver.load_ckpt_from_numpy arrays (solver sim k))
                   sim))) s
    = (set_sim sim' s, Returned tt)
    /\ forall k,
         solver sim' k
         = if decide (k ∈ l)
           then base_solver.load_ckpt_from_numpy arrays (solver (_sim s) k)
           else solver (_sim s) k.
Proof.
  revert s. induction l as [|k l IH]; intros s Hnd.
  - exists (_sim s). split; [by destruct s|].
    intros k. by rewrite decide_False by (by intros ?%elem_of_nil).
  - apply NoDup_cons in Hnd as [Hk Hnd].
    set (s1 := set_sim
                 (set_solver k
                    (base_solver.load_ckpt_from_numpy arrays (solver (_sim s) k))
                    (_sim s)) s).
    destruct (IH s1 Hnd) as (sim' & Hrun & Hsim').
    exists sim'. split.
    + simpl. unfold mbind, M_bind. simpl. fold s1. rewrite Hrun.
      by destruct s.
    + intros k'. rewrite Hsim'. simpl.
      destruct (decide (k' = k)) as [->|Hne].
      * rewrite decide_False by done. rewrite decide_True by (by left). done.
      * destruct (decide (k' ∈ l)).
        -- by rewrite decide_True by (by right).
        -- by rewrite decide_False by (by intros [?|?]%elem_of_cons).
Qed.

(** What [load_checkpoint] does with any stored record that has arrays:
    buffers whose key is stored take the stored array, all other buffers
    keep their contents, no buffer is added, keys without a buffer are
    ignored, and the step counter is taken from the record. *)
Lemma load_checkpoint_spec path fs record stored target :
  scene.files fs !! path = Some record ->
  scene.arrays record = Some stored ->
  exists target',
    scene.load_checkpoint path fs target = (target', Returned tt)
    /\ Scene._t target' = default (Scene._t target) (scene.step_index record)
    /\ Scene.ti_fields target'
       = base_solver.restore_fields (Scene.class_name target) stored
           (Scene.ti_fields target)
    /\ forall k,
         solver (_sim target') k
         = if decide (k ∈ active_solvers (_sim target))
           then base_solver.load_ckpt_from_numpy stored (solver (_sim target) k)
           else solver (_sim target) k.
Proof.
  intros Hfile Harrays. unfold scene.load_checkpoint. rewrite Hfile, Harrays.
  unfold mbind at 1. unfold M_bind at 1. simpl getitem.
  unfold mret at 1. unfold M_ret at 1.
  unfold mbind at 1. unfold M_bind at 1. unfold modify at 1.
  unfold mbind at 1. unfold M_bind at 1. unfold gets at 1.
  unfold mbind at 1. unfold M_bind at 1.
  set (t1 := set_ti_fields _ target).
  destruct (load_solvers_spec stored (active_solvers (_sim t1)) t1)
    as (sim' & Hrun & Hsim'); [apply active_solvers_NoDup|].
  rewrite Hrun. eexists. split; [reflexivity|]. simpl.
  split; [done|]. split; [done|]. exact Hsim'.
Qed.


Lemma same_configuration_active s target :
  same_configuration s target ->
  active_solvers (_sim target) = active_solvers (_sim s).
Proof.
  intros (_ & _ & Hk). unfold active_solvers.
  apply list_filter_iff. intros k. destruct (Hk k) as (_ & -> & _). done.
Qed.

(** C5: [save_checkpoint] writes one record holding the clock reading, the
    step counter and a flat map in which every buffer of the scene and of
    each active solver sits under its "Owner.attribute" key.
    [load_checkpoint] of any record with arrays returns: a buffer whose key
    is stored takes the stored array, every other buffer keeps its
    contents, stored keys without a buffer are ignored, and the step counter
    becomes the stored one.  So loading what was saved into a scene of the
    same configuration reproduces the buffers of the scene and of its active
    solvers, and [_t]. *)
Theorem C5_checkpoint_round_trip (s target : Scene.t) (path : string)
  (now : Float) (fs : scene.FileSystem) :
  scene.writable fs path = true ->
  owners_distinct s ->
  same_configuration s target ->
  exists fs' record,
    scene.save_checkpoint path now fs s = (s, Returned fs')
    /\ scene.files fs' !! path = Some record
    /\ scene.timestamp record = Some now
    /\ scene.step_index record = Some (Scene._t s)
    /\ scene.arrays record = Some (scene.dump_ckpt_to_numpy s)
    /\ (forall attr,
          scene.dump_ckpt_to_numpy s
            !! base_solver.ckpt_key (Scene.class_name s) attr
          = Scene.ti_fields s !! attr)
    /\ (forall k attr, k ∈ active_solvers (_sim s) ->
          scene.dump_ckpt_to_numpy s
            !! base_solver.ckpt_key (Sim.class_name (solver (_sim s) k)) attr
          = Sim.ti_fields (solver (_sim s) k) !! attr)
    /\ (forall other stored anyone,
          scene.files other !! path = Some stored ->
          is_Some (scene.arrays stored) ->
          exists loaded,
            scene.load_checkpoint path other anyone = (loaded, Returned tt)
            /\ Scene._t loaded
               = default (Scene._t anyone) (scene.step_index stored)
            /\ (forall attr,
                  Scene.ti_fields loaded !! attr
                  = restored (Scene.class_name anyone)
                      (default ∅ (scene.arrays stored))
                      (Scene.ti_fields anyone) attr)
            /\ (forall k attr, k ∈ active_solvers (_sim anyone) ->
                  Sim.ti_fields (solver (_sim loaded) k) !! attr
                  = restored (Sim.class_name (solver (_sim anyone) k))
                      (default ∅ (scene.arrays stored))
                      (Sim.ti_fields (solver (_sim anyone) k)) attr)
            /\ (forall k, k ∉ active_solvers (_sim anyone) ->
                  solver (_sim loaded) k = solver (_sim anyone) k))
    /\ exists target',
         scene.load_checkpoint path fs' target = (target', Returned tt)
         /\ Scene._t target' = Scene._t s
         /\ Scene.ti_fields target' = Scene.ti_fields s
         /\ forall k, k ∈ active_solvers (_sim s) ->
              Sim.ti_fields (solver (_sim target') k)
              = Sim.ti_fields (solver (_sim s) k).
Proof.
  intros Hw Hown Hconf.
  set (record := {| scene.timestamp := Some now;
                    scene.step_index := Some (Scene._t s);
                    scene.arrays := Some (scene.dump_ckpt_to_numpy s) |}).
  exists (scene.write_file path record fs), record.
  split.
  { unfold scene.save_checkpoint, mbind, M_bind, gets. by rewrite Hw. }
  split; [apply lookup_insert_eq|].
  split; [done|]. split; [done|]. split; [done|].
  split; [intros attr; by apply dump_scene_lookup|].
  split; [intros k attr Hk; by apply dump_solver_lookup|].
  split.
  { intros other stored anyone Hfile [a Ha].
    destruct (load_checkpoint_spec path other stored a anyone Hfile Ha)
      as (loaded & Hrun & Ht & Hfields & Hsolvers).
    exists loaded. rewrite Ha. simpl.
    split; [done|]. split; [done|]. split.
    { intros attr. by rewrite Hfields, restore_fields_lookup. }
    split.
    - intros k attr Hk. rewrite Hsolvers, decide_True by done. simpl.
      apply restore_fields_lookup.
    - intros k Hk. by rewrite Hsolvers, decide_False. }
  destruct (load_checkpoint_spec path (scene.write_file path record fs) record
              (scene.dump_ckpt_to_numpy s) target)
    as (target' & Hrun & Ht & Hfields & Hsolvers);
    [apply lookup_insert_eq | done |].
  destruct Hconf as (Hclass & Hdom & Hk).
  exists target'. split; [done|]. split; [done|]. split.
  - rewrite Hfields, Hclass. apply restore_fields_round_trip; [done|].
    intros attr. by apply dump_scene_lookup.
  - intros k Hactive. rewrite Hsolvers.
    rewrite (same_configuration_active s target) by done.
    rewrite decide_True by done. simpl.
    destruct (Hk k) as (-> & _ & Hkdom).
    apply restore_fields_round_trip; [done|].
    intros attr. by apply dump_solver_lookup.
Qed.

End CheckpointFacts.

(** * The properties on the concrete world *)

Section ColourFacts.
Context `{Collaborators}.
Import Pyrender RasterizerContext.

Lemma land_255 a : Z.land a 255 = a mod 256.
Proof. change 255 with (Z.ones 8). by rewrite Z.land_ones. Qed.

Lemma seg_idxc_to_idxc_rgb_eq i :
  rasterizer_context.seg_idxc_to_idxc_rgb i
  = ((i / 65536) mod 256, (i / 256) mod 256, i mod 256).
Proof.
  unfold rasterizer_context.seg_idxc_to_idxc_rgb.
  by rewrite !land_255, !Z.shiftr_div_pow2.
Qed.

Lemma np_int64_small z :
  - 2 ^ 63 <= z < 2 ^ 63 -> rasterizer_context.np_int64 z = z.
Proof.
  intros Hz. unfold rasterizer_context.np_int64.
  rewrite Z.mod_small; lia.
Qed.

Lemma decode_bytes r g b :
  0 <= r <= 255 -> 0 <= g <= 255 -> 0 <= b <= 255 ->
  rasterizer_context.seg_idxc_rgb_arr_to_idxc_arr [(r, g, b)]
  = [r * 65536 + g * 256 + b].
Proof.
  intros Hr Hg Hb. unfold rasterizer_context.seg_idxc_rgb_arr_to_idxc_arr.
  cbn [fmap list_fmap].
  rewrite (np_int64_small r), (np_int64_small g), (np_int64_small b) by lia.
  change (256 * 256) with 65536.
  rewrite (np_int64_small (r * 65536)), (np_int64_small (g * 256)) by lia.
  rewrite (np_int64_small (r * 65536 + g * 256)) by lia.
  by rewrite np_int64_small by lia.
Qed.

Lemma decode_cons px rest :
  rasterizer_context.seg_idxc_rgb_arr_to_idxc_arr (px :: rest)
  = (rasterizer_context.seg_idxc_rgb_arr_to_idxc_arr [px]
     ++ rasterizer_context.seg_idxc_rgb_arr_to_idxc_arr rest)%list.
Proof. reflexivity. Qed.

Lemma decode_encode_one i :
  0 <= i < 2 ^ 24 ->
  rasterizer_context.seg_idxc_rgb_arr_to_idxc_arr
    [rasterizer_context.seg_idxc_to_idxc_rgb i] = [i].
Proof.
  intros Hi. rewrite seg_idxc_to_idxc_rgb_eq.
  pose proof (Z.mod_pos_bound (i / 65536) 256).
  pose proof (Z.mod_pos_bound (i / 256) 256).
  pose proof (Z.mod_pos_bound i 256).
  rewrite decode_bytes by lia.
  f_equal. change (2 ^ 24) with 16777216 in Hi.
  Z.to_euclidean_division_equations; lia.
Qed.

(** X1: on segmentation ids below [2^24] and colours whose channels are
    bytes, [seg_idxc_to_idxc_rgb] and [seg_idxc_rgb_arr_to_idxc_arr] are
    inverse to each other: decoding the colours of a list of ids gives the
    ids back, and a pixel array of byte triples decodes to ids in
    [0, 2^24) whose colours are the pixels. *)
Theorem X1_seg_colour_round_trip (ids : list Z) (pixels : list (Z * Z * Z)) :
  Forall (fun i => 0 <= i < 2 ^ 24) ids ->
  Forall (fun '(r, g, b) => is_byte r /\ is_byte g /\ is_byte b) pixels ->
  rasterizer_context.seg_idxc_rgb_arr_to_idxc_arr
    (rasterizer_context.seg_idxc_to_idxc_rgb <$> ids) = ids
  /\ Forall (fun i => 0 <= i < 2 ^ 24)
       (rasterizer_context.seg_idxc_rgb_arr_to_idxc_arr pixels)
  /\ rasterizer_context.seg_idxc_to_idxc_rgb
       <$> rasterizer_context.seg_idxc_rgb_arr_to_idxc_arr pixels = pixels.
Proof.
  intros Hids Hpx. split; [|split].
  - induction Hids as [|i ids Hi _ IH]; [done|].
    rewrite fmap_cons, decode_cons, decode_encode_one, IH by done. done.
  - induction Hpx as [|[[r g] b] rest (Hr & Hg & Hb) _ IH]; [constructor|].
    rewrite decode_cons, decode_bytes by done. constructor; [|exact IH].
    unfold is_byte in *. change (2 ^ 24) with 16777216. lia.
  - induction Hpx as [|[[r g] b] rest (Hr & Hg & Hb) _ IH]; [done|].
    rewrite decode_cons, decode_bytes by done.
    cbn [app]. rewrite fmap_cons, IH. f_equal.
    rewrite seg_idxc_to_idxc_rgb_eq. unfold is_byte in *.
    f_equal; [f_equal|]; Z.to_euclidean_division_equations; lia.
Qed.

(** X2: whatever the integer, each channel of its segmentation colour is a
    byte, and two ids get the same colour exactly when they agree modulo
    [2^24]: ids 16777216 apart are not told apart. *)
Theorem X2_seg_colour_collisions (i j : Z) :
  (let '(r, g, b) := rasterizer_context.seg_idxc_to_idxc_rgb i in
   is_byte r /\ is_byte g /\ is_byte b)
  /\ (rasterizer_context.seg_idxc_to_idxc_rgb i
      = rasterizer_context.seg_idxc_to_idxc_rgb j
      <-> i mod 2 ^ 24 = j mod 2 ^ 24)
  /\ rasterizer_context.seg_idxc_to_idxc_rgb (i + 2 ^ 24)
     = rasterizer_context.seg_idxc_to_idxc_rgb i.
Proof.
  rewrite !seg_idxc_to_idxc_rgb_eq. change (2 ^ 24) with 16777216.
  unfold is_byte. split; [Z.to_euclidean_division_equations; lia|]. split.
  - split.
    + intros [= H1 H2 H3]. Z.to_euclidean_division_equations; lia.
    + intros Hm. f_equal; [f_equal|]; Z.to_euclidean_division_equations; lia.
  - f_equal; [f_equal|]; Z.to_euclidean_division_equations; lia.
Qed.

End ColourFacts.

Section NodeColourFacts.
Context `{Collaborators}.
Import Pyrender RasterizerContext.

Lemma same_outside_seg_fields c c' :
  same_outside_seg c c' <->
  segmentation_level c' = segmentation_level c
  /\ render_particle_as c' = render_particle_as c
  /\ link_frame_shown c' = link_frame_shown c
  /\ buffer c' = buffer c
  /\ link_frame_nodes c' = link_frame_nodes c
  /\ rigid_nodes c' = rigid_nodes c
  /\ static_nodes c' = static_nodes c
  /\ dynamic_nodes c' = dynamic_nodes c
  /\ external_nodes c' = external_nodes c
  /\ _t c' = _t c
  /\ _scene c' = _scene c.
Proof.
  unfold same_outside_seg. destruct c, c'. simpl. split.
  - intros [= -> -> -> -> -> -> -> -> -> -> ->]. done.
  - intros (-> & -> & -> & -> & -> & -> & -> & -> & -> & -> & ->). done.
Qed.

Lemma same_outside_seg_refl c : same_outside_seg c c.
Proof. by apply same_outside_seg_fields. Qed.

Lemma same_outside_seg_trans c1 c2 c3 :
  same_outside_seg c1 c2 -> same_outside_seg c2 c3 -> same_outside_seg c1 c3.
Proof.
  rewrite !same_outside_seg_fields.
  intros (?&?&?&?&?&?&?&?&?&?&?) (?&?&?&?&?&?&?&?&?&?&?).
  repeat split; congruence.
Qed.

(** What a query for a key does to tables that are in order. *)
Lemma seg_key_to_idxc_spec c k :
  tables_ok c ->
  exists c' i,
    rasterizer_context.seg_key_to_idxc k c = (c', Returned i)
    /\ tables_ok c'
    /\ seg_key_map c' !! k = Some i
    /\ seg_key_map c ⊆ seg_key_map c'
    /\ 0 <= i <= Z.of_nat (size (seg_key_map c))
    /\ (size (seg_key_map c') <= S (size (seg_key_map c)))%nat
    /\ seg_node_map c' = seg_node_map c
    /\ same_outside_seg c c'.
Proof.
  intros Hok. destruct (seg_key_map c !! k) as [i|] eqn:Hk.
  - exists c, i. rewrite (seg_key_to_idxc_seen c k i) by done.
    split; [done|]. split; [done|]. split; [done|]. split; [done|].
    split; [|split; [lia | split; [done | apply same_outside_seg_refl]]].
    assert (is_Some (seg_idxc_map c !! i)) as Hi.
    { exists k. by apply (ok_inverse _ Hok). }
    apply (ok_dense _ Hok) in Hi. lia.
  - destruct (seg_key_to_idxc_fresh c k Hok Hk) as (c' & Hrun & Hok' & Hkm & Him).
    exists c', (Z.of_nat (size (seg_key_map c))).
    split; [exact Hrun|]. split; [done|].
    split; [rewrite Hkm; apply lookup_insert_eq|].
    split; [rewrite Hkm; by apply insert_subseteq|].
    split; [lia|].
    split; [rewrite Hkm, map_size_insert_None by done; lia|].
    revert Hrun. unfold rasterizer_context.seg_key_to_idxc,
      rasterizer_context.setdefault. rewrite Hk. intros [= <-].
    split; [done|]. by apply same_outside_seg_fields.
Qed.

Lemma create_node_seg_spec c k n :
  tables_ok c ->
  exists c' i,
    rasterizer_context.create_node_seg k (Some n) c = (c', Returned tt)
    /\ tables_ok c'
    /\ seg_key_map c' !! k = Some i
    /\ seg_key_map c ⊆ seg_key_map c'
    /\ 0 <= i <= Z.of_nat (size (seg_key_map c))
    /\ (size (seg_key_map c') <= S (size (seg_key_map c)))%nat
    /\ seg_node_map c'
       = <[n := rasterizer_context.seg_idxc_to_idxc_rgb i]> (seg_node_map c)
    /\ same_outside_seg c c'.
Proof.
  intros Hok.
  destruct (seg_key_to_idxc_spec c k Hok)
    as (c1 & i & Hrun & Hok1 & Hk & Hsub & Hi & Hsz & Hnm & Hout).
  eexists _, i. unfold rasterizer_context.create_node_seg.
  unfold mbind, M_bind. rewrite Hrun. simpl.
  split; [reflexivity|]. simpl. split.
  { destruct Hok1 as [H1 H2 H3]. split; simpl; done. }
  split; [done|]. split; [done|]. split; [done|]. split; [done|].
  split; [by rewrite Hnm|].
  apply same_outside_seg_fields in Hout. by apply same_outside_seg_fields.
Qed.

Lemma create_node_seg_none_spec c k :
  tables_ok c ->
  exists c' i,
    rasterizer_context.create_node_seg k None c = (c', Returned tt)
    /\ tables_ok c'
    /\ seg_key_map c' !! k = Some i
    /\ seg_key_map c ⊆ seg_key_map c'
    /\ seg_node_map c' = seg_node_map c
    /\ same_outside_seg c c'.
Proof.
  intros Hok.
  destruct (seg_key_to_idxc_spec c k Hok)
    as (c1 & i & Hrun & Hok1 & Hk & Hsub & Hi & _ & Hnm & Hout).
  exists c1, i. unfold rasterizer_context.create_node_seg.
  unfold mbind, M_bind. rewrite Hrun. simpl. done.
Qed.

(** X3: in a context whose tables are in order and hold fewer than [2^24]
    keys, the colour [create_node_seg] stores for a node leads back to the
    node's key: decoding the colour gives a segmentation id, and
    [seg_idxc_to_key] of that id is the key the node was registered under. *)
Theorem X3_node_colour_to_key (c : RasterizerContext.t) (k : SegKey)
  (n : Node) :
  tables_ok c ->
  Z.of_nat (size (seg_key_map c)) < 2 ^ 24 ->
  exists c' colour i,
    rasterizer_context.create_node_seg k (Some n) c = (c', Returned tt)
    /\ seg_node_map c' !! n = Some colour
    /\ rasterizer_context.seg_idxc_rgb_arr_to_idxc_arr [colour] = [i]
    /\ rasterizer_context.seg_idxc_to_key i c' = (c', Returned k).
Proof.
  intros Hok Hsize.
  destruct (create_node_seg_spec c k n Hok)
    as (c' & i & Hrun & Hok' & Hk & _ & Hi & _ & Hnm & _).
  exists c', (rasterizer_context.seg_idxc_to_idxc_rgb i), i.
  split; [exact Hrun|]. split; [rewrite Hnm; apply lookup_insert_eq|].
  split; [apply decode_encode_one; lia|].
  unfold rasterizer_context.seg_idxc_to_key.
  by rewrite (proj1 (ok_inverse _ Hok' k i) Hk).
Qed.

End NodeColourFacts.

Section RigidNodeFacts.
Context `{Collaborators}.
Import Pyrender RasterizerContext.

Lemma rgb_inj i j :
  0 <= i < 2 ^ 24 -> 0 <= j < 2 ^ 24 ->
  rasterizer_context.seg_idxc_to_idxc_rgb i
  = rasterizer_context.seg_idxc_to_idxc_rgb j -> i = j.
Proof.
  intros Hi Hj Heq.
  assert ([i] = [j]) as [= ->]; [|done].
  rewrite <- (decode_encode_one i), <- (decode_encode_one j) by done.
  by rewrite Heq.
Qed.

Lemma tables_ok_same_tables c c' :
  seg_key_map c' = seg_key_map c -> seg_idxc_map c' = seg_idxc_map c ->
  tables_ok c -> tables_ok c'.
Proof. intros Hk Hi [H1 H2 H3]. split; rewrite ?Hk, ?Hi; done. Qed.

(** [add_rigid_node] at a supported segmentation level. *)
Lemma add_rigid_node_spec c geom obj pose k :
  tables_ok c ->
  (segmentation_level c = "link"
   /\ k = KeyLink (geom_entity_idx geom) (geom_link_idx geom))
  \/ (segmentation_level c = "entity" /\ k = KeyIdx (geom_entity_idx geom)) ->
  let n := next_node (_scene c) in
  exists c' i,
    rasterizer_context.add_rigid_node geom obj pose c = (c', Returned tt)
    /\ tables_ok c'
    /\ seg_key_map c' !! k = Some i
    /\ seg_key_map c ⊆ seg_key_map c'
    /\ 0 <= i <= Z.of_nat (size (seg_key_map c))
    /\ (size (seg_key_map c') <= S (size (seg_key_map c)))%nat
    /\ seg_node_map c'
       = <[n := rasterizer_context.seg_idxc_to_idxc_rgb i]> (seg_node_map c)
    /\ rigid_nodes c' = <[geom_uid geom := n]> (rigid_nodes c)
    /\ segmentation_level c' = segmentation_level c
    /\ next_node (_scene c') = S n
    /\ requests (_scene c') = (requests (_scene c) ++ [Add n obj pose])%list.
Proof.
  intros Hok Hlevel n.
  set (c1 := set_rigid_nodes (<[geom_uid geom := n]> (rigid_nodes c))
               (set_scene {| next_node := S n;
                             requests := requests (_scene c) ++ [Add n obj pose] |}
                          c)).
  assert (Hok1 : tables_ok c1) by (by apply (tables_ok_same_tables c)).
  destruct (create_node_seg_spec c1 k n Hok1)
    as (c' & i & Hrun & Hok' & Hk & Hsub & Hi & Hsz & Hnm & Hout).
  apply same_outside_seg_fields in Hout
    as (Hl & _ & _ & _ & _ & Hr & _ & _ & _ & _ & Hs).
  exists c', i.
  split.
  { unfold rasterizer_context.add_rigid_node. unfold mbind, M_bind.
    change (rasterizer_context.add_node obj pose c)
      with (set_scene {| next_node := S n;
                         requests := requests (_scene c) ++ [Add n obj pose] |}
                      c, Returned n).
    cbn [modify gets].
    change (segmentation_level (set_rigid_nodes _ _))
      with (segmentation_level c).
    destruct Hlevel as [[Hl0 ->] | [Hl0 ->]]; rewrite Hl0; simpl; exact Hrun. }
  split; [done|]. split; [done|]. split; [done|]. split; [done|].
  split; [done|]. split; [done|].
  split; [by rewrite Hr|]. split; [by rewrite Hl|].
  rewrite Hs. done.
Qed.

(** X4: two geoms registered one after the other with [add_rigid_node], in a
    context whose tables are in order with room below [2^24] keys, get the
    same segmentation colour exactly when they have the same key: at level
    ["link"] the same entity and link, at level ["entity"] the same
    entity. *)
Theorem X4_rigid_nodes_share_colour (c : RasterizerContext.t) (g1 g2 : Geom)
  (o1 o2 : Mesh) (p1 p2 : option Payload) :
  tables_ok c ->
  segmentation_level c = "link" \/ segmentation_level c = "entity" ->
  Z.of_nat (size (seg_key_map c)) + 2 <= 2 ^ 24 ->
  let n1 := next_node (_scene c) in
  let n2 := S n1 in
  exists c2 colour1 colour2,
    (rasterizer_context.add_rigid_node g1 o1 p1 ;;
     rasterizer_context.add_rigid_node g2 o2 p2) c = (c2, Returned tt)
    /\ rigid_nodes c2 !! geom_uid g2 = Some n2
    /\ seg_node_map c2 !! n1 = Some colour1
    /\ seg_node_map c2 !! n2 = Some colour2
    /\ (segmentation_level c = "link" ->
        (colour1 = colour2 <->
         geom_entity_idx g1 = geom_entity_idx g2
         /\ geom_link_idx g1 = geom_link_idx g2))
    /\ (segmentation_level c = "entity" ->
        (colour1 = colour2 <-> geom_entity_idx g1 = geom_entity_idx g2)).
Proof.
  intros Hok Hlevel Hsize n1 n2.
  set (key := fun g : Geom =>
         if String.eqb (segmentation_level c) "link"
         then KeyLink (geom_entity_idx g) (geom_link_idx g)
         else KeyIdx (geom_entity_idx g)).
  assert (Hkey : forall g,
    (segmentation_level c = "link"
     /\ key g = KeyLink (geom_entity_idx g) (geom_link_idx g))
    \/ (segmentation_level c = "entity" /\ key g = KeyIdx (geom_entity_idx g))).
  { intros g. unfold key. destruct Hlevel as [-> | ->]; [left | right]; done. }
  destruct (add_rigid_node_spec c g1 o1 p1 (key g1) Hok (Hkey g1))
    as (c1 & i1 & Hrun1 & Hok1 & Hk1 & Hsub1 & Hi1 & Hsz1 & Hnm1 & Hr1 & Hl1
        & Hnext1 & _).
  destruct (add_rigid_node_spec c1 g2 o2 p2 (key g2) Hok1)
    as (c2 & i2 & Hrun2 & Hok2 & Hk2 & Hsub2 & Hi2 & Hsz2 & Hnm2 & Hr2 & Hl2
        & Hnext2 & _).
  { rewrite Hl1. apply Hkey. }
  fold n1 in Hnm1, Hnext1. rewrite Hnext1 in Hnm2, Hr2. fold n2 in Hnm2, Hr2.
  exists c2, (rasterizer_context.seg_idxc_to_idxc_rgb i1),
    (rasterizer_context.seg_idxc_to_idxc_rgb i2).
  split.
  { unfold mbind, M_bind. rewrite Hrun1. exact Hrun2. }
  split; [rewrite Hr2; apply lookup_insert_eq|].
  split.
  { rewrite Hnm2, Hnm1, lookup_insert_ne by (unfold n2; lia).
    apply lookup_insert_eq. }
  split; [rewrite Hnm2; apply lookup_insert_eq|].
  assert (Hids : i1 = i2 <-> key g1 = key g2).
  { pose proof (lookup_weaken _ _ _ _ Hk1 Hsub2) as Hk1'. split.
    - intros ->. apply (ok_inverse _ Hok2) in Hk1', Hk2. congruence.
    - intros Heq. rewrite Heq in Hk1'. congruence. }
  assert (Hcol : rasterizer_context.seg_idxc_to_idxc_rgb i1
                 = rasterizer_context.seg_idxc_to_idxc_rgb i2 <-> i1 = i2).
  { split; [|by intros ->]. apply rgb_inj; lia. }
  rewrite Hcol, Hids. unfold key.
  split; intros ->; simpl.
  - split; [intros [= -> ->]; done | intros [-> ->]; done].
  - split; [intros [= ->]; done | intros ->; done].
Qed.

(** X5: at a segmentation level other than ["link"] and ["entity"],
    [add_rigid_node] raises, an [AssertionError] at level ["geom"] and a
    Genesis exception otherwise, only after it has created the node and
    entered it in [rigid_nodes]; the segmentation tables stay as they
    were. *)
Theorem X5_rigid_node_unsupported_level (c : RasterizerContext.t) (geom : Geom)
  (obj : Mesh) (pose : option Payload) :
  segmentation_level c <> "link" ->
  segmentation_level c <> "entity" ->
  let n := next_node (_scene c) in
  exists c',
    rasterizer_context.add_rigid_node geom obj pose c
    = (c', Raised
             (if String.eqb (segmentation_level c) "geom"
              then AssertionError "geom level segmentation not supported yet"
              else GenesisException
                     ("Unsupported segmentation level: "
                      +:+ segmentation_level c)))
    /\ rigid_nodes c' = <[geom_uid geom := n]> (rigid_nodes c)
    /\ requests (_scene c') = (requests (_scene c) ++ [Add n obj pose])%list
    /\ seg_node_map c' = seg_node_map c
    /\ seg_key_map c' = seg_key_map c
    /\ seg_idxc_map c' = seg_idxc_map c.
Proof.
  intros Hlink Hentity n.
  apply String.eqb_neq in Hlink, Hentity.
  eexists. split.
  - unfold rasterizer_context.add_rigid_node. unfold mbind, M_bind.
    cbn [rasterizer_context.add_node rasterizer_context.on_scene zoom
         Pyrender.add modify gets fst snd].
    simpl. rewrite Hlink, Hentity.
    destruct (String.eqb (segmentation_level c) "geom"); reflexivity.
  - simpl. done.
Qed.

End RigidNodeFacts.

Section DynamicNodeFacts.
Context `{Collaborators}.
Import Pyrender RasterizerContext.

(** The loop of [clear_dynamic_nodes], seen from the segmentation tables. *)
Lemma remove_nodes_seg nodes c :
  let c' := (for_each nodes (fun dynamic_node =>
               rasterizer_context.remove_node_seg dynamic_node ;;
               rasterizer_context.remove_node dynamic_node) c).1 in
  seg_key_map c' = seg_key_map c
  /\ seg_idxc_map c' = seg_idxc_map c
  /\ forall n, seg_node_map c' !! n
               = if bool_decide (n ∈ nodes) then None else seg_node_map c !! n.
Proof.
  revert c. induction nodes as [|x nodes IH]; intros c; cbn [for_each].
  - split; [done|]. split; [done|]. intros n.
    by rewrite bool_decide_eq_false_2 by apply not_elem_of_nil.
  - unfold mbind, M_bind.
    set (c1 := set_scene
                 {| next_node := next_node (_scene c);
                    requests := requests (_scene c) ++ [Remove x] |}
                 (set_seg_node_map (delete x (seg_node_map c)) c)).
    change ((rasterizer_context.remove_node_seg x
               ≫= λ _, rasterizer_context.remove_node x) c)
      with (c1, Returned tt).
    cbv beta iota zeta.
    destruct (IH c1) as (Hk & Hi & Hn).
    split; [exact Hk|]. split; [exact Hi|]. intros n. rewrite Hn.
    destruct (decide (n = x)) as [->|Hne].
    + rewrite (bool_decide_eq_true_2 (x ∈ x :: nodes)) by left.
      destruct (bool_decide (x ∈ nodes)); [done|].
      subst c1. simpl. apply lookup_delete_eq.
    + destruct (bool_decide (n ∈ nodes)) eqn:Hin.
      * apply bool_decide_eq_true in Hin.
        by rewrite bool_decide_eq_true_2 by (by right).
      * apply bool_decide_eq_false in Hin.
        rewrite bool_decide_eq_false_2
          by (rewrite elem_of_cons; intros [?|?]; done).
        subst c1. simpl. by apply lookup_delete_ne.
Qed.

Lemma clear_dynamic_nodes_seg c :
  exists c',
    rasterizer_context.clear_dynamic_nodes c = (c', Returned tt)
    /\ dynamic_nodes c' = []
    /\ next_node (_scene c') = next_node (_scene c)
    /\ seg_key_map c' = seg_key_map c
    /\ seg_idxc_map c' = seg_idxc_map c
    /\ (forall n, seg_node_map c' !! n
                  = if bool_decide (n ∈ dynamic_nodes c) then None
                    else seg_node_map c !! n)
    /\ set_dynamic_nodes [] c' = c'.
Proof.
  destruct (remove_nodes_spec (dynamic_nodes c) c)
    as (c1 & Hrun & _ & Hnext & _).
  pose proof (remove_nodes_seg (dynamic_nodes c) c) as Hseg.
  rewrite Hrun in Hseg. cbn [fst] in Hseg. destruct Hseg as (Hk & Hi & Hn).
  exists (set_dynamic_nodes [] c1). split.
  - unfold rasterizer_context.clear_dynamic_nodes.
    unfold mbind at 1. unfold M_bind at 1. unfold gets.
    unfold mbind at 1. unfold M_bind at 1. by rewrite Hrun.
  - simpl. done.
Qed.

(** X7: [clear_dynamic_nodes] returns, takes the colour of exactly the
    dynamic nodes out of [seg_node_map], and leaves every other node's
    colour and both key tables as they were; run again at once, it changes
    nothing. *)
Theorem X7_clear_dynamic_nodes (c : RasterizerContext.t) :
  exists c',
    rasterizer_context.clear_dynamic_nodes c = (c', Returned tt)
    /\ dynamic_nodes c' = []
    /\ (forall n, n ∈ dynamic_nodes c -> seg_node_map c' !! n = None)
    /\ (forall n, n ∉ dynamic_nodes c ->
          seg_node_map c' !! n = seg_node_map c !! n)
    /\ seg_key_map c' = seg_key_map c
    /\ seg_idxc_map c' = seg_idxc_map c
    /\ rasterizer_context.clear_dynamic_nodes c' = (c', Returned tt).
Proof.
  destruct (clear_dynamic_nodes_seg c)
    as (c' & Hrun & Hdyn & _ & Hk & Hi & Hn & Hidem).
  exists c'. split; [exact Hrun|]. split; [exact Hdyn|].
  split; [intros n Hin; by rewrite Hn, bool_decide_eq_true_2|].
  split; [intros n Hin; by rewrite Hn, bool_decide_eq_false_2|].
  split; [exact Hk|]. split; [exact Hi|].
  unfold rasterizer_context.clear_dynamic_nodes.
  unfold mbind, M_bind, gets. rewrite Hdyn. cbn -[set_dynamic_nodes].
  unfold modify. by rewrite Hidem.
Qed.

Lemma add_dynamic_node_spec c e m p :
  tables_ok c ->
  let n := next_node (_scene c) in
  exists c' i,
    rasterizer_context.add_dynamic_node (Some e) (Some m) p c
    = (c', Returned tt)
    /\ tables_ok c'
    /\ seg_key_map c' !! KeyIdx (idx e) = Some i
    /\ seg_key_map c ⊆ seg_key_map c'
    /\ seg_node_map c'
       = <[n := rasterizer_context.seg_idxc_to_idxc_rgb i]> (seg_node_map c)
    /\ dynamic_nodes c' = (dynamic_nodes c ++ [n])%list
    /\ next_node (_scene c') = S n.
Proof.
  intros Hok n.
  set (c1 := set_dynamic_nodes (dynamic_nodes c ++ [n])
               (set_scene {| next_node := S n;
                             requests := requests (_scene c) ++ [Add n m p] |}
                          c)).
  assert (Hok1 : tables_ok c1) by (by apply (tables_ok_same_tables c)).
  destruct (create_node_seg_spec c1 (KeyIdx (idx e)) n Hok1)
    as (c' & i & Hrun & Hok' & Hk & Hsub & Hi & Hsz & Hnm & Hout).
  apply same_outside_seg_fields in Hout
    as (_ & _ & _ & _ & _ & _ & _ & Hd & _ & _ & Hs).
  exists c', i. split.
  { unfold rasterizer_context.add_dynamic_node. unfold mbind, M_bind.
    simpl. exact Hrun. }
  split; [done|]. split; [done|]. split; [done|]. split; [done|].
  split; [by rewrite Hd|]. by rewrite Hs.
Qed.

(** X6: segmentation colours are stable across frames.  In a context whose
    tables are in order, registering an entity without a mesh reserves its
    segmentation id and creates no node; a dynamic node then added for the
    entity gets the colour of that id; [clear_dynamic_nodes] takes the
    node's colour away; and the node added for the entity in the next frame
    gets the same colour again. *)
Theorem X6_dynamic_node_colour_stable (c : RasterizerContext.t) (e : Entity)
  (m1 m2 : Mesh) (p1 p2 : option Payload) :
  tables_ok c ->
  let n1 := next_node (_scene c) in
  let n2 := S n1 in
  exists c0 c1 c2 c3 i,
    rasterizer_context.add_dynamic_node (Some e) None None c
    = (c0, Returned tt)
    /\ seg_key_map c0 !! KeyIdx (idx e) = Some i
    /\ _scene c0 = _scene c
    /\ dynamic_nodes c0 = dynamic_nodes c
    /\ rasterizer_context.add_dynamic_node (Some e) (Some m1) p1 c0
       = (c1, Returned tt)
    /\ seg_node_map c1 !! n1
       = Some (rasterizer_context.seg_idxc_to_idxc_rgb i)
    /\ rasterizer_context.clear_dynamic_nodes c1 = (c2, Returned tt)
    /\ seg_node_map c2 !! n1 = None
    /\ rasterizer_context.add_dynamic_node (Some e) (Some m2) p2 c2
       = (c3, Returned tt)
    /\ dynamic_nodes c3 = [n2]
    /\ seg_node_map c3 !! n2
       = Some (rasterizer_context.seg_idxc_to_idxc_rgb i).
Proof.
  intros Hok n1 n2.
  destruct (create_node_seg_none_spec c (KeyIdx (idx e)) Hok)
    as (c0 & i & Hrun0 & Hok0 & Hk0 & _ & _ & Hout0).
  apply same_outside_seg_fields in Hout0
    as (_ & _ & _ & _ & _ & _ & _ & Hd0 & _ & _ & Hs0).
  destruct (add_dynamic_node_spec c0 e m1 p1 Hok0)
    as (c1 & i1 & Hrun1 & Hok1 & Hk1 & Hsub1 & Hnm1 & Hd1 & Hnext1).
  rewrite Hs0 in Hnm1, Hd1, Hnext1. fold n1 in Hnm1, Hd1, Hnext1.
  assert (i1 = i) as ->.
  { pose proof (lookup_weaken _ _ _ _ Hk0 Hsub1). congruence. }
  destruct (clear_dynamic_nodes_seg c1)
    as (c2 & Hrun2 & Hd2 & Hnext2 & Hkm2 & Him2 & Hn2 & _).
  assert (Hok2 : tables_ok c2) by (by apply (tables_ok_same_tables c1)).
  destruct (add_dynamic_node_spec c2 e m2 p2 Hok2)
    as (c3 & i3 & Hrun3 & Hok3 & Hk3 & Hsub3 & Hnm3 & Hd3 & Hnext3).
  rewrite Hnext2, Hnext1 in Hnm3, Hd3. fold n2 in Hnm3, Hd3.
  assert (i3 = i) as ->.
  { rewrite <- Hkm2 in Hk1.
    pose proof (lookup_weaken _ _ _ _ Hk1 Hsub3). congruence. }
  exists c0, c1, c2, c3, i.
  split.
  { unfold rasterizer_context.add_dynamic_node. unfold mbind, M_bind.
    simpl. exact Hrun0. }
  split; [done|]. split; [done|]. split; [done|]. split; [done|].
  split; [rewrite Hnm1; apply lookup_insert_eq|].
  split; [done|].
  split.
  { rewrite Hn2, Hd1, bool_decide_eq_true_2; [done|].
    apply elem_of_app. right. left. }
  split; [done|].
  split; [by rewrite Hd3, Hd2|].
  rewrite Hnm3. apply lookup_insert_eq.
Qed.

End DynamicNodeFacts.

Section ExternalRegistryFacts.
Context `{Collaborators}.
Import Pyrender RasterizerContext.

Lemma add_external_node_run c obj pose obj_name :
  name obj = Name obj_name -> obj_name <> "" ->
  external_nodes c !! obj_name = None ->
  let n := next_node (_scene c) in
  rasterizer_context.add_external_node obj pose c
  = (set_external_nodes (<[obj_name := n]> (external_nodes c))
       (set_scene {| next_node := S n;
                     requests := requests (_scene c) ++ [Add n obj pose] |} c),
     Returned tt).
Proof.
  intros Hname Hne Hfree n. unfold rasterizer_context.add_external_node.
  rewrite Hname. destruct obj_name as [|a rest]; [done|].
  unfold mbind, M_bind, gets. rewrite Hfree.
  rewrite bool_decide_eq_false_2 by (intros [? ?]; done).
  reflexivity.
Qed.

Lemma clear_external_node_run c obj obj_name node :
  name obj = Name obj_name ->
  external_nodes c !! obj_name = Some node ->
  rasterizer_context.clear_external_node obj c
  = (set_external_nodes (delete obj_name (external_nodes c))
       (set_scene {| next_node := next_node (_scene c);
                     requests := requests (_scene c) ++ [Remove node] |} c),
     Returned tt).
Proof.
  intros Hname Hreg. unfold rasterizer_context.clear_external_node.
  rewrite Hname. unfold mbind, M_bind, gets. rewrite Hreg. reflexivity.
Qed.

(** X8: an external node added under a free, non-empty name and then
    cleared leaves the registry of external nodes as it was: the backend has
    seen the creation of one node and the removal of that same node, the
    rest of the context is untouched, and the name can be used again. *)
Theorem X8_external_node_round_trip (c : RasterizerContext.t) (obj : Mesh)
  (pose : option Payload) (obj_name : string) :
  name obj = Name obj_name -> obj_name <> "" ->
  external_nodes c !! obj_name = None ->
  let n := next_node (_scene c) in
  exists c1 c2,
    rasterizer_context.add_external_node obj pose c = (c1, Returned tt)
    /\ external_nodes c1 !! obj_name = Some n
    /\ rasterizer_context.clear_external_node obj c1 = (c2, Returned tt)
    /\ external_nodes c2 = external_nodes c
    /\ requests (_scene c2)
       = (requests (_scene c) ++ [Add n obj pose; Remove n])%list
    /\ c2 = set_scene (_scene c2) c
    /\ (rasterizer_context.add_external_node obj pose c2).2 = Returned tt.
Proof.
  intros Hname Hne Hfree n.
  eexists _, _. split; [by apply add_external_node_run|].
  split; [simpl; apply lookup_insert_eq|].
  split.
  { apply (clear_external_node_run _ _ obj_name n); [done|].
    simpl. apply lookup_insert_eq. }
  simpl. rewrite delete_insert_id by done.
  split; [done|]. split; [by rewrite <- app_assoc|]. split.
  { by destruct c. }
  by rewrite (add_external_node_run _ obj pose obj_name).
Qed.

Lemma for_each_remove_node nodes c :
  for_each nodes rasterizer_context.remove_node c
  = (set_scene {| next_node := next_node (_scene c);
                  requests := requests (_scene c) ++ (Remove <$> nodes) |} c,
     Returned tt).
Proof.
  revert c. induction nodes as [|x nodes IH]; intros c.
  - simpl. rewrite app_nil_r. by destruct c as [? ? ? ? ? ? ? ? ? ? ? ? ? []].
  - cbn [for_each]. unfold mbind, M_bind.
    change (rasterizer_context.remove_node x c)
      with (set_scene {| next_node := next_node (_scene c);
                         requests := requests (_scene c) ++ [Remove x] |} c,
            Returned tt).
    cbv beta iota. rewrite IH. simpl. by rewrite <- app_assoc.
Qed.

(** X10: [clear_external_nodes] asks the backend to remove each registered
    external node once, empties the registry and touches nothing else of the
    context; run again at once, it changes nothing. *)
Theorem X10_clear_external_nodes (c : RasterizerContext.t) :
  exists c' removed,
    rasterizer_context.clear_external_nodes c = (c', Returned tt)
    /\ external_nodes c' = ∅
    /\ requests (_scene c')
       = (requests (_scene c) ++ (Remove <$> removed))%list
    /\ removed ≡ₚ (map_to_list (external_nodes c)).*2
    /\ c' = set_external_nodes ∅ (set_scene (_scene c') c)
    /\ rasterizer_context.clear_external_nodes c' = (c', Returned tt).
Proof.
  eexists _, (rasterizer_context.dict_values (external_nodes c)). split.
  { unfold rasterizer_context.clear_external_nodes.
    unfold mbind at 1. unfold M_bind at 1. unfold gets.
    unfold mbind at 1. unfold M_bind at 1.
    rewrite for_each_remove_node. reflexivity. }
  split; [done|]. split; [done|]. split; [done|]. split; [done|].
  unfold rasterizer_context.clear_external_nodes.
  unfold mbind at 1. unfold M_bind at 1. unfold gets.
  unfold mbind at 1. unfold M_bind at 1.
  rewrite for_each_remove_node. simpl.
  unfold rasterizer_context.dict_values. rewrite map_to_list_empty. simpl.
  by rewrite app_nil_r.
Qed.

End ExternalRegistryFacts.

Section DebugObjectFacts.
Context `{Collaborators} `{!Shapes}.
Import Pyrender RasterizerContext.

Lemma append_nonempty (prefix uid : string) :
  prefix <> "" -> prefix +:+ uid <> "".
Proof. destruct prefix; [done|]. intros _. simpl. discriminate. Qed.

(** A drawing method that names its object, registers it as an external
    node and returns it. *)
Lemma draws_removable_intro (draw : string -> M Scene.t Mesh)
  (prefix : string) (mk : string -> Mesh) (pose : option Payload) :
  prefix <> "" ->
  (forall uid, name (mk uid) = Name (prefix +:+ uid)) ->
  (forall uid,
     draw uid
     = scene.assert_built (rasterizer_context.self
         (rasterizer_context.add_external_node (mk uid) pose ;;
          mret (mk uid)))) ->
  draws_removable draw prefix.
Proof.
  intros Hprefix Hname Hdraw s uid Hbuilt Hfree n.
  pose proof (append_nonempty prefix uid Hprefix) as Hne.
  set (c := rasterizer_context.get_context s) in *.
  set (c1 := set_external_nodes (<[prefix +:+ uid := n]> (external_nodes c))
               (set_scene {| next_node := S n;
                             requests := requests (_scene c)
                                         ++ [Add n (mk uid) pose] |} c)).
  set (c2 := set_external_nodes (delete (prefix +:+ uid) (external_nodes c1))
               (set_scene {| next_node := next_node (_scene c1);
                             requests := requests (_scene c1) ++ [Remove n] |}
                          c1)).
  exists (rasterizer_context.put_context c1 s),
    (rasterizer_context.put_context c2 s), (mk uid), pose.
  split.
  { rewrite Hdraw. unfold scene.assert_built, mbind, M_bind, gets.
    rewrite Hbuilt. unfold rasterizer_context.self, zoom. fold c.
    unfold mbind, M_bind.
    by rewrite (add_external_node_run c (mk uid) pose (prefix +:+ uid)). }
  split; [apply Hname|]. split; [done|]. split.
  { unfold scene.clear_debug_object, scene.assert_built, mbind, M_bind, gets.
    change (Scene._is_built (rasterizer_context.put_context c1 s))
      with (Scene._is_built s). rewrite Hbuilt.
    unfold rasterizer_context.self, zoom.
    change (rasterizer_context.get_context
              (rasterizer_context.put_context c1 s)) with c1.
    unfold rasterizer_context.clear_debug_object.
    rewrite (clear_external_node_run c1 (mk uid) (prefix +:+ uid) n);
      [done | apply Hname | apply lookup_insert_eq]. }
  split.
  { change (external_nodes (rasterizer_context.get_context
              (rasterizer_context.put_context c2 s)))
      with (delete (prefix +:+ uid)
              (<[prefix +:+ uid := n]> (external_nodes c))).
    by apply delete_insert_id. }
  change (requests (_scene (rasterizer_context.get_context
            (rasterizer_context.put_context c2 s))))
    with ((requests (_scene c) ++ [Add n (mk uid) pose]) ++ [Remove n])%list.
  by rewrite <- app_assoc.
Qed.

(** X9: each persistent drawing method of a built scene, [draw_debug_line],
    [draw_debug_frame], [draw_debug_frames], [draw_debug_mesh],
    [draw_debug_sphere], [draw_debug_spheres] and [draw_debug_box], names
    its object by its own prefix and the fresh UID, registers it as an
    external node when that name is free, and returns it;
    [clear_debug_object] of the returned object then removes the very node
    that was created and puts the registry back as it was. *)
Theorem X9_debug_objects_removable :
  (forall start end_ radius color,
     draws_removable (scene.draw_debug_line start end_ radius color)
       "debug_line_")
  /\ (forall T axis_length origin_size axis_radius,
        draws_removable
          (scene.draw_debug_frame T axis_length origin_size axis_radius)
          "debug_frame_")
  /\ (forall Ts axis_length origin_size axis_radius,
        draws_removable
          (scene.draw_debug_frames Ts axis_length origin_size axis_radius)
          "debug_frame_")
  /\ (forall mesh pos T,
        draws_removable (scene.draw_debug_mesh mesh pos T) "debug_mesh_")
  /\ (forall pos radius color,
        draws_removable (scene.draw_debug_sphere pos radius color)
          "debug_sphere_")
  /\ (forall poss radius color,
        draws_removable (scene.draw_debug_spheres poss radius color)
          "debug_spheres_")
  /\ (forall bounds color wireframe wireframe_radius,
        draws_removable
          (scene.draw_debug_box bounds color wireframe wireframe_radius)
          "debug_box_").
Proof.
  repeat split; intros.
  - by eapply (draws_removable_intro _ _
      (fun uid => {| name := Name ("debug_line_" +:+ uid);
                     geometry := _ |}) None).
  - by eapply (draws_removable_intro _ _
      (fun uid => {| name := Name ("debug_frame_" +:+ uid);
                     geometry := _ |}) (Some T)).
  - by eapply (draws_removable_intro _ _
      (fun uid => {| name := Name ("debug_frame_" +:+ uid);
                     geometry := _ |}) None).
  - by eapply (draws_removable_intro _ _
      (fun uid => {| name := Name ("debug_mesh_" +:+ uid);
                     geometry := _ |})
      (Some match T with None => gu_trans_to_T pos | Some T => T end)).
  - by eapply (draws_removable_intro _ _
      (fun uid => {| name := Name ("debug_sphere_" +:+ uid);
                     geometry := _ |}) None).
  - by eapply (draws_removable_intro _ _
      (fun uid => {| name := Name ("debug_spheres_" +:+ uid);
                     geometry := _ |}) None).
  - by eapply (draws_removable_intro _ _
      (fun uid => {| name := Name ("debug_box_" +:+ uid);
                     geometry := _ |}) None).
Qed.

End DebugObjectFacts.

Section PersistenceFacts.
Context `{Collaborators}.
Import Pyrender RasterizerContext.

#[local] Instance persists_refl : Reflexive persists.
Proof. intros c. by split. Qed.

#[local] Instance persists_trans : Transitive persists.
Proof.
  intros c1 c2 c3 [] []. split; try congruence; [by etransitivity | auto].
Qed.

#[local] Instance scene_persists_refl : Reflexive scene_persists.
Proof. intros s. unfold scene_persists. reflexivity. Qed.

#[local] Instance scene_persists_trans : Transitive scene_persists.
Proof. intros s1 s2 s3. unfold scene_persists. apply persists_trans. Qed.

(** A change that leaves the registries, the options and both key tables
    alone. *)
Lemma persists_same c c' :
  external_nodes c' = external_nodes c ->
  static_nodes c' = static_nodes c ->
  rigid_nodes c' = rigid_nodes c ->
  link_frame_nodes c' = link_frame_nodes c ->
  link_frame_shown c' = link_frame_shown c ->
  segmentation_level c' = segmentation_level c ->
  render_particle_as c' = render_particle_as c ->
  seg_key_map c' = seg_key_map c ->
  seg_idxc_map c' = seg_idxc_map c ->
  persists c c'.
Proof.
  intros ? ? ? ? ? ? ? Hk Hi. split; try done.
  - by rewrite Hk.
  - by apply tables_ok_same_tables.
Qed.

Lemma self_persists {A} (m : M RasterizerContext.t A) :
  preserves persists m ->
  preserves scene_persists (rasterizer_context.self m).
Proof.
  intros Hm s. unfold rasterizer_context.self, zoom.
  specialize (Hm (rasterizer_context.get_context s)).
  destruct (m (rasterizer_context.get_context s)) as [c' r]. exact Hm.
Qed.

Lemma on_sim_persists {A} (m : M Simulator A) :
  preserves scene_persists (zoom Scene._sim Scene.set_sim m).
Proof.
  apply preserves_zoom. intros sim s. unfold scene_persists. simpl.
  reflexivity.
Qed.

Lemma modify_scene_persists (f : Scene.t -> Scene.t) :
  (forall s, rasterizer_context.get_context (f s)
             = rasterizer_context.get_context s) ->
  preserves scene_persists (modify f).
Proof.
  intros Hf s. unfold scene_persists. simpl. rewrite Hf. reflexivity.
Qed.

Lemma modify_persists (f : RasterizerContext.t -> RasterizerContext.t) :
  (forall c, persists c (f c)) -> preserves persists (modify f).
Proof. intros Hf c. apply Hf. Qed.

Lemma on_scene_persists {A} (m : M Pyrender.Scene A) :
  preserves persists (rasterizer_context.on_scene m).
Proof.
  intros c. unfold rasterizer_context.on_scene, zoom.
  destruct (m (_scene c)) as [sc r]. by apply persists_same.
Qed.

Lemma seg_key_to_idxc_persists k :
  preserves persists (rasterizer_context.seg_key_to_idxc k).
Proof.
  intros c. pose proof (seg_key_to_idxc_ok c k) as Ht. revert Ht.
  unfold rasterizer_context.seg_key_to_idxc, rasterizer_context.setdefault.
  destruct (seg_key_map c !! k) as [i|] eqn:Hk; simpl; intros Ht;
    split; try done; simpl.
  by apply insert_subseteq.
Qed.

Lemma create_node_seg_persists k node :
  preserves persists (rasterizer_context.create_node_seg k node).
Proof.
  unfold rasterizer_context.create_node_seg.
  apply (preserves_bind persists); [apply seg_key_to_idxc_persists|].
  intros i. destruct node; [|apply (preserves_ret persists)].
  apply modify_persists. intros c. by apply persists_same.
Qed.

Lemma add_dynamic_node_persists entity obj pose :
  preserves persists (rasterizer_context.add_dynamic_node entity obj pose).
Proof.
  unfold rasterizer_context.add_dynamic_node.
  apply (preserves_bind persists).
  - destruct obj; [|apply (preserves_ret persists)].
    apply (preserves_bind persists); [apply on_scene_persists|]. intros n.
    apply (preserves_bind persists); [|intros; apply (preserves_ret persists)].
    apply modify_persists. intros c. by apply persists_same.
  - intros node. destruct entity; [|apply (preserves_ret persists)].
    apply create_node_seg_persists.
Qed.

Lemma clear_dynamic_nodes_persists :
  preserves persists rasterizer_context.clear_dynamic_nodes.
Proof.
  unfold rasterizer_context.clear_dynamic_nodes.
  apply (preserves_bind persists); [apply (preserves_gets persists)|].
  intros nodes. apply (preserves_bind persists).
  - apply (preserves_for_each persists). intros n.
    apply (preserves_bind persists); [|intros; apply on_scene_persists].
    apply modify_persists. intros c. by apply persists_same.
  - intros _. apply modify_persists. intros c. by apply persists_same.
Qed.

Lemma buffer_updates_set_persists id v :
  preserves scene_persists (rasterizer_context.buffer_updates_set id v).
Proof.
  apply self_persists, modify_persists. intros c. by apply persists_same.
Qed.

Ltac persists_step :=
  first
    [ apply buffer_updates_set_persists
    | apply on_sim_persists
    | apply self_persists;
      first [ apply on_scene_persists
            | apply add_dynamic_node_persists
            | apply clear_dynamic_nodes_persists
            | apply modify_persists; intros ?; by apply persists_same
            | idtac ]
    | preserves_step ].

Lemma draw_debug_arrow_persists vec uid_text :
  preserves scene_persists
    (rasterizer_context.draw_debug_arrow vec uid_text false).
Proof.
  unfold rasterizer_context.draw_debug_arrow. cbv beta iota zeta.
  repeat persists_step.
Qed.

Lemma update_persists : preserves scene_persists rasterizer_context.update.
Proof.
  unfold rasterizer_context.update.
  unfold rasterizer_context.update_link_frame, rasterizer_context.update_tool,
    rasterizer_context.update_rigid, rasterizer_context.update_contact,
    rasterizer_context.update_avatar, rasterizer_context.update_mpm,
    rasterizer_context.update_sph, rasterizer_context.update_pbd,
    rasterizer_context.update_fem, rasterizer_context.update_vertices,
    rasterizer_context.draw_contact_arrow, rasterizer_context.list_getitem,
    rasterizer_context.next_uid, rasterizer_context.set_node_pose,
    rasterizer_context.set_reflection_mat.
  repeat first [apply draw_debug_arrow_persists | persists_step].
Qed.

Lemma step_persists u r : preserves scene_persists (scene.step u r).
Proof.
  unfold scene.step, scene.assert_built, scene.FPS_tracker_step,
    visualizer.update, scene.on_sim.
  repeat first
    [ apply update_persists
    | apply modify_scene_persists; intros ?; reflexivity
    | persists_step ].
Qed.

(** X11: a resync of the render mirror, and a step of the scene, whether
    they return or raise, leave the registries of external, static, rigid and
    link-frame nodes and the options of the mirror as they were, keep the
    segmentation id of every key assigned so far, and keep the key tables
    in order: only dynamic nodes, buffer entries and new keys come and
    go. *)
Theorem X11_update_keeps_registries (s : Scene.t) :
  persists (rasterizer_context.get_context s)
           (rasterizer_context.get_context (rasterizer_context.update s).1)
  /\ forall update_visualizer refresh_visualizer,
       persists (rasterizer_context.get_context s)
         (rasterizer_context.get_context
            (scene.step update_visualizer refresh_visualizer s).1).
Proof.
  split; [apply update_persists|]. intros u r. apply step_persists.
Qed.

End PersistenceFacts.

Section SetupFacts.
Context `{Collaborators} `{!Shapes}.
Import Pyrender RasterizerContext.

Lemma returns_always_ret {S A} (a : A) : returns_always (mret a : M S A).
Proof. intros s. by eexists _, _. Qed.

Lemma returns_always_gets {S A} (f : S -> A) : returns_always (gets f).
Proof. intros s. by eexists _, _. Qed.

Lemma returns_always_modify {S} (f : S -> S) : returns_always (modify f).
Proof. intros s. by eexists _, _. Qed.

Lemma returns_always_bind {S A B} (m : M S A) (f : A -> M S B) :
  returns_always m -> (forall a, returns_always (f a)) ->
  returns_always (m ≫= f).
Proof.
  intros Hm Hf s. destruct (Hm s) as (s1 & a & Hrun).
  destruct (Hf a s1) as (s2 & b & Hrun2).
  exists s2, b. unfold mbind, M_bind. by rewrite Hrun.
Qed.

Lemma returns_always_when {S} (b : bool) (m : M S unit) :
  returns_always m -> returns_always (when b m).
Proof. destruct b; [done | intros _; apply returns_always_ret]. Qed.

Lemma returns_always_for_each {S A} (l : list A) (body : A -> M S unit) :
  (forall x, returns_always (body x)) -> returns_always (for_each l body).
Proof.
  intros Hbody. induction l as [|x l IH]; simpl.
  - apply returns_always_ret.
  - apply returns_always_bind; [apply Hbody | intros _; exact IH].
Qed.

Lemma returns_always_zoom {S T A} (proj : S -> T) (inj : T -> S -> S)
  (m : M T A) :
  returns_always m -> returns_always (zoom proj inj m).
Proof.
  intros Hm s. destruct (Hm (proj s)) as (t' & a & Hrun).
  exists (inj t' s), a. unfold zoom. by rewrite Hrun.
Qed.

Lemma returns_always_unit {S} (m : M S unit) s :
  returns_always m -> exists s', m s = (s', Returned tt).
Proof. intros Hm. destruct (Hm s) as (s' & [] & Hrun). by exists s'. Qed.

Lemma seg_key_to_idxc_total k :
  returns_always (rasterizer_context.seg_key_to_idxc k).
Proof.
  intros c. unfold rasterizer_context.seg_key_to_idxc.
  destruct (rasterizer_context.setdefault _ _ _). by eexists _, _.
Qed.

Lemma create_node_seg_total k node :
  returns_always (rasterizer_context.create_node_seg k node).
Proof.
  unfold rasterizer_context.create_node_seg.
  apply returns_always_bind; [apply seg_key_to_idxc_total|].
  intros i. destruct node;
    [apply returns_always_modify | apply returns_always_ret].
Qed.

Lemma add_node_total obj pose :
  returns_always (rasterizer_context.add_node obj pose).
Proof. intros c. by eexists _, _. Qed.

Lemma add_dynamic_node_total entity obj pose :
  returns_always (rasterizer_context.add_dynamic_node entity obj pose).
Proof.
  unfold rasterizer_context.add_dynamic_node.
  apply returns_always_bind.
  - destruct obj; [|apply returns_always_ret].
    apply returns_always_bind; [apply add_node_total|]. intros n.
    apply returns_always_bind; [apply returns_always_modify|].
    intros _. apply returns_always_ret.
  - intros node. destruct entity; [|apply returns_always_ret].
    apply create_node_seg_total.
Qed.

Lemma add_static_node_total entity obj pose :
  returns_always (rasterizer_context.add_static_node entity obj pose).
Proof.
  unfold rasterizer_context.add_static_node.
  apply returns_always_bind; [apply add_node_total|]. intros n.
  apply returns_always_bind; [apply returns_always_modify|].
  intros _. apply create_node_seg_total.
Qed.

Lemma self_total {A} (m : M RasterizerContext.t A) :
  returns_always m -> returns_always (rasterizer_context.self m).
Proof. apply returns_always_zoom. Qed.

#[local] Instance registers_refl : Reflexive registers.
Proof. intros c. by split. Qed.

#[local] Instance registers_trans : Transitive registers.
Proof.
  intros c1 c2 c3 [] []. split; [set_solver | set_solver | congruence].
Qed.

#[local] Instance scene_registers_refl : Reflexive scene_registers.
Proof. intros s. split; reflexivity. Qed.

#[local] Instance scene_registers_trans : Transitive scene_registers.
Proof.
  intros s1 s2 s3 [Hs1 Hc1] [Hs2 Hc2]. split; [congruence|].
  by etransitivity.
Qed.

Lemma registers_same c c' :
  static_nodes c' = static_nodes c ->
  link_frame_nodes c' = link_frame_nodes c ->
  render_particle_as c' = render_particle_as c ->
  registers c c'.
Proof. intros Hs Hl Hr. split; [by rewrite Hs | by rewrite Hl | done]. Qed.

Lemma self_registers {A} (m : M RasterizerContext.t A) :
  preserves registers m ->
  preserves scene_registers (rasterizer_context.self m).
Proof.
  intros Hm s. unfold rasterizer_context.self, zoom.
  specialize (Hm (rasterizer_context.get_context s)).
  destruct (m (rasterizer_context.get_context s)) as [c' r].
  split; [reflexivity | exact Hm].
Qed.

Lemma modify_registers (f : RasterizerContext.t -> RasterizerContext.t) :
  (forall c, registers c (f c)) -> preserves registers (modify f).
Proof. intros Hf c. apply Hf. Qed.

Lemma on_scene_registers {A} (m : M Pyrender.Scene A) :
  preserves registers (rasterizer_context.on_scene m).
Proof.
  intros c. unfold rasterizer_context.on_scene, zoom.
  destruct (m (_scene c)) as [sc r]. by apply registers_same.
Qed.

Lemma seg_key_to_idxc_registers k :
  preserves registers (rasterizer_context.seg_key_to_idxc k).
Proof.
  intros c. unfold rasterizer_context.seg_key_to_idxc,
    rasterizer_context.setdefault.
  destruct (seg_key_map c !! k); by apply registers_same.
Qed.

Lemma create_node_seg_registers k node :
  preserves registers (rasterizer_context.create_node_seg k node).
Proof.
  unfold rasterizer_context.create_node_seg.
  apply (preserves_bind registers); [apply seg_key_to_idxc_registers|].
  intros i. destruct node; [|apply (preserves_ret registers)].
  apply modify_registers. intros c. by apply registers_same.
Qed.

Lemma add_dynamic_node_registers entity obj pose :
  preserves registers (rasterizer_context.add_dynamic_node entity obj pose).
Proof.
  unfold rasterizer_context.add_dynamic_node.
  apply (preserves_bind registers).
  - destruct obj; [|apply (preserves_ret registers)].
    apply (preserves_bind registers); [apply on_scene_registers|]. intros n.
    apply (preserves_bind registers); [|intros; apply (preserves_ret registers)].
    apply modify_registers. intros c. by apply registers_same.
  - intros node. destruct entity; [|apply (preserves_ret registers)].
    apply create_node_seg_registers.
Qed.

Lemma add_static_node_registers entity obj pose :
  preserves registers (rasterizer_context.add_static_node entity obj pose).
Proof.
  unfold rasterizer_context.add_static_node.
  apply (preserves_bind registers); [apply on_scene_registers|]. intros n.
  apply (preserves_bind registers); [|intros; apply create_node_seg_registers].
  apply modify_registers. intros c. split; simpl; [set_solver|done..].
Qed.

Lemma buffer_updates_set_registers id v :
  preserves scene_registers (rasterizer_context.buffer_updates_set id v).
Proof.
  apply self_registers, modify_registers. intros c. by apply registers_same.
Qed.

Ltac registers_step :=
  first
    [ apply buffer_updates_set_registers
    | apply self_registers;
      first [ apply on_scene_registers
            | apply add_dynamic_node_registers
            | apply add_static_node_registers
            | apply modify_registers; intros ?;
              first [ by apply registers_same
                    | split; simpl; [set_solver | set_solver | done] ]
            | idtac ]
    | preserves_step ].

(** A loop whose rounds return, each leaving behind something that later
    rounds do not undo. *)
Lemma for_each_collects {S A} (R : S -> S -> Prop)
  `{!Reflexive R, !Transitive R} (P : S -> Prop) (Q : A -> S -> Prop)
  (l : list A) (body : A -> M S unit) :
  (forall s s', R s s' -> P s -> P s') ->
  (forall x s s', R s s' -> Q x s -> Q x s') ->
  (forall x, preserves R (body x)) ->
  (forall x s, x ∈ l -> P s ->
     exists s', body x s = (s', Returned tt) /\ Q x s') ->
  forall s, P s ->
    exists s', for_each l body s = (s', Returned tt) /\ R s s'
               /\ Forall (fun x => Q x s') l.
Proof.
  intros HP HQ HR. induction l as [|x l IH]; intros Hbody s Hs.
  - exists s. by repeat split.
  - destruct (Hbody x s) as (s1 & Hrun & Hx); [left | done |].
    pose proof (HR x s) as Hstep. rewrite Hrun in Hstep. cbn [fst] in Hstep.
    destruct (IH (fun y s0 Hy => Hbody y s0 (list_elem_of_further _ _ _ Hy))
                s1 (HP _ _ Hstep Hs)) as (s' & Hrest & Hrel & Hall).
    exists s'. split; [|split].
    + cbn [for_each]. unfold mbind, M_bind. by rewrite Hrun.
    + by etransitivity.
    + constructor; [by apply (HQ x s1) | done].
Qed.

Lemma has_static_node_mono s s' e :
  scene_registers s s' -> has_static_node s e -> has_static_node s' e.
Proof.
  intros [_ [Hdom _ _]]. unfold has_static_node.
  rewrite <- !elem_of_dom. apply Hdom.
Qed.

Lemma add_static_node_has_node s entity obj pose :
  exists s',
    rasterizer_context.self
      (rasterizer_context.add_static_node entity obj pose) s
    = (s', Returned tt)
    /\ has_static_node s' entity.
Proof.
  unfold rasterizer_context.add_static_node, rasterizer_context.self, zoom.
  unfold mbind, M_bind.
  set (c := rasterizer_context.get_context s).
  change (rasterizer_context.add_node obj pose c)
    with (set_scene {| next_node := S (next_node (_scene c));
                       requests := requests (_scene c)
                                   ++ [Add (next_node (_scene c)) obj pose] |}
                    c, Returned (next_node (_scene c))).
  cbn [modify].
  set (c1 := set_static_nodes _ _).
  destruct (returns_always_unit
              (rasterizer_context.create_node_seg (KeyIdx (idx entity))
                 (Some (next_node (_scene c)))) c1
              (create_node_seg_total _ _)) as (c2 & Hrun).
  pose proof (create_node_seg_registers (KeyIdx (idx entity))
                (Some (next_node (_scene c))) c1) as Hreg.
  rewrite Hrun in *. cbn [fst] in Hreg.
  eexists. split; [reflexivity|].
  unfold has_static_node. change (rasterizer_context.get_context _) with c2.
  rewrite <- elem_of_dom. apply (reg_static _ _ Hreg).
  subst c1. simpl. set_solver.
Qed.

Lemma lookup_static_node s u n :
  static_nodes (rasterizer_context.get_context s) !! u = Some n ->
  rasterizer_context.self (c ← gets static_nodes; getitem (c !! u)) s
  = (s, Returned n).
Proof.
  intros Hn. unfold rasterizer_context.self, zoom, mbind, M_bind, gets.
  rewrite Hn. simpl. by rewrite put_get_context.
Qed.

Lemma lookup_static_node_missing s u :
  static_nodes (rasterizer_context.get_context s) !! u = None ->
  rasterizer_context.self (c ← gets static_nodes; getitem (c !! u)) s
  = (s, Raised KeyError).
Proof.
  intros Hn. unfold rasterizer_context.self, zoom, mbind, M_bind, gets.
  rewrite Hn. simpl. by rewrite put_get_context.
Qed.

(** *** The tool solver *)

Lemma on_tool_registers : preserves scene_registers rasterizer_context.on_tool.
Proof. unfold rasterizer_context.on_tool. repeat registers_step. Qed.

Lemma update_tool_round s e n :
  static_nodes (rasterizer_context.get_context s) !! uid e = Some n ->
  exists s',
    (pose ← gets (fun s => render_value s (Q_tool_pose e));
     node ← rasterizer_context.self
              (c ← gets static_nodes; getitem (c !! uid e));
     rasterizer_context.self (rasterizer_context.set_node_pose node pose)) s
    = (s', Returned tt)
    /\ static_nodes (rasterizer_context.get_context s')
       = static_nodes (rasterizer_context.get_context s).
Proof.
  intros Hn. unfold mbind at 1. unfold M_bind at 1. unfold gets at 1.
  unfold mbind at 1. unfold M_bind at 1.
  rewrite (lookup_static_node s _ n Hn). by eexists.
Qed.

Lemma for_each_cons {S A} (x : A) (l : list A) (body : A -> M S unit) s :
  for_each (x :: l) body s
  = match body x s with
    | (s', Returned _) => for_each l body s'
    | (s', Raised e) => (s', Raised e)
    end.
Proof. reflexivity. Qed.

Lemma update_tool_loop l s :
  let loop := for_each l (fun tool_entity =>
    pose ← gets (fun s => render_value s (Q_tool_pose tool_entity));
    node ← rasterizer_context.self
             (c ← gets static_nodes; getitem (c !! uid tool_entity));
    rasterizer_context.self (rasterizer_context.set_node_pose node pose)) in
  (Forall (has_static_node s) l -> (loop s).2 = Returned tt)
  /\ (Exists (fun e => ~ has_static_node s e) l ->
      (loop s).2 = Raised KeyError).
Proof.
  revert s. induction l as [|e l IH]; intros s loop; subst loop.
  - split; [done|]. by intros ?%Exists_nil.
  - rewrite for_each_cons.
    destruct (static_nodes (rasterizer_context.get_context s) !! uid e)
      as [n|] eqn:Hn.
    + destruct (update_tool_round s e n Hn) as (s1 & Hrun & Hst).
      rewrite Hrun. destruct (IH s1) as [IH1 IH2].
      assert (Hiff : forall x, has_static_node s1 x <-> has_static_node s x).
      { intros x. unfold has_static_node. by rewrite Hst. }
      split.
      * intros [_ Hall]%Forall_cons. apply IH1.
        eapply Forall_impl; [exact Hall|]. intros x. apply Hiff.
      * intros [Hhd|Htl]%Exists_cons.
        { exfalso. apply Hhd. unfold has_static_node. by rewrite Hn. }
        apply IH2. eapply Exists_impl; [exact Htl|].
        intros x Hx Hx1. apply Hx. by apply Hiff.
    + split.
      * intros [[? Hhd] _]%Forall_cons. congruence.
      * intros _. unfold mbind at 1. unfold M_bind at 1. unfold gets at 1.
        unfold mbind at 1. unfold M_bind at 1.
        by rewrite (lookup_static_node_missing s _ Hn).
Qed.

Lemma create_node_seg_static k node c :
  exists c',
    rasterizer_context.create_node_seg k node c = (c', Returned tt)
    /\ static_nodes c' = static_nodes c.
Proof.
  unfold rasterizer_context.create_node_seg, mbind, M_bind,
    rasterizer_context.seg_key_to_idxc, rasterizer_context.setdefault.
  destruct (seg_key_map c !! k), node; by eexists.
Qed.

Lemma add_static_node_run s entity obj pose :
  exists s',
    rasterizer_context.self
      (rasterizer_context.add_static_node entity obj pose) s
    = (s', Returned tt)
    /\ Scene._sim s' = Scene._sim s
    /\ static_nodes (rasterizer_context.get_context s')
       = <[uid entity := next_node (_scene (rasterizer_context.get_context s))]>
           (static_nodes (rasterizer_context.get_context s)).
Proof.
  unfold rasterizer_context.add_static_node, rasterizer_context.self, zoom.
  unfold mbind, M_bind.
  set (c := rasterizer_context.get_context s).
  change (rasterizer_context.add_node obj pose c)
    with (set_scene {| next_node := S (next_node (_scene c));
                       requests := requests (_scene c)
                                   ++ [Add (next_node (_scene c)) obj pose] |}
                    c, Returned (next_node (_scene c))).
  cbn [modify].
  set (c1 := set_static_nodes _ _).
  destruct (create_node_seg_static (KeyIdx (idx entity))
              (Some (next_node (_scene c))) c1) as (c2 & Hrun & Hst).
  rewrite Hrun. eexists. split; [reflexivity|]. split; [done|].
  change (rasterizer_context.get_context _) with c2. by rewrite Hst.
Qed.

Lemma on_tool_loop l s0 :
  exists s1,
    for_each l (fun tool_entity =>
      when (mesh_present tool_entity) (
        mesh ← gets (fun s => shape_value s (Sh_tool tool_entity));
        pose ← gets (fun s => shape_value s (Sh_tool_init_pose tool_entity));
        rasterizer_context.self
          (rasterizer_context.add_static_node tool_entity
             (rasterizer_context.unnamed_mesh mesh) (Some pose)))) s0
    = (s1, Returned tt)
    /\ Scene._sim s1 = Scene._sim s0
    /\ forall e, has_static_node s1 e <->
         has_static_node s0 e
         \/ exists e', e' ∈ l /\ mesh_present e' = true /\ uid e' = uid e.
Proof.
  revert s0. induction l as [|x l IH]; intros s0.
  - exists s0. split; [done|]. split; [done|]. intros e. split; [by left|].
    intros [?|(e' & ?%elem_of_nil & _)]; done.
  - cbn [for_each]. unfold mbind at 1. unfold M_bind at 1.
    destruct (mesh_present x) eqn:Hx; cbn [when].
    + unfold mbind at 1. unfold M_bind at 1. unfold gets at 1.
      unfold mbind at 1. unfold M_bind at 1. unfold gets at 1.
      destruct (add_static_node_run s0 x
                  (rasterizer_context.unnamed_mesh
                     (shape_value s0 (Sh_tool x)))
                  (Some (shape_value s0 (Sh_tool_init_pose x))))
        as (s1 & Hrun & Hsim & Hst).
      rewrite Hrun.
      destruct (IH s1) as (s2 & Hrest & Hsim2 & Hiff).
      exists s2. split; [exact Hrest|]. split; [congruence|].
      intros e. rewrite Hiff. unfold has_static_node at 1. rewrite Hst.
      rewrite lookup_insert_is_Some. setoid_rewrite elem_of_cons.
      unfold has_static_node. split.
      * intros [[Hu|[_ Hs]]|(e' & He' & Hm & Hu)].
        -- right. exists x. auto.
        -- by left.
        -- right. exists e'. auto.
      * intros [Hs|(e' & [->|He'] & Hm & Hu)].
        -- destruct (decide (uid x = uid e)); left; [by left | by right].
        -- left. by left.
        -- right. exists e'. auto.
    + cbn [mret M_ret].
      destruct (IH s0) as (s2 & Hrest & Hsim2 & Hiff).
      exists s2. split; [exact Hrest|]. split; [done|].
      intros e. rewrite Hiff. setoid_rewrite elem_of_cons. split.
      * intros [?|(e' & He' & Hm & Hu)]; [by left|]. right. exists e'. auto.
      * intros [?|(e' & [->|He'] & Hm & Hu)]; [by left | congruence |].
        right. exists e'. auto.
Qed.

(** X12: with an active tool solver, [on_tool] returns and registers a
    static node for each tool entity that has a mesh, and for no other.
    [update_tool] on the outcome then returns when every tool entity has a
    mesh, and raises [KeyError] when some tool entity is left without a
    node, as one without a mesh is unless its uid was registered
    otherwise. *)
Theorem X12_tool_nodes (s : Scene.t) :
  let tool := solver (Scene._sim s) ToolSolver in
  is_active tool = true ->
  exists s1,
    rasterizer_context.on_tool s = (s1, Returned tt)
    /\ Scene._sim s1 = Scene._sim s
    /\ (forall e, has_static_node s1 e <->
          has_static_node s e
          \/ exists e', e' ∈ entities tool /\ mesh_present e' = true
                        /\ uid e' = uid e)
    /\ (Forall (fun e => mesh_present e = true) (entities tool) ->
        (rasterizer_context.update_tool s1).2 = Returned tt)
    /\ (forall e, e ∈ entities tool -> ~ has_static_node s1 e ->
          (rasterizer_context.update_tool s1).2 = Raised KeyError).
Proof.
  intros tool Hactive.
  destruct (on_tool_loop (entities tool) s) as (s1 & Hrun & Hsim & Hiff).
  exists s1. split.
  { unfold rasterizer_context.on_tool. unfold mbind at 1. unfold M_bind at 1.
    unfold gets at 1. fold tool. rewrite Hactive. exact Hrun. }
  split; [exact Hsim|]. split; [exact Hiff|].
  assert (Hupd : rasterizer_context.update_tool s1
                 = for_each (entities tool) (fun tool_entity =>
                     pose ← gets (fun s => render_value s (Q_tool_pose tool_entity));
                     node ← rasterizer_context.self
                              (c ← gets static_nodes;
                               getitem (c !! uid tool_entity));
                     rasterizer_context.self
                       (rasterizer_context.set_node_pose node pose)) s1).
  { unfold rasterizer_context.update_tool. unfold mbind at 1.
    unfold M_bind at 1. unfold gets at 1. rewrite Hsim. fold tool.
    by rewrite Hactive. }
  rewrite Hupd. destruct (update_tool_loop (entities tool) s1) as [Hok Hbad].
  split.
  - intros Hall. apply Hok. apply Forall_forall. intros e He.
    apply Hiff. right. exists e. split; [done|]. split; [|done].
    by apply (proj1 (Forall_forall _ _) Hall).
  - intros e He Hmissing. apply Hbad. apply Exists_exists. by exists e.
Qed.


(** *** The particle solvers and FEM *)

Ltac total_step :=
  lazymatch goal with
  | |- returns_always (mbind _ _) => apply returns_always_bind
  | |- returns_always (mret _) => apply returns_always_ret
  | |- returns_always (gets _) => apply returns_always_gets
  | |- returns_always (modify _) => apply returns_always_modify
  | |- returns_always (when _ _) => apply returns_always_when
  | |- returns_always (for_each _ _) => apply returns_always_for_each
  | |- returns_always (rasterizer_context.buffer_updates_set _ _) =>
      apply self_total, returns_always_modify
  | |- returns_always (rasterizer_context.self _) => apply self_total
  | |- returns_always (rasterizer_context.add_dynamic_node _ _ _) =>
      apply add_dynamic_node_total
  | |- returns_always (rasterizer_context.add_static_node _ _ _) =>
      apply add_static_node_total
  | |- returns_always (rasterizer_context.add_node _ _) =>
      apply add_node_total
  | |- returns_always (if ?b then _ else _) => destruct b
  | |- returns_always (match ?x with _ => _ end) => destruct x
  | |- forall _, _ => intros
  end.

Lemma update_vertices_total node verts :
  returns_always (rasterizer_context.update_vertices node verts).
Proof. unfold rasterizer_context.update_vertices. repeat total_step. Qed.

Lemma bind_gets_returns {S A} (g : S -> A) (f : A -> M S unit) s :
  (exists s', f (g s) s = (s', Returned tt)) ->
  exists s', (gets g ≫= f) s = (s', Returned tt).
Proof. done. Qed.

Lemma bind_gets_returns_with {S A} (g : S -> A) (f : A -> M S unit) s
  (Q : S -> Prop) :
  (exists s', f (g s) s = (s', Returned tt) /\ Q s') ->
  exists s', (gets g ≫= f) s = (s', Returned tt) /\ Q s'.
Proof. done. Qed.

Lemma bind_lookup_returns s e (f : Node -> M Scene.t unit) :
  has_static_node s e ->
  (forall n, returns_always (f n)) ->
  exists s',
    (rasterizer_context.self (c ← gets static_nodes; getitem (c !! uid e))
     ≫= f) s = (s', Returned tt).
Proof.
  intros [n Hn] Hf. unfold mbind at 1. unfold M_bind at 1.
  rewrite (lookup_static_node s _ n Hn).
  by apply returns_always_unit.
Qed.

Lemma bind_add_static_node s e obj pose :
  exists s',
    rasterizer_context.self (rasterizer_context.add_static_node e obj pose) s
    = (s', Returned tt)
    /\ has_static_node s' e.
Proof. apply add_static_node_has_node. Qed.

(** A loop that returns as long as what it relies on stays. *)
Lemma for_each_returns {S A} (R : S -> S -> Prop)
  `{!Reflexive R, !Transitive R} (P : S -> Prop)
  (l : list A) (body : A -> M S unit) :
  (forall s s', R s s' -> P s -> P s') ->
  (forall x, preserves R (body x)) ->
  (forall x s, x ∈ l -> P s -> exists s', body x s = (s', Returned tt)) ->
  forall s, P s -> exists s', for_each l body s = (s', Returned tt) /\ R s s'.
Proof.
  intros HP HR Hbody s Hs.
  destruct (for_each_collects R P (fun _ _ => True) l body HP) with (s := s)
    as (s' & Hrun & Hrel & _); [done | done | | done | by exists s'].
  intros x s0 Hx Hs0. destruct (Hbody x s0 Hx Hs0) as (s1 & Hrun).
  by exists s1.
Qed.

Lemma update_mpm_registers :
  preserves scene_registers rasterizer_context.update_mpm.
Proof. unfold rasterizer_context.update_mpm. repeat registers_step. Qed.

Lemma update_sph_registers :
  preserves scene_registers rasterizer_context.update_sph.
Proof. unfold rasterizer_context.update_sph. repeat registers_step. Qed.

Lemma update_pbd_registers :
  preserves scene_registers rasterizer_context.update_pbd.
Proof.
  unfold rasterizer_context.update_pbd, rasterizer_context.update_vertices.
  repeat registers_step.
Qed.

Lemma update_fem_registers :
  preserves scene_registers rasterizer_context.update_fem.
Proof. unfold rasterizer_context.update_fem. repeat registers_step. Qed.

Lemma on_mpm_registers b :
  preserves scene_registers (rasterizer_context.on_mpm b).
Proof. unfold rasterizer_context.on_mpm. repeat registers_step. Qed.

Lemma on_sph_registers b :
  preserves scene_registers (rasterizer_context.on_sph b).
Proof. unfold rasterizer_context.on_sph. repeat registers_step. Qed.

Lemma on_pbd_registers b :
  preserves scene_registers (rasterizer_context.on_pbd b).
Proof. unfold rasterizer_context.on_pbd. repeat registers_step. Qed.

Lemma on_fem_registers : preserves scene_registers rasterizer_context.on_fem.
Proof. unfold rasterizer_context.on_fem. repeat registers_step. Qed.


Lemma on_mpm_spec b s :
  let mpm := solver (Scene._sim s) MPMSolver in
  exists s1,
    rasterizer_context.on_mpm b s = (s1, Returned tt)
    /\ scene_registers s s1
    /\ (is_active mpm = true ->
        Forall (fun e =>
                  rasterizer_context.vis_mode_is e "recon" = false ->
                  rasterizer_context.vis_mode_is e "particle" = true ->
                  has_static_node s1 e) (entities mpm)).
Proof.
  intros mpm.
  unfold rasterizer_context.on_mpm. unfold mbind at 1.
  unfold M_bind at 1. unfold gets at 1. fold mpm.
  destruct (is_active mpm); cbn [when]; [|exists s; by repeat split].
  unfold mbind at 1. unfold M_bind at 1.
  match goal with
  | |- context [for_each (entities mpm) ?body s] =>
      destruct (for_each_collects scene_registers (fun _ => True)
        (fun e s1 =>
           rasterizer_context.vis_mode_is e "recon" = false ->
           rasterizer_context.vis_mode_is e "particle" = true ->
           has_static_node s1 e) (entities mpm) body) with (s := s)
        as (s1 & Hrun & Hrel & Hall)
  end; [done | | | | done |].
  - intros e s0 s0' Hrel HQ Hr Hp. eapply has_static_node_mono; eauto.
  - intros e. repeat registers_step.
  - intros e s0 _ _.
    destruct (rasterizer_context.vis_mode_is e "recon") eqn:Hr.
    { destruct (returns_always_unit
        (rasterizer_context.self
           (rasterizer_context.add_dynamic_node (Some e) None None)) s0)
        as (s' & Hrun); [repeat total_step|].
      exists s'. by split. }
    destruct (rasterizer_context.vis_mode_is e "particle") eqn:Hp.
    { apply bind_gets_returns_with.
      destruct (bind_add_static_node s0 e
        (rasterizer_context.unnamed_mesh
           (shape_value s0 (Sh_particles MPMSolver e))) None)
        as (s' & Hrun & Hnode).
      exists s'. by split. }
    destruct (rasterizer_context.vis_mode_is e "visual").
    + destruct (returns_always_unit
        (vmesh ← gets (fun s => render_value s (Q_vmesh MPMSolver e));
         rasterizer_context.self
           (rasterizer_context.add_dynamic_node (Some e)
              (Some (rasterizer_context.unnamed_mesh vmesh)) None)) s0)
        as (s' & Hrun); [repeat total_step|].
      exists s'. by split.
    + exists s0. by split.
  - rewrite Hrun.
    match goal with
    | |- context [when b ?m s1] =>
        destruct (returns_always_unit (when b m) s1) as (s2 & Hrun2);
          [repeat total_step|];
        pose proof (preserves_when scene_registers b m
                      ltac:(repeat registers_step) s1) as Hb
    end.
    rewrite Hrun2 in Hb |- *. cbn [fst] in Hb.
    exists s2. split; [done|]. split; [by etransitivity|]. intros _.
    eapply Forall_impl; [exact Hall|]. intros e HQ Hr Hp.
    eapply (has_static_node_mono s1); [done | by apply HQ].
Qed.


Lemma update_mpm_returns s :
  let mpm := solver (Scene._sim s) MPMSolver in
  (is_active mpm = true ->
   Forall (fun e =>
             rasterizer_context.vis_mode_is e "recon" = false ->
             rasterizer_context.vis_mode_is e "particle" = true ->
             has_static_node s e) (entities mpm)) ->
  exists s', rasterizer_context.update_mpm s = (s', Returned tt).
Proof.
  intros mpm Hnodes.
  unfold rasterizer_context.update_mpm. unfold mbind at 1.
  unfold M_bind at 1. unfold gets at 1. fold mpm.
  destruct (is_active mpm); cbn [when]; [|by exists s].
  match goal with
  | |- context [for_each (entities mpm) ?body s] =>
      destruct (for_each_returns scene_registers
        (fun s0 => Forall (fun e =>
           rasterizer_context.vis_mode_is e "recon" = false ->
           rasterizer_context.vis_mode_is e "particle" = true ->
           has_static_node s0 e) (entities mpm))
        (entities mpm) body) with (s := s) as (s' & Hrun & _)
  end; [| | |by apply Hnodes|by exists s'].
  - intros s0 s0' Hrel HP. eapply Forall_impl; [exact HP|].
    intros e HQ Hr Hp. eapply has_static_node_mono; eauto.
  - intros e. repeat registers_step.
  - intros e s0 He HP. pose proof (proj1 (Forall_forall _ _) HP e He) as HQ.
    cbv beta in HQ.
    destruct (rasterizer_context.vis_mode_is e "recon") eqn:Hr.
    { apply returns_always_unit. repeat total_step. }
    destruct (rasterizer_context.vis_mode_is e "particle") eqn:Hp.
    { apply bind_gets_returns. apply bind_lookup_returns; [by apply HQ|].
      repeat total_step. }
    apply returns_always_unit. repeat total_step.
Qed.


Lemma on_sph_spec b s :
  let sph := solver (Scene._sim s) SPHSolver in
  exists s1,
    rasterizer_context.on_sph b s = (s1, Returned tt)
    /\ scene_registers s s1
    /\ (is_active sph = true ->
        Forall (fun e =>
                  rasterizer_context.vis_mode_is e "recon" = false ->
                  rasterizer_context.vis_mode_is e "particle" = true ->
                  has_static_node s1 e) (entities sph)).
Proof.
  intros sph.
  unfold rasterizer_context.on_sph. unfold mbind at 1.
  unfold M_bind at 1. unfold gets at 1. fold sph.
  destruct (is_active sph); cbn [when]; [|exists s; by repeat split].
  unfold mbind at 1. unfold M_bind at 1.
  match goal with
  | |- context [for_each (entities sph) ?body s] =>
      destruct (for_each_collects scene_registers (fun _ => True)
        (fun e s1 =>
           rasterizer_context.vis_mode_is e "recon" = false ->
           rasterizer_context.vis_mode_is e "particle" = true ->
           has_static_node s1 e) (entities sph) body) with (s := s)
        as (s1 & Hrun & Hrel & Hall)
  end; [done | | | | done |].
  - intros e s0 s0' Hrel HQ Hr Hp. eapply has_static_node_mono; eauto.
  - intros e. repeat registers_step.
  - intros e s0 _ _.
    destruct (rasterizer_context.vis_mode_is e "recon") eqn:Hr.
    { destruct (returns_always_unit
        (rasterizer_context.self
           (rasterizer_context.add_dynamic_node (Some e) None None)) s0)
        as (s' & Hrun); [repeat total_step|].
      exists s'. by split. }
    destruct (rasterizer_context.vis_mode_is e "particle") eqn:Hp.
    { apply bind_gets_returns_with.
      destruct (bind_add_static_node s0 e
        (rasterizer_context.unnamed_mesh
           (shape_value s0 (Sh_particles SPHSolver e))) None)
        as (s' & Hrun & Hnode).
      exists s'. by split. }
    exists s0. by split.
  - rewrite Hrun.
    match goal with
    | |- context [when b ?m s1] =>
        destruct (returns_always_unit (when b m) s1) as (s2 & Hrun2);
          [repeat total_step|];
        pose proof (preserves_when scene_registers b m
                      ltac:(repeat registers_step) s1) as Hb
    end.
    rewrite Hrun2 in Hb |- *. cbn [fst] in Hb.
    exists s2. split; [done|]. split; [by etransitivity|]. intros _.
    eapply Forall_impl; [exact Hall|]. intros e HQ Hr Hp.
    eapply (has_static_node_mono s1); [done | by apply HQ].
Qed.

Lemma update_sph_returns s :
  let sph := solver (Scene._sim s) SPHSolver in
  (is_active sph = true ->
   Forall (fun e =>
             rasterizer_context.vis_mode_is e "recon" = false ->
             rasterizer_context.vis_mode_is e "particle" = true ->
             has_static_node s e) (entities sph)) ->
  exists s', rasterizer_context.update_sph s = (s', Returned tt).
Proof.
  intros sph Hnodes.
  unfold rasterizer_context.update_sph. unfold mbind at 1.
  unfold M_bind at 1. unfold gets at 1. fold sph.
  destruct (is_active sph); cbn [when]; [|by exists s].
  match goal with
  | |- context [for_each (entities sph) ?body s] =>
      destruct (for_each_returns scene_registers
        (fun s0 => Forall (fun e =>
           rasterizer_context.vis_mode_is e "recon" = false ->
           rasterizer_context.vis_mode_is e "particle" = true ->
           has_static_node s0 e) (entities sph))
        (entities sph) body) with (s := s) as (s' & Hrun & _)
  end; [| | |by apply Hnodes|by exists s'].
  - intros s0 s0' Hrel HP. eapply Forall_impl; [exact HP|].
    intros e HQ Hr Hp. eapply has_static_node_mono; eauto.
  - intros e. repeat registers_step.
  - intros e s0 He HP. pose proof (proj1 (Forall_forall _ _) HP e He) as HQ.
    cbv beta in HQ.
    destruct (rasterizer_context.vis_mode_is e "recon") eqn:Hr.
    { apply returns_always_unit. repeat total_step. }
    destruct (rasterizer_context.vis_mode_is e "particle") eqn:Hp.
    { apply bind_gets_returns. apply bind_lookup_returns; [by apply HQ|].
      repeat total_step. }
    by exists s0.
Qed.

Lemma on_fem_spec s :
  let fem := solver (Scene._sim s) FEMSolver in
  exists s1,
    rasterizer_context.on_fem s = (s1, Returned tt)
    /\ scene_registers s s1
    /\ (is_active fem = true ->
        Forall (fun e =>
                  rasterizer_context.vis_mode_is e "visual" = true ->
                  has_static_node s1 e) (entities fem)).
Proof.
  intros fem.
  unfold rasterizer_context.on_fem. unfold mbind at 1.
  unfold M_bind at 1. unfold gets at 1. fold fem.
  destruct (is_active fem); cbn [when]; [|exists s; by repeat split].
  match goal with
  | |- context [for_each (entities fem) ?body s] =>
      destruct (for_each_collects scene_registers (fun _ => True)
        (fun e s1 =>
           rasterizer_context.vis_mode_is e "visual" = true ->
           has_static_node s1 e) (entities fem) body) with (s := s)
        as (s1 & Hrun & Hrel & Hall)
  end; [done | | | | done |].
  - intros e s0 s0' Hrel HQ Hv. eapply has_static_node_mono; eauto.
  - intros e. repeat registers_step.
  - intros e s0 _ _.
    destruct (rasterizer_context.vis_mode_is e "visual") eqn:Hv; cbn [when].
    + apply bind_gets_returns_with.
      destruct (bind_add_static_node s0 e
        (rasterizer_context.unnamed_mesh (shape_value s0 (Sh_fem e))) None)
        as (s' & Hrun & Hnode).
      exists s'. by split.
    + exists s0. by split.
  - exists s1. split; [done|]. split; [done|]. by intros _.
Qed.

Lemma update_fem_returns s :
  let fem := solver (Scene._sim s) FEMSolver in
  (is_active fem = true ->
   Forall (fun e =>
             rasterizer_context.vis_mode_is e "visual" = true ->
             has_static_node s e) (entities fem)) ->
  exists s', rasterizer_context.update_fem s = (s', Returned tt).
Proof.
  intros fem Hnodes.
  unfold rasterizer_context.update_fem. unfold mbind at 1.
  unfold M_bind at 1. unfold gets at 1. fold fem.
  destruct (is_active fem); cbn [when]; [|by exists s].
  match goal with
  | |- context [for_each (entities fem) ?body s] =>
      destruct (for_each_returns scene_registers
        (fun s0 => Forall (fun e =>
           rasterizer_context.vis_mode_is e "visual" = true ->
           has_static_node s0 e) (entities fem))
        (entities fem) body) with (s := s) as (s' & Hrun & _)
  end; [| | |by apply Hnodes|by exists s'].
  - intros s0 s0' Hrel HP. eapply Forall_impl; [exact HP|].
    intros e HQ Hv. eapply has_static_node_mono; eauto.
  - intros e. repeat registers_step.
  - intros e s0 He HP. pose proof (proj1 (Forall_forall _ _) HP e He) as HQ.
    cbv beta in HQ.
    destruct (rasterizer_context.vis_mode_is e "visual") eqn:Hv; cbn [when].
    + apply bind_gets_returns. apply bind_lookup_returns; [by apply HQ|].
      repeat total_step.
    + by exists s0.
Qed.


Lemma self_gets_run {A} (f : RasterizerContext.t -> A) s :
  rasterizer_context.self (gets f) s
  = (s, Returned (f (rasterizer_context.get_context s))).
Proof.
  unfold rasterizer_context.self, zoom, gets. by rewrite put_get_context.
Qed.

Lemma render_particle_as_mono s s' :
  scene_registers s s' ->
  render_particle_as (rasterizer_context.get_context s')
  = render_particle_as (rasterizer_context.get_context s).
Proof. by intros [_ [_ _ ?]]. Qed.

Lemma on_pbd_spec b s :
  let pbd := solver (Scene._sim s) PBDSolver in
  exists s1,
    rasterizer_context.on_pbd b s = (s1, Returned tt)
    /\ scene_registers s s1
    /\ (is_active pbd = true ->
        Forall (fun e =>
          rasterizer_context.vis_mode_is e "recon" = false ->
          (if rasterizer_context.vis_mode_is e "particle"
           then let as_what :=
                  render_particle_as (rasterizer_context.get_context s1) in
                String.eqb as_what "sphere" || String.eqb as_what "tet"
           else rasterizer_context.vis_mode_is e "visual") = true ->
          has_static_node s1 e) (entities pbd)).
Proof.
  intros pbd.
  unfold rasterizer_context.on_pbd. unfold mbind at 1.
  unfold M_bind at 1. unfold gets at 1. fold pbd.
  destruct (is_active pbd); cbn [when]; [|exists s; by repeat split].
  unfold mbind at 1. unfold M_bind at 1.
  match goal with
  | |- context [for_each (entities pbd) ?body s] =>
      assert (Hbody : forall e, preserves scene_registers (body e))
        by (intros e; repeat registers_step);
      destruct (for_each_collects scene_registers (fun _ => True)
        (fun e s1 =>
           rasterizer_context.vis_mode_is e "recon" = false ->
           (if rasterizer_context.vis_mode_is e "particle"
            then let as_what :=
                   render_particle_as (rasterizer_context.get_context s1) in
                 String.eqb as_what "sphere" || String.eqb as_what "tet"
            else rasterizer_context.vis_mode_is e "visual") = true ->
           has_static_node s1 e) (entities pbd) body) with (s := s)
        as (s1 & Hrun & Hrel & Hall)
  end; [done | | exact Hbody | | done |].
  - intros e s0 s0' Hrel HQ Hr Hn.
    rewrite (render_particle_as_mono _ _ Hrel) in Hn.
    eapply has_static_node_mono; eauto.
  - intros e s0 _ _. cbv beta.
    destruct (rasterizer_context.vis_mode_is e "recon") eqn:Hr.
    { destruct (returns_always_unit
        (rasterizer_context.self
           (rasterizer_context.add_dynamic_node (Some e) None None)) s0)
        as (s' & Hrun); [repeat total_step|].
      exists s'. by split. }
    destruct (rasterizer_context.vis_mode_is e "particle") eqn:Hp.
    { unfold mbind at 1. unfold M_bind at 1. rewrite self_gets_run.
      destruct (String.eqb _ "sphere") eqn:Hs.
      { apply bind_gets_returns_with.
        destruct (bind_add_static_node s0 e
          (rasterizer_context.unnamed_mesh
             (shape_value s0 (Sh_particles PBDSolver e))) None)
          as (s' & Hrun & Hnode).
        exists s'. by split. }
      destruct (String.eqb _ "tet") eqn:Ht.
      { apply bind_gets_returns_with.
        destruct (bind_add_static_node s0 e
          (rasterizer_context.unnamed_mesh (shape_value s0 (Sh_tets e))) None)
          as (s' & Hrun & Hnode).
        exists s'. by split. }
      exists s0. split; [done|]. intros _. cbv zeta. by rewrite Hs, Ht. }
    destruct (rasterizer_context.vis_mode_is e "visual") eqn:Hv.
    { apply bind_gets_returns_with.
      destruct (bind_add_static_node s0 e
        (rasterizer_context.unnamed_mesh (shape_value s0 (Sh_visual e))) None)
        as (s' & Hrun & Hnode).
      exists s'. by split. }
    exists s0. by split.
  - rewrite Hrun.
    match goal with
    | |- context [when b ?m s1] =>
        destruct (returns_always_unit (when b m) s1) as (s2 & Hrun2);
          [repeat total_step|];
        pose proof (preserves_when scene_registers b m
                      ltac:(repeat registers_step) s1) as Hb
    end.
    rewrite Hrun2 in Hb |- *. cbn [fst] in Hb.
    exists s2. split; [done|]. split; [by etransitivity|]. intros _.
    eapply Forall_impl; [exact Hall|]. intros e HQ Hr Hn.
    rewrite (render_particle_as_mono _ _ Hb) in Hn.
    eapply (has_static_node_mono s1); [done | by apply HQ].
Qed.

Lemma update_pbd_returns s :
  let pbd := solver (Scene._sim s) PBDSolver in
  (is_active pbd = true ->
   Forall (fun e =>
     rasterizer_context.vis_mode_is e "recon" = false ->
     (if rasterizer_context.vis_mode_is e "particle"
      then let as_what :=
             render_particle_as (rasterizer_context.get_context s) in
           String.eqb as_what "sphere" || String.eqb as_what "tet"
      else rasterizer_context.vis_mode_is e "visual") = true ->
     has_static_node s e) (entities pbd)) ->
  exists s', rasterizer_context.update_pbd s = (s', Returned tt).
Proof.
  intros pbd Hnodes.
  unfold rasterizer_context.update_pbd. unfold mbind at 1.
  unfold M_bind at 1. unfold gets at 1. fold pbd.
  destruct (is_active pbd); cbn [when]; [|by exists s].
  match goal with
  | |- context [for_each (entities pbd) ?body s] =>
      destruct (for_each_returns scene_registers
        (fun s0 => Forall (fun e =>
           rasterizer_context.vis_mode_is e "recon" = false ->
           (if rasterizer_context.vis_mode_is e "particle"
            then let as_what :=
                   render_particle_as (rasterizer_context.get_context s0) in
                 String.eqb as_what "sphere" || String.eqb as_what "tet"
            else rasterizer_context.vis_mode_is e "visual") = true ->
           has_static_node s0 e) (entities pbd))
        (entities pbd) body) with (s := s) as (s' & Hrun & _)
  end; [| | |by apply Hnodes|by exists s'].
  - intros s0 s0' Hrel HP. eapply Forall_impl; [exact HP|].
    intros e HQ Hr Hn. rewrite (render_particle_as_mono _ _ Hrel) in Hn.
    eapply has_static_node_mono; eauto.
  - intros e. unfold rasterizer_context.update_vertices.
    repeat registers_step.
  - intros e s0 He HP. pose proof (proj1 (Forall_forall _ _) HP e He) as HQ.
    cbv beta zeta in HQ.
    destruct (rasterizer_context.vis_mode_is e "recon") eqn:Hr.
    { apply returns_always_unit. repeat total_step. }
    destruct (rasterizer_context.vis_mode_is e "particle") eqn:Hp.
    { unfold mbind at 1. unfold M_bind at 1. rewrite self_gets_run.
      destruct (String.eqb _ "sphere") eqn:Hs.
      { apply bind_gets_returns. apply bind_lookup_returns; [by apply HQ|].
        repeat total_step. }
      destruct (String.eqb _ "tet") eqn:Ht; [|by exists s0].
      apply bind_gets_returns. apply bind_lookup_returns; [by apply HQ|].
      intros n. apply update_vertices_total. }
    destruct (rasterizer_context.vis_mode_is e "visual") eqn:Hv;
      [|by exists s0].
    apply bind_gets_returns. apply bind_lookup_returns; [by apply HQ|].
    intros n. apply update_vertices_total.
Qed.

(** X13: setting the mirror up for the MPM, SPH, PBD and FEM solvers
    returns, and registers every static node that the solver's per-frame
    update looks up: on the scene as [on_mpm], [on_sph], [on_pbd] or
    [on_fem] leaves it, and on any scene that differs from it by further
    registered nodes only, the matching update returns, so raises no
    [KeyError]. *)
Theorem X13_particle_nodes (s : Scene.t) (boundary : bool) :
  (exists s1,
     rasterizer_context.on_mpm boundary s = (s1, Returned tt)
     /\ forall s2, scene_registers s1 s2 ->
          (rasterizer_context.update_mpm s2).2 = Returned tt)
  /\ (exists s1,
        rasterizer_context.on_sph boundary s = (s1, Returned tt)
        /\ forall s2, scene_registers s1 s2 ->
             (rasterizer_context.update_sph s2).2 = Returned tt)
  /\ (exists s1,
        rasterizer_context.on_pbd boundary s = (s1, Returned tt)
        /\ forall s2, scene_registers s1 s2 ->
             (rasterizer_context.update_pbd s2).2 = Returned tt)
  /\ (exists s1,
        rasterizer_context.on_fem s = (s1, Returned tt)
        /\ forall s2, scene_registers s1 s2 ->
             (rasterizer_context.update_fem s2).2 = Returned tt).
Proof.
  split; [|split; [|split]].
  - destruct (on_mpm_spec boundary s) as (s1 & Hrun & [Hsim Hreg] & Hall).
    exists s1. split; [exact Hrun|]. intros s2 Hrel.
    destruct (update_mpm_returns s2) as (s3 & Hupd); [|by rewrite Hupd].
    destruct Hrel as [Hsim2 Hreg2]. rewrite Hsim2, Hsim. intros Hact.
    eapply Forall_impl; [exact (Hall Hact)|]. intros e HQ Hr Hp.
    eapply (has_static_node_mono s1); [by split | by apply HQ].
  - destruct (on_sph_spec boundary s) as (s1 & Hrun & [Hsim Hreg] & Hall).
    exists s1. split; [exact Hrun|]. intros s2 Hrel.
    destruct (update_sph_returns s2) as (s3 & Hupd); [|by rewrite Hupd].
    destruct Hrel as [Hsim2 Hreg2]. rewrite Hsim2, Hsim. intros Hact.
    eapply Forall_impl; [exact (Hall Hact)|]. intros e HQ Hr Hp.
    eapply (has_static_node_mono s1); [by split | by apply HQ].
  - destruct (on_pbd_spec boundary s) as (s1 & Hrun & [Hsim Hreg] & Hall).
    exists s1. split; [exact Hrun|]. intros s2 Hrel.
    destruct (update_pbd_returns s2) as (s3 & Hupd); [|by rewrite Hupd].
    pose proof (render_particle_as_mono _ _ Hrel) as Hrpa.
    destruct Hrel as [Hsim2 Hreg2]. rewrite Hsim2, Hsim. intros Hact.
    eapply Forall_impl; [exact (Hall Hact)|]. intros e HQ Hr Hn.
    rewrite Hrpa in Hn.
    eapply (has_static_node_mono s1); [by split | by apply HQ].
  - destruct (on_fem_spec s) as (s1 & Hrun & [Hsim Hreg] & Hall).
    exists s1. split; [exact Hrun|]. intros s2 Hrel.
    destruct (update_fem_returns s2) as (s3 & Hupd); [|by rewrite Hupd].
    destruct Hrel as [Hsim2 Hreg2]. rewrite Hsim2, Hsim. intros Hact.
    eapply Forall_impl; [exact (Hall Hact)|]. intros e HQ Hv.
    eapply (has_static_node_mono s1); [by split | by apply HQ].
Qed.


(** *** Link frames *)

Lemma has_link_frame_mono s s' (l : Link) :
  scene_registers s s' ->
  is_Some (link_frame_nodes (rasterizer_context.get_context s) !! link_uid l) ->
  is_Some (link_frame_nodes (rasterizer_context.get_context s') !! link_uid l).
Proof.
  intros [_ [_ Hdom _]]. rewrite <- !elem_of_dom. apply Hdom.
Qed.

Lemma bind_lookup_link_frame s (l : Link) (f : Node -> M Scene.t unit) :
  is_Some (link_frame_nodes (rasterizer_context.get_context s) !! link_uid l) ->
  (forall n, returns_always (f n)) ->
  exists s',
    (rasterizer_context.self
       (c ← gets link_frame_nodes; getitem (c !! link_uid l)) ≫= f) s
    = (s', Returned tt).
Proof.
  intros [n Hn] Hf. unfold mbind at 1. unfold M_bind at 1.
  unfold rasterizer_context.self, zoom, mbind, M_bind, gets.
  rewrite Hn. cbn [getitem mret M_ret]. rewrite put_get_context.
  by apply returns_always_unit.
Qed.

Lemma on_link_frame_loop ls s :
  exists s1,
    for_each ls (fun link =>
      frame ← gets (fun s => shape_value s (Sh_link_frame link));
      node ← rasterizer_context.self
               (rasterizer_context.add_node
                  (rasterizer_context.unnamed_mesh frame) None);
      rasterizer_context.self (modify (fun c =>
        set_link_frame_nodes (<[link_uid link := node]> (link_frame_nodes c))
                             c))) s
    = (s1, Returned tt)
    /\ scene_registers s s1
    /\ Forall (fun l =>
         is_Some (link_frame_nodes (rasterizer_context.get_context s1)
                  !! link_uid l)) ls.
Proof.
  match goal with
  | |- context [for_each ls ?body s] =>
      destruct (for_each_collects scene_registers (fun _ => True)
        (fun l s1 =>
           is_Some (link_frame_nodes (rasterizer_context.get_context s1)
                    !! link_uid l)) ls body) with (s := s)
        as (s1 & Hrun & Hrel & Hall)
  end; [done | | | | done | by exists s1].
  - intros l s0 s0' Hrel. by apply has_link_frame_mono.
  - intros l. repeat registers_step.
  - intros l s0 _ _. eexists. split; [reflexivity|].
    simpl. rewrite lookup_insert_eq. by eexists.
Qed.

(** X14: on a mirror whose link frames are not shown, [on_link_frame]
    returns, marks them shown and, when the rigid solver is active, enters a
    frame node for every link; called again it changes nothing;
    [update_link_frame] then finds every node it looks up and returns; and
    [off_link_frame] asks the backend to remove each frame node once, empties
    the registry and clears the mark, after which a second
    [off_link_frame] changes nothing. *)
Theorem X14_link_frames (s : Scene.t) :
  link_frame_shown (rasterizer_context.get_context s) = false ->
  let rigid := solver (Scene._sim s) RigidSolver in
  exists s1,
    rasterizer_context.on_link_frame s = (s1, Returned tt)
    /\ Scene._sim s1 = Scene._sim s
    /\ link_frame_shown (rasterizer_context.get_context s1) = true
    /\ (is_active rigid = true ->
        Forall (fun l =>
          is_Some (link_frame_nodes (rasterizer_context.get_context s1)
                   !! link_uid l)) (links rigid))
    /\ rasterizer_context.on_link_frame s1 = (s1, Returned tt)
    /\ (rasterizer_context.update_link_frame s1).2 = Returned tt
    /\ exists c2 removed,
         rasterizer_context.off_link_frame (rasterizer_context.get_context s1)
         = (c2, Returned tt)
         /\ link_frame_shown c2 = false
         /\ link_frame_nodes c2 = ∅
         /\ requests (_scene c2)
            = (requests (_scene (rasterizer_context.get_context s1))
               ++ (Remove <$> removed))%list
         /\ removed ≡ₚ (map_to_list
                          (link_frame_nodes
                             (rasterizer_context.get_context s1))).*2
         /\ rasterizer_context.off_link_frame c2 = (c2, Returned tt).
Proof.
  intros Hshown rigid.
  assert (Hon : exists s0,
    (when (is_active rigid)
       (for_each (links rigid) (fun link =>
          frame ← gets (fun s => shape_value s (Sh_link_frame link));
          node ← rasterizer_context.self
                   (rasterizer_context.add_node
                      (rasterizer_context.unnamed_mesh frame) None);
          rasterizer_context.self (modify (fun c =>
            set_link_frame_nodes
              (<[link_uid link := node]> (link_frame_nodes c)) c)))) s
     = (s0, Returned tt))
    /\ scene_registers s s0
    /\ (is_active rigid = true ->
        Forall (fun l =>
          is_Some (link_frame_nodes (rasterizer_context.get_context s0)
                   !! link_uid l)) (links rigid))).
  { destruct (is_active rigid); cbn [when].
    - destruct (on_link_frame_loop (links rigid) s) as (s0 & ? & ? & ?).
      by exists s0.
    - exists s. split; [done|]. split; [reflexivity | done]. }
  destruct Hon as (s0 & Hrun & [Hsim Hreg] & Hall).
  set (c1 := set_link_frame_shown true (rasterizer_context.get_context s0)).
  set (s1 := rasterizer_context.put_context c1 s0).
  assert (Hrun1 : rasterizer_context.on_link_frame s = (s1, Returned tt)).
  { unfold rasterizer_context.on_link_frame. unfold mbind at 1.
    unfold M_bind at 1. rewrite self_gets_run, Hshown. cbn [negb when].
    unfold mbind at 1. unfold M_bind at 1. unfold mbind at 1.
    unfold M_bind at 1. unfold gets at 1. fold rigid. by rewrite Hrun. }
  exists s1. split; [exact Hrun1|]. split; [exact Hsim|]. split; [done|].
  split; [exact Hall|]. split.
  { unfold rasterizer_context.on_link_frame. unfold mbind at 1.
    unfold M_bind at 1. by rewrite self_gets_run. }
  split.
  { unfold rasterizer_context.update_link_frame. unfold mbind at 1.
    unfold M_bind at 1. rewrite self_gets_run.
    change (link_frame_shown (rasterizer_context.get_context s1)) with true.
    cbn [when]. unfold mbind at 1. unfold M_bind at 1. unfold gets at 1.
    change (Scene._sim s1) with (Scene._sim s0). rewrite Hsim. fold rigid.
    destruct (is_active rigid); cbn [when]; [|done].
    match goal with
    | |- context [for_each (links rigid) ?body s1] =>
        destruct (for_each_returns scene_registers
          (fun s2 => Forall (fun l =>
             is_Some (link_frame_nodes (rasterizer_context.get_context s2)
                      !! link_uid l)) (links rigid))
          (links rigid) body) with (s := s1) as (s' & Hupd & _)
    end; [| | |by apply Hall|by rewrite Hupd].
    - intros s2 s2' Hrel HP. eapply Forall_impl; [exact HP|].
      intros l. by apply has_link_frame_mono.
    - intros l. repeat registers_step.
    - intros l s2 Hl HP.
      pose proof (proj1 (Forall_forall _ _) HP l Hl) as HQ.
      apply bind_gets_returns. apply bind_lookup_link_frame; [exact HQ|].
      repeat total_step. }
  eexists _, (rasterizer_context.dict_values (link_frame_nodes c1)).
  split.
  { unfold rasterizer_context.off_link_frame. unfold mbind at 1.
    unfold M_bind at 1. unfold gets at 1.
    change (link_frame_shown (rasterizer_context.get_context s1)) with true.
    cbn [when]. unfold mbind at 1. unfold M_bind at 1. unfold gets at 1.
    unfold mbind at 1. unfold M_bind at 1.
    rewrite for_each_remove_node. reflexivity. }
  split; [done|]. split; [done|]. split; [done|]. split; [done|].
  reflexivity.
Qed.

End SetupFacts.

Section AccumulationFacts.
Context `{Collaborators}.
Import Pyrender RasterizerContext.

#[local] Instance accumulating_refl : Reflexive accumulating.
Proof.
  intros c. split; try done.
  - exists []. by rewrite app_nil_r.
  - exists []. by rewrite app_nil_r.
Qed.

#[local] Instance accumulating_trans : Transitive accumulating.
Proof.
  intros c1 c2 c3 [? ? ? ? ? Hb1 (n1 & Hr1) (a1 & Hd1)]
    [? ? ? ? ? Hb2 (n2 & Hr2) (a2 & Hd2)].
  split; try congruence.
  - set_solver.
  - exists (n1 ++ n2)%list. by rewrite Hr2, Hr1, app_assoc.
  - exists (a1 ++ a2)%list. by rewrite Hd2, Hd1, app_assoc.
Qed.

#[local] Instance same_simulator_refl : Reflexive same_simulator.
Proof. intros s. reflexivity. Qed.

#[local] Instance same_simulator_trans : Transitive same_simulator.
Proof. intros s1 s2 s3. unfold same_simulator. congruence. Qed.

#[local] Instance proceeds_refl : Reflexive proceeds.
Proof. intros s. split; reflexivity. Qed.

#[local] Instance proceeds_trans : Transitive proceeds.
Proof. intros s1 s2 s3 [? ?] [? ?]. split; by etransitivity. Qed.

(** A change of the backend's scene that appends requests, of the dynamic
    nodes that appends nodes, of the buffer that adds entries, or of the
    segmentation tables. *)
Lemma accumulating_same c c' :
  static_nodes c' = static_nodes c ->
  rigid_nodes c' = rigid_nodes c ->
  link_frame_nodes c' = link_frame_nodes c ->
  link_frame_shown c' = link_frame_shown c ->
  render_particle_as c' = render_particle_as c ->
  dom (buffer c) ⊆ dom (buffer c') ->
  (exists new, requests (_scene c') = (requests (_scene c) ++ new)%list) ->
  (exists added, dynamic_nodes c' = (dynamic_nodes c ++ added)%list) ->
  accumulating c c'.
Proof. by split. Qed.

Lemma nothing_appended {A} (l : list A) : exists new, l = (l ++ new)%list.
Proof. exists []. by rewrite app_nil_r. Qed.

Lemma emit_accumulating r :
  preserves accumulating (rasterizer_context.on_scene (emit r)).
Proof.
  intros c. apply accumulating_same; simpl; try done; eauto using nothing_appended.
Qed.

Lemma add_node_accumulating obj pose :
  preserves accumulating (rasterizer_context.add_node obj pose).
Proof.
  intros c. apply accumulating_same; simpl; try done; eauto using nothing_appended.
Qed.

Lemma modify_accumulating (f : RasterizerContext.t -> RasterizerContext.t) :
  (forall c, accumulating c (f c)) -> preserves accumulating (modify f).
Proof. intros Hf c. apply Hf. Qed.

Lemma seg_key_to_idxc_accumulating k :
  preserves accumulating (rasterizer_context.seg_key_to_idxc k).
Proof.
  intros c. unfold rasterizer_context.seg_key_to_idxc,
    rasterizer_context.setdefault.
  destruct (seg_key_map c !! k); simpl;
    apply accumulating_same; simpl; try done; eauto using nothing_appended.
Qed.

Lemma create_node_seg_accumulating k node :
  preserves accumulating (rasterizer_context.create_node_seg k node).
Proof.
  unfold rasterizer_context.create_node_seg.
  apply (preserves_bind accumulating); [apply seg_key_to_idxc_accumulating|].
  intros i. destruct node; [|apply (preserves_ret accumulating)].
  apply modify_accumulating. intros c.
  apply accumulating_same; simpl; try done; eauto using nothing_appended.
Qed.

Lemma add_dynamic_node_accumulating entity obj pose :
  preserves accumulating (rasterizer_context.add_dynamic_node entity obj pose).
Proof.
  unfold rasterizer_context.add_dynamic_node.
  apply (preserves_bind accumulating).
  - destruct obj; [|apply (preserves_ret accumulating)].
    apply (preserves_bind accumulating); [apply add_node_accumulating|].
    intros n.
    apply (preserves_bind accumulating);
      [|intros; apply (preserves_ret accumulating)].
    apply modify_accumulating. intros c.
    apply accumulating_same; simpl; try done; eauto using nothing_appended.
  - intros node. destruct entity; [|apply (preserves_ret accumulating)].
    apply create_node_seg_accumulating.
Qed.

Lemma self_proceeds {A} (m : M RasterizerContext.t A) :
  preserves accumulating m -> preserves proceeds (rasterizer_context.self m).
Proof.
  intros Hm s. unfold rasterizer_context.self, zoom.
  specialize (Hm (rasterizer_context.get_context s)).
  destruct (m (rasterizer_context.get_context s)) as [c' r].
  split; [reflexivity | exact Hm].
Qed.

Lemma buffer_updates_set_proceeds id v :
  preserves proceeds (rasterizer_context.buffer_updates_set id v).
Proof.
  apply self_proceeds, modify_accumulating. intros c.
  apply accumulating_same; simpl; try done; eauto using nothing_appended.
  set_solver.
Qed.

Ltac proceeds_step :=
  first
    [ apply buffer_updates_set_proceeds
    | apply self_proceeds;
      first [ apply emit_accumulating
            | apply add_dynamic_node_accumulating
            | idtac ]
    | preserves_step ].

Ltac unfold_families :=
  unfold rasterizer_context.update_link_frame, rasterizer_context.update_tool,
    rasterizer_context.update_rigid, rasterizer_context.update_contact,
    rasterizer_context.update_avatar, rasterizer_context.update_mpm,
    rasterizer_context.update_sph, rasterizer_context.update_pbd,
    rasterizer_context.update_fem, rasterizer_context.update_vertices,
    rasterizer_context.draw_contact_arrow,
    rasterizer_context.draw_debug_arrow, rasterizer_context.list_getitem,
    rasterizer_context.next_uid, rasterizer_context.set_node_pose,
    rasterizer_context.set_reflection_mat, Pyrender.set_pose.

Ltac proceeds_auto := unfold_families; repeat proceeds_step.

Lemma family_proceeds p : p ∈ families -> preserves proceeds (run_phase p).
Proof.
  unfold families. rewrite !elem_of_cons, elem_of_nil.
  intros [->|[->|[->|[->|[->|[->|[->|[->|[->|[]]]]]]]]]]; simpl;
    proceeds_auto.
Qed.


(** A loop that returns leaves behind what each round leaves behind, as
    long as later rounds do not undo it. *)
Lemma for_each_leaves {S A} (R : S -> S -> Prop)
  `{!Reflexive R, !Transitive R} (P : S -> Prop) (Q : A -> S -> Prop)
  (l : list A) (body : A -> M S unit) :
  (forall s s', R s s' -> P s -> P s') ->
  (forall x s s', R s s' -> Q x s -> Q x s') ->
  (forall x, x ∈ l -> preserves R (body x)) ->
  (forall x s s', x ∈ l -> P s -> body x s = (s', Returned tt) -> Q x s') ->
  forall s s', P s -> for_each l body s = (s', Returned tt) ->
    Forall (fun x => Q x s') l.
Proof.
  intros HP HQ. induction l as [|x l IH]; intros HR Hbody s s' Hs Hrun.
  - constructor.
  - rewrite for_each_cons in Hrun.
    destruct (body x s) as [s1 [[]|e]] eqn:Hx; [|discriminate].
    pose proof (HR x (list_elem_of_here _ _) s) as Hstep.
    rewrite Hx in Hstep. cbn [fst] in Hstep.
    pose proof (preserves_for_each_in R l body
                  (fun y Hy => HR y (list_elem_of_further _ _ _ Hy)) s1)
      as Hrest.
    rewrite Hrun in Hrest. cbn [fst] in Hrest.
    constructor.
    + apply (HQ x s1 s' Hrest). apply (Hbody x s s1); [left | done | done].
    + apply (IH (fun y Hy => HR y (list_elem_of_further _ _ _ Hy))
               (fun y s0 s0' Hy =>
                  Hbody y s0 s0' (list_elem_of_further _ _ _ Hy))
               s1 s' (HP _ _ Hstep Hs) Hrun).
Qed.

Lemma drop_app_mono {A} (k : nat) (l new : list A) (x : A) :
  x ∈ drop k l -> x ∈ drop k (l ++ new).
Proof. rewrite drop_app. intros Hx. apply elem_of_app. by left. Qed.

Lemma drop_app_last {A} (k : nat) (l : list A) (x : A) :
  (k <= length l)%nat -> x ∈ drop k (l ++ [x]).
Proof.
  intros Hk. rewrite drop_app. apply elem_of_app. right.
  replace (k - length l)%nat with 0%nat by lia. apply list_elem_of_here.
Qed.

Lemma left_behind_mono k s s' e :
  proceeds s s' -> left_behind k s e -> left_behind k s' e.
Proof.
  intros [Hsim [Hstatic Hrigid Hframes _ _ Hbuf (new & Hreq) (added & Hdyn)]].
  unfold same_simulator in Hsim.
  destruct e as [r u kind | e | q | q]; simpl.
  - intros (node & Hnode & Hentry). exists node. split.
    + destruct r; simpl in *; congruence.
    + apply elem_of_dom, Hbuf, elem_of_dom, Hentry.
  - intros (node & s0 & Hnode & Hs0 & Hr). exists node, s0.
    split; [congruence|]. split; [congruence|].
    unfold requests_from in *. rewrite Hreq. by apply drop_app_mono.
  - intros (n & s0 & Hs0 & Hn & Hr). exists n, s0.
    split; [congruence|]. split.
    + rewrite Hdyn. apply elem_of_app. by left.
    + unfold requests_from in *. rewrite Hreq. by apply drop_app_mono.
  - intros (s0 & Hs0 & Harrow). exists s0. split; [congruence|].
    intros Hlong. destruct (Harrow Hlong) as (n & uid_text & Hn & Hr).
    exists n, uid_text. split.
    + rewrite Hdyn. apply elem_of_app. by left.
    + unfold requests_from in *. rewrite Hreq. by apply drop_app_mono.
Qed.

Lemma all_left_behind_mono k s s' (effects : list Effect) :
  proceeds s s' ->
  Forall (left_behind k s) effects -> Forall (left_behind k s') effects.
Proof.
  intros Hp Hall. eapply Forall_impl; [exact Hall|].
  intros e. by apply left_behind_mono.
Qed.

Lemma family_effects_stable p s s' :
  proceeds s s' -> family_effects p s' = family_effects p s.
Proof.
  intros [Hsim [_ _ _ Hshown Has _ _ _]]. unfold same_simulator in Hsim.
  unfold family_effects. rewrite Hsim, Hshown, Has. reflexivity.
Qed.

Lemma reached_mono k s s' : proceeds s s' -> reached k s -> reached k s'.
Proof.
  intros [_ [_ _ _ _ _ _ (new & Hreq) _]]. unfold reached.
  rewrite Hreq, length_app. lia.
Qed.

(** *** Running the pieces of a family *)

Lemma bind_gets_run {S A B} (g : S -> A) (f : A -> M S B) (s : S) :
  (gets g ≫= f) s = f (g s) s.
Proof. reflexivity. Qed.

Lemma bind_self_gets_run {A B} (g : RasterizerContext.t -> A)
  (f : A -> M Scene.t B) (s : Scene.t) :
  (rasterizer_context.self (gets g) ≫= f) s
  = f (g (rasterizer_context.get_context s)) s.
Proof.
  unfold mbind at 1. unfold M_bind at 1. by rewrite self_gets_run.
Qed.

Lemma bind_lookup_run {B} (reg : RasterizerContext.t -> gmap UID Node)
  (u : UID) (f : Node -> M Scene.t B) (s : Scene.t) :
  (rasterizer_context.self (c ← gets reg; getitem (c !! u)) ≫= f) s
  = match reg (rasterizer_context.get_context s) !! u with
    | Some node => f node s
    | None => (s, Raised KeyError)
    end.
Proof.
  unfold mbind at 1. unfold M_bind at 1.
  unfold rasterizer_context.self, zoom, mbind, M_bind, gets.
  destruct (reg _ !! u); cbn [getitem mret M_ret raise];
    by rewrite put_get_context.
Qed.

Lemma bind_inv {S A B} (m : M S A) (f : A -> M S B) (s s' : S) (b : B) :
  (m ≫= f) s = (s', Returned b) ->
  exists s1 a, m s = (s1, Returned a) /\ f a s1 = (s', Returned b).
Proof.
  unfold mbind, M_bind. destruct (m s) as [s1 [a|e]]; [eauto | discriminate].
Qed.

Lemma write_leaves k (r : Registry) u kind node v s s' :
  registered r (rasterizer_context.get_context s) !! u = Some node ->
  rasterizer_context.buffer_updates_set (get_buffer_id node kind) v s
  = (s', Returned tt) ->
  left_behind k s' (WritesEntry r u kind).
Proof.
  intros Hn [= <-]. exists node. rewrite get_put_context. split.
  - by destruct r.
  - simpl. rewrite lookup_insert_eq. by eexists.
Qed.

Lemma update_vertices_leaves k (r : Registry) u node verts s s' :
  registered r (rasterizer_context.get_context s) !! u = Some node ->
  rasterizer_context.update_vertices node verts s = (s', Returned tt) ->
  left_behind k s' (WritesEntry r u "pos").
Proof.
  intros Hn. unfold rasterizer_context.update_vertices. cbv zeta.
  intros (s1 & [] & Hpos & Hrest)%bind_inv.
  pose proof (write_leaves k r u "pos" node _ s s1 Hn Hpos) as Hleft.
  destruct (update_normal node (reorder_vertices node verts)) as [normal|].
  - eapply left_behind_mono; [|exact Hleft].
    pose proof (buffer_updates_set_proceeds
                  (get_buffer_id node "normal") normal s1) as Hp.
    by rewrite Hrest in Hp.
  - by injection Hrest as <-.
Qed.

(** A dynamic node for the mesh of a quantity. *)
Lemma add_dynamic_node_leaves k entity g s s' :
  reached k s ->
  rasterizer_context.self
    (rasterizer_context.add_dynamic_node entity
       (Some (rasterizer_context.unnamed_mesh g)) None) s
  = (s', Returned tt) ->
  exists n,
    n ∈ dynamic_nodes (rasterizer_context.get_context s')
    /\ Add n {| name := NameNone; geometry := g |} None
       ∈ requests_from k (rasterizer_context.get_context s')
    /\ Scene._sim s' = Scene._sim s.
Proof.
  intros Hk Hrun.
  exists (next_node (_scene (rasterizer_context.get_context s))).
  revert Hrun.
  unfold rasterizer_context.self, zoom,
    rasterizer_context.add_dynamic_node, rasterizer_context.add_node,
    rasterizer_context.on_scene, Pyrender.add, zoom.
  unfold mbind at 1. unfold M_bind at 1.
  unfold mbind at 1. unfold M_bind at 1.
  unfold mbind at 1. unfold M_bind at 1.
  cbn [modify mret M_ret].
  set (c1 := set_dynamic_nodes _ _).
  assert (Hc1 : dynamic_nodes c1
                = (dynamic_nodes (rasterizer_context.get_context s)
                   ++ [next_node (_scene (rasterizer_context.get_context s))])%list
                /\ requests (_scene c1)
                   = (requests (_scene (rasterizer_context.get_context s))
                      ++ [Add (next_node (_scene (rasterizer_context.get_context s)))
                            (rasterizer_context.unnamed_mesh g) None])%list)
    by (split; reflexivity).
  destruct Hc1 as [Hdyn Hreq].
  destruct entity as [e|].
  - pose proof (create_node_seg_accumulating (KeyIdx (idx e))
                  (Some (next_node (_scene (rasterizer_context.get_context s))))
                  c1) as Hacc.
    destruct (rasterizer_context.create_node_seg _ _ c1) as [c2 r].
    cbn [fst] in Hacc. intros [= <- ->]. rewrite get_put_context.
    destruct Hacc as [_ _ _ _ _ _ (new & Hreq2) (added & Hdyn2)].
    split; [|split; [|reflexivity]].
    + rewrite Hdyn2, Hdyn. apply elem_of_app. left.
      apply elem_of_app. right. apply list_elem_of_here.
    + unfold requests_from. rewrite Hreq2, Hreq.
      apply drop_app_mono, drop_app_last, Hk.
  - intros [= <-]. rewrite get_put_context.
    split; [|split; [|reflexivity]].
    + rewrite Hdyn. apply elem_of_app. right. apply list_elem_of_here.
    + unfold requests_from. rewrite Hreq. apply drop_app_last, Hk.
Qed.

Lemma preserves_run {S A} (R : S -> S -> Prop) (m : M S A) (s s' : S)
  (r : outcome A) :
  preserves R m -> m s = (s', r) -> R s s'.
Proof. intros Hm Hrun. specialize (Hm s). by rewrite Hrun in Hm. Qed.

Lemma registered_proceeds r s s' u node :
  proceeds s s' ->
  registered r (rasterizer_context.get_context s) !! u = Some node ->
  registered r (rasterizer_context.get_context s') !! u = Some node.
Proof.
  intros [_ [Hstatic Hrigid Hframes _ _ _ _ _]].
  destruct r; simpl; congruence.
Qed.

Lemma emit_proceeds r : preserves proceeds
  (rasterizer_context.self (rasterizer_context.on_scene (emit r))).
Proof. apply self_proceeds, emit_accumulating. Qed.

(** *** Link frames *)

Lemma link_frames_leave k s s' :
  rasterizer_context.update_link_frame s = (s', Returned tt) ->
  Forall (left_behind k s') (family_effects LinkFrames s).
Proof.
  unfold rasterizer_context.update_link_frame, family_effects.
  cbv beta iota zeta. rewrite bind_self_gets_run.
  destruct (link_frame_shown _); [|constructor]. cbn [when].
  rewrite bind_gets_run.
  destruct (is_active _); [|constructor]. cbn [when].
  intros Hrun. apply Forall_fmap.
  refine (for_each_leaves proceeds (fun _ => True)
            (fun l s0 =>
               left_behind k s0 (WritesEntry FrameNodes (link_uid l) "model"))
            _ _ _ _ _ _ _ _ _ Hrun);
    [ done
    | intros; by eapply left_behind_mono
    | intros x _; cbv beta; proceeds_auto
    |
    | done ].
  intros link s0 s1 _ _. rewrite bind_gets_run, bind_lookup_run.
  destruct (link_frame_nodes _ !! _) as [node|] eqn:Hn; [|discriminate].
  by apply (write_leaves k FrameNodes).
Qed.

(** *** Tool *)

Lemma tool_leaves k s s' :
  reached k s ->
  rasterizer_context.update_tool s = (s', Returned tt) ->
  Forall (left_behind k s') (family_effects ToolPhase s).
Proof.
  unfold rasterizer_context.update_tool, family_effects.
  cbv beta iota zeta. rewrite bind_gets_run.
  destruct (is_active _); [|constructor]. cbn [when].
  intros Hk Hrun. apply Forall_fmap.
  refine (for_each_leaves proceeds (reached k)
            (fun e s0 => left_behind k s0 (SetsPose e))
            _ _ _ _ _ _ _ _ _ Hrun);
    [ intros; by eapply reached_mono
    | intros; by eapply left_behind_mono
    | intros x _; cbv beta; proceeds_auto
    |
    | exact Hk ].
  intros e s0 s1 _ Hk0. rewrite bind_gets_run, bind_lookup_run.
  destruct (static_nodes _ !! _) as [node|] eqn:Hn; [|discriminate].
  intros [= <-]. exists node, s0. rewrite get_put_context.
  split; [exact Hn|]. split; [reflexivity|].
  unfold requests_from. simpl. apply drop_app_last, Hk0.
Qed.

(** *** Rigid and avatar geoms *)

Lemma shows_vis_mode_is e mode :
  rasterizer_context.vis_mode_is e mode = shows e mode.
Proof. reflexivity. Qed.

Lemma rigid_leaves k s s' :
  rasterizer_context.update_rigid s = (s', Returned tt) ->
  Forall (left_behind k s') (family_effects RigidPhase s).
Proof.
  unfold rasterizer_context.update_rigid, family_effects.
  cbv beta iota zeta. rewrite bind_gets_run.
  destruct (is_active _); [|constructor]. cbn [when].
  intros Hrun. apply Forall_concat, Forall_fmap.
  refine (for_each_leaves proceeds (fun _ => True)
            (fun e s0 => Forall (left_behind k s0) (geom_entries e))
            _ _ _ _ _ _ _ _ _ Hrun);
    [ done
    | intros; by eapply all_left_behind_mono
    | intros x _; cbv beta; proceeds_auto
    |
    | done ].
  intros e s0 s1 _ _ Hentity. unfold geom_entries. apply Forall_fmap.
  rewrite shows_vis_mode_is in Hentity.
  refine (for_each_leaves proceeds (fun _ => True)
            (fun g s2 =>
               left_behind k s2 (WritesEntry RigidNodes (geom_uid g) "model"))
            _ _ _ _ _ _ _ _ _ Hentity);
    [ done
    | intros; by eapply left_behind_mono
    | intros x _; cbv beta; proceeds_auto
    |
    | done ].
  intros g s2 s3 _ _. rewrite bind_gets_run, bind_lookup_run.
  destruct (rigid_nodes _ !! _) as [node|] eqn:Hn; [|discriminate].
  intros (s4 & [] & H1 & Hrest)%bind_inv.
  apply bind_inv in Hrest as (s5 & [] & H2 & Hrest).
  apply bind_inv in Hrest as (s6 & [] & H3 & Hrest).
  assert (Hp : proceeds s2 s5).
  { etransitivity; eapply preserves_run; eauto using emit_proceeds. }
  eapply left_behind_mono.
  - eapply preserves_run; [|exact Hrest]. proceeds_auto.
  - refine (write_leaves k RigidNodes _ _ node _ s5 s6 _ H3).
    by apply (registered_proceeds RigidNodes s2 s5).
Qed.

Lemma avatar_leaves k s s' :
  rasterizer_context.update_avatar s = (s', Returned tt) ->
  Forall (left_behind k s') (family_effects AvatarPhase s).
Proof.
  unfold rasterizer_context.update_avatar, family_effects.
  cbv beta iota zeta. rewrite bind_gets_run.
  destruct (is_active _); [|constructor]. cbn [when].
  intros Hrun. apply Forall_concat, Forall_fmap.
  refine (for_each_leaves proceeds (fun _ => True)
            (fun e s0 => Forall (left_behind k s0) (geom_entries e))
            _ _ _ _ _ _ _ _ _ Hrun);
    [ done
    | intros; by eapply all_left_behind_mono
    | intros x _; cbv beta; proceeds_auto
    |
    | done ].
  intros e s0 s1 _ _ Hentity. unfold geom_entries. apply Forall_fmap.
  rewrite shows_vis_mode_is in Hentity.
  refine (for_each_leaves proceeds (fun _ => True)
            (fun g s2 =>
               left_behind k s2 (WritesEntry RigidNodes (geom_uid g) "model"))
            _ _ _ _ _ _ _ _ _ Hentity);
    [ done
    | intros; by eapply left_behind_mono
    | intros x _; cbv beta; proceeds_auto
    |
    | done ].
  intros g s2 s3 _ _. rewrite bind_gets_run, bind_lookup_run.
  destruct (rigid_nodes _ !! _) as [node|] eqn:Hn; [|discriminate].
  cbv zeta.
  destruct (buffer_id_mesh _) as [owner|]; [|discriminate].
  intros (s4 & [] & H1 & Hrest)%bind_inv.
  apply bind_inv in Hrest as (s5 & [] & H2 & Hrest).
  assert (Hp : proceeds s2 s5).
  { etransitivity; eapply preserves_run; eauto using emit_proceeds. }
  refine (write_leaves k RigidNodes _ _ node _ s5 s3 _ Hrest).
  by apply (registered_proceeds RigidNodes s2 s5).
Qed.

(** *** Particles and meshes *)

Lemma created_leaves k (e : Entity) (q : Quantity) s s' :
  reached k s ->
  (mesh ← gets (fun s => render_value s q);
   rasterizer_context.self
     (rasterizer_context.add_dynamic_node (Some e)
        (Some (rasterizer_context.unnamed_mesh mesh)) None)) s
  = (s', Returned tt) ->
  Forall (left_behind k s') [CreatesNode q].
Proof.
  intros Hk. rewrite bind_gets_run. intros Hrun.
  destruct (add_dynamic_node_leaves k (Some e) _ s s' Hk Hrun)
    as (n & Hn & Hreq & Hsim).
  constructor; [|constructor]. exists n, s. by repeat split.
Qed.

Lemma particles_written k (e : Entity) (q : Quantity) s s' :
  (tfs ← gets (fun s => render_value s q);
   static_node ← rasterizer_context.self
                   (c ← gets static_nodes; getitem (c !! uid e));
   rasterizer_context.buffer_updates_set (get_buffer_id static_node "model")
     (transpose tfs)) s
  = (s', Returned tt) ->
  Forall (left_behind k s') [WritesEntry StaticNodes (uid e) "model"].
Proof.
  rewrite bind_gets_run, bind_lookup_run.
  destruct (static_nodes _ !! _) as [node|] eqn:Hn; [|discriminate].
  intros Hrun. constructor; [|constructor].
  exact (write_leaves k StaticNodes _ _ node _ s s' Hn Hrun).
Qed.

Lemma vertices_written k (e : Entity) (q : Quantity) s s' :
  (verts ← gets (fun s => render_value s q);
   node ← rasterizer_context.self
            (c ← gets static_nodes; getitem (c !! uid e));
   rasterizer_context.update_vertices node verts) s
  = (s', Returned tt) ->
  Forall (left_behind k s') [WritesEntry StaticNodes (uid e) "pos"].
Proof.
  rewrite bind_gets_run, bind_lookup_run.
  destruct (static_nodes _ !! _) as [node|] eqn:Hn; [|discriminate].
  intros Hrun. constructor; [|constructor].
  exact (update_vertices_leaves k StaticNodes _ node _ s s' Hn Hrun).
Qed.

Lemma mpm_leaves k s s' :
  reached k s ->
  rasterizer_context.update_mpm s = (s', Returned tt) ->
  Forall (left_behind k s') (family_effects MPMPhase s).
Proof.
  unfold rasterizer_context.update_mpm, family_effects.
  cbv beta iota zeta. rewrite bind_gets_run.
  destruct (is_active _); [|constructor]. cbn [when].
  intros Hk Hrun. apply Forall_concat, Forall_fmap.
  refine (for_each_leaves proceeds (reached k)
            (fun e s0 =>
               Forall (left_behind k s0)
                 (particle_effects MPMSolver
                    (render_particle_as (rasterizer_context.get_context s)) e))
            _ _ _ _ _ _ _ _ _ Hrun);
    [ intros; by eapply reached_mono
    | intros; by eapply all_left_behind_mono
    | intros x _; cbv beta; proceeds_auto
    |
    | exact Hk ].
  intros e s0 s1 _ Hk0. cbv beta.
  unfold particle_effects, shows, rasterizer_context.vis_mode_is.
  destruct (bool_decide (_ = Some "recon")); [by apply created_leaves|].
  destruct (bool_decide (_ = Some "particle")); [by apply particles_written|].
  destruct (bool_decide (_ = Some "visual")); [by apply created_leaves|].
  constructor.
Qed.

Lemma sph_leaves k s s' :
  reached k s ->
  rasterizer_context.update_sph s = (s', Returned tt) ->
  Forall (left_behind k s') (family_effects SPHPhase s).
Proof.
  unfold rasterizer_context.update_sph, family_effects.
  cbv beta iota zeta. rewrite bind_gets_run.
  destruct (is_active _); [|constructor]. cbn [when].
  intros Hk Hrun. apply Forall_concat, Forall_fmap.
  refine (for_each_leaves proceeds (reached k)
            (fun e s0 =>
               Forall (left_behind k s0)
                 (particle_effects SPHSolver
                    (render_particle_as (rasterizer_context.get_context s)) e))
            _ _ _ _ _ _ _ _ _ Hrun);
    [ intros; by eapply reached_mono
    | intros; by eapply all_left_behind_mono
    | intros x _; cbv beta; proceeds_auto
    |
    | exact Hk ].
  intros e s0 s1 _ Hk0. cbv beta.
  unfold particle_effects, shows, rasterizer_context.vis_mode_is.
  destruct (bool_decide (_ = Some "recon")); [by apply created_leaves|].
  destruct (bool_decide (_ = Some "particle")); [by apply particles_written|].
  constructor.
Qed.

(** The scene has sent [k] requests at least and draws particles as
    [as_what]. *)
Lemma pbd_leaves k s s' :
  reached k s ->
  rasterizer_context.update_pbd s = (s', Returned tt) ->
  Forall (left_behind k s') (family_effects PBDPhase s).
Proof.
  unfold rasterizer_context.update_pbd, family_effects.
  cbv beta iota zeta. rewrite bind_gets_run.
  destruct (is_active _); [|constructor]. cbn [when].
  intros Hk Hrun. apply Forall_concat, Forall_fmap.
  set (as_what := render_particle_as (rasterizer_context.get_context s)).
  refine (for_each_leaves proceeds
            (fun s0 => reached k s0
                       /\ render_particle_as (rasterizer_context.get_context s0)
                          = as_what)
            (fun e s0 =>
               Forall (left_behind k s0) (particle_effects PBDSolver as_what e))
            _ _ _ _ _ _ _ _ _ Hrun);
    [ intros s0 s1 Hp [Hk0 Has]; split; [by eapply reached_mono|];
      destruct Hp as [_ [_ _ _ _ Hkeep _ _ _]]; congruence
    | intros; by eapply all_left_behind_mono
    | intros x _; cbv beta; proceeds_auto
    |
    | by split ].
  intros e s0 s1 _ [Hk0 Has]. cbv beta.
  unfold particle_effects, shows, rasterizer_context.vis_mode_is.
  destruct (bool_decide (_ = Some "recon")); [by apply created_leaves|].
  destruct (bool_decide (_ = Some "particle")).
  - rewrite bind_self_gets_run, Has.
    destruct (String.eqb as_what "sphere"); [by apply particles_written|].
    destruct (String.eqb as_what "tet"); [by apply vertices_written|].
    constructor.
  - destruct (bool_decide (_ = Some "visual")); [by apply vertices_written|]. constructor.
Qed.

Lemma fem_leaves k s s' :
  rasterizer_context.update_fem s = (s', Returned tt) ->
  Forall (left_behind k s') (family_effects FEMPhase s).
Proof.
  unfold rasterizer_context.update_fem, family_effects.
  cbv beta iota zeta. rewrite bind_gets_run.
  destruct (is_active _); [|constructor]. cbn [when].
  intros Hrun. apply Forall_concat, Forall_fmap.
  refine (for_each_leaves proceeds (fun _ => True)
            (fun e s0 =>
               Forall (left_behind k s0)
                 (particle_effects FEMSolver
                    (render_particle_as (rasterizer_context.get_context s)) e))
            _ _ _ _ _ _ _ _ _ Hrun);
    [ done
    | intros; by eapply all_left_behind_mono
    | intros x _; cbv beta; proceeds_auto
    |
    | done ].
  intros e s0 s1 _ _. cbv beta.
  unfold particle_effects, shows, rasterizer_context.vis_mode_is.
  destruct (bool_decide (_ = Some "visual")); [|constructor]. cbn [when].
  rewrite bind_gets_run, bind_lookup_run.
  destruct (static_nodes _ !! _) as [node|] eqn:Hn; [|discriminate].
  intros Hrun0. constructor; [|constructor].
  exact (write_leaves k StaticNodes _ _ node _ s0 s1 Hn Hrun0).
Qed.

(** *** Contact arrows *)

Lemma list_getitem_run {A} (l : list A) (i : Z) (s s' : Scene.t) (x : A) :
  rasterizer_context.list_getitem l i s = (s', Returned x) ->
  py_index l i = Some x /\ s' = s.
Proof.
  unfold rasterizer_context.list_getitem, py_index. cbv zeta.
  destruct (_ && _).
  - destruct (l !! Z.to_nat i); [|discriminate]. by intros [= <- <-].
  - destruct (_ && _); [|discriminate].
    destruct (l !! Z.to_nat _); [|discriminate]. by intros [= <- <-].
Qed.

Lemma named_node_leaves k (obj : Mesh) s s' :
  reached k s ->
  rasterizer_context.self
    (rasterizer_context.add_dynamic_node None (Some obj) None) s
  = (s', Returned tt) ->
  exists n,
    n ∈ dynamic_nodes (rasterizer_context.get_context s')
    /\ Add n obj None ∈ requests_from k (rasterizer_context.get_context s')
    /\ Scene._sim s' = Scene._sim s.
Proof.
  intros Hk [= <-].
  exists (next_node (_scene (rasterizer_context.get_context s))).
  rewrite get_put_context. split; [|split; [|reflexivity]].
  - simpl. apply elem_of_app. right. apply list_elem_of_here.
  - unfold requests_from. simpl. apply drop_app_last, Hk.
Qed.

Lemma arrow_leaves k (q : Quantity) (uid_text : string) s s' r :
  reached k s ->
  rasterizer_context.draw_debug_arrow q uid_text false s = (s', Returned r) ->
  left_behind k s' (DrawsArrow q) /\ proceeds s s'.
Proof.
  intros Hk Hrun. split.
  - revert Hrun. unfold rasterizer_context.draw_debug_arrow.
    rewrite bind_gets_run.
    destruct (vec_nonzero s q) eqn:Hlong.
    + rewrite bind_gets_run. cbv zeta.
      intros (s1 & [] & Hadd & [= <- _])%bind_inv.
      destruct (named_node_leaves k _ s s1 Hk Hadd) as (n & Hn & Hreq & Hsim).
      exists s. split; [done|]. intros _. by exists n, uid_text.
    + intros [= <- _]. exists s. split; [done|]. congruence.
  - eapply preserves_run; [|exact Hrun].
    unfold rasterizer_context.draw_debug_arrow. repeat proceeds_step.
Qed.

Lemma contact_side_leaves k (links : list Link) (i_c : nat)
  (link_idx sign : Z) s s' :
  reached k s ->
  (link ← rasterizer_context.list_getitem links link_idx;
   when (visualize_contact link) (
     uid1 ← rasterizer_context.next_uid;
     rasterizer_context.draw_contact_arrow (Q_contact_force i_c sign) uid1 ;;
     uid2 ← rasterizer_context.next_uid;
     rasterizer_context.draw_debug_arrow (Q_contact_normal i_c (- sign))
       uid2 false ;;
     mret tt)) s
  = (s', Returned tt) ->
  Forall (left_behind k s')
    match py_index links link_idx with
    | Some link =>
        if visualize_contact link
        then [DrawsArrow (Q_contact_force i_c sign);
              DrawsArrow (Q_contact_normal i_c (- sign))]
        else []
    | None => []
    end.
Proof.
  intros Hk (s1 & link & [-> ->]%list_getitem_run & Hrest)%bind_inv.
  destruct (visualize_contact link); [|constructor]. cbn [when] in Hrest.
  unfold rasterizer_context.next_uid,
    rasterizer_context.draw_contact_arrow in Hrest.
  rewrite bind_gets_run in Hrest.
  apply bind_inv in Hrest as (s2 & [] & Hforce & Hrest).
  apply bind_inv in Hforce as (s3 & r1 & Hforce & [= <-]).
  rewrite bind_gets_run in Hrest.
  apply bind_inv in Hrest as (s4 & r2 & Hnormal & [= <-]).
  destruct (arrow_leaves k _ _ s s3 r1 Hk Hforce) as [Hleft1 Hp1].
  destruct (arrow_leaves k _ _ s3 s4 r2 (reached_mono k s s3 Hp1 Hk) Hnormal)
    as [Hleft2 Hp2].
  constructor; [by eapply left_behind_mono|].
  constructor; [done | constructor].
Qed.

Lemma contact_leaves k s s' :
  reached k s ->
  rasterizer_context.update_contact s = (s', Returned tt) ->
  Forall (left_behind k s') (family_effects ContactArrows s).
Proof.
  unfold rasterizer_context.update_contact, family_effects.
  cbv beta iota zeta. rewrite bind_gets_run.
  destruct (is_active _); [|constructor]. cbn [andb].
  destruct (existsb _ _); [|constructor]. cbn [when].
  intros Hk. case_bool_decide as Hnone.
  { intros _. destruct (contacts _); [constructor | discriminate]. }
  intros Hrun. apply Forall_concat, Forall_fmap.
  refine (for_each_leaves proceeds (reached k)
            (fun numbered s0 =>
               Forall (left_behind k s0)
                 (contact_arrows
                    (Sim.links (solver (Scene._sim s) RigidSolver)) numbered))
            _ _ _ _ _ _ _ _ _ Hrun);
    [ intros; by eapply reached_mono
    | intros; by eapply all_left_behind_mono
    | intros [i_c contact] _; cbv beta iota; proceeds_auto
    |
    | exact Hk ].
  intros [i_c contact] s0 s1 _ Hk0 Hcontact. unfold contact_arrows.
  apply Forall_concat, Forall_fmap.
  refine (for_each_leaves proceeds (reached k)
            (fun side s2 =>
               Forall (left_behind k s2)
                 (let '(link_idx, sign) := side in
                  match py_index
                          (Sim.links (solver (Scene._sim s) RigidSolver))
                          link_idx with
                  | Some link =>
                      if visualize_contact link
                      then [DrawsArrow (Q_contact_force i_c sign);
                            DrawsArrow (Q_contact_normal i_c (- sign))]
                      else []
                  | None => []
                  end))
            _ _ _ _ _ _ _ _ _ Hcontact);
    [ intros; by eapply reached_mono
    | intros; by eapply all_left_behind_mono
    | intros [link_idx sign] _; cbv beta iota; proceeds_auto
    |
    | exact Hk0 ].
  intros [link_idx sign] s2 s3 _ Hk2. by apply contact_side_leaves.
Qed.

(** *** Every family *)

Lemma family_leaves p k s s' :
  p ∈ families -> reached k s ->
  run_phase p s = (s', Returned tt) ->
  Forall (left_behind k s') (family_effects p s).
Proof.
  unfold families. rewrite !elem_of_cons, elem_of_nil.
  intros [->|[->|[->|[->|[->|[->|[->|[->|[->|[]]]]]]]]]] Hk; cbn [run_phase].
  - apply link_frames_leave.
  - by apply tool_leaves.
  - apply rigid_leaves.
  - by apply contact_leaves.
  - apply avatar_leaves.
  - by apply mpm_leaves.
  - by apply sph_leaves.
  - by apply pbd_leaves.
  - apply fem_leaves.
Qed.

(** The families that returned have left their effects behind: on the
    scene the last of them leaves, each effect of each is there. *)
Lemma families_leave k s s' :
  reached k s ->
  for_each families run_phase s = (s', Returned tt) ->
  Forall (fun p => Forall (left_behind k s') (family_effects p s')) families.
Proof.
  intros Hk Hrun.
  refine (for_each_leaves proceeds (reached k)
            (fun p s0 => Forall (left_behind k s0) (family_effects p s0))
            _ _ _ _ _ _ _ _ _ Hrun);
    [ intros; by eapply reached_mono
    |
    | intros p Hp; by apply family_proceeds
    |
    | exact Hk ].
  - intros p s0 s1 Hp Hleft. rewrite (family_effects_stable p s0 s1 Hp).
    by eapply all_left_behind_mono.
  - intros p s0 s1 Hp Hk0 Hphase.
    rewrite (family_effects_stable p s0 s1).
    + by apply family_leaves.
    + eapply preserves_run; [|exact Hphase]. by apply family_proceeds.
Qed.

(** *** The requests of each family *)

Section Sends.
Variable kind : Request -> bool.

#[local] Instance sends_refl : Reflexive (sends kind).
Proof. intros c. exists []. by rewrite app_nil_r. Qed.

#[local] Instance sends_trans : Transitive (sends kind).
Proof.
  intros c1 c2 c3 (n1 & Hr1 & Hk1) (n2 & Hr2 & Hk2).
  exists (n1 ++ n2)%list. rewrite Hr2, Hr1, app_assoc. split; [done|].
  by apply Forall_app.
Qed.

#[local] Instance scene_sends_refl : Reflexive (scene_sends kind).
Proof. intros s. unfold scene_sends. reflexivity. Qed.

#[local] Instance scene_sends_trans : Transitive (scene_sends kind).
Proof. intros s1 s2 s3. unfold scene_sends. apply sends_trans. Qed.

Lemma sends_nothing c c' :
  requests (_scene c') = requests (_scene c) -> sends kind c c'.
Proof. intros Hreq. exists []. by rewrite app_nil_r. Qed.

Lemma emit_sends r :
  kind r = true ->
  preserves (sends kind) (rasterizer_context.on_scene (emit r)).
Proof. intros Hr c. exists [r]. split; [reflexivity | by constructor]. Qed.

Lemma modify_sends (f : RasterizerContext.t -> RasterizerContext.t) :
  (forall c, requests (_scene (f c)) = requests (_scene c)) ->
  preserves (sends kind) (modify f).
Proof. intros Hf c. apply sends_nothing, Hf. Qed.

Lemma create_node_seg_sends k node :
  preserves (sends kind) (rasterizer_context.create_node_seg k node).
Proof.
  unfold rasterizer_context.create_node_seg.
  apply (preserves_bind (sends kind)).
  - intros c. unfold rasterizer_context.seg_key_to_idxc,
      rasterizer_context.setdefault.
    destruct (seg_key_map c !! k); by apply sends_nothing.
  - intros i. destruct node; [|apply (preserves_ret (sends kind))].
    by apply modify_sends.
Qed.

Lemma add_dynamic_node_sends entity obj pose :
  (forall n o, obj = Some o -> kind (Add n o pose) = true) ->
  preserves (sends kind)
    (rasterizer_context.add_dynamic_node entity obj pose).
Proof.
  intros Hkind. unfold rasterizer_context.add_dynamic_node.
  apply (preserves_bind (sends kind)).
  - destruct obj as [o|]; [|apply (preserves_ret (sends kind))].
    apply (preserves_bind (sends kind)).
    + intros c. exists [Add (next_node (_scene c)) o pose].
      split; [reflexivity|]. constructor; [by apply Hkind | constructor].
    + intros n. apply (preserves_bind (sends kind));
        [|intros; apply (preserves_ret (sends kind))].
      by apply modify_sends.
  - intros node. destruct entity; [|apply (preserves_ret (sends kind))].
    apply create_node_seg_sends.
Qed.

Lemma self_sends {A} (m : M RasterizerContext.t A) :
  preserves (sends kind) m ->
  preserves (scene_sends kind) (rasterizer_context.self m).
Proof.
  intros Hm s. unfold rasterizer_context.self, zoom.
  specialize (Hm (rasterizer_context.get_context s)).
  destruct (m (rasterizer_context.get_context s)) as [c' r]. exact Hm.
Qed.

Lemma buffer_updates_set_sends id v :
  preserves (scene_sends kind) (rasterizer_context.buffer_updates_set id v).
Proof. apply self_sends. by apply modify_sends. Qed.

End Sends.

#[local] Existing Instance sends_refl.
#[local] Existing Instance sends_trans.
#[local] Existing Instance scene_sends_refl.
#[local] Existing Instance scene_sends_trans.

Lemma arrow_request (n : Node) (uid_text : string) (g : Payload) :
  family_request ContactArrows
    (Add n {| name := Name ("debug_arrow_" +:+ uid_text); geometry := g |}
       None)
  = true.
Proof. simpl. by destruct ("" +:+ uid_text). Qed.

Ltac sends_step :=
  first
    [ apply buffer_updates_set_sends
    | apply self_sends;
      first [ apply emit_sends; reflexivity
            | apply add_dynamic_node_sends; intros ? ? [= <-];
              first [reflexivity | apply arrow_request]
            | idtac ]
    | preserves_step ].

Lemma family_sends p :
  p ∈ families -> preserves (scene_sends (family_request p)) (run_phase p).
Proof.
  unfold families. rewrite !elem_of_cons, elem_of_nil.
  intros [->|[->|[->|[->|[->|[->|[->|[->|[->|[]]]]]]]]]]; simpl;
    unfold_families; repeat sends_step.
Qed.

(** The families send their requests one family after the other. *)
Lemma families_send (l : list Phase) s :
  l ⊆ families ->
  exists segments,
    Forall2 (fun p segment =>
               Forall (fun r => family_request p r = true) segment)
      l segments
    /\ requests (_scene (rasterizer_context.get_context
                           (for_each l run_phase s).1))
       = (requests (_scene (rasterizer_context.get_context s))
          ++ concat segments)%list.
Proof.
  revert s. induction l as [|p l IH]; intros s Hl.
  - exists []. split; [constructor|]. simpl. by rewrite app_nil_r.
  - assert (Hp : p ∈ families) by (apply Hl; left).
    assert (Hrest : l ⊆ families)
      by (intros q Hq; apply Hl; by right).
    destruct (family_sends p Hp s) as (segment & Hreq & Hkind).
    rewrite for_each_cons.
    destruct (run_phase p s) as [s1 [[]|e]]; cbn [fst] in *.
    + destruct (IH s1 Hrest) as (segments & Hall & Hreqs).
      exists (segment :: segments). split; [by constructor|].
      rewrite Hreqs, Hreq. simpl. by rewrite app_assoc.
    + exists (segment :: ((fun _ => []) <$> l)). split.
      * constructor; [done|]. clear. induction l; constructor; done.
      * rewrite Hreq. simpl. f_equal.
        replace (concat ((fun _ => []) <$> l)) with (@nil Request);
          [by rewrite app_nil_r|].
        clear. induction l; simpl; done.
Qed.

(** A pass that returns: the scenes between its phases. *)
Lemma returning_pass s s' :
  resync_pass (marked s) = (s', Returned tt) ->
  let c := rasterizer_context.get_context s in
  exists s3,
    requests (_scene (rasterizer_context.get_context s3))
    = (requests (_scene c) ++ (Remove <$> dynamic_nodes c)
       ++ [ResetSceneBounds])%list
    /\ for_each families run_phase s3 = (s', Returned tt).
Proof.
  intros Hrun c. revert Hrun. unfold resync_pass, resync_order.
  change ([ClearDynamic; VisualStates; SceneBounds] ++ families)%list
    with (ClearDynamic :: VisualStates :: SceneBounds :: families).
  rewrite for_each_cons.
  destruct (clear_dynamic_nodes_spec
              (rasterizer_context.get_context (marked s)))
    as (c1 & Hclear & _ & Hreq1 & _).
  cbn [run_phase]. unfold rasterizer_context.self at 1. unfold zoom at 1.
  rewrite Hclear. rewrite for_each_cons.
  set (s1 := rasterizer_context.put_context c1 (marked s)).
  pose proof (visual_states_context s1) as Hvisual.
  destruct (run_phase VisualStates s1) as [s2 [[]|e]]; [|discriminate].
  cbn [fst] in Hvisual. rewrite for_each_cons.
  destruct (scene_bounds_spec s2) as (s3 & Hbounds & Hreq3 & _).
  rewrite Hbounds. intros Hfamilies. exists s3. split; [|exact Hfamilies].
  rewrite Hreq3, Hvisual. unfold s1. rewrite get_put_context, Hreq1.
  by rewrite <- app_assoc.
Qed.

(** C8: a resync pass runs its phases in one fixed order, stopping where one
    raises: it destroys the dynamic nodes of the previous frame and empties
    their list; recomputes the visualization-only state; resets the scene
    bounds and empties the buffer-update map; then runs the updates for link
    frames, tool, rigid, contact arrows, avatar, MPM, SPH, PBD and FEM, each
    of which only adds to that one map, sends further requests that remove
    nothing, and appends the nodes it creates to the dynamic nodes.  So the
    removals of the old dynamic nodes come before every other request of the
    pass, and every dynamic node left at its end was created during it.
    When the pass returns, every family has left its effects behind in the
    one map and among the requests of this pass: an entry for every link
    frame, for every shown geom of the rigid and the avatar solver, and for
    every entity shown as particles or by its vertices; the pose of every
    tool; a dynamic node for every reconstructed surface; and the arrows of
    every visualized contact whose vectors are not zero.  And after the
    removals and the reset of the bounds, the requests of the pass come
    family by family in that order: poses of tools, then mesh updates of
    rigid geoms, then contact arrows, then mesh updates of avatar geoms, then
    the meshes of MPM, SPH and PBD entities. *)
Theorem C8_resync_order (s : Scene.t) (last_t : Z) :
  _t (rasterizer_context.get_context s) = Some last_t ->
  last_t < Scene._t s ->
  let c := rasterizer_context.get_context s in
  let c' := rasterizer_context.get_context (rasterizer_context.update s).1 in
  rasterizer_context.update s =
    for_each [ClearDynamic; VisualStates; SceneBounds; LinkFrames; ToolPhase;
              RigidPhase; ContactArrows; AvatarPhase; MPMPhase; SPHPhase;
              PBDPhase; FEMPhase] run_phase (marked s)
  /\ (exists s1,
        run_phase ClearDynamic (marked s) = (s1, Returned tt)
        /\ dynamic_nodes (rasterizer_context.get_context s1) = []
        /\ requests (_scene (rasterizer_context.get_context s1))
           = (requests (_scene c) ++ (Remove <$> dynamic_nodes c))%list)
  /\ (forall s2,
        rasterizer_context.get_context (run_phase VisualStates s2).1
        = rasterizer_context.get_context s2)
  /\ (forall s2, exists s3,
        run_phase SceneBounds s2 = (s3, Returned tt)
        /\ requests (_scene (rasterizer_context.get_context s3))
           = (requests (_scene (rasterizer_context.get_context s2))
              ++ [ResetSceneBounds])%list
        /\ buffer (rasterizer_context.get_context s3) = ∅)
  /\ (forall p s2, p ∈ families -> grows s2 (run_phase p s2).1)
  /\ (exists rest,
        requests (_scene c')
        = (requests (_scene c) ++ (Remove <$> dynamic_nodes c) ++ rest)%list
        /\ Forall (fun r => is_removal r = false) rest)
  /\ Forall (fun n => (next_node (_scene c) <= n)%nat) (dynamic_nodes c')
  /\ ((rasterizer_context.update s).2 = Returned tt ->
      (forall p, p ∈ families ->
         Forall (left_behind (length (requests (_scene c)))
                   (rasterizer_context.update s).1)
           (family_effects p (rasterizer_context.update s).1))
      /\ exists segments,
           Forall2 (fun p segment =>
                      Forall (fun r => family_request p r = true) segment)
             [LinkFrames; ToolPhase; RigidPhase; ContactArrows; AvatarPhase;
              MPMPhase; SPHPhase; PBDPhase; FEMPhase] segments
           /\ requests (_scene c')
              = (requests (_scene c) ++ (Remove <$> dynamic_nodes c)
                 ++ [ResetSceneBounds] ++ concat segments)%list).
Proof.
  intros Hmark Hlt c c'.
  pose proof (update_stale s last_t Hmark Hlt) as Hupd.
  split; [exact Hupd|]. split.
  { destruct (clear_dynamic_nodes_spec (rasterizer_context.get_context (marked s)))
      as (c1 & Hrun & Hdyn & Hreq & _).
    eexists. split.
    - cbn [run_phase]. unfold rasterizer_context.self, zoom. rewrite Hrun.
      reflexivity.
    - rewrite get_put_context. split; [exact Hdyn | exact Hreq]. }
  split; [apply visual_states_context|]. split.
  { intros s2. destruct (scene_bounds_spec s2) as (s3 & ? & ? & _ & ? & _).
    by exists s3. }
  split; [intros p s2 Hp; by apply family_grows|].
  destruct (resync_pass (marked s)) as [s' r] eqn:Hrun.
  destruct (resync_pass_spec s s' r Hrun) as (_ & _ & Hreq & Hdyn).
  subst c'. rewrite Hupd. cbn [fst snd]. split; [|split; [exact Hdyn|]].
  { destruct Hreq as (rest & ? & ? & _). by exists rest. }
  intros ->. destruct (returning_pass s s' Hrun) as (s3 & Hreq3 & Hfamilies).
  fold c in Hreq3. split.
  - apply Forall_forall. apply (families_leave _ s3); [|exact Hfamilies].
    unfold reached. rewrite Hreq3, length_app. lia.
  - destruct (families_send families s3) as (segments & Hkinds & Hsent);
      [done|].
    rewrite Hfamilies in Hsent. cbn [fst] in Hsent.
    exists segments. split; [exact Hkinds|].
    rewrite Hsent, Hreq3. by rewrite <- !app_assoc.
Qed.

End AccumulationFacts.

Section EntityFacts.
Context `{Collaborators}.
Import Scene.

Lemma validate_vis_mode_run dflt supported expected surface s :
  let mode := default dflt (vis_mode surface) in
  scene.validate_vis_mode dflt supported expected surface s
  = if bool_decide (mode ∈ supported)
    then (s, Returned (scene.set_vis_mode (Some mode) surface))
    else (s, Raised (GenesisException
                       ("Unsupported `surface.vis_mode`. Expected one of: "
                        +:+ expected))).
Proof.
  unfold scene.validate_vis_mode. destruct surface as [[m|] d sm]; simpl;
    destruct (bool_decide _); reflexivity.
Qed.

(** The material, the surface and the morph that [add_entity] hands to the
    simulator when it gets that far. *)
Lemma add_entity_run s morph material surface vc mode_arg :
  _is_built s = false ->
  let mat0 := default gs_materials_Rigid material in
  let surf0 := default gs_surfaces_Default surface in
  let mat :=
    if material_isinstance mat0 Rigid && morph_isinstance morph Primitive
    then {| material_isinstance := material_isinstance mat0;
            _sdf_max_res := 32 |}
    else mat0 in
  let surf1 :=
    if scene.morph_isinstance_any morph [Box; Cylinder; Terrain]
    then scene.set_smooth false surf0 else surf0 in
  let surf2 :=
    match double_sided surf1 with
    | None => scene.set_double_sided
                (Some (material_isinstance mat0 PBD_Cloth)) surf1
    | Some _ => surf1
    end in
  let surf3 :=
    match mode_arg with
    | Some mode => scene.set_vis_mode (Some mode) surf2
    | None => surf2
    end in
  let morph' :=
    if morph_isinstance morph FileMorph then
      match convexify morph with
      | None =>
          {| morph_isinstance := morph_isinstance morph;
             convexify := Some (scene.isinstance_any mat0 [Rigid; Avatar]);
             n_particles := n_particles morph |}
      | Some _ => morph
      end
    else morph in
  let result := scene.add_entity morph material surface vc mode_arg s in
  if incompatible morph mat0 then rejected s result
  else match vis_modes mat0 with
       | None => rejected s result
       | Some (dflt, supported) =>
           let mode := default dflt (vis_mode surf3) in
           if bool_decide (mode ∈ supported)
           then result
                = scene.on_sim
                    (sim__add_entity morph' mat
                       (scene.set_vis_mode (Some mode) surf3) vc) s
           else rejected s result
       end.
Proof.
  intros Hb mat0 surf0 mat surf1 surf2 surf3 morph' result.
  assert (Hmi : material_isinstance mat = material_isinstance mat0).
  { unfold mat. by case (andb _ _). }
  assert (Hany : forall cs, scene.isinstance_any mat cs
                            = scene.isinstance_any mat0 cs).
  { intros cs. unfold scene.isinstance_any. by rewrite Hmi. }
  assert (Hres : result
    = ((if scene.morph_isinstance_any morph [URDF; MJCF; Terrain]
           && negb (scene.isinstance_any mat [Rigid; Avatar; Hybrid])
        then raise_exception "Unsupported material for morph"
        else mret tt) ;;
       surface ←
         (if scene.isinstance_any mat [Rigid; Avatar; Tool] then
            scene.validate_vis_mode "visual" ["visual"; "collision"; "sdf"]
              "['visual', 'collision', 'sdf']" surf3
          else if scene.isinstance_any mat
                    [PBD_Liquid; PBD_Particle; MPM_Liquid; MPM_Sand; MPM_Snow;
                     SPH_Liquid] then
            scene.validate_vis_mode "particle" ["particle"; "recon"]
              "['particle', 'recon']" surf3
          else if material_isinstance mat SF_Smoke then
            scene.validate_vis_mode "particle" ["particle"]
              "['particle', 'recon']" surf3
          else if scene.isinstance_any mat [PBD_Base; MPM_Base; SPH_Base] then
            scene.validate_vis_mode "visual" ["visual"; "particle"; "recon"]
              "['visual', 'particle', 'recon']" surf3
          else if material_isinstance mat FEM_Base then
            scene.validate_vis_mode "visual" ["visual"] "['visual']" surf3
          else if material_isinstance mat Hybrid then
            scene.validate_vis_mode "particle" ["particle"; "visual"]
              "['particle', 'visual']" surf3
          else raise_exception "Something went wrong.");
       scene.on_sim (sim__add_entity
         (if morph_isinstance morph FileMorph then
            match convexify morph with
            | None =>
                {| morph_isinstance := morph_isinstance morph;
                   convexify := Some (scene.isinstance_any mat [Rigid; Avatar]);
                   n_particles := n_particles morph |}
            | Some _ => morph
            end
          else morph) mat surface vc)) s).
  { unfold result, scene.add_entity, scene.assert_unbuilt.
    unfold mbind at 1. unfold M_bind at 1. unfold gets at 1. rewrite Hb.
    unfold surf3, surf2. rewrite <- Hmi. reflexivity. }
  rewrite Hres. clear Hres. rewrite !Hany, !Hmi. fold morph'.
  unfold incompatible, vis_modes.
  unfold mbind at 1. unfold M_bind at 1.
  case (andb _ _); [by eexists|]. cbn [mret M_ret].
  unfold mbind, M_bind. unfold rejected, mret, M_ret. cbv beta iota.
  repeat (match goal with
          | |- context [if ?b then _ else _] =>
              lazymatch b with
              | scene.isinstance_any mat0 _ => case b
              | material_isinstance mat0 _ => case b
              end; cbv beta iota
          end);
    try (by eexists);
    rewrite validate_vis_mode_run; cbv zeta;
    case (bool_decide _); try done; by eexists.
Qed.


Lemma requested_vis_mode morph material surface mode_arg :
  let mat0 := default gs_materials_Rigid material in
  let surf0 := default gs_surfaces_Default surface in
  let surf1 :=
    if scene.morph_isinstance_any morph [Box; Cylinder; Terrain]
    then scene.set_smooth false surf0 else surf0 in
  let surf2 :=
    match double_sided surf1 with
    | None => scene.set_double_sided
                (Some (material_isinstance mat0 PBD_Cloth)) surf1
    | Some _ => surf1
    end in
  let surf3 :=
    match mode_arg with
    | Some mode => scene.set_vis_mode (Some mode) surf2
    | None => surf2
    end in
  vis_mode surf3
  = match mode_arg with Some m => Some m | None => vis_mode surf0 end
  /\ is_Some (double_sided surf3)
  /\ (double_sided surf0 = None ->
      double_sided surf3 = Some (material_isinstance mat0 PBD_Cloth))
  /\ (scene.morph_isinstance_any morph [Box; Cylinder; Terrain] = true ->
      smooth surf3 = false).
Proof.
  intros mat0 surf0 surf1 surf2 surf3. subst surf3 surf2 surf1.
  destruct surf0 as [vm [d|] sm], mode_arg as [m|];
    case (scene.morph_isinstance_any morph [Box; Cylinder; Terrain]);
    simpl; repeat split; try done; by eexists.
Qed.

Lemma vis_modes_known mat dflt supported m :
  vis_modes mat = Some (dflt, supported) -> m ∈ supported ->
  m ∈ ["visual"; "collision"; "sdf"; "particle"; "recon"].
Proof.
  unfold vis_modes.
  repeat (match goal with
          | |- context [if ?b then _ else _] => case b
          end);
    intros [= <- <-]; rewrite !elem_of_cons, !elem_of_nil; tauto.
Qed.

(** X15: on a scene that is not built, [add_entity] decides by the first
    group of classes the material belongs to, the Rigid material when none
    is given.  It leaves the scene as it was and raises when the morph is a
    URDF, MJCF or terrain and the material is none of rigid, avatar and
    hybrid, or when the material belongs to no group.  Otherwise the mode
    asked for is the [vis_mode] argument, else the surface's own, else the
    group's default; [add_entity] raises, again without a change, when that
    mode is not among the group's supported ones, and hands the simulator a
    surface with that mode when it is. *)
Theorem X15_add_entity_vis_mode (s : Scene.t) (morph : Morph)
  (material : option Material) (surface : option Surface)
  (visualize_contact : bool) (mode_arg : option string) :
  _is_built s = false ->
  let mat := default gs_materials_Rigid material in
  let requested :=
    match mode_arg with
    | Some m => Some m
    | None => vis_mode (default gs_surfaces_Default surface)
    end in
  let result :=
    scene.add_entity morph material surface visualize_contact mode_arg s in
  (incompatible morph mat = true -> rejected s result)
  /\ (vis_modes mat = None -> rejected s result)
  /\ (forall dflt supported,
        incompatible morph mat = false ->
        vis_modes mat = Some (dflt, supported) ->
        let mode := default dflt requested in
        (mode ∉ supported -> rejected s result)
        /\ (mode ∈ supported ->
            exists morph' material' surface',
              result = scene.on_sim
                         (sim__add_entity morph' material' surface'
                            visualize_contact) s
              /\ vis_mode surface' = Some mode)).
Proof.
  intros Hb mat requested result.
  pose proof (add_entity_run s morph material surface visualize_contact
                mode_arg Hb) as Hrun.
  destruct (requested_vis_mode morph material surface mode_arg)
    as (Hreq & _).
  cbv zeta in Hrun, Hreq. rewrite Hreq in Hrun.
  fold mat result requested in Hrun.
  split; [by intros Hi; rewrite Hi in Hrun|].
  split.
  { intros Hnone. rewrite Hnone in Hrun.
    by destruct (incompatible morph mat). }
  intros dflt supported Hcomp Htable mode.
  rewrite Hcomp, Htable in Hrun. fold mode in Hrun. split.
  - intros Hno. by rewrite bool_decide_eq_false_2 in Hrun.
  - intros Hyes. rewrite bool_decide_eq_true_2 in Hrun by done.
    by eexists _, _, _.
Qed.

(** X16: on a scene that is not built, [add_entity] either raises a Genesis
    exception and leaves the scene as it was, or calls the simulator with a
    morph, a material and a surface put in order: the surface has one of
    the five known visualization modes and a definite sidedness, two-sided
    by default for PBD cloth only; its normals are not smoothed for a box,
    a cylinder or a terrain; a morph loaded from a file has [convexify]
    decided; a rigid primitive gets the SDF resolution 32; and the classes of
    the morph and of the material are those it was given. *)
Theorem X16_add_entity_normalises (s : Scene.t) (morph : Morph)
  (material : option Material) (surface : option Surface)
  (visualize_contact : bool) (mode_arg : option string) :
  _is_built s = false ->
  let mat := default gs_materials_Rigid material in
  let result :=
    scene.add_entity morph material surface visualize_contact mode_arg s in
  rejected s result
  \/ exists morph' material' surface',
       result = scene.on_sim
                  (sim__add_entity morph' material' surface'
                     visualize_contact) s
       /\ (exists m, vis_mode surface' = Some m
             /\ m ∈ ["visual"; "collision"; "sdf"; "particle"; "recon"])
       /\ is_Some (double_sided surface')
       /\ (double_sided (default gs_surfaces_Default surface) = None ->
           double_sided surface' = Some (material_isinstance mat PBD_Cloth))
       /\ (scene.morph_isinstance_any morph [Box; Cylinder; Terrain] = true ->
           smooth surface' = false)
       /\ (morph_isinstance morph FileMorph = true ->
           is_Some (convexify morph'))
       /\ (material_isinstance mat Rigid = true ->
           morph_isinstance morph Primitive = true ->
           _sdf_max_res material' = 32)
       /\ material_isinstance material' = material_isinstance mat
       /\ morph_isinstance morph' = morph_isinstance morph
       /\ n_particles morph' = n_particles morph.
Proof.
  intros Hb mat result.
  pose proof (add_entity_run s morph material surface visualize_contact
                mode_arg Hb) as Hrun.
  destruct (requested_vis_mode morph material surface mode_arg)
    as (_ & Hsided & Hcloth & Hsmooth).
  cbv zeta in Hrun, Hsided, Hcloth, Hsmooth. fold mat result in Hrun.
  fold mat in Hsided, Hcloth, Hsmooth.
  destruct (incompatible morph mat); [by left|].
  destruct (vis_modes mat) as [[dflt supported]|] eqn:Htable; [|by left].
  destruct (bool_decide _) eqn:Hmode in Hrun; [|by left].
  apply bool_decide_eq_true in Hmode.
  right. eexists _, _, _. split; [exact Hrun|].
  split.
  { eexists. split; [reflexivity|]. by apply (vis_modes_known mat dflt supported). }
  split; [exact Hsided|]. split; [exact Hcloth|]. split; [exact Hsmooth|].
  split.
  { intros ->. destruct (convexify morph) eqn:Hc; simpl; by eexists. }
  split.
  { intros -> ->. reflexivity. }
  split; [by case (andb _ _)|].
  split; case (morph_isinstance morph FileMorph); try done;
    by destruct (convexify morph).
Qed.


Lemma add_entity_outcome s morph material surface vc mode_arg :
  _is_built s = false ->
  let result := scene.add_entity morph material surface vc mode_arg s in
  rejected s result
  \/ exists morph' material' surface',
       result = scene.on_sim (sim__add_entity morph' material' surface' vc) s.
Proof.
  intros Hb result.
  pose proof (add_entity_run s morph material surface vc mode_arg Hb) as Hrun.
  cbv zeta in Hrun. fold result in Hrun.
  destruct (incompatible _ _); [by left|].
  destruct (vis_modes _) as [[dflt supported]|]; [|by left].
  destruct (bool_decide _); [|by left].
  right. by eexists _, _, _.
Qed.

Lemma add_entity_emitters s morph material surface vc mode_arg :
  _is_built s = false ->
  _emitters (scene.add_entity morph material surface vc mode_arg s).1
  = _emitters s.
Proof.
  intros Hb.
  destruct (add_entity_outcome s morph material surface vc mode_arg Hb)
    as [[msg ->] | (m & ma & su & ->)]; [done|].
  unfold scene.on_sim, zoom. by destruct (sim__add_entity _ _ _ _ _).
Qed.

(** X17: on a scene that is neither built nor differentiable, [add_emitter]
    raises and leaves the scene as it was when the material is none of
    MPM, SPH, PBD particle and PBD liquid.  Otherwise it adds an entity with
    a [Nowhere] morph of [max_particles] particles; when that fails the
    failure is passed on and no emitter is registered; when it returns, one
    emitter holding that entity, with its cursor at 0, is appended to the
    emitters, the earlier ones staying in place, and returned. *)
Theorem X17_add_emitter (s : Scene.t) (material : Material)
  (max_particles : Z) (surface : option Surface) :
  _is_built s = false ->
  requires_grad (_sim s) = false ->
  let result := scene.add_emitter material max_particles surface s in
  let entity_added :=
    scene.add_entity (gs_morphs_Nowhere max_particles) (Some material)
      (Some (default gs_surfaces_Default surface)) false None s in
  (scene.isinstance_any material [MPM_Base; SPH_Base; PBD_Particle; PBD_Liquid]
   = false -> rejected s result)
  /\ (scene.isinstance_any material
        [MPM_Base; SPH_Base; PBD_Particle; PBD_Liquid] = true ->
      (forall s1 e,
         entity_added = (s1, Raised e) ->
         result = (s1, Raised e) /\ _emitters s1 = _emitters s)
      /\ (forall s1 entity,
            entity_added = (s1, Returned entity) ->
            let new_emitter :=
              {| Emitter.max_particles := max_particles;
                 Emitter._entity := Some entity;
                 Emitter._next_particle := 0 |} in
            result = (set_emitters (_emitters s ++ [new_emitter]) s1,
                      Returned new_emitter))).
Proof.
  intros Hb Hg result entity_added.
  assert (Hres : result
    = (if negb (scene.isinstance_any material
                  [MPM_Base; SPH_Base; PBD_Particle; PBD_Liquid])
       then (s, Raised (GenesisException "Non-supported material for emitter."))
       else match entity_added with
            | (s1, Returned entity) =>
                let new_emitter :=
                  emitter.set_entity entity (emitter.Emitter max_particles) in
                (set_emitters (_emitters s1 ++ [new_emitter]) s1,
                 Returned new_emitter)
            | (s1, Raised e) => (s1, Raised e)
            end)).
  { unfold result, scene.add_emitter, scene.assert_unbuilt.
    unfold mbind at 1. unfold M_bind at 1. unfold gets at 1. rewrite Hb.
    unfold mbind at 1. unfold M_bind at 1. unfold gets at 1. rewrite Hg.
    case (negb _); [done|]. cbv zeta. unfold mbind at 1. unfold M_bind at 1.
    fold entity_added. by destruct entity_added as [s1 [entity|e]]. }
  pose proof (add_entity_emitters s (gs_morphs_Nowhere max_particles)
                (Some material) (Some (default gs_surfaces_Default surface))
                false None Hb) as Hem.
  fold entity_added in Hem.
  rewrite Hres. split.
  - intros ->. by eexists.
  - intros ->. cbn [negb]. split.
    + intros s1 e Heq. rewrite Heq in Hem |- *. done.
    + intros s1 entity Heq. rewrite Heq in Hem |- *. cbn [fst] in Hem.
      by rewrite Hem.
Qed.

End EntityFacts.

Section BuildFacts.
Context `{Collaborators}.
Import Scene.

(** The attributes a reset puts back, whatever it did to the simulator. *)
Lemma reset_tail_run s :
  (modify (set_t 0) ;;
   modify (set_forward_ready true) ;;
   scene._reset_grad ;;
   scene.on_visualizer visualizer.reset ;;
   modify (fun self => set_emitters (emitter.reset <$> _emitters self) self)) s
  = (set_emitters (emitter.reset <$> _emitters s)
       (rasterizer_context.put_context
          (RasterizerContext.set_t (Some (-1))
             (rasterizer_context.get_context s))
          (set_backward_ready true (set_forward_ready true (set_t 0 s)))),
     Returned tt).
Proof. reflexivity. Qed.

Lemma reset_unbuilt_run s sim' st :
  _is_built s = false ->
  sim_get_state (_sim s) = (sim', Returned st) ->
  scene._reset None SelNone s
  = (set_emitters (emitter.reset <$> _emitters s)
       (rasterizer_context.put_context
          (RasterizerContext.set_t (Some (-1))
             (rasterizer_context.get_context s))
          (set_backward_ready true
             (set_forward_ready true
                (set_t 0 (set_init_state (Some st) (set_sim sim' s)))))),
     Returned tt).
Proof.
  intros Hb Hget. unfold scene._reset.
  unfold mbind at 1. unfold M_bind at 1. unfold gets at 1. rewrite Hb.
  unfold mbind at 1. unfold M_bind at 1.
  unfold mbind at 1. unfold M_bind at 1.
  unfold scene._get_state, scene.on_sim, zoom. rewrite Hget.
  cbn [modify]. rewrite reset_tail_run. reflexivity.
Qed.

Lemma reset_built_run s sim' st envs_idx :
  _is_built s = true ->
  _init_state s = Some st ->
  sim_reset st envs_idx (_sim s) = (sim', Returned tt) ->
  scene._reset None envs_idx s
  = (set_emitters (emitter.reset <$> _emitters s)
       (rasterizer_context.put_context
          (RasterizerContext.set_t (Some (-1))
             (rasterizer_context.get_context s))
          (set_backward_ready true
             (set_forward_ready true (set_t 0 (set_sim sim' s))))),
     Returned tt).
Proof.
  intros Hb Hinit Hreset. unfold scene._reset.
  unfold mbind at 1. unfold M_bind at 1. unfold gets at 1. rewrite Hb.
  unfold mbind at 1. unfold M_bind at 1.
  unfold mbind at 1. unfold M_bind at 1. unfold getattr. rewrite Hinit.
  unfold scene.on_sim, zoom. rewrite Hreset.
  rewrite reset_tail_run. reflexivity.
Qed.

(** What [_parallelize] leaves of the scene when the spacing is a pair. *)
Lemma parallelize_run s n_envs env_spacing row center sx sy :
  scene.spacing_pair env_spacing = Some (sx, sy) ->
  exists s1,
    scene._parallelize n_envs env_spacing row center s = (s1, Returned tt)
    /\ parallelized n_envs s1
    /\ n_envs_per_row s1 = Some (default (Z.sqrt_up (Z.max 1 n_envs)) row)
    /\ _is_built s1 = _is_built s
    /\ _sim s1 = _sim s
    /\ _visualizer s1 = _visualizer s
    /\ _emitters s1 = _emitters s
    /\ show_FPS s1 = show_FPS s.
Proof.
  intros Hsp. unfold scene._parallelize. rewrite Hsp.
  destruct center; eexists; (split; [reflexivity|]); simpl; by repeat split.
Qed.


(** X18: on a scene not yet built, with a spacing pair and a simulator
    whose calls return, [build] lays the batch out, builds the simulator,
    registers the state the simulator then reports as the initial state and
    marks the scene built; with [compile_kernels] it steps the simulator
    once and resets it to that registered state.  When it hands over to the
    visualizer the step counter is 0 all the same, both ready flags are
    set, every emitter's cursor is at 0 and the render mirror's marker is
    at -1, so that the first update resyncs. *)
Theorem X18_build (s : Scene.t) (n_envs : Z) (env_spacing : EnvSpacing)
  (row : option Z) (center compile_kernels : bool) (sx sy : Float)
  (sim1 sim2 sim3 : Simulator) (st : SimState) :
  _is_built s = false ->
  scene.spacing_pair env_spacing = Some (sx, sy) ->
  sim_build (_sim s) = (sim1, Returned tt) ->
  sim_get_state sim1 = (sim2, Returned st) ->
  (if compile_kernels
   then exists stepped,
          sim_step sim2 = (stepped, Returned tt)
          /\ sim_reset st SelNone stepped = (sim3, Returned tt)
   else sim3 = sim2) ->
  exists s4,
    scene.build n_envs env_spacing row center compile_kernels s
    = (visualizer_build ;;
       show ← gets show_FPS;
       when show (modify (set_FPS_tracker (Some 0%nat)))) s4
    /\ _is_built s4 = true
    /\ _t s4 = 0
    /\ _forward_ready s4 = true
    /\ _backward_ready s4 = true
    /\ _init_state s4 = Some st
    /\ _sim s4 = sim3
    /\ parallelized n_envs s4
    /\ RasterizerContext._t (rasterizer_context.get_context s4) = Some (-1)
    /\ Forall (fun e => Emitter._next_particle e = 0) (_emitters s4).
Proof.
  intros Hb Hsp Hbuild Hget Hcompile.
  destruct (parallelize_run s n_envs env_spacing row center sx sy Hsp)
    as (s1 & Hpar & Hbatch & _ & Hb1 & Hsim1 & _ & _ & _).
  unfold scene.build, scene.assert_unbuilt.
  unfold mbind at 1. unfold M_bind at 1. unfold gets at 1. rewrite Hb.
  unfold mbind at 1. unfold M_bind at 1. rewrite Hpar.
  unfold mbind at 1. unfold M_bind at 1.
  unfold scene.on_sim at 1. unfold zoom at 1. rewrite Hsim1, Hbuild.
  unfold mbind at 1. unfold M_bind at 1.
  rewrite (reset_unbuilt_run (set_sim sim1 s1) sim2 st)
    by (simpl; congruence).
  set (s2 := set_emitters _ _).
  unfold mbind at 1. unfold M_bind at 1. cbn [modify].
  set (s3 := set_is_built true s2).
  unfold mbind at 1. unfold M_bind at 1.
  assert (Hwarm : exists s4,
    when compile_kernels
      (scene.on_sim sim_step ;; scene._reset None SelNone) s3
    = (s4, Returned tt)
    /\ _is_built s4 = true /\ _t s4 = 0 /\ _forward_ready s4 = true
    /\ _backward_ready s4 = true /\ _init_state s4 = Some st
    /\ _sim s4 = sim3 /\ parallelized n_envs s4
    /\ RasterizerContext._t (rasterizer_context.get_context s4) = Some (-1)
    /\ Forall (fun e => Emitter._next_particle e = 0) (_emitters s4)).
  { destruct Hbatch as (Hn & HB & Hidx).
    destruct compile_kernels; cbn [when].
    - destruct Hcompile as (stepped & Hstep & Hreset).
      eexists. split.
      { unfold mbind at 1. unfold M_bind at 1.
        unfold scene.on_sim at 1. unfold zoom at 1.
        change (_sim s3) with sim2. rewrite Hstep.
        by rewrite (reset_built_run (set_sim stepped s3) sim3 st SelNone). }
      simpl. repeat split; try done.
      rewrite <- !list_fmap_compose. apply Forall_fmap, Forall_true. done.
    - subst sim3. exists s3. split; [done|].
      simpl. repeat split; try done.
      apply Forall_fmap, Forall_true. done. }
  destruct Hwarm as (s4 & Hrun & Hfacts).
  exists s4. rewrite Hrun. by split.
Qed.

(** X19: where a failing [build] leaves the scene.  A spacing that is no
    pair, or a simulator that fails to build, makes [build] raise with the
    scene still unbuilt, the batch size already assigned; but when the
    simulator step taken for [compile_kernels] raises, the scene is already
    marked built, at step 0 with the initial state registered, although the
    visualizer was never built. *)
Theorem X19_build_failures (s : Scene.t) (n_envs : Z)
  (env_spacing : EnvSpacing) (row : option Z) (center : bool) :
  _is_built s = false ->
  (forall compile_kernels,
     scene.spacing_pair env_spacing = None ->
     exists s',
       scene.build n_envs env_spacing row center compile_kernels s
       = (s', Raised (GenesisException
                        "`env_spacing` should be a tuple of length 2."))
       /\ _is_built s' = false
       /\ Scene.n_envs s' = Some n_envs
       /\ _B s' = Some (Z.max 1 n_envs)
       /\ _sim s' = _sim s)
  /\ (forall compile_kernels sx sy sim1 e,
        scene.spacing_pair env_spacing = Some (sx, sy) ->
        sim_build (_sim s) = (sim1, Raised e) ->
        exists s',
          scene.build n_envs env_spacing row center compile_kernels s
          = (s', Raised e)
          /\ _is_built s' = false
          /\ parallelized n_envs s'
          /\ _sim s' = sim1)
  /\ (forall sx sy sim1 sim2 st stepped e,
        scene.spacing_pair env_spacing = Some (sx, sy) ->
        sim_build (_sim s) = (sim1, Returned tt) ->
        sim_get_state sim1 = (sim2, Returned st) ->
        sim_step sim2 = (stepped, Raised e) ->
        exists s',
          scene.build n_envs env_spacing row center true s = (s', Raised e)
          /\ _is_built s' = true
          /\ _t s' = 0
          /\ _init_state s' = Some st
          /\ _sim s' = stepped).
Proof.
  intros Hb. split; [|split].
  - intros ck Hsp. unfold scene.build, scene.assert_unbuilt.
    unfold mbind at 1. unfold M_bind at 1. unfold gets at 1. rewrite Hb.
    unfold mbind at 1. unfold M_bind at 1.
    unfold scene._parallelize. rewrite Hsp.
    eexists. split; [reflexivity|]. simpl. done.
  - intros ck sx sy sim1 e Hsp Hbuild.
    destruct (parallelize_run s n_envs env_spacing row center sx sy Hsp)
      as (s1 & Hpar & Hbatch & _ & Hb1 & Hsim1 & _ & _ & _).
    unfold scene.build, scene.assert_unbuilt.
    unfold mbind at 1. unfold M_bind at 1. unfold gets at 1. rewrite Hb.
    unfold mbind at 1. unfold M_bind at 1. rewrite Hpar.
    unfold mbind at 1. unfold M_bind at 1.
    unfold scene.on_sim at 1. unfold zoom at 1. rewrite Hsim1, Hbuild.
    eexists. split; [reflexivity|]. simpl. split; [congruence|].
    split; [exact Hbatch | done].
  - intros sx sy sim1 sim2 st stepped e Hsp Hbuild Hget Hstep.
    destruct (parallelize_run s n_envs env_spacing row center sx sy Hsp)
      as (s1 & Hpar & Hbatch & _ & Hb1 & Hsim1 & _ & _ & _).
    unfold scene.build, scene.assert_unbuilt.
    unfold mbind at 1. unfold M_bind at 1. unfold gets at 1. rewrite Hb.
    unfold mbind at 1. unfold M_bind at 1. rewrite Hpar.
    unfold mbind at 1. unfold M_bind at 1.
    unfold scene.on_sim at 1. unfold zoom at 1. rewrite Hsim1, Hbuild.
    unfold mbind at 1. unfold M_bind at 1.
    rewrite (reset_unbuilt_run (set_sim sim1 s1) sim2 st)
    by (simpl; congruence).
    unfold mbind at 1. unfold M_bind at 1. cbn [modify].
    unfold mbind at 1. unfold M_bind at 1. cbn [when].
    unfold mbind at 1. unfold M_bind at 1.
    unfold scene.on_sim at 1. unfold zoom at 1.
    match goal with
    | |- context [sim_step (_sim ?x)] => change (_sim x) with sim2
    end.
    rewrite Hstep. eexists. split; [reflexivity|]. simpl. done.
Qed.

End BuildFacts.

Section ProgressFacts.
Context `{Collaborators}.
Import Scene.

#[local] Instance same_registration_refl : Reflexive same_registration.
Proof. intros s. by repeat split. Qed.

#[local] Instance same_registration_trans : Transitive same_registration.
Proof.
  intros s1 s2 s3 (? & ? & ?) (? & ? & ?).
  repeat split; unfold same_life_cycle in *; congruence.
Qed.

#[local] Instance keeps_clock_refl : Reflexive keeps_clock.
Proof. intros s. split; reflexivity. Qed.

#[local] Instance keeps_clock_trans : Transitive keeps_clock.
Proof.
  intros s1 s2 s3 [? ?] [? ?]. split; [congruence | by etransitivity].
Qed.

#[local] Instance keeps_mirror_refl : Reflexive keeps_mirror.
Proof. intros s. split; reflexivity. Qed.

#[local] Instance keeps_mirror_trans : Transitive keeps_mirror.
Proof.
  intros s1 s2 s3 [? ?] [? ?]. split; [congruence | by etransitivity].
Qed.

Lemma self_keeps_clock {A} (m : M RasterizerContext.t A) :
  preserves keeps_clock (rasterizer_context.self m).
Proof.
  apply preserves_zoom. intros c s. by repeat split.
Qed.

Lemma on_sim_keeps_clock {A} (m : M Simulator A) :
  preserves keeps_clock (zoom _sim set_sim m).
Proof. apply preserves_zoom. intros sim s. by repeat split. Qed.

Lemma on_sim_keeps_mirror {A} (m : M Simulator A) :
  preserves keeps_mirror (scene.on_sim m).
Proof. apply preserves_zoom. intros sim s. by repeat split. Qed.

Ltac clock_step :=
  first
    [ apply self_keeps_clock
    | apply on_sim_keeps_clock
    | preserves_step ].

Lemma update_keeps_clock : preserves keeps_clock rasterizer_context.update.
Proof.
  unfold rasterizer_context.update.
  unfold rasterizer_context.update_link_frame, rasterizer_context.update_tool,
    rasterizer_context.update_rigid, rasterizer_context.update_contact,
    rasterizer_context.update_avatar, rasterizer_context.update_mpm,
    rasterizer_context.update_sph, rasterizer_context.update_pbd,
    rasterizer_context.update_fem, rasterizer_context.update_vertices,
    rasterizer_context.draw_contact_arrow,
    rasterizer_context.draw_debug_arrow, rasterizer_context.list_getitem,
    rasterizer_context.next_uid, rasterizer_context.buffer_updates_set.
  repeat clock_step.
Qed.

Lemma step_tail_keeps_clock u r :
  preserves keeps_clock
    (when u (visualizer.update r) ;;
     show ← gets show_FPS;
     when show scene.FPS_tracker_step).
Proof.
  unfold visualizer.update, scene.FPS_tracker_step.
  repeat first
    [ apply update_keeps_clock
    | apply preserves_modify; intros ?; by repeat split
    | clock_step ].
Qed.

(** X20: on a built scene that is ready for forward simulation, the step
    counter counts the simulator steps that returned.  When the simulator's
    step raises, [step] raises the same and the counter stays; when it
    returns, the counter is one higher however the refresh of the
    visualizer ends, and the ready flags, the registered initial state and
    the emitters are as before; with no refresh asked for and no FPS
    tracking, [step] changes the simulator and the counter and nothing
    else. *)
Theorem X20_step_counts (s : Scene.t) (update_visualizer refresh : bool) :
  _is_built s = true ->
  _forward_ready s = true ->
  let result := scene.step update_visualizer refresh s in
  (forall sim1 e,
     sim_step (_sim s) = (sim1, Raised e) ->
     result = (set_sim sim1 s, Raised e))
  /\ (forall sim1,
        sim_step (_sim s) = (sim1, Returned tt) ->
        _t result.1 = _t s + 1
        /\ same_registration s result.1
        /\ (update_visualizer = false -> show_FPS s = false ->
            result = (set_t (_t s + 1) (set_sim sim1 s), Returned tt))).
Proof.
  intros Hb Hf result.
  assert (Hres : result
    = match sim_step (_sim s) with
      | (sim1, Returned _) =>
          (when update_visualizer (visualizer.update refresh) ;;
           show ← gets show_FPS;
           when show scene.FPS_tracker_step)
            (set_t (_t s + 1) (set_sim sim1 s))
      | (sim1, Raised e) => (set_sim sim1 s, Raised e)
      end).
  { unfold result, scene.step, scene.assert_built.
    unfold mbind at 1. unfold M_bind at 1. unfold gets at 1. rewrite Hb.
    unfold mbind at 1. unfold M_bind at 1. unfold gets at 1. rewrite Hf.
    cbn [negb]. unfold mbind at 1. unfold M_bind at 1.
    unfold scene.on_sim at 1. unfold zoom at 1.
    by destruct (sim_step (_sim s)) as [sim1 [[]|e]]. }
  rewrite Hres. split.
  - by intros sim1 e ->.
  - intros sim1 ->.
    pose proof (step_tail_keeps_clock update_visualizer refresh
                  (set_t (_t s + 1) (set_sim sim1 s))) as [Ht Hreg].
    split; [exact Ht|]. split.
    { destruct Hreg as (Hl & Hi & He). by repeat split. }
    intros -> Hshow. cbn [when].
    unfold mbind, M_bind, gets. cbn [mret M_ret].
    change (show_FPS (set_t (_t s + 1) (set_sim sim1 s))) with (show_FPS s).
    by rewrite Hshow.
Qed.

Lemma step_grad_raised s s' e :
  scene._step_grad s = (s', Raised e) ->
  _t s' = _t s /\ same_life_cycle s s'.
Proof.
  unfold scene._step_grad, scene.on_sim, zoom, modify, mbind, M_bind.
  destruct (sim_collect_output_grads (_sim s)) as [sim1 [[]|?]];
    [|by intros [= <- <-]].
  simpl. destruct (sim__step_grad sim1) as [sim2 [[]|?]];
    [discriminate | by intros [= <- <-]].
Qed.

Lemma step_grad_times_raised n s s' e :
  api.step_grad_times n s = (s', Raised e) ->
  _t s - Z.of_nat n < _t s' <= _t s /\ same_life_cycle s s'.
Proof.
  revert s. induction n as [|n IH]; intros s; [discriminate|].
  cbn [api.step_grad_times]. unfold mbind, M_bind.
  destruct (scene._step_grad s) as [s1 [[]|e1]] eqn:Hs.
  - intros Hn. apply IH in Hn as [Ht Hl].
    pose proof (step_grad_t _ _ _ Hs).
    pose proof (step_grad_life_cycle s) as Hl1. rewrite Hs in Hl1.
    split; [lia|]. unfold same_life_cycle in *. simpl in Hl1. congruence.
  - intros [= <- <-]. apply step_grad_raised in Hs as [Ht Hl].
    split; [lia | done].
Qed.

(** X21: a backward pass that fails can be taken up again.  When a gradient
    step raises, [_backward] raises the same and clears neither flag; the
    step counter stands above 0, at the step whose gradient failed; and a
    further [_backward] runs the steps that are left and then clears both
    flags. *)
Theorem X21_backward_failure (s s' : Scene.t) (e : exn) :
  _backward_ready s = true ->
  api.step_grad_times (Z.to_nat (_t s)) s = (s', Raised e) ->
  scene._backward s = (s', Raised e)
  /\ _backward_ready s' = true
  /\ _forward_ready s' = _forward_ready s
  /\ 0 < _t s' <= _t s
  /\ forall s'',
       api.step_grad_times (Z.to_nat (_t s')) s' = (s'', Returned tt) ->
       scene._backward s'
       = (set_forward_ready false (set_backward_ready false s''),
          Returned tt).
Proof.
  intros Hready Hrun.
  assert (Hback : forall s0 : Scene.t, _backward_ready s0 = true ->
    scene._backward s0
    = match api.step_grad_times (Z.to_nat (_t s0)) s0 with
      | (s1, Returned _) =>
          (set_forward_ready false (set_backward_ready false s1), Returned tt)
      | (s1, Raised e1) => (s1, Raised e1)
      end).
  { intros s0 Hr0. unfold scene._backward.
    unfold mbind at 1. unfold M_bind at 1. unfold gets at 1. rewrite Hr0.
    cbn [negb]. unfold mbind at 1. unfold M_bind at 1.
    rewrite backward_through_time_unroll.
    by destruct (api.step_grad_times _ s0) as [s1 [[]|e1]]. }
  destruct (step_grad_times_raised _ _ _ _ Hrun) as [Ht Hl].
  assert (Hpos : 0 < _t s).
  { destruct (Z.to_nat (_t s)) as [|n] eqn:Hn; [discriminate|]. lia. }
  assert (Hready' : _backward_ready s' = true).
  { unfold same_life_cycle, life_cycle in Hl. congruence. }
  split; [by rewrite Hback, Hrun|]. split; [exact Hready'|].
  split; [unfold same_life_cycle, life_cycle in Hl; congruence|].
  split; [lia|].
  intros s'' Hrest. by rewrite Hback, Hrest.
Qed.

Lemma load_checkpoint_keeps_mirror path fs :
  preserves keeps_mirror (scene.load_checkpoint path fs).
Proof.
  unfold scene.load_checkpoint.
  repeat first [apply on_sim_keeps_mirror | preserves_step];
    apply preserves_modify; intros s; by repeat split.
Qed.

(** X22: [load_checkpoint] on a path that holds no file raises [OSError],
    and on a file without the entry ["arrays"] raises [KeyError], the scene
    staying as it was either way.  On a file with arrays it returns; the
    step counter becomes the stored step index, or stays when the file has
    none; the ready flags, the registered initial state, the emitters and
    the visualizer are not touched.  So the render mirror is not told: when
    the restored step counter is not beyond the mirror's marker, the next
    [update] changes nothing. *)
Theorem X22_load_checkpoint_edges (s : Scene.t) (path : string)
  (fs : scene.FileSystem) :
  (scene.files fs !! path = None ->
   scene.load_checkpoint path fs s = (s, Raised OSError))
  /\ (forall record,
        scene.files fs !! path = Some record ->
        scene.arrays record = None ->
        scene.load_checkpoint path fs s = (s, Raised KeyError))
  /\ (forall record stored,
        scene.files fs !! path = Some record ->
        scene.arrays record = Some stored ->
        exists s',
          scene.load_checkpoint path fs s = (s', Returned tt)
          /\ _t s' = default (_t s) (scene.step_index record)
          /\ keeps_mirror s s'
          /\ forall marker,
               RasterizerContext._t (rasterizer_context.get_context s)
               = Some marker ->
               _t s' <= marker ->
               rasterizer_context.update s' = (s', Returned tt)).
Proof.
  split; [|split].
  - intros Hnone. unfold scene.load_checkpoint. by rewrite Hnone.
  - intros record Hfile Hnone. unfold scene.load_checkpoint.
    by rewrite Hfile, Hnone.
  - intros record stored Hfile Harrays.
    destruct (load_checkpoint_spec path fs record stored s Hfile Harrays)
      as (s' & Hrun & Ht & _).
    pose proof (load_checkpoint_keeps_mirror path fs s) as Hkeep.
    rewrite Hrun in Hkeep. cbn [fst] in Hkeep.
    exists s'. split; [exact Hrun|]. split; [exact Ht|].
    split; [exact Hkeep|].
    intros marker Hmark Hle. apply (update_fresh s' marker); [|done].
    destruct Hkeep as [Hvis _]. unfold rasterizer_context.get_context in *.
    by rewrite Hvis.
Qed.

End ProgressFacts.

Section IntegerSelectorFacts.
Context `{Collaborators}.
Import Scene.

Lemma slice_positions_integer n i :
  0 <= n ->
  slice_positions n (Some i) (Some (i + 1)) 1 = integer_selection n i.
Proof.
  intros Hn. unfold slice_positions, clip_bound, integer_selection.
  destruct (Z.ltb_spec i 0), (Z.ltb_spec (i + 1) 0),
    (Z.leb_spec 0 i), (Z.ltb_spec i n), (Z.leb_spec (- n) i),
    (Z.ltb_spec i (-1)); try lia; cbn [andb];
    match goal with
    | |- context [Z.ltb ?a ?b] => destruct (Z.ltb_spec a b); try lia
    end;
    try reflexivity;
    match goal with
    | |- context [seqZ 0 ((?hi - ?lo + 1 - 1) / 1)] =>
        replace ((hi - lo + 1 - 1) / 1) with 1
          by (rewrite Z.div_1_r; lia)
    end;
    simpl; f_equal; lia.
Qed.

(** An integer selector is the slice from it to its successor. *)
Lemma sanitize_integer_run s n (envs_idx : Selector) (i j : Z) unsafe :
  1 <= n -> parallelized n s ->
  envs_idx = SelInt i /\ j = i + 1
  \/ (exists t, envs_idx = SelNpInt t i /\ j = wrap t (i + 1)) ->
  let picked := slice_positions n (Some i) (Some j) 1 in
  scene._sanitize_envs_idx envs_idx unsafe s
  = (s, Returned
          (IntArray torch_int32
             {| shape := [length picked]; data := picked |})).
Proof.
  intros Hn (Hne & HB & Hidx) Hsel picked.
  rewrite Z.max_r in Hidx by lia.
  unfold scene._sanitize_envs_idx.
  destruct Hsel as [[-> ->] | (t & -> & ->)].
  all: unfold mbind at 1; unfold M_bind at 1; unfold getattr;
    rewrite Hne; destruct (Z.eqb_spec n 0); [lia|];
    unfold mbind, M_bind; rewrite Hidx;
    rewrite getslice_arange by (simpl; lia); reflexivity.
Qed.

Lemma slice_past_the_largest n t :
  1 <= n ->
  slice_positions n (Some (max_value t)) (Some (min_value t)) 1
  = if is_signed t then seqZ (max_value t) (n - 2 * max_value t - 1) else [].
Proof.
  intros Hn. unfold slice_positions, clip_bound.
  assert (Hmax : 0 < max_value t) by (by destruct t).
  assert (Hmin : min_value t = if is_signed t then - max_value t - 1 else 0)
    by (by destruct t).
  destruct (Z.ltb_spec (max_value t) 0); [lia|].
  destruct (is_signed t).
  - rewrite Hmin. destruct (Z.ltb_spec (- max_value t - 1) 0); [|lia].
    destruct (Z.ltb_spec (Z.min (max_value t) n)
                (Z.max (- max_value t - 1 + n) 0)) as [Hlt|Hge].
    + rewrite Z.min_l, Z.max_l in * by lia.
      replace (- max_value t - 1 + n - max_value t + 1 - 1)
        with (n - 2 * max_value t - 1 + 1 - 1) by lia.
      apply strided_by_one. lia.
    + symmetry. apply seqZ_nil. lia.
  - rewrite Hmin. destruct (Z.ltb_spec 0 0); [lia|].
    destruct (Z.ltb_spec (Z.min (max_value t) n) (Z.min 0 n)); [lia|done].
Qed.

(** X23: on a scene laid out for [n >= 1] environments, an integer
    [envs_idx] is never refused, whatever [unsafe]: [_sanitize_envs_idx]
    leaves the scene as it was and returns what the slice from the integer
    to its successor selects.  For a Python int [i] that is environment [i]
    when [0 <= i < n], environment [n + i] when [-n <= i < -1], and no
    environment when [i = -1], [i >= n] or [i < -n].  A NumPy integer scalar
    below the largest value of its type selects as the Python int does; the
    largest value of a type has the smallest as its successor, and selects
    no environment when the type is unsigned and the environments from
    itself up to [n - 2 - itself] when it is signed, none when there are at
    most twice itself plus one.  A slice with a step below one raises
    [ValueError]. *)
Theorem X23_sanitize_integer (s : Scene.t) (n i : Z) (unsafe : bool) :
  1 <= n ->
  parallelized n s ->
  let selection (picked : list Z) : ArrayLike :=
    IntArray torch_int32 {| shape := [length picked]; data := picked |} in
  let python_selects :=
    if (0 <=? i) && (i <? n) then [i]
    else if (- n <=? i) && (i <? -1) then [n + i]
    else [] in
  scene._sanitize_envs_idx (SelInt i) unsafe s
  = (s, Returned (selection python_selects))
  /\ (forall t, min_value t <= i < max_value t ->
        scene._sanitize_envs_idx (SelNpInt t i) unsafe s
        = (s, Returned (selection python_selects)))
  /\ (forall t,
        scene._sanitize_envs_idx (SelNpInt t (max_value t)) unsafe s
        = (s, Returned
                (selection
                   (if is_signed t
                    then seqZ (max_value t) (n - 2 * max_value t - 1)
                    else []))))
  /\ forall start stop step,
       step < 1 ->
       exists text,
         scene._sanitize_envs_idx (SelSlice start stop (Some step)) unsafe s
         = (s, Raised (ValueError text)).
Proof.
  intros Hn Hpar selection python_selects.
  assert (Hpython : slice_positions n (Some i) (Some (i + 1)) 1
                    = python_selects)
    by (by apply slice_positions_integer; lia).
  split; [|split; [|split]].
  - rewrite (sanitize_integer_run s n (SelInt i) i (i + 1) unsafe Hn Hpar)
      by (by left).
    cbv zeta. by rewrite Hpython.
  - intros t Hi.
    rewrite (sanitize_integer_run s n (SelNpInt t i) i (wrap t (i + 1)) unsafe
               Hn Hpar) by (right; by exists t).
    cbv zeta. rewrite wrap_representable; [by rewrite Hpython|].
    unfold representable. apply andb_true_iff. rewrite !Z.leb_le. lia.
  - intros t.
    rewrite (sanitize_integer_run s n (SelNpInt t (max_value t)) (max_value t)
               (wrap t (max_value t + 1)) unsafe Hn Hpar)
      by (right; by exists t).
    cbv zeta. by rewrite wrap_past_the_largest, slice_past_the_largest.
  - intros start stop step Hstep.
    destruct Hpar as (Hne & HB & Hidx).
    unfold scene._sanitize_envs_idx.
    unfold mbind at 1. unfold M_bind at 1. unfold getattr.
    rewrite Hne. destruct (Z.eqb_spec n 0); [lia|].
    unfold mbind, M_bind. rewrite Hidx. unfold getslice. cbv zeta. simpl.
    destruct (Z.eqb_spec step 0); [by eexists|].
    destruct (Z.ltb_spec step 1); [by eexists | lia].
Qed.

End IntegerSelectorFacts.

Section GridFacts.
Context `{Collaborators}.
Import Scene.

(** X24: with no row length given, [_parallelize] chooses the side [r] of
    the smallest square that holds the batch, [(r - 1)^2 < B <= r^2] for
    [B = max(1, n_envs)], and stores it whether or not the spacing is then
    accepted.  On that grid every environment has its row and its column
    below [r], and no two environments share a cell.  Batches stay below
    [2^52], where the floating-point square root is exact enough. *)
Theorem X24_default_grid_is_square (s : Scene.t) (n_envs : Z)
  (env_spacing : EnvSpacing) (center : bool) :
  n_envs < 2 ^ 52 ->
  let B := Z.max 1 n_envs in
  let s' := (scene._parallelize n_envs env_spacing None center s).1 in
  exists r,
    n_envs_per_row s' = Some r
    /\ _B s' = Some B
    /\ (r - 1) * (r - 1) < B <= r * r
    /\ (forall i, 0 <= i < B ->
          0 <= i / r < r /\ 0 <= scene.np_mod i r < r)
    /\ (forall i j, 0 <= i < B -> 0 <= j < B ->
          i / r = j / r -> scene.np_mod i r = scene.np_mod j r -> i = j).
Proof.
  intros _ B s'. exists (Z.sqrt_up B).
  assert (HB : 0 < B) by (unfold B; lia).
  pose proof (Z.sqrt_up_spec B HB) as Hspec. cbv zeta in Hspec.
  rewrite <- Z.sub_1_r in Hspec.
  assert (Hr : 0 < Z.sqrt_up B) by (by apply Z.sqrt_up_pos).
  split; [|split].
  - unfold s', scene._parallelize.
    destruct (scene.spacing_pair env_spacing) as [[sx sy]|]; [|reflexivity].
    by destruct center.
  - unfold s', scene._parallelize.
    destruct (scene.spacing_pair env_spacing) as [[sx sy]|]; [|reflexivity].
    by destruct center.
  - split; [exact Hspec|]. unfold scene.np_mod.
    destruct (Z.eqb_spec (Z.sqrt_up B) 0) as [|_]; [lia|]. split.
    + intros i Hi. split.
      * split; [apply Z.div_pos; lia|].
        apply Z.div_lt_upper_bound; [lia|]. nia.
      * apply Z.mod_pos_bound. lia.
    + intros i j Hi Hj Hdiv Hmod.
      rewrite (Z.div_mod i (Z.sqrt_up B)), (Z.div_mod j (Z.sqrt_up B)) by lia.
      by rewrite Hdiv, Hmod.
Qed.

End GridFacts.

Section DemoArithmetic.
Import demo.

Lemma qle_shifted (a b c : Q) :
  Qle_bool (qsub a c) (qsub b c) = Qle_bool a b.
Proof.
  apply eq_true_iff_eq. rewrite !Qle_bool_iff. unfold qsub.
  rewrite !Qred_correct. unfold Qminus. split.
  - intros Hle. by apply Qplus_le_l in Hle.
  - intros Hle. by apply Qplus_le_l.
Qed.

(** The rational numbers of [demo] do not round. *)
Lemma demo_exact_arithmetic : @exact_arithmetic numerics.
Proof.
  split; simpl.
  - intros a b c. unfold qmax. rewrite qle_shifted.
    by destruct (Qle_bool a b).
  - intros a b c. unfold qmin. rewrite qle_shifted.
    by destruct (Qle_bool a b).
  - intros a b. unfold qadd, qsub, qhalf.
    change 0%Q with (Qred 0). apply Qred_complete.
    rewrite !Qred_correct. field.
Qed.

End DemoArithmetic.

Module witnesses.
Import Scene demo examples.


(** C2 on a freshly built scene, whose mirror has not been synchronised. *)
Lemma C2_update_staleness_witness :
  let s := mpm_scene [1; 2; 3] in
  let s' := (rasterizer_context.update s).1 in
  RasterizerContext._t (rasterizer_context.get_context s) = Some (-1)
  /\ rasterizer_context.update s' = (s', Returned tt).
Proof.
  intros s s'.
  assert (Hm : RasterizerContext._t (rasterizer_context.get_context s) = Some (-1))
    by (vm_compute; reflexivity).
  split; [exact Hm|].
  exact (proj2 (proj2 (C2_update_staleness s (-1) Hm))).
Defined.

(** C3 on a built scene, reset to its registered initial state. *)
Lemma C3_reset_witness :
  let s := stepped (built 2) in
  _is_built s = true
  /\ exists s', scene.reset None SelNone s = (s', Returned tt) /\ _t s' = 0.
Proof.
  intros s.
  assert (Hb : _is_built s = true) by (vm_compute; reflexivity).
  split; [exact Hb|].
  assert (Hinit : _init_state s = Some 0%nat) by (vm_compute; reflexivity).
  assert (Hsim : sim_reset 0%nat SelNone (_sim s) = (_sim s, Returned tt))
    by reflexivity.
  destruct (C3_reset s None SelNone 0%nat (_sim s) Hb
              (or_intror (conj eq_refl Hinit)) Hsim)
    as (s' & Hrun & _ & _ & Ht & _).
  exists s'. split; assumption.
Defined.

(** C4 on a scene of two environments. *)
Lemma C4_sanitize_envs_idx_witness :
  let s := built 2 in
  0 <= 2 < 2 ^ 31 /\ parallelized 2 s
  /\ scene._sanitize_envs_idx (SelInt 1) false s
     = (s, Returned (IntArray torch_int32
                       {| shape := [1%nat]; data := [1] |}))
  /\ scene._sanitize_envs_idx (SelSlice (Some 0) (Some 2) None) false s
     = (s, Returned (IntArray torch_int32
                       {| shape := [2%nat]; data := [0; 1] |}))
  /\ scene._sanitize_envs_idx (SelArray (PyInts [1; 0])) false s
     = (s, Returned (IntArray torch_int32
                       {| shape := [2%nat]; data := [1; 0] |}))
  /\ scene._sanitize_envs_idx (SelArray (PyInts [2 ^ 31])) false s
     = (s, Raised RuntimeError)
  /\ scene._sanitize_envs_idx
       (SelArray (IntArray torch_int64
                    {| shape := [1%nat]; data := [2 ^ 32 + 1] |})) false s
     = (s, Returned (IntArray torch_int32
                       {| shape := [1%nat]; data := [1] |})).
Proof.
  intros s.
  assert (Hn : 0 <= 2 < 2 ^ 31) by lia.
  assert (Hp : parallelized 2 s) by (vm_compute; repeat split).
  split; [exact Hn|]. split; [exact Hp|].
  destruct (C4_sanitize_envs_idx s 2 Hn Hp) as (_ & _ & Hbatched).
  destruct (Hbatched ltac:(lia))
    as (_ & _ & Hslice & _ & Hint & _ & Hlist & Hoverflow & _ & _ & Hcast & _).
  split; [apply Hint; lia|].
  split; [apply (Hslice 0 2 false); lia|].
  split.
  { apply Hlist. repeat constructor; lia. }
  split.
  { apply Hoverflow. constructor. lia. }
  apply (Hcast torch_int64 1%nat [2 ^ 32 + 1] [1]).
  constructor; [|constructor]. split; [lia|]. exists 1. lia.
Defined.

(** C4, as stated, fails: with one environment [B == 1], yet a non-empty
    selector is accepted; with [unsafe=True] an index outside [0, B) is
    returned unchecked; the integer [B] is accepted as the empty selection,
    not as a selection of one environment; and so is the NumPy scalar
    [int8(127)] on 200 environments, although it lies in [0, B). *)
Lemma C4_counterexample :
  (Scene._B (built 1) = Some 1
   /\ scene._sanitize_envs_idx (SelArray (PyInts [0])) false (built 1)
      = (built 1, Returned (IntArray torch_int32
                              {| shape := [1%nat]; data := [0] |})))
  /\ (Scene._B (built 2) = Some 2
      /\ scene._sanitize_envs_idx (SelArray (PyInts [7])) true (built 2)
         = (built 2, Returned (PyInts [7])))
  /\ scene._sanitize_envs_idx (SelInt 2) false (built 2)
     = (built 2, Returned (IntArray torch_int32
                             {| shape := [0%nat]; data := [] |}))
  /\ (Scene._B (built 200) = Some 200
      /\ (scene._sanitize_envs_idx (SelNpInt int8 127) false (built 200)).2
         = Returned (IntArray torch_int32
                       {| shape := [0%nat]; data := [] |})).
Proof.
  split; [split; vm_compute; reflexivity|].
  split; [split; vm_compute; reflexivity|].
  split; [vm_compute; reflexivity|].
  split; vm_compute; reflexivity.
Qed.

(** C5 on a scene with an active MPM solver, saved two steps in and loaded
    into a scene of the same configuration with other buffer contents. *)
Lemma C5_checkpoint_round_trip_witness :
  let s := stepped (mpm_scene [1; 2; 3]) in
  let target := mpm_scene [0; 0; 0] in
  owners_distinct s
  /\ same_configuration s target
  /\ exists fs' target',
       scene.save_checkpoint "ckpt.pkl" 0%Q empty_disk s = (s, Returned fs')
       /\ scene.load_checkpoint "ckpt.pkl" fs' target = (target', Returned tt)
       /\ _t target' = 2
       /\ Sim.ti_fields (solver (_sim target') MPMSolver)
          = {[ "particles" := [1; 2; 3] ]}.
Proof.
  intros s target.
  assert (Hown : owners_distinct s).
  { split.
    - apply (bool_decide_unpack _). vm_compute. exact I.
    - vm_compute. repeat constructor. }
  assert (Hconf : same_configuration s target).
  { split; [reflexivity|]. split; [reflexivity|].
    intros k. destruct k; repeat split. }
  split; [exact Hown|]. split; [exact Hconf|].
  destruct (C5_checkpoint_round_trip s target "ckpt.pkl" 0%Q empty_disk
              eq_refl Hown Hconf)
    as (fs' & record & Hsave & _ & _ & _ & _ & _ & _ & _ & target' & Hload
        & Ht & _ & Hsolvers).
  exists fs', target'. split; [exact Hsave|]. split; [exact Hload|].
  split; [exact Ht|].
  apply (Hsolvers MPMSolver). vm_compute. repeat constructor.
Defined.

(** C6 for four environments on a unit grid, centered: the corners of a
    unit square about the origin. *)
Lemma C6_env_offsets_witness :
  (None : option Z) <> Some 0
  /\ exists s',
       scene._parallelize 4 (PyTuple [1%Q; 1%Q]) None true (scene0 false)
       = (s', Returned tt)
       /\ envs_offset s'
          = Some [((-1 # 2)%Q, (-1 # 2)%Q, 0%Q); ((-1 # 2)%Q, (1 # 2)%Q, 0%Q);
                  ((1 # 2)%Q, (-1 # 2)%Q, 0%Q); ((1 # 2)%Q, (1 # 2)%Q, 0%Q)]
       /\ centered [(-1 # 2)%Q; (-1 # 2)%Q; (1 # 2)%Q; (1 # 2)%Q]
       /\ centered [(-1 # 2)%Q; (1 # 2)%Q; (-1 # 2)%Q; (1 # 2)%Q].
Proof.
  assert (Hrow : (None : option Z) <> Some 0) by discriminate.
  split; [exact Hrow|].
  destruct (proj1 (@C6_env_offsets numerics collaborators 4
                     (PyTuple [1%Q; 1%Q]) None true Hrow)
              (scene0 false) 1%Q 1%Q eq_refl)
    as (s' & offsets & Hrun & Hoff & Hlen & Hcell & Hcentered).
  assert (Hvalues : offsets
            = [((-1 # 2)%Q, (-1 # 2)%Q, 0%Q); ((-1 # 2)%Q, (1 # 2)%Q, 0%Q);
               ((1 # 2)%Q, (-1 # 2)%Q, 0%Q); ((1 # 2)%Q, (1 # 2)%Q, 0%Q)]).
  { pose proof (Hcell 0 ltac:(lia)) as H0.
    pose proof (Hcell 1 ltac:(lia)) as H1.
    pose proof (Hcell 2 ltac:(lia)) as H2.
    pose proof (Hcell 3 ltac:(lia)) as H3.
    vm_compute in H0, H1, H2, H3, Hlen.
    destruct offsets as [|o0 [|o1 [|o2 [|o3 [|o4 rest]]]]];
      try discriminate Hlen.
    simpl in H0, H1, H2, H3.
    injection H0 as ->. injection H1 as ->. injection H2 as ->.
    injection H3 as ->. reflexivity. }
  destruct (Hcentered eq_refl demo_exact_arithmetic) as (Hx & Hy & _).
  rewrite Hvalues in Hx, Hy, Hoff.
  exists s'. split; [exact Hrun|]. split; [exact Hoff|].
  split; [exact Hx | exact Hy].
Defined.

(** C7 from the initial tables: two keys seen, then two new ones. *)
Lemma C7_segmentation_ids_witness :
  let options := {| rasterizer_context.opt_segmentation_level := "link";
                    rasterizer_context.opt_render_particle_as := "sphere" |} in
  let keys := [RasterizerContext.KeyIdx 7; RasterizerContext.KeyLink 0 1] in
  NoDup keys /\ (background ∉ keys)
  /\ (query_all keys (rasterizer_context.__init__ options)).2
     = Returned [1; 2].
Proof.
  intros options keys.
  assert (Hnd : NoDup keys).
  { subst keys. apply NoDup_cons. split; [|apply NoDup_singleton].
    rewrite list_elem_of_singleton. discriminate. }
  assert (Hbg : background ∉ keys).
  { subst keys. rewrite !elem_of_cons, elem_of_nil.
    intros [Heq|[Heq|[]]]; discriminate Heq. }
  split; [exact Hnd|]. split; [exact Hbg|].
  destruct (C7_segmentation_ids options [] keys) as (_ & _ & _ & _ & Hinit & _).
  exact (Hinit Hnd Hbg).
Defined.

(** C8 on a scene two steps in, one dynamic node left from the last frame,
    after one more step of the simulator: the old node is removed first,
    and the pass leaves a new dynamic node for the reconstructed surface of
    the MPM entity. *)
Lemma C8_resync_order_witness :
  let s := (scene.step false false (stepped (mpm_scene [1; 2; 3]))).1 in
  let c := rasterizer_context.get_context s in
  let s' := (rasterizer_context.update s).1 in
  let c' := rasterizer_context.get_context s' in
  RasterizerContext._t c = Some 2 /\ 2 < _t s
  /\ RasterizerContext.dynamic_nodes c = [1%nat]
  /\ (exists rest,
        Pyrender.requests (RasterizerContext._scene c')
        = (Pyrender.requests (RasterizerContext._scene c)
           ++ [Pyrender.Remove 1%nat] ++ rest)%list
        /\ Forall (fun r => is_removal r = false) rest)
  /\ left_behind (length (Pyrender.requests (RasterizerContext._scene c))) s'
       (CreatesNode (Q_recon_mesh MPMSolver recon_entity)).
Proof.
  intros s c s' c'.
  assert (Hm : RasterizerContext._t c = Some 2) by (vm_compute; reflexivity).
  assert (Ht : 2 < _t s) by (vm_compute; reflexivity).
  split; [exact Hm|]. split; [exact Ht|].
  split; [vm_compute; reflexivity|].
  destruct (C8_resync_order s 2 Hm Ht)
    as (_ & _ & _ & _ & _ & Hreq & _ & Hreturned).
  split; [exact Hreq|].
  destruct (Hreturned ltac:(vm_compute; reflexivity)) as [Hleft _].
  assert (Hmpm : MPMPhase ∈ families).
  { unfold families. rewrite !elem_of_cons. tauto. }
  assert (Heffects : family_effects MPMPhase s'
                     = [CreatesNode (Q_recon_mesh MPMSolver recon_entity)])
    by (vm_compute; reflexivity).
  pose proof (Hleft MPMPhase Hmpm
              : Forall (left_behind
                          (length (Pyrender.requests
                                     (RasterizerContext._scene c))) s')
                  (family_effects MPMPhase s')) as Hall.
  rewrite Heffects in Hall.
  exact (Forall_inv Hall).
Defined.

(** C9 on a context where the name "probe" is taken. *)
Lemma C9_external_nodes_witness :
  let c := with_external "probe" in
  RasterizerContext.external_nodes c !! "probe" = Some 0%nat
  /\ rasterizer_context.add_external_node (named_mesh "probe") None c
     = (c, Raised (GenesisException
             "A node with the name 'probe' already exists.")).
Proof.
  intros c.
  assert (Hreg : RasterizerContext.external_nodes c !! "probe" = Some 0%nat)
    by (vm_compute; reflexivity).
  split; [exact Hreg|].
  refine (proj1 (C9_external_nodes c (named_mesh "probe") None)
            "probe" 0%nat eq_refl _ Hreg).
  discriminate.
Defined.

(** C10 on a differentiable scene. *)
Lemma C10_add_emitter_differentiable_witness :
  let s := scene0 true in
  let liquid := {| material_isinstance := fun c => bool_decide (c = MPM_Base);
                   _sdf_max_res := 0 |} in
  requires_grad (_sim s) = true
  /\ scene.add_emitter liquid 100 None s
     = (s, Raised (GenesisException
             "Emitter is not supported in differentiable mode.")).
Proof.
  intros s liquid. split; [reflexivity|].
  exact (proj1 (C10_add_emitter_differentiable s liquid 100 None) eq_refl).
Defined.

(** X1 on three ids and two pixels. *)
Lemma X1_seg_colour_round_trip_witness :
  let ids := [0; 258; 16777215] in
  let pixels := [(1, 2, 3); (255, 0, 7)] in
  Forall (fun i => 0 <= i < 2 ^ 24) ids
  /\ rasterizer_context.seg_idxc_rgb_arr_to_idxc_arr
       (rasterizer_context.seg_idxc_to_idxc_rgb <$> ids) = ids
  /\ rasterizer_context.seg_idxc_to_idxc_rgb
       <$> rasterizer_context.seg_idxc_rgb_arr_to_idxc_arr pixels = pixels.
Proof.
  intros ids pixels.
  assert (Hids : Forall (fun i => 0 <= i < 2 ^ 24) ids)
    by (repeat constructor; lia).
  assert (Hpx : Forall (fun '(r, g, b) => is_byte r /\ is_byte g /\ is_byte b)
                  pixels)
    by (repeat constructor; unfold is_byte; lia).
  destruct (X1_seg_colour_round_trip ids pixels Hids Hpx) as (Hback & _ & Hpix).
  exact (conj Hids (conj Hback Hpix)).
Defined.

(** X3 on the initial context: the first node's colour leads to its key. *)
Lemma X3_node_colour_to_key_witness :
  let k := RasterizerContext.KeyIdx 7 in
  tables_ok context0
  /\ exists c' colour i,
       rasterizer_context.create_node_seg k (Some 0%nat) context0
       = (c', Returned tt)
       /\ RasterizerContext.seg_node_map c' !! 0%nat = Some colour
       /\ rasterizer_context.seg_idxc_rgb_arr_to_idxc_arr [colour] = [i]
       /\ rasterizer_context.seg_idxc_to_key i c' = (c', Returned k).
Proof.
  intros k.
  assert (Hok : tables_ok context0) by apply init_tables_ok.
  split; [exact Hok|].
  apply (X3_node_colour_to_key context0 k 0%nat Hok).
  vm_compute. reflexivity.
Defined.

(** X4 at level "link": two geoms of one link share their colour. *)
Lemma X4_rigid_nodes_share_colour_witness :
  let g1 := geom_of 1 0 0 in
  let g2 := geom_of 2 0 0 in
  RasterizerContext.segmentation_level context0 = "link"
  /\ exists c2 colour,
       (rasterizer_context.add_rigid_node g1 (named_mesh "a") None ;;
        rasterizer_context.add_rigid_node g2 (named_mesh "b") None) context0
       = (c2, Returned tt)
       /\ RasterizerContext.seg_node_map c2 !! 0%nat = Some colour
       /\ RasterizerContext.seg_node_map c2 !! 1%nat = Some colour.
Proof.
  intros g1 g2.
  assert (Hlevel : RasterizerContext.segmentation_level context0 = "link")
    by reflexivity.
  split; [exact Hlevel|].
  destruct (X4_rigid_nodes_share_colour context0 g1 g2 (named_mesh "a")
              (named_mesh "b") None None (init_tables_ok _)
              (or_introl Hlevel) ltac:(vm_compute; discriminate))
    as (c2 & colour1 & colour2 & Hrun & _ & H1 & H2 & Hlink & _).
  exists c2, colour1. split; [exact Hrun|]. split; [exact H1|].
  rewrite (proj2 (Hlink Hlevel) (conj eq_refl eq_refl)). exact H2.
Defined.

(** X5 at level "geom". *)
Lemma X5_rigid_node_unsupported_level_witness :
  let c := rasterizer_context.__init__
             {| rasterizer_context.opt_segmentation_level := "geom";
                rasterizer_context.opt_render_particle_as := "sphere" |} in
  RasterizerContext.segmentation_level c <> "link"
  /\ exists c',
       rasterizer_context.add_rigid_node (geom_of 1 0 0) (named_mesh "a") None c
       = (c', Raised (AssertionError
                        "geom level segmentation not supported yet"))
       /\ RasterizerContext.rigid_nodes c' !! 1%nat = Some 0%nat.
Proof.
  intros c.
  assert (Hlink : RasterizerContext.segmentation_level c <> "link")
    by discriminate.
  assert (Hentity : RasterizerContext.segmentation_level c <> "entity")
    by discriminate.
  split; [exact Hlink|].
  destruct (X5_rigid_node_unsupported_level c (geom_of 1 0 0) (named_mesh "a")
              None Hlink Hentity) as (c' & Hrun & Hnodes & _).
  exists c'. split; [exact Hrun|].
  rewrite Hnodes. reflexivity.
Defined.

(** X6 on the initial context, for an entity shown by particles. *)
Lemma X6_dynamic_node_colour_stable_witness :
  tables_ok context0
  /\ exists c0 c1 c2 c3 i,
       rasterizer_context.add_dynamic_node (Some recon_entity) None None
         context0 = (c0, Returned tt)
       /\ rasterizer_context.add_dynamic_node (Some recon_entity)
            (Some (named_mesh "p")) None c0 = (c1, Returned tt)
       /\ RasterizerContext.seg_node_map c1 !! 0%nat
          = Some (rasterizer_context.seg_idxc_to_idxc_rgb i)
       /\ rasterizer_context.clear_dynamic_nodes c1 = (c2, Returned tt)
       /\ rasterizer_context.add_dynamic_node (Some recon_entity)
            (Some (named_mesh "q")) None c2 = (c3, Returned tt)
       /\ RasterizerContext.seg_node_map c3 !! 1%nat
          = Some (rasterizer_context.seg_idxc_to_idxc_rgb i).
Proof.
  assert (Hok : tables_ok context0) by apply init_tables_ok.
  split; [exact Hok|].
  destruct (X6_dynamic_node_colour_stable context0 recon_entity
              (named_mesh "p") (named_mesh "q") None None Hok)
    as (c0 & c1 & c2 & c3 & i & H0 & _ & _ & _ & H1 & Hc1 & H2 & _ & H3 & _
        & Hc3).
  exists c0, c1, c2, c3, i. repeat split; assumption.
Defined.

(** X8 on the initial context, under the name "probe". *)
Lemma X8_external_node_round_trip_witness :
  RasterizerContext.external_nodes context0 !! "probe" = None
  /\ exists c1 c2,
       rasterizer_context.add_external_node (named_mesh "probe") None context0
       = (c1, Returned tt)
       /\ rasterizer_context.clear_external_node (named_mesh "probe") c1
          = (c2, Returned tt)
       /\ RasterizerContext.external_nodes c2
          = RasterizerContext.external_nodes context0.
Proof.
  assert (Hfree : RasterizerContext.external_nodes context0 !! "probe" = None)
    by reflexivity.
  split; [exact Hfree|].
  destruct (X8_external_node_round_trip context0 (named_mesh "probe") None
              "probe" eq_refl ltac:(discriminate) Hfree)
    as (c1 & c2 & Hadd & _ & Hclear & Hnodes & _).
  exists c1, c2. repeat split; assumption.
Defined.

(** X9 for a line drawn on a built scene. *)
Lemma X9_debug_objects_removable_witness :
  let s := built 1 in
  _is_built s = true
  /\ exists s1 s2 object,
       scene.draw_debug_line "a" "b" 1%Q "red" "0000001" s
       = (s1, Returned object)
       /\ Pyrender.name object = Pyrender.Name "debug_line_0000001"
       /\ scene.clear_debug_object object s1 = (s2, Returned tt)
       /\ RasterizerContext.external_nodes (rasterizer_context.get_context s2)
          = RasterizerContext.external_nodes (rasterizer_context.get_context s).
Proof.
  intros s.
  assert (Hb : _is_built s = true) by (vm_compute; reflexivity).
  split; [exact Hb|].
  pose proof (proj1 X9_debug_objects_removable) as Hline.
  destruct (Hline "a" "b" 1%Q "red" s "0000001" Hb
              ltac:(vm_compute; reflexivity))
    as (s1 & s2 & object & pose & Hdraw & Hname & _ & Hclear & Hnodes & _).
  exists s1, s2, object. repeat split; assumption.
Defined.

(** X12 on a scene with two tools, one of them without a mesh. *)
Lemma X12_tool_nodes_witness :
  is_active (solver (_sim tool_scene) ToolSolver) = true
  /\ exists s1,
       rasterizer_context.on_tool tool_scene = (s1, Returned tt)
       /\ has_static_node s1 (tool_entity 1 true)
       /\ (rasterizer_context.update_tool s1).2 = Raised KeyError.
Proof.
  assert (Hactive : is_active (solver (_sim tool_scene) ToolSolver) = true)
    by reflexivity.
  split; [exact Hactive|].
  destruct (X12_tool_nodes tool_scene Hactive)
    as (s1 & Hrun & _ & Hnodes & _ & Hmissing).
  exists s1. split; [exact Hrun|]. split.
  - apply Hnodes. right. exists (tool_entity 1 true).
    split; [apply list_elem_of_here|]. split; reflexivity.
  - apply (Hmissing (tool_entity 2 false)).
    + apply list_elem_of_further, list_elem_of_here.
    + intros Hnode. apply Hnodes in Hnode.
      destruct Hnode as [[n Hn] | (e' & He' & Hmesh & Huid)].
      * vm_compute in Hn. discriminate Hn.
      * apply elem_of_cons in He'. destruct He' as [-> | He'].
        { discriminate Huid. }
        apply elem_of_cons in He'. destruct He' as [-> | He'].
        { discriminate Hmesh. }
        apply elem_of_nil in He'. exact He'.
Defined.

(** X14 on a scene with two links. *)
Lemma X14_link_frames_witness :
  RasterizerContext.link_frame_shown (rasterizer_context.get_context rigid_scene)
  = false
  /\ exists s1,
       rasterizer_context.on_link_frame rigid_scene = (s1, Returned tt)
       /\ RasterizerContext.link_frame_shown (rasterizer_context.get_context s1)
          = true
       /\ is_Some (RasterizerContext.link_frame_nodes
                     (rasterizer_context.get_context s1) !! 4%nat)
       /\ (rasterizer_context.update_link_frame s1).2 = Returned tt.
Proof.
  assert (Hoff : RasterizerContext.link_frame_shown
                   (rasterizer_context.get_context rigid_scene) = false)
    by reflexivity.
  split; [exact Hoff|].
  destruct (X14_link_frames rigid_scene Hoff)
    as (s1 & Hrun & _ & Hshown & Hnodes & _ & Hupdate & _).
  exists s1. split; [exact Hrun|]. split; [exact Hshown|].
  split; [|exact Hupdate].
  specialize (Hnodes eq_refl).
  apply Forall_cons in Hnodes. destruct Hnodes as [_ Hnodes].
  apply Forall_cons in Hnodes. destruct Hnodes as [Hnode _].
  exact Hnode.
Defined.

(** X15: the default rigid material is not shown as particles. *)
Lemma X15_add_entity_vis_mode_witness :
  _is_built (scene0 false) = false
  /\ rejected (scene0 false)
       (scene.add_entity box_morph None None false (Some "particle")
          (scene0 false)).
Proof.
  assert (Hb : _is_built (scene0 false) = false) by reflexivity.
  split; [exact Hb|].
  destruct (X15_add_entity_vis_mode (scene0 false) box_morph None None false
              (Some "particle") Hb) as (_ & _ & Hgroup).
  refine (proj1 (Hgroup "visual" ["visual"; "collision"; "sdf"]
                   eq_refl eq_refl) _).
  rewrite !elem_of_cons, elem_of_nil.
  intros [Heq | [Heq | [Heq | []]]]; discriminate Heq.
Defined.

(** X16 for a rigid box. *)
Lemma X16_add_entity_normalises_witness :
  _is_built (scene0 false) = false
  /\ exists morph' material' surface',
       scene.add_entity box_morph None None false None (scene0 false)
       = scene.on_sim (sim__add_entity morph' material' surface' false)
           (scene0 false)
       /\ smooth surface' = false
       /\ double_sided surface' = Some false
       /\ _sdf_max_res material' = 32.
Proof.
  assert (Hb : _is_built (scene0 false) = false) by reflexivity.
  split; [exact Hb|].
  destruct (X16_add_entity_normalises (scene0 false) box_morph None None false
              None Hb)
    as [[msg Hrej] | (morph' & material' & surface' & Hrun & _ & _ & Hsided
                      & Hsmooth & _ & Hres & _)].
  - vm_compute in Hrej. discriminate Hrej.
  - exists morph', material', surface'. split; [exact Hrun|].
    split; [exact (Hsmooth eq_refl)|].
    split; [exact (Hsided eq_refl)|].
    exact (Hres eq_refl eq_refl).
Defined.

(** X17 for an MPM liquid on a fresh scene. *)
Lemma X17_add_emitter_witness :
  let s := scene0 false in
  _is_built s = false /\ requires_grad (_sim s) = false
  /\ exists s1 emitter,
       scene.add_emitter liquid 100 None s = (s1, Returned emitter)
       /\ _emitters s1 = [emitter]
       /\ Emitter._next_particle emitter = 0.
Proof.
  intros s.
  assert (Hb : _is_built s = false) by reflexivity.
  assert (Hg : requires_grad (_sim s) = false) by reflexivity.
  split; [exact Hb|]. split; [exact Hg|].
  destruct (X17_add_emitter s liquid 100 None Hb Hg) as [_ Hsupported].
  destruct (Hsupported eq_refl) as [_ Hadded].
  destruct (scene.add_entity (gs_morphs_Nowhere 100) (Some liquid)
              (Some (default gs_surfaces_Default None)) false None s)
    as [s1 [entity | e]] eqn:Hentity.
  2: { vm_compute in Hentity. discriminate Hentity. }
  specialize (Hadded s1 entity eq_refl).
  eexists _, _. split; [exact Hadded|]. split; reflexivity.
Defined.

(** X18 on a fresh scene, built for two environments with a first step. *)
Lemma X18_build_witness :
  let s := scene0 false in
  _is_built s = false
  /\ exists s4,
       _is_built s4 = true /\ _t s4 = 0 /\ parallelized 2 s4
       /\ _init_state s4 = Some 0%nat
       /\ RasterizerContext._t (rasterizer_context.get_context s4) = Some (-1).
Proof.
  intros s.
  assert (Hb : _is_built s = false) by reflexivity.
  split; [exact Hb|].
  destruct (@X18_build numerics collaborators s 2 (PyTuple [1%Q; 1%Q]) None
              true true 1%Q 1%Q (sim0 false) (sim0 false) (sim0 false) 0%nat
              Hb eq_refl eq_refl eq_refl
              (ex_intro _ (sim0 false) (conj eq_refl eq_refl)))
    as (s4 & _ & Hbuilt & Ht & _ & _ & Hinit & _ & Hpar & Hmark & _).
  exists s4. repeat split; try assumption; apply Hpar.
Defined.

(** X19 for a spacing of one number. *)
Lemma X19_build_failures_witness :
  let s := scene0 false in
  _is_built s = false
  /\ exists s',
       scene.build 2 (PyTuple [1%Q]) None true true s
       = (s', Raised (GenesisException
                        "`env_spacing` should be a tuple of length 2."))
       /\ _is_built s' = false
       /\ _B s' = Some 2.
Proof.
  intros s.
  assert (Hb : _is_built s = false) by reflexivity.
  split; [exact Hb|].
  destruct (proj1 (X19_build_failures s 2 (PyTuple [1%Q]) None true Hb)
              true eq_refl)
    as (s' & Hrun & Hunbuilt & _ & HB & _).
  exists s'. repeat split; assumption.
Defined.

(** X20 on a freshly built scene. *)
Lemma X20_step_counts_witness :
  let s := built 1 in
  _is_built s = true /\ _forward_ready s = true
  /\ _t (scene.step true true s).1 = 1.
Proof.
  intros s.
  assert (Hb : _is_built s = true) by (vm_compute; reflexivity).
  assert (Hf : _forward_ready s = true) by (vm_compute; reflexivity).
  split; [exact Hb|]. split; [exact Hf|].
  destruct (X20_step_counts s true true Hb Hf) as [_ Hreturned].
  destruct (Hreturned (_sim s) eq_refl) as [Ht _].
  rewrite Ht. vm_compute. reflexivity.
Defined.

(** X21 on a scene two steps in, with a simulator that cannot step
    backwards. *)
Lemma X21_backward_failure_witness :
  let s := stepped (built 1) in
  let failure := ValueError "no gradient" in
  _backward_ready s = true
  /\ exists s',
       @scene._backward numerics no_gradient s = (s', Raised failure)
       /\ _backward_ready s' = true
       /\ _t s' = 2.
Proof.
  intros s failure.
  assert (Hr : _backward_ready s = true) by (vm_compute; reflexivity).
  split; [exact Hr|].
  set (s' := (@api.step_grad_times numerics no_gradient 2 s).1).
  assert (Hsteps : @api.step_grad_times numerics no_gradient
                     (Z.to_nat (_t s)) s = (s', Raised failure))
    by (vm_compute; reflexivity).
  destruct (@X21_backward_failure numerics no_gradient s s' failure Hr Hsteps)
    as (Hrun & Hready & _).
  exists s'. split; [exact Hrun|]. split; [exact Hready|].
  vm_compute. reflexivity.
Defined.

(** X22 on an empty disk. *)
Lemma X22_load_checkpoint_edges_witness :
  scene.load_checkpoint "none.pkl" empty_disk (built 1)
  = (built 1, Raised OSError).
Proof.
  apply (proj1 (X22_load_checkpoint_edges (built 1) "none.pkl" empty_disk)).
  reflexivity.
Defined.

(** X23 on a scene of two environments: -2 is the first and -1 is none;
    the NumPy scalar [int8(1)] is the second, and [int8(127)], the largest
    of its type, is none. *)
Lemma X23_sanitize_integer_witness :
  parallelized 2 (built 2)
  /\ scene._sanitize_envs_idx (SelInt (-2)) false (built 2)
     = (built 2, Returned (IntArray torch_int32
                             {| shape := [1%nat]; data := [0] |}))
  /\ scene._sanitize_envs_idx (SelInt (-1)) false (built 2)
     = (built 2, Returned (IntArray torch_int32
                             {| shape := [0%nat]; data := [] |}))
  /\ scene._sanitize_envs_idx (SelNpInt int8 1) false (built 2)
     = (built 2, Returned (IntArray torch_int32
                             {| shape := [1%nat]; data := [1] |}))
  /\ scene._sanitize_envs_idx (SelNpInt int8 127) false (built 2)
     = (built 2, Returned (IntArray torch_int32
                             {| shape := [0%nat]; data := [] |})).
Proof.
  assert (Hp : parallelized 2 (built 2)) by (vm_compute; repeat split).
  split; [exact Hp|].
  split.
  { exact (proj1 (X23_sanitize_integer (built 2) 2 (-2) false ltac:(lia) Hp)). }
  split.
  { exact (proj1 (X23_sanitize_integer (built 2) 2 (-1) false ltac:(lia) Hp)). }
  split.
  { refine (proj1 (proj2 (X23_sanitize_integer (built 2) 2 1 false
                            ltac:(lia) Hp)) int8 _).
    vm_compute. split; [discriminate | reflexivity]. }
  exact (proj1 (proj2 (proj2 (X23_sanitize_integer (built 2) 2 0 false
                                ltac:(lia) Hp))) int8).
Defined.

(** X24 for five environments: a grid of side three. *)
Lemma X24_default_grid_is_square_witness :
  5 < 2 ^ 52
  /\ exists r,
       n_envs_per_row
         (scene._parallelize 5 (PyTuple [1%Q; 1%Q]) None true (scene0 false)).1
       = Some r
       /\ (r - 1) * (r - 1) < 5 <= r * r.
Proof.
  assert (Hsmall : 5 < 2 ^ 52) by lia.
  split; [exact Hsmall|].
  destruct (X24_default_grid_is_square (scene0 false) 5 (PyTuple [1%Q; 1%Q])
              true Hsmall) as (r & Hrow & _ & Hside & _).
  exists r. split; [exact Hrow | exact Hside].
Defined.

End witnesses.
